(* ===== verification/_CoqProject ===== *)
-Q . S2P
Prelude.v
GoTime.v
KV.v
Core.v
CoreClone.v
Storage.v
Transfer.v
Float64.v
Channel.v
Worker.v
Coordinator.v
CoordinatorFacts.v
CoordinatorState.v
StateManager.v
StateManagerFacts.v
Actions.v
ActionsFacts.v
StateManagerVM.v
Assertions.v
TimeServer.v
Verifier.v
RegionModel.v
RangeState.v
Database.v
StateStores.v
XRegion.v
CrossRegion.v
CrossRegionWire.v
VMRegistry.v
RegionConfig.v
Balancer.v
RegionManager.v
Background.v
RegionStateStore.v
RegionManagerFacts.v
PairManager.v
CodeValidator.v
VMExecution.v
RFC3339.v
TimeServing.v
TEE.v
TEEFacts.v
Compute.v
ComputeFacts.v
Platform.v
MerkleStorage.v
WorkerRecords.v
VMCore.v
VMCoreFacts.v
VMApi.v
VMApiFacts.v
Monitoring.v
RPCClient.v
Keys.v
ChainClient.v
Faucet.v
CLI.v
CLIInit.v
Genesis.v
