(* ===== verification/Prelude.v ===== *)
(** * A verification development of the Aristo VM

    Aristo (module [github.com/rhombus-tech/vm]) is a hypersdk virtual machine
    whose objects run in pairs of trusted execution environments (an SGX and an
    SEV enclave), grouped in regions.  This library models the parts of it that
    decide what the state is and who may change it, as executable definitions
    translated from the Go source under [src/], and proves what they do.

    ** The program and the files that model it

    - Packages [core] and [interfaces] hold the data the others exchange: objects,
      events, attestations, enclave records, regional keys.  [Core.v] has their
      records and validators ([core/state_types.go], [core/tee_types.go],
      [core/regional_helpers.go]); [CoreClone.v] their clones over a memory of shared
      slices; [Platform.v] the platforms and default configurations of [core],
      [compute] and [tee], the connector's check of platforms, temporary files and
      the validator program.
    - Package [storage] keeps the state.  [Storage.v] is [storage/storage.go]:
      the key formats, balances, coordination state, objects, events, regions
      over a [state.Mutable].  [StateManager.v] is [storage/state_manager.go],
      [region_store.go] and [iterator.go]: the state manager that routes keys to
      the backing store or to the Merkle store of a region, and
      [StateManagerFacts.v] has its properties.  [Database.v] has the wrappers around
      a database and its batches ([wrapper.go] and the end of [state_manager.go]),
      [StateStores.v] the adapters of regional stores and region proofs.
    - Package [actions] is what a transaction does.  [Transfer.v] is
      [actions/transfer.go]; [Actions.v] is [shuttle.go], [region.go] and
      [enclave.go] with their wire format, written against the state manager
      interface; [ActionsFacts.v] states that interface's contract and what the
      actions do under it; [StateManagerVM.v] shows that the methods of the state manager
      of package [storage] satisfy the contract, and [Assertions.v] that this state
      manager, as a Go type, fails the type assertion the actions start with.
    - Package [coordination] runs tasks on the workers of a region.  [Channel.v]
      is [channel.go], [storage_wrapper.go] and the storage adapter of
      [storage/wrapper.go]; [Worker.v] is [worker.go]; [Coordinator.v] is
      [coordinator.go] with [config.go] and the types; [CoordinatorFacts.v] has
      the properties; [CoordinatorState.v] has start-up, metrics, resource usage and
      the saved state.
    - Package [coordination/state] serves range proofs and tracks access to a
      shared state: [RangeState.v] is [cache.go], [range_proof.go], [types.go] and
      [manager.go].  Package [coordination/xregion] has the cross-region intents,
      their coordinator and the processor that confirms them with several regions
      at once: [XRegion.v] is [types.go] and [coordinator.go].  The action that
      applies an intent, [actions/cross_region.go], is [CrossRegion.v], its wire
      format [CrossRegionWire.v].
    - Package [timeserver] produces timestamps signed by a quorum: [TimeServer.v]
      is [server.go] and [network.go]; [TimeServing.v] is the HTTP endpoint of a
      server, with its base64 nonces, and the rounds of the health loop.
    - Package [verifier] checks single actions and batches: [Verifier.v] is
      [verifier.go] and [batch.go].
    - [RegionModel.v] is the VM's region record, [region.go].
    - Package [regions] configures regions and balances their load.
      [RegionConfig.v] has its records and validators and the metrics of a pair
      ([types.go], the first half of [config.go]); [Balancer.v] is [balancer.go];
      [RegionManager.v] is [manager.go], the manager half of [config.go],
      [health.go] and [monitor.go], written against the storage interface of the
      package, with the properties in [RegionManagerFacts.v];
      [RegionStateStore.v] is [storage/region_state_store.go], which implements
      that interface; [PairManager.v] is [pair_manager.go]; [Background.v] has the
      ticker loops of the package and of the coordinator.
    - Package [vm] runs the actions.  [CodeValidator.v] is
      [vm/code_validator.go], the header and format checks of enclave code;
      [VMExecution.v] is [vm/execution.go], the regional executor.  [VMCore.v] is
      the VM object of [vm/core.go] and [vm/vm.go] over the components above:
      transaction validation, execution in a region, the health monitor and the
      set-up of regions, with the properties in [VMCoreFacts.v].  [VMApi.v] is its
      outward side: the constructor, the queries, the HTTP endpoints, both JSON-RPC
      servers ([vm/server.go], [api/jsonrpc/server.go], against the [Backend]
      interface) and the enclave clients ([vm/tee_client.go], [vm/config.go]), with
      the properties in [VMApiFacts.v].  [Monitoring.v] has the three loops the VM starts
      and its life: their ticks, its requests and the users of its region manager, in
      any order.  [VMRegistry.v] has the type ids of actions
      and results, their registration at start-up and the consensus callbacks;
      [RPCClient.v] the JSON-RPC clients of [api/jsonrpc] and [vm], alone and against
      the servers.
    - Packages [tee] and [rustconnector] run requests in the enclaves.  [TEE.v] is
      [tee/types.go], [executor.go], [bridge.go], [client.go] and
      [rustconnector.go], with the validator and the bridge proofs of package [vm]
      ([vm/tee_validator.go], [vm/bridge.go]); [TEEFacts.v] has the properties.
    - Package [compute] is the node that serves such requests and its client:
      [Compute.v] is [service.go] and [client.go], over the coordinator of
      [Coordinator.v] and the bridge of [TEE.v]; [ComputeFacts.v] has the properties.
    - [MerkleStorage.v] is [coordination/storage.go], the coordination records over a
      Merkle database; [WorkerRecords.v] how a stored worker is loaded.
    - Around the VM: [Keys.v] is [auth/keys.go] and [throughput/helper.go];
      [ChainClient.v] the websocket session the tools wait on; [Faucet.v] is
      [cmd/faucet]; [CLI.v] has the commands of [cmd/morpheus-cli], [CLIInit.v] the
      set-up of their flags, [Genesis.v] the command that writes a genesis file.
    - [GoTime.v], [RFC3339.v] (parsing of times), [Float64.v] and [KV.v] model what the source uses of Go's
      [time] and [float64] and state the interfaces of the code outside the
      repository (key-value stores, [encoding/json]).  This file has the shared
      base: Go errors, the state and error monad, strings, machine integers.

    ** How the model corresponds to the code

    A Go method on a mutable receiver is a [go S A]: it takes the state, returns
    the state and an outcome, which is a value, an error, a panic, or a block for
    ever ([Ok], [Err], [Panic], [Hang]).  The state is threaded through errors, so
    writes made before an error are kept.  Errors are values: arguments interpolated in
    a message are left out where nothing reads them, and a package's sentinel
    is named by package and variable, so that the "not found" of one package is
    not that of another.  Byte slices and strings are Rocq [string]s; [uint64],
    [int64] and [int32] are [Z] with their wrap-around written out; times are
    nanoseconds with a zone offset; [float64] is IEEE binary64.  Go maps are
    [gmap]s; where the order of a range over a map matters it is a parameter
    ([MapRange], or a list argument).  Slices whose nil-ness or capacity the code
    observes are [slice]s.  A nil map is [None] of [gomap].  Objects shared by pointer (secure channels,
    tasks) live in a heap or table and are referred to by address.  Mutexes of
    the coordinator are part of its state, since locking one twice blocks; other
    mutexes are taken once per call and not modelled.  Clocks, random bytes and
    the choice of a [select] with several ready cases are parameters.

    Third-party code is a parameter with the laws the program relies on: stores
    ([Mutable]/[KVLaws], [BaseStore]/[BaseStoreLaws], [MerkleDB], [MerkleViews],
    [RangeViews], [StateStore]), JSON ([Json]/[JsonLaws]; [encoding/json] replaces bytes
    that are not UTF-8 and refuses times out of the years 0 to 9999, so what is written
    is read back only for the values that are [Encodable], and the refusals are not
    modelled: [Marshal] gives some text), the typed records of the region manager
    ([RegionStorage]/[RegionStorageLaws]) and JSON of records with floats
    ([FJson]/[FJsonLaws]), the coordinator and storage of the pair manager
    ([PairCoordinator], [PairStorage]), gRPC ([Grpc]), the operating system and the Rust
    controller ([Host]), Go's number formatting ([FmtV]), address printing and checked
    addition ([ChainLib]), the codec ([Packer], [WirePacker]; a limit on bytes that is
    not negative is applied, also when it is zero), signatures ([Ed25519]), databases
    and batches ([Database], [Batches]), the parsers of transactions and the ids of
    signature kinds ([TypeParser], [AuthIDs]), private keys ([Crypto]), JSON-RPC
    requests and the servers behind them ([Requester], [Served], [ServedByVM]),
    hypersdk's chain and websocket API ([ChainAPI]), amounts and the rate limiter
    ([CoinLib], [Limiter]), the command line libraries ([CliLib], [Cobra]) and the
    genesis ([GenesisLib]). Each class of laws has an instance, used by the witnesses.

    ** What the theorems show

    - Ledger: a transfer moves exactly its value, succeeds when it should and
      touches only the keys it declares; the sponsor's [AddBalance] and [Deduct]
      against the ledger, including the full deduction that leaves the balance.
    - State: objects, events and coordination records read back as written, keys
      of different regions and kinds are distinct, and the methods of the state manager
      refine the contract the actions use.
    - Actions: when an object is created or an event accepted and exactly what
      changes; which actions cannot succeed, and why; that none runs on the state manager
      of package [storage], whatever the contract says of its methods.
    - Cross-region: what a successful action did and when it succeeds, the keys it
      writes, its validation, its wire format, which is written and never read back;
      every interleaving of the region processor; range proofs over the life of a store;
      the initialisation that keeps the action from ever succeeding.
    - Coordinator: over every interleaving of its operations the task table and
      queue stay bounded and well formed (rule induction on [step]); pair
      selection and load counts; channels; the operations that block, panic or
      never deliver.
    - Time: a verified timestamp is backed by a quorum, a minority of wrong clocks
      cannot move it out of the range of the correct ones, and honest servers
      reach a quorum.
    - Regions: the balancer's choices are optimal among the usable pairs and the
      eligible regions in any map order; the counters and status of a pair after any
      history; what the configuration validator decides; the region state store
      refines the storage contract of the manager; what configuration and state
      updates change; the invariant of the pair manager; the lock that is never
      released and the health that is never found.
    - VM: the code validator decides exactly the headed blobs an enclave can run,
      its header is read back as written, and the regional executor agrees with the
      action it executes; what the VM checks of attestations, what a result of an
      execution in a region certifies, which clients the VM has after construction
      and set-up; the events that validate and never execute, the execution that
      never finds its region's health, and the set-up that fails.
    - Enclaves: what an execution in two enclaves certifies and when it succeeds,
      what the clients and the validator check of remote answers, and messages that
      read back as sent.
    - Compute node: the slots of a node over every interleaving of requests, when it
      executes a request, and the bound on the requests it can ever answer.
    - Merkle storage: what it shows after any sequence of operations; what of a worker
      survives storing and loading it.
    - Verifier: what a verified batch guarantees and which batches are refused.
    - Values and databases: an object's clone shares nothing with it; a batch does to
      the database what its operations would, and the wrapped database is the mutable
      state the state layer is proved against.
    - Time endpoint: what a server answers over HTTP verifies with its key at exactly
      the time it signed.
    - Monitoring: no interleaving of the ticks of the loops changes a configuration or a
      lock of the region manager or the state of the VM; over the life of a VM no pair is
      ever reported healthy, and so nothing is executed in a region.
    - Registration and clients: which actions can be parsed after start-up, and which
      calls of the clients their own servers refuse.
    - Tools: the bound the faucet's limiter puts on an address, when it can never serve,
      the eight commands on actions that never send anything, the flags that keep the tool from
      starting, keys that load back, and the genesis file that parses back.

    Loops over lists are structural.  A run of the region processor over [n] regions
    has at most [3 n + 3] steps, which its theorem proves.  [drain] (the iterator loop) takes a bound on
    the number of turns, and its theorem holds for every bound above the number of
    entries.

    ** What is not modelled

    Opening the databases, the generated protobuf code and the transport of the gRPC and
    HTTP servers are input/output around this core.  The chain, spam and prometheus
    commands hand their work to hypersdk ([spam run] with a client of its own, which can
    send transactions); the mains of the VM and of the compute node, and
    the compute command, call constructors with arguments they do not take, so they have
    no meaning to model.  Fixed texts (the faucet's documentation page), log lines, the
    required-flag marks and the hooks of the command line are left out.
    [tee/time_verification.go] repeats the verifier of [timeserver/types.go], which is
    modelled.  Merkle proofs are opaque, and goroutines are modelled by their critical
    sections, and monitoring loops by their ticks, not by the scheduling inside one; a tick
    that panics ends the program. *)

From Stdlib Require Import ZArith Lia Ascii String.
From stdpp Require Import base tactics option list strings pretty gmap.

(** * Automation *)

Create HintDb go_db discriminated.

Declare Scope go_scope.
Delimit Scope go_scope with go.

(** * Go errors

    A package-level [errors.New] value is identified by the package and the
    variable that hold it (two packages' "not found" values are different
    errors); [fmt.Errorf] makes a fresh error, which wraps another one when its
    format has a [%w]. *)

Inductive goerr : Type :=
  | Sentinel (pkg name : string)
  | Errorf (msg : string)
  | Wrapf (msg : string) (inner : goerr).

#[export] Instance goerr_eq_dec : EqDecision goerr.
Proof. solve_decision. Defined.

(** [errors.Is]: the error itself or one it wraps is the target. *)
Fixpoint errors_Is (e target : goerr) : bool :=
  bool_decide (e = target) ||
  match e with
  | Wrapf _ inner => errors_Is inner target
  | _ => false
  end.

(** [database.ErrNotFound] of avalanchego, what every key-value store of the
    program returns for an absent key. *)
Definition ErrNotFound : goerr := Sentinel "database" "ErrNotFound".

(** * Outcomes of Go code *)

(** What a call does: return a value with a nil error, return an error, panic,
    or block for ever (a mutex locked twice by the same goroutine, a channel
    nobody reads). *)
Inductive outcome (A : Type) : Type :=
  | Ok (a : A)
  | Err (e : goerr)
  | Panic (why : string)
  | Hang (why : string).
Arguments Ok {_} _.
Arguments Err {_} _.
Arguments Panic {_} _.
Arguments Hang {_} _.

Definition is_ok {A} (o : outcome A) : bool :=
  match o with Ok _ => true | _ => false end.

Definition is_err {A} (o : outcome A) : bool :=
  match o with Err _ => true | _ => false end.

#[export] Instance outcome_ret : MRet outcome := λ _ a, Ok a.
#[export] Instance outcome_bind : MBind outcome := λ _ _ f o,
  match o with
  | Ok a => f a
  | Err e => Err e
  | Panic w => Panic w
  | Hang w => Hang w
  end.

(** A stateful Go call: the state is threaded through errors and panics too,
    so the writes made before an error stay visible. *)
Definition go (S A : Type) : Type := S → S * outcome A.

#[export] Instance go_ret {S} : MRet (go S) := λ _ a s, (s, Ok a).
#[export] Instance go_bind {S} : MBind (go S) := λ _ _ f m s,
  match m s with
  | (s', Ok a) => f a s'
  | (s', Err e) => (s', Err e)
  | (s', Panic w) => (s', Panic w)
  | (s', Hang w) => (s', Hang w)
  end.

Definition fail {S A} (e : goerr) : go S A := λ s, (s, Err e).
Definition gopanic {S A} (w : string) : go S A := λ s, (s, Panic w).
Definition gohang {S A} (w : string) : go S A := λ s, (s, Hang w).
Definition gets {S A} (f : S → A) : go S A := λ s, (s, Ok (f s)).
Definition modify {S} (f : S → S) : go S unit := λ s, (f s, Ok tt).

(** [if cond { return err }]. *)
Definition fail_if {S} (b : bool) (e : goerr) : go S unit :=
  if b then fail e else mret tt.

(** [v, err := call()]: the error as a value, for the callers that inspect it. *)
Definition try {S A} (m : go S A) : go S (A + goerr) := λ s,
  match m s with
  | (s', Ok a) => (s', Ok (inl a))
  | (s', Err e) => (s', Ok (inr e))
  | (s', Panic w) => (s', Panic w)
  | (s', Hang w) => (s', Hang w)
  end.

(** [if err != nil { return fmt.Errorf("...: %w", err) }]. *)
Definition wrap {S A} (msg : string) (m : go S A) : go S A := λ s,
  match m s with
  | (s', Err e) => (s', Err (Wrapf msg e))
  | r => r
  end.

Definition lift {S A} (o : outcome A) : go S A := λ s, (s, o).

(** A call on one component of a larger state. *)
Definition zoom {S T A} (view : T → S) (put : S → T → T) (m : go S A) : go T A := λ t,
  let '(s', o) := m (view t) in (put s' t, o).

(** A [for _, x := range xs] loop whose body may return early with an error. *)
Fixpoint for_each {S A} (f : A → go S unit) (xs : list A) : go S unit :=
  match xs with
  | [] => mret tt
  | x :: xs' => f x ;; for_each f xs'
  end.

Lemma bind_ok {S A B} (m : go S A) (f : A → go S B) s s' a :
  m s = (s', Ok a) → (m ≫= f) s = f a s'.
Proof. unfold mbind, go_bind. by intros ->. Qed.

Lemma bind_err {S A B} (m : go S A) (f : A → go S B) s s' e :
  m s = (s', Err e) → (m ≫= f) s = (s', Err e).
Proof. unfold mbind, go_bind. by intros ->. Qed.

(** Inversion of a successful sequence: both calls succeeded. *)
Lemma bind_ok_inv {S A B} (m : go S A) (f : A → go S B) s s' b :
  (m ≫= f) s = (s', Ok b) → ∃ a s1, m s = (s1, Ok a) ∧ f a s1 = (s', Ok b).
Proof.
  unfold mbind, go_bind. destruct (m s) as [s1 [a| | |]] eqn:E; naive_solver.
Qed.

Lemma fail_if_ok_inv {S} b e (s s' : S) :
  fail_if b e s = (s', Ok tt) → b = false ∧ s' = s.
Proof. destruct b; cbv; naive_solver. Qed.

Lemma wrap_ok_inv {S A} msg (m : go S A) s s' a :
  wrap msg m s = (s', Ok a) → m s = (s', Ok a).
Proof. unfold wrap. destruct (m s) as [s1 [| | |]]; naive_solver. Qed.

Lemma zoom_ok_inv {S T A} (view : T → S) put (m : go S A) t t' a :
  zoom view put m t = (t', Ok a) → ∃ s', m (view t) = (s', Ok a) ∧ t' = put s' t.
Proof. unfold zoom. destruct (m (view t)) as [s' o]. intros [= <- ->]. eauto. Qed.

Lemma lift_ok_inv {S A} (o : outcome A) (s s' : S) a : lift o s = (s', Ok a) → s' = s ∧ o = Ok a.
Proof. by intros [= <- ->]. Qed.

Lemma for_each_ok_invariant {S A} (P : S → Prop) (f : A → go S unit) xs s s' :
  (∀ x s1 s2, f x s1 = (s2, Ok tt) → P s1 → P s2) →
  for_each f xs s = (s', Ok tt) → P s → P s'.
Proof.
  intros Hf. revert s. induction xs as [|x xs IH]; intros s H HP; simpl in H.
  - by injection H as <-.
  - apply bind_ok_inv in H as ([] & s1 & H1 & H2). eauto.
Qed.

(** A loop that ends without error ran its body without error on every element. *)
Lemma for_each_ok_each {S A} (f : A → go S unit) xs s s' x :
  for_each f xs s = (s', Ok tt) → x ∈ xs → ∃ s1 s2, f x s1 = (s2, Ok tt).
Proof.
  revert s. induction xs as [|y xs IH]; intros s H Hx; simpl in H; [by apply not_elem_of_nil in Hx|].
  apply bind_ok_inv in H as ([] & s1 & H1 & H2). apply elem_of_cons in Hx as [->|Hx]; eauto.
Qed.

(** The same with an invariant: every body ran from a state that satisfies it. *)
Lemma for_each_ok_inv {S A} (P : S → Prop) (f : A → go S unit) xs s s' :
  (∀ x s1 s2, x ∈ xs → f x s1 = (s2, Ok tt) → P s1 → P s2) →
  for_each f xs s = (s', Ok tt) → P s →
  P s' ∧ ∀ x, x ∈ xs → ∃ s1 s2, P s1 ∧ f x s1 = (s2, Ok tt).
Proof.
  revert s. induction xs as [|y xs IH]; intros s Hf H HP; simpl in H.
  - injection H as <-. split; [done|]. intros x Hx. by apply not_elem_of_nil in Hx.
  - apply bind_ok_inv in H as ([] & s1 & H1 & H2).
    assert (P s1) as HP1 by (eapply Hf; [left|done..]).
    destruct (IH s1) as [HP' Hall]; [intros; eapply Hf; [by right|done..]|done|done|].
    split; [done|]. intros x Hx. apply elem_of_cons in Hx as [->|Hx]; eauto.
Qed.

(** A loop whose bodies all pass and change nothing. *)
Lemma for_each_pass {S A} (f : A → go S unit) xs s :
  (∀ x, x ∈ xs → f x s = (s, Ok tt)) → for_each f xs s = (s, Ok tt).
Proof.
  induction xs as [|x xs IH]; intros H; simpl; [done|].
  rewrite (bind_ok _ _ _ _ _ (H x ltac:(left))). apply IH. intros y Hy. apply H. by right.
Qed.

(** ** Calls that respect a relation between the states before and after

    [preserves R m]: whatever the outcome of [m], its state is related to the
    one it started in.  For a preorder [R] it follows from the calls [m] is made
    of. *)
Definition preserves {S A} (R : relation S) (m : go S A) : Prop := ∀ s, R s (m s).1.

Section preserves.
Context {S : Type} (R : relation S) `{!PreOrder R}.

Lemma preserves_ret {A} (a : A) : preserves R (mret a).
Proof. intros s. reflexivity. Qed.
Lemma preserves_fail {A} e : preserves (A := A) R (fail e).
Proof. intros s. reflexivity. Qed.
Lemma preserves_gopanic {A} w : preserves (A := A) R (gopanic w).
Proof. intros s. reflexivity. Qed.
Lemma preserves_gohang {A} w : preserves (A := A) R (gohang w).
Proof. intros s. reflexivity. Qed.
Lemma preserves_gets {A} (f : S → A) : preserves R (gets f).
Proof. intros s. reflexivity. Qed.
Lemma preserves_lift {A} (o : outcome A) : preserves R (lift o).
Proof. intros s. reflexivity. Qed.
Lemma preserves_fail_if b e : preserves R (fail_if b e).
Proof. destruct b; [apply preserves_fail|apply preserves_ret]. Qed.

Lemma preserves_bind {A B} (m : go S A) (f : A → go S B) :
  preserves R m → (∀ a, preserves R (f a)) → preserves R (m ≫= f).
Proof.
  intros Hm Hf s. specialize (Hm s). unfold mbind, go_bind.
  destruct (m s) as [s1 [a| | |]]; simpl in *; try done. etrans; [done|apply Hf].
Qed.

Lemma preserves_try {A} (m : go S A) : preserves R m → preserves R (try m).
Proof using Type. intros H s. specialize (H s). unfold try. by destruct (m s) as [? [| | |]]. Qed.

Lemma preserves_wrap {A} msg (m : go S A) : preserves R m → preserves R (wrap msg m).
Proof using Type. intros H s. specialize (H s). unfold wrap. by destruct (m s) as [? [| | |]]. Qed.

Lemma preserves_modify f : (∀ s, R s (f s)) → preserves R (modify f).
Proof using Type. intros H s. apply H. Qed.

Lemma preserves_for_each {A} (f : A → go S unit) xs :
  (∀ x, preserves R (f x)) → preserves R (for_each f xs).
Proof.
  intros H. induction xs as [|x xs IH]; simpl; [apply preserves_ret|]. by apply preserves_bind.
Qed.

Lemma preserves_for_each_mem {A} (f : A → go S unit) xs :
  (∀ x, x ∈ xs → preserves R (f x)) → preserves R (for_each f xs).
Proof.
  intros H. induction xs as [|x xs IH]; simpl; [apply preserves_ret|].
  apply preserves_bind; [apply H; left|]. intros _. apply IH. intros y Hy. apply H. by right.
Qed.

Lemma preserves_lift_bind {A B} (o : outcome A) (f : A → go S B) :
  (∀ a, o = Ok a → preserves R (f a)) → preserves R (lift o ≫= f).
Proof. intros H s. unfold mbind, go_bind, lift. destruct o; [by apply H|reflexivity..]. Qed.
End preserves.

Create HintDb pres_db discriminated.
#[export] Hint Resolve preserves_ret preserves_fail preserves_gopanic preserves_gohang preserves_gets
  preserves_lift preserves_fail_if : pres_db.
#[export] Hint Constants Opaque : pres_db.

(** Decomposes a handler into its calls; [modify]s are left to [tac]. *)
Ltac solve_preserves tac :=
  repeat first
    [ progress intros
    | solve [eauto 2 with pres_db typeclass_instances]
    | apply preserves_bind; [apply _|..]
    | apply preserves_try | apply preserves_wrap
    | apply preserves_for_each; [apply _|]
    | match goal with |- preserves _ (match ?x with _ => _ end) => destruct x end
    | (apply preserves_modify; intros; tac) ].

(** ** Calls that keep an invariant

    [maintains I m Q]: from a state that satisfies [I], [m] ends in one that does,
    whatever its outcome, and a value it returns satisfies [Q]. *)
Definition maintains {S A} (I : S → Prop) (m : go S A) (Q : A → Prop) : Prop :=
  ∀ s, I s → I (m s).1 ∧ ∀ a, (m s).2 = Ok a → Q a.

Section maintains.
Context {S : Type} (I : S → Prop).

Lemma maintains_ret {A} (a : A) (Q : A → Prop) : Q a → maintains I (mret a) Q.
Proof. intros H s Hs. split; [done|]. by intros ? [= <-]. Qed.
Lemma maintains_fail {A} e (Q : A → Prop) : maintains I (fail e) Q.
Proof. by intros s Hs. Qed.
Lemma maintains_gopanic {A} w (Q : A → Prop) : maintains I (gopanic w) Q.
Proof. by intros s Hs. Qed.
Lemma maintains_gohang {A} w (Q : A → Prop) : maintains I (gohang w) Q.
Proof. by intros s Hs. Qed.
Lemma maintains_gets {A} (f : S → A) (Q : A → Prop) : (∀ s, I s → Q (f s)) → maintains I (gets f) Q.
Proof. intros H s Hs. split; [done|]. intros ? [= <-]. auto. Qed.
Lemma maintains_lift {A} (o : outcome A) (Q : A → Prop) : (∀ a, o = Ok a → Q a) → maintains I (lift o) Q.
Proof. intros H s Hs. split; [done|]. simpl. auto. Qed.
Lemma maintains_fail_if b e : maintains I (fail_if b e) (λ _, b = false).
Proof. destruct b; [apply maintains_fail|by apply maintains_ret]. Qed.
Lemma maintains_modify f (Q : unit → Prop) : (∀ s, I s → I (f s)) → Q tt → maintains I (modify f) Q.
Proof. intros H HQ s Hs. split; [by apply H|]. by intros []. Qed.

Lemma maintains_weaken {A} (m : go S A) (Q Q' : A → Prop) : maintains I m Q → (∀ a, Q a → Q' a) → maintains I m Q'.
Proof. intros H HQ s Hs. destruct (H s Hs) as [? ?]. split; [done|]. auto. Qed.

Lemma maintains_bind {A B} (m : go S A) (f : A → go S B) Q Q' :
  maintains I m Q → (∀ a, Q a → maintains I (f a) Q') → maintains I (m ≫= f) Q'.
Proof.
  intros Hm Hf s Hs. destruct (Hm s Hs) as [H1 H2]. unfold mbind, go_bind.
  destruct (m s) as [s1 [a| | |]]; simpl in *; [|done..]. by apply Hf; [apply H2|].
Qed.

Lemma maintains_try {A} (m : go S A) (Q : A → Prop) :
  maintains I m Q → maintains I (try m) (λ r, match r with inl a => Q a | inr _ => True end).
Proof.
  intros H s Hs. destruct (H s Hs) as [H1 H2]. unfold try.
  destruct (m s) as [s1 [a| | |]]; simpl in *; split; try done; intros ? [= <-]; auto.
Qed.

Lemma maintains_wrap {A} msg (m : go S A) (Q : A → Prop) : maintains I m Q → maintains I (wrap msg m) Q.
Proof.
  intros H s Hs. destruct (H s Hs) as [H1 H2]. unfold wrap.
  destruct (m s) as [s1 [a| | |]]; simpl in *; split; try done; auto.
Qed.

Lemma maintains_for_each {A} (f : A → go S unit) xs (P : A → Prop) :
  (∀ x, P x → maintains I (f x) (λ _, True)) → Forall P xs → maintains I (for_each f xs) (λ _, True).
Proof.
  intros Hf. induction 1 as [|x xs Hx _ IH]; simpl; [by apply maintains_ret|].
  eapply maintains_bind; [by apply Hf|]. auto.
Qed.
End maintains.

(** Unfolds the monad and the guards of a handler. *)
Ltac go_unfold :=
  unfold fail_if, try, wrap, zoom in *;
  unfold mbind, go_bind, mret, go_ret, fail, gopanic, gohang, gets, modify, lift in *;
  cbv zeta in *; cbn [fst snd] in *.

(** Case analysis on the tests and calls a Go body branches on. *)
Ltac go_case :=
  match goal with
  | |- context [match ?x with _ => _ end] => destruct x eqn:?
  | H : context [match ?x with _ => _ end] |- _ => destruct x eqn:?
  end.

Ltac go_cases := repeat (go_case; simplify_eq/=; try done).

(** Inverts a successful run of a handler into its successful calls. *)
Ltac go_inv_step :=
  match goal with
  | H : (_ ≫= _) _ = (_, Ok _) |- _ => apply bind_ok_inv in H as (? & ? & ? & ?)
  | H : fail_if _ _ _ = (_, Ok _) |- _ =>
      apply fail_if_ok_inv in H as [? ?]
  | H : wrap _ _ _ = (_, Ok _) |- _ => apply wrap_ok_inv in H
  | H : mret _ _ = (_, Ok _) |- _ => injection H as ?
  | H : fail _ _ = (_, Ok _) |- _ => discriminate H
  | H : gopanic _ _ = (_, Ok _) |- _ => discriminate H
  | u : unit |- _ => destruct u
  end.
Ltac go_inv := repeat (go_inv_step; simplify_eq).

(** * Go strings and byte slices

    Both are byte sequences here: a Rocq [string] is a list of 8-bit
    characters, and the conversions between [string] and [[]byte] are the
    identity.  [len] is a [Z], as the sizes compared against are large. *)

Definition slen (s : string) : Z := Z.of_nat (String.length s).

#[export] Hint Unfold slen : go_db.

#[global] Arguments String.append !_ _ : simpl nomatch.

Notation "a +s+ b" := (String.append a b) (at level 60, right associativity) : go_scope.
Open Scope go_scope.

(** Does the byte occur in the string? *)
Fixpoint contains (c : ascii) (s : string) : bool :=
  match s with
  | EmptyString => false
  | String a s' => bool_decide (a = c) || contains c s'
  end.

(** [strings.ContainsAny]. *)
Fixpoint ContainsAny (s chars : string) : bool :=
  match chars with
  | EmptyString => false
  | String c chars' => contains c s || ContainsAny s chars'
  end.

(** The first occurrence of the separator: what is before and after it. *)
Fixpoint cut (c : ascii) (s : string) : option (string * string) :=
  match s with
  | EmptyString => None
  | String a s' =>
      if bool_decide (a = c) then Some (EmptyString, s')
      else match cut c s' with
           | Some (l, r) => Some (String a l, r)
           | None => None
           end
  end.

(** [bytes.Split] with a one-byte separator. *)
Fixpoint Split (c : ascii) (s : string) : list string :=
  match s with
  | EmptyString => [EmptyString]
  | String a s' =>
      if bool_decide (a = c) then EmptyString :: Split c s'
      else match Split c s' with
           | h :: t => String a h :: t
           | [] => [String a EmptyString]
           end
  end.

(** [bytes.SplitN] with a one-byte separator and a positive count. *)
Fixpoint SplitN (c : ascii) (s : string) (n : nat) : list string :=
  match n with
  | O => []
  | S O => [s]
  | S n' => match cut c s with
            | Some (l, r) => l :: SplitN c r n'
            | None => [s]
            end
  end.

(** [bytes.HasPrefix(s, p)]. *)
Definition HasPrefix (s p : string) : bool := String.prefix p s.

(** [s[n:]] of a string at least that long. *)
Definition drop_str (n : nat) (s : string) : string := substring n (String.length s - n) s.

Definition slash : ascii := "/"%char.

Lemma app_nil_r_str (s : string) : s +s+ "" = s.
Proof. induction s as [|a s IH]; simpl; congruence. Qed.

Lemma app_assoc_str (a b c : string) : (a +s+ b) +s+ c = a +s+ b +s+ c.
Proof. induction a as [|x a IH]; simpl; congruence. Qed.

Lemma length_app_str (a b : string) :
  String.length (a +s+ b) = String.length a + String.length b.
Proof. induction a as [|x a IH]; simpl; congruence. Qed.

Lemma slen_app (a b : string) : slen (a +s+ b) = (slen a + slen b)%Z.
Proof. unfold slen. rewrite length_app_str. lia. Qed.

Lemma slen_nonneg (s : string) : (0 ≤ slen s)%Z.
Proof. unfold slen. lia. Qed.

Lemma app_inj_l_str (a b c : string) : a +s+ b = a +s+ c → b = c.
Proof. induction a as [|x a IH]; simpl; naive_solver. Qed.

Lemma app_inj_length_str (a a' b b' : string) :
  String.length a = String.length a' → a +s+ b = a' +s+ b' → a = a' ∧ b = b'.
Proof.
  revert a'. induction a as [|x a IH]; intros [|y a'] Hl H; simpl in *; try done.
  injection H as -> H. injection Hl as Hl. by destruct (IH a' Hl H) as [-> ->].
Qed.

Lemma contains_app (c : ascii) (a b : string) :
  contains c (a +s+ b) = contains c a || contains c b.
Proof. induction a as [|x a IH]; simpl; [done|]. by rewrite IH, orb_assoc. Qed.

Lemma cut_app (c : ascii) (a b : string) :
  contains c a = false → cut c (a +s+ String c b) = Some (a, b).
Proof.
  induction a as [|x a IH]; simpl; intros H.
  - by rewrite bool_decide_eq_true_2.
  - apply orb_false_iff in H as [Hx Ha]. by rewrite Hx, (IH Ha).
Qed.

Lemma cut_none (c : ascii) (s : string) : contains c s = false → cut c s = None.
Proof.
  induction s as [|x s IH]; simpl; [done|].
  intros [Hx Hs]%orb_false_iff. by rewrite Hx, (IH Hs).
Qed.

Lemma Split_app (c : ascii) (a b : string) :
  contains c a = false → Split c (a +s+ String c b) = a :: Split c b.
Proof.
  induction a as [|x a IH]; simpl; intros H.
  - by rewrite bool_decide_eq_true_2.
  - apply orb_false_iff in H as [Hx Ha]. by rewrite Hx, (IH Ha).
Qed.

Lemma Split_none (c : ascii) (s : string) : contains c s = false → Split c s = [s].
Proof.
  induction s as [|x s IH]; simpl; [done|].
  intros [Hx Hs]%orb_false_iff. by rewrite Hx, (IH Hs).
Qed.

Lemma Split_length (c : ascii) (s : string) : 1 ≤ length (Split c s).
Proof.
  induction s as [|x s IH]; simpl; [lia|]. case_bool_decide; simpl; [lia|].
  destruct (Split c s); simpl in *; lia.
Qed.

(** A separator-joined key determines its first field when that field does not
    hold the separator. *)
Lemma sep_inj (c : ascii) (a a' b b' : string) :
  contains c a = false → contains c a' = false →
  a +s+ String c b = a' +s+ String c b' → a = a' ∧ b = b'.
Proof.
  intros Ha Ha' H%(f_equal (cut c)).
  rewrite (cut_app _ _ _ Ha), (cut_app _ _ _ Ha') in H. by simplify_eq.
Qed.

Create Rewrite HintDb go_str.
#[export] Hint Rewrite app_nil_r_str app_assoc_str length_app_str slen_app contains_app : go_str.

Lemma prefix_app (p s : string) : String.prefix p (p +s+ s) = true.
Proof.
  induction p as [|a p IH]; simpl; [by destruct s|]. by destruct (Ascii.ascii_dec a a).
Qed.

Lemma prefix_spec (p s : string) :
  String.prefix p s = true ↔ ∃ r, s = p +s+ r.
Proof.
  split.
  - revert s. induction p as [|a p IH]; intros s H; [by exists s|].
    destruct s as [|b s]; simpl in H; [done|].
    destruct (Ascii.ascii_dec a b) as [->|]; [|done].
    destruct (IH s H) as [r ->]. by exists r.
  - intros [r ->]. apply prefix_app.
Qed.

(** [fmt]'s [%x] of a byte slice. *)
Definition hex_digit (n : N) : ascii :=
  if (n <? 10)%N then ascii_of_N (48 + n) else ascii_of_N (87 + n).

Fixpoint hex (s : string) : string :=
  match s with
  | EmptyString => EmptyString
  | String a s' =>
      String (hex_digit (N_of_ascii a / 16)) (String (hex_digit (N_of_ascii a mod 16)) (hex s'))
  end.

(** The value of a hexadecimal digit, which undoes [hex_digit]. *)
Definition undigit (a : ascii) : N :=
  if (N_of_ascii a <? 58)%N then (N_of_ascii a - 48)%N else (N_of_ascii a - 87)%N.

Lemma undigit_hex (a : ascii) :
  ascii_of_N (16 * undigit (hex_digit (N_of_ascii a / 16)) +
              undigit (hex_digit (N_of_ascii a mod 16))) = a.
Proof. by destruct a as [[][][][][][][][]]. Qed.

Lemma hex_pair_inj (a b : ascii) :
  hex_digit (N_of_ascii a / 16) = hex_digit (N_of_ascii b / 16) →
  hex_digit (N_of_ascii a mod 16) = hex_digit (N_of_ascii b mod 16) → a = b.
Proof. intros H1 H2. by rewrite <-(undigit_hex a), <-(undigit_hex b), H1, H2. Qed.

Lemma hex_inj (s t : string) : hex s = hex t → s = t.
Proof.
  revert t. induction s as [|a s IH]; intros [|b t] H; try done.
  cbn [hex] in H. injection H as H1 H2 H3.
  by rewrite (hex_pair_inj a b H1 H2), (IH t H3).
Qed.

(** * Machine integers

    [uint64] and [int64] values are [Z]s in range; arithmetic wraps. *)

Definition is_u64 (x : Z) : Prop := (0 ≤ x < 2 ^ 64)%Z.
Definition u64 (x : Z) : Z := (x mod 2 ^ 64)%Z.
Definition u64_add (x y : Z) : Z := u64 (x + y).
Definition u64_sub (x y : Z) : Z := u64 (x - y).
Definition int64 (x : Z) : Z := ((x + 2 ^ 63) mod 2 ^ 64 - 2 ^ 63)%Z.
Definition int32 (x : Z) : Z := ((x + 2 ^ 31) mod 2 ^ 32 - 2 ^ 31)%Z.
Definition MaxInt32 : Z := (2 ^ 31 - 1)%Z.

#[export] Instance is_u64_dec x : Decision (is_u64 x).
Proof. unfold is_u64. apply _. Defined.

Lemma is_u64_u64 x : is_u64 (u64 x).
Proof. unfold is_u64, u64. apply Z.mod_pos_bound. lia. Qed.

Lemma u64_small x : is_u64 x → u64 x = x.
Proof. unfold is_u64, u64. apply Z.mod_small. Qed.

(** The overflow test of [a + b < a] that Go code uses on [uint64]. *)
Lemma u64_add_overflow x y :
  is_u64 x → is_u64 y → (u64_add x y <? x)%Z = (2 ^ 64 <=? x + y)%Z.
Proof.
  unfold is_u64, u64_add, u64. intros Hx Hy.
  destruct (Z.leb_spec (2 ^ 64) (x + y)).
  - rewrite <-(Z_mod_plus_full _ (-1)), Z.mod_small by lia.
    apply Z.ltb_lt. lia.
  - rewrite Z.mod_small by lia. apply Z.ltb_ge. lia.
Qed.

Lemma int64_small x : (- 2 ^ 63 ≤ x < 2 ^ 63)%Z → int64 x = x.
Proof. unfold int64. intros. rewrite Z.mod_small by lia. lia. Qed.

Lemma int64_u64 x : (- 2 ^ 63 ≤ x < 2 ^ 63)%Z → int64 (u64 x) = x.
Proof.
  unfold int64, u64. intros Hx.
  rewrite Zplus_mod_idemp_l, Z.mod_small by lia. lia.
Qed.

#[export] Hint Resolve is_u64_u64 : go_db.

(** [encoding/binary]'s big-endian codec, by recursion on the byte count. *)
Fixpoint be_put (n : nat) (x : Z) : string :=
  match n with
  | O => EmptyString
  | S n' => be_put n' (x / 256) +s+ String (ascii_of_N (Z.to_N (x mod 256))) EmptyString
  end.

Fixpoint be_get_acc (acc : Z) (s : string) : Z :=
  match s with
  | EmptyString => acc
  | String a s' => be_get_acc (acc * 256 + Z.of_N (N_of_ascii a))%Z s'
  end.

Definition PutUint64 (x : Z) : string := be_put 8 x.

(** [binary.BigEndian.Uint64] of a slice of at least eight bytes. *)
Definition Uint64 (s : string) : Z := be_get_acc 0 (substring 0 8 s).

Lemma length_be_put n x : String.length (be_put n x) = n.
Proof.
  revert x. induction n as [|n IH]; intros x; simpl; [done|].
  rewrite length_app_str, IH. simpl. lia.
Qed.

Lemma be_get_acc_app acc s t :
  be_get_acc acc (s +s+ t) = be_get_acc (be_get_acc acc s) t.
Proof. revert acc. induction s as [|a s IH]; intros acc; simpl; auto. Qed.

Lemma be_get_put n x acc :
  (0 ≤ x < 256 ^ Z.of_nat n)%Z →
  be_get_acc acc (be_put n x) = (acc * 256 ^ Z.of_nat n + x)%Z.
Proof.
  revert x acc. induction n as [|n IH]; intros x acc Hx; [simpl in *; lia|].
  rewrite Nat2Z.inj_succ, Z.pow_succ_r in * by lia. cbn [be_put].
  rewrite be_get_acc_app, IH.
  - cbn [be_get_acc]. pose proof (Z.mod_pos_bound x 256 ltac:(lia)).
    rewrite N_ascii_embedding by lia. rewrite Z2N.id by lia.
    pose proof (Z.div_mod x 256 ltac:(lia)). lia.
  - split; [apply Z.div_pos; lia|]. apply Z.div_lt_upper_bound; lia.
Qed.

Lemma substring_all (s : string) : substring 0 (String.length s) s = s.
Proof. induction s as [|a s IH]; simpl; congruence. Qed.

Lemma Uint64_PutUint64 x : is_u64 x → Uint64 (PutUint64 x) = x.
Proof.
  intros Hx. unfold Uint64, PutUint64.
  rewrite <-(length_be_put 8 x) at 1. rewrite substring_all, be_get_put; [lia|].
  unfold is_u64 in Hx. change (256 ^ Z.of_nat 8)%Z with (2 ^ 64)%Z. lia.
Qed.

Lemma be_get_acc_bound s acc :
  (0 ≤ acc)%Z →
  (0 ≤ be_get_acc acc s < (acc + 1) * 256 ^ slen s)%Z.
Proof.
  unfold slen. revert acc. induction s as [|a s IH]; intros acc Hacc; simpl String.length.
  - simpl. lia.
  - cbn [be_get_acc]. pose proof (N_ascii_bounded a) as Ha.
    destruct (IH (acc * 256 + Z.of_N (N_of_ascii a))%Z ltac:(lia)) as [H1 H2].
    split; [done|]. eapply Z.lt_le_trans; [exact H2|].
    rewrite Nat2Z.inj_succ, Z.pow_succ_r by lia.
    rewrite Z.mul_assoc. apply Z.mul_le_mono_nonneg_r; lia.
Qed.

Lemma length_substring0 n s : String.length (substring 0 n s) ≤ n.
Proof. revert s. induction n as [|n IH]; intros [|a s]; simpl; try lia. specialize (IH s). lia. Qed.

Lemma is_u64_Uint64 s : is_u64 (Uint64 s).
Proof.
  unfold is_u64, Uint64. destruct (be_get_acc_bound (substring 0 8 s) 0 ltac:(lia)) as [H1 H2].
  split; [done|]. eapply Z.lt_le_trans; [exact H2|].
  rewrite Z.mul_1_l. change (2 ^ 64)%Z with (256 ^ 8)%Z. apply Z.pow_le_mono_r; [lia|].
  unfold slen. pose proof (length_substring0 8 s). lia.
Qed.

#[export] Hint Resolve is_u64_Uint64 Uint64_PutUint64 : go_db.
