(* ===== verification/GoTime.v ===== *)
(** The part of Go's [time] package the program uses.

    An instant is a count of nanoseconds since the Unix epoch, with the offset
    of the location it is shown in.  [==] on [time.Time] compares both,
    [Equal] only the instant.  The reading of the clock, [time.Now()], is an
    argument of the operations that take it.  Monotonic readings and location
    names are not modelled. *)

From S2P Require Import Prelude.
From Stdlib Require Import ZArith Lia Ascii String.
From stdpp Require Import base tactics option list strings pretty gmap.

Local Open Scope Z_scope.

Record Time : Type := mkTime {
  t_ns : Z;        (* nanoseconds since 1970-01-01T00:00:00Z *)
  t_off : Z;       (* seconds east of UTC of its location *)
}.

#[export] Instance Time_eq_dec : EqDecision Time.
Proof. solve_decision. Defined.
#[export] Instance Time_countable : Countable Time.
Proof. refine (inj_countable' (λ t, (t_ns t, t_off t)) (λ '(a, b), mkTime a b) _). by intros []. Defined.

Definition Second : Z := 10 ^ 9.
Definition Minute : Z := 60 * Second.
Definition Millisecond : Z := 10 ^ 6.

(** The zero [time.Time]: January 1, year 1, 00:00 UTC. *)
Definition zeroTime : Time := mkTime (-62135596800 * Second) 0.

Definition IsZero (t : Time) : bool := t_ns t =? t_ns zeroTime.
Definition Before (t u : Time) : bool := t_ns t <? t_ns u.
Definition After (t u : Time) : bool := t_ns u <? t_ns t.
Definition TimeEqual (t u : Time) : bool := t_ns t =? t_ns u.
Definition UTC (t : Time) : Time := mkTime (t_ns t) 0.

(** [t.Unix()] and [t.UnixNano()]: the latter wraps outside [int64]. *)
Definition Unix (t : Time) : Z := t_ns t / Second.
Definition UnixNano (t : Time) : Z := int64 (t_ns t).
(** [time.Unix(sec, 0).UTC()]. *)
Definition fromUnix (sec : Z) : Time := mkTime (sec * Second) 0.

Definition maxDuration : Z := 2 ^ 63 - 1.
Definition minDuration : Z := - 2 ^ 63.

(** [t.Sub(u)] saturates at the ends of [Duration]. *)
Definition Sub (t u : Time) : Z := Z.max minDuration (Z.min maxDuration (t_ns t - t_ns u)).
Definition Add (t : Time) (d : Z) : Time := mkTime (t_ns t + d) (t_off t).
(** [time.Since(u)] at clock reading [now]. *)
Definition Since (now u : Time) : Z := Sub now u.

(** The two-sided freshness test [diff > w || diff < -w] the validators use. *)
Definition outside_window (now t : Time) (w : Z) : bool :=
  (w <? Sub now t) || (Sub now t <? - w).

Lemma outside_window_false now t w :
  0 ≤ w < maxDuration →
  outside_window now t w = false ↔ Z.abs (t_ns now - t_ns t) ≤ w.
Proof.
  unfold outside_window, Sub, minDuration, maxDuration. intros Hw.
  rewrite orb_false_iff, !Z.ltb_ge. lia.
Qed.

(** * RFC 3339 at second resolution *)

(** Year, month and day of a day count since the epoch (proleptic Gregorian). *)
Definition civil (days : Z) : Z * Z * Z :=
  let z := days + 719468 in
  let era := z / 146097 in
  let doe := z mod 146097 in
  let yoe := (doe - doe / 1460 + doe / 36524 - doe / 146096) / 365 in
  let doy := doe - (365 * yoe + yoe / 4 - yoe / 100) in
  let mp := (5 * doy + 2) / 153 in
  let d := doy - (153 * mp + 2) / 5 + 1 in
  let m := if mp <? 10 then mp + 3 else mp - 9 in
  (yoe + era * 400 + (if m <=? 2 then 1 else 0), m, d).

(** [n] in decimal, zero-padded to a width. *)
Fixpoint digits (width : nat) (n : Z) : string :=
  match width with
  | O => EmptyString
  | S w => digits w (n / 10) +s+ String (ascii_of_N (Z.to_N (48 + n mod 10))) EmptyString
  end.

Definition zone (off : Z) : string :=
  if off =? 0 then "Z"
  else (if off <? 0 then "-" else "+") +s+ digits 2 (Z.abs off / 3600) +s+ ":"
       +s+ digits 2 (Z.abs off / 60 mod 60).

(** Date and time of day with a separator between them, for years 0 to 9999. *)
Definition date_clock (sep : string) (t : Time) : string :=
  let sec := Unix t + t_off t in
  let '(y, m, d) := civil (sec / 86400) in
  let s := sec mod 86400 in
  digits 4 y +s+ "-" +s+ digits 2 m +s+ "-" +s+ digits 2 d +s+ sep +s+
  digits 2 (s / 3600) +s+ ":" +s+ digits 2 (s / 60 mod 60) +s+ ":" +s+ digits 2 (s mod 60).

(** The [.999999999] of a layout: the nanoseconds without trailing zeros. *)
Fixpoint frac_digits (width : nat) (n : Z) : string :=
  match width with
  | O => EmptyString
  | S w => if n mod 10 =? 0 then frac_digits w (n / 10) else digits width n
  end.

Definition frac (t : Time) : string :=
  let n := t_ns t mod Second in
  if n =? 0 then "" else "." +s+ frac_digits 9 n.

(** [t.Format(time.RFC3339)] and [time.RFC3339Nano]. *)
Definition Format (t : Time) : string := date_clock "T" t +s+ zone (t_off t).
Definition FormatNano (t : Time) : string := date_clock "T" t +s+ frac t +s+ zone (t_off t).

(** [t.String()], what [%s] prints: an unnamed zone shows its offset as name. *)
Definition offset_hm (off : Z) : string :=
  (if off <? 0 then "-" else "+") +s+ digits 2 (Z.abs off / 3600) +s+ digits 2 (Z.abs off / 60 mod 60).
Definition zone_name (off : Z) : string :=
  if off =? 0 then "UTC"
  else if Z.abs off / 60 mod 60 =? 0
       then (if off <? 0 then "-" else "+") +s+ digits 2 (Z.abs off / 3600)
       else offset_hm off.
Definition TimeString (t : Time) : string :=
  date_clock " " t +s+ frac t +s+ " " +s+ offset_hm (t_off t) +s+ " " +s+ zone_name (t_off t).

Example Format_ex1 : Format (fromUnix 1700000000) = "2023-11-14T22:13:20Z".
Proof. reflexivity. Qed.
Example Format_ex2 : Format (mkTime (951782400 * Second) (-16200)) = "2000-02-28T19:30:00-04:30".
Proof. reflexivity. Qed.
Example FormatNano_ex : FormatNano (mkTime (951782400 * Second + 50000000) 0) = "2000-02-29T00:00:00.05Z".
Proof. reflexivity. Qed.
Example TimeString_ex : TimeString (mkTime (951782400 * Second) 0) = "2000-02-29 00:00:00 +0000 UTC".
Proof. reflexivity. Qed.
Example Format_zero : Format zeroTime = "0001-01-01T00:00:00Z".
Proof. reflexivity. Qed.

(** Instants of the same second, shown in the same zone, print alike. *)
Lemma Format_same_second t u :
  Unix t = Unix u → t_off t = t_off u → Format t = Format u.
Proof. unfold Format, date_clock. by intros -> ->. Qed.

Lemma length_digits w n : String.length (digits w n) = w.
Proof.
  revert n. induction w as [|w IH]; intros n; simpl; [done|].
  rewrite length_app_str, IH. simpl. lia.
Qed.

Lemma digit_no_slash n : contains slash (String (ascii_of_N (Z.to_N (48 + n mod 10))) "") = false.
Proof.
  pose proof (Z.mod_pos_bound n 10 ltac:(lia)) as H.
  assert (∃ k : nat, n mod 10 = Z.of_nat k ∧ (k < 10)%nat) as (k & -> & Hk).
  { exists (Z.to_nat (n mod 10)). lia. }
  do 10 (destruct k as [|k]; [reflexivity|]). lia.
Qed.

Lemma digits_no_slash w n : contains slash (digits w n) = false.
Proof.
  revert n. induction w as [|w IH]; intros n; [done|]. cbn [digits].
  by rewrite contains_app, IH, digit_no_slash.
Qed.

(** A printed time holds no path separator, so it is a safe key segment. *)
Lemma Format_no_slash t : contains slash (Format t) = false.
Proof.
  unfold Format, date_clock, zone. destruct (civil _) as [[y m] d].
  destruct (t_off t =? 0); [|destruct (t_off t <? 0)];
    rewrite !contains_app, !digits_no_slash; reflexivity.
Qed.
