(* ===== verification/KV.v ===== *)
(** The interfaces of the code outside the repository that the storage layer
    is written against: the key-value stores of avalanchego and hypersdk, and
    the text format of [encoding/json].

    [Mutable S] is hypersdk's [state.Mutable] (and, with other names, the
    [Get]/[Put]/[Delete] of [database.Database] and [merkledb.MerkleDB]): the
    operations may fail.  [KVLaws S] says what a store that does not fail
    promises: it behaves as the finite map [contents].  Theorems about error
    paths do not assume it. *)

From S2P Require Import Prelude GoTime.
From Stdlib Require Import ZArith Lia Ascii String.
From stdpp Require Import base tactics option list strings pretty gmap.

Class Mutable (S : Type) : Type := {
  mu_GetValue : string → S → outcome string;
  mu_Insert : string → string → go S unit;
  mu_Remove : string → go S unit;
  (* a value stored empty reads back as a nil slice *)
  empty_is_nil : bool;
}.

(** [value != nil] for a slice a store returned without error. *)
Definition not_nil (S : Type) `{!Mutable S} (v : string) : bool :=
  negb (empty_is_nil && bool_decide (v = "")).

(** Documented behaviour of a store that performs every operation: a read
    returns what is stored or [database.ErrNotFound], a write changes one key.
    A value stored empty "may be nil or an empty slice" when read back, which
    [empty_is_nil] leaves open. *)
Class KVLaws (S : Type) `{!Mutable S} : Type := {
  contents : S → gmap string string;
  mu_GetValue_contents : ∀ k s,
    mu_GetValue k s = match contents s !! k with Some v => Ok v | None => Err ErrNotFound end;
  mu_Insert_ok : ∀ k v s, (mu_Insert k v s).2 = Ok tt;
  mu_Insert_contents : ∀ k v s, contents (mu_Insert k v s).1 = <[k := v]> (contents s);
  mu_Remove_ok : ∀ k s, (mu_Remove k s).2 = Ok tt;
  mu_Remove_contents : ∀ k s, contents (mu_Remove k s).1 = delete k (contents s);
}.

(** The store used to evaluate the definitions: a finite map. *)
#[export] Instance map_Mutable : Mutable (gmap string string) := {
  mu_GetValue k m := match m !! k with Some v => Ok v | None => Err ErrNotFound end;
  mu_Insert k v := modify (λ m, <[k := v]> m);
  mu_Remove k := modify (λ m, delete k m);
  empty_is_nil := true;
}.

#[export] Instance map_KVLaws : KVLaws (gmap string string).
Proof. refine {| contents m := m |}; done. Defined.

(** A read as a monadic call. *)
Definition getValue {S} `{!Mutable S} (k : string) : go S string := λ s, (s, mu_GetValue k s).

Section laws.
Context {S : Type} `{!Mutable S, !KVLaws S}.
Implicit Types (s : S) (k v : string).

Lemma mu_Insert_run k v s :
  ∃ s', mu_Insert k v s = (s', Ok tt) ∧ contents s' = <[k := v]> (contents s).
Proof.
  exists (mu_Insert k v s).1. split; [|apply mu_Insert_contents].
  rewrite <-(mu_Insert_ok k v s). apply surjective_pairing.
Qed.

Lemma mu_Remove_run k s :
  ∃ s', mu_Remove k s = (s', Ok tt) ∧ contents s' = delete k (contents s).
Proof.
  exists (mu_Remove k s).1. split; [|apply mu_Remove_contents].
  rewrite <-(mu_Remove_ok k s). apply surjective_pairing.
Qed.

Lemma mu_GetValue_Some k v s : contents s !! k = Some v → mu_GetValue k s = Ok v.
Proof. rewrite mu_GetValue_contents. by intros ->. Qed.

Lemma mu_GetValue_None k s : contents s !! k = None → mu_GetValue k s = Err ErrNotFound.
Proof. rewrite mu_GetValue_contents. by intros ->. Qed.
End laws.

#[export] Hint Resolve mu_GetValue_Some mu_GetValue_None : go_db.

(** * [encoding/json]

    [json.Marshal] and [json.Unmarshal] at one Go type.  The text itself is not
    modelled, only that decoding gives back what was encoded, for the values that
    [encoding/json] represents: a Go string is coerced to valid UTF-8 on the way out
    (byte slices are not, they are written in base64), and a [time.Time] is written
    with the precision of RFC 3339, which has years of four digits and offsets of whole
    minutes.  [encodable] says of each type which values these are.  [json.Marshal]
    fails on no value of the types here but those that hold a time of another year. *)

(** [utf8.ValidString]. *)
Definition byte_in (lo hi : N) (a : ascii) : bool := ((lo <=? N_of_ascii a) && (N_of_ascii a <=? hi))%N.
Definition tail_byte : ascii → bool := byte_in 128 191.

Fixpoint utf8 (s : string) : bool :=
  match s with
  | EmptyString => true
  | String a s1 =>
      if byte_in 0 127 a then utf8 s1 else
      match s1 with
      | EmptyString => false
      | String b s2 =>
          if byte_in 194 223 a then tail_byte b && utf8 s2 else
          match s2 with
          | EmptyString => false
          | String c s3 =>
              if byte_in 224 239 a then
                byte_in (if byte_in 224 224 a then 160 else 128) (if byte_in 237 237 a then 159 else 191) b &&
                tail_byte c && utf8 s3
              else
              match s3 with
              | EmptyString => false
              | String d s4 =>
                  byte_in 240 244 a &&
                  byte_in (if byte_in 240 240 a then 144 else 128) (if byte_in 244 244 a then 143 else 191) b &&
                  tail_byte c && tail_byte d && utf8 s4
              end
          end
      end
  end.

Example utf8_accepts : utf8 "région" = true.
Proof. reflexivity. Qed.
Example utf8_refuses : utf8 (String "255" "") = false ∧ utf8 (String "237" (String "160" (String "128" ""))) = false.
Proof. done. Qed.

(** The local year is between 0 and 9999, the offset one of whole minutes, below a day. *)
Definition encodable_time (t : Time) : bool :=
  (let local := t_ns t + t_off t * Second in
   (-62167219200 * Second <=? local) && (local <? 253402300800 * Second) &&
   (t_off t mod 60 =? 0) && (Z.abs (t_off t) <? 86400))%Z.

Class Json (A : Type) : Type := {
  Marshal : A → string;
  Unmarshal : string → outcome A;
}.

Class Encodable (A : Type) : Type := encodable : A → bool.

Class JsonLaws (A : Type) `{!Json A, !Encodable A} : Prop := {
  Unmarshal_Marshal : ∀ a, encodable a = true → Unmarshal (Marshal a) = Ok a;
  Unmarshal_empty : ∀ a, Unmarshal "" ≠ Ok a;   (* unexpected end of input *)
}.

(** An instance for any countable type, for evaluating the definitions: the
    binary digits of its code. *)
Fixpoint bits_to_string (p : positive) : string :=
  match p with
  | xH => EmptyString
  | xO p' => String "0" (bits_to_string p')
  | xI p' => String "1" (bits_to_string p')
  end.

Fixpoint string_to_bits (s : string) : positive :=
  match s with
  | EmptyString => xH
  | String a s' => if bool_decide (a = "1"%char) then xI (string_to_bits s') else xO (string_to_bits s')
  end.

Lemma bits_roundtrip p : string_to_bits (bits_to_string p) = p.
Proof. induction p as [p IH|p IH|]; simpl; congruence. Qed.

Definition countable_Json (A : Type) `{Countable A} : Json A := {|
  Marshal a := String "j" (bits_to_string (encode a));
  Unmarshal s :=
    match s with
    | String _ s' => match decode (string_to_bits s') with
                     | Some a => Ok a
                     | None => Err (Errorf "json")
                     end
    | EmptyString => Err (Errorf "json")
    end;
|}.

Lemma countable_decodes {A} `{Countable A} (a : A) : Unmarshal (Json := countable_Json A) (Marshal (Json := countable_Json A) a) = Ok a.
Proof. simpl. by rewrite bits_roundtrip, decode_encode. Qed.

Lemma countable_JsonLaws (A : Type) `{Countable A, !Encodable A} : @JsonLaws A (countable_Json A) _.
Proof. split; [|done]. intros a _. apply countable_decodes. Qed.

(** * Dynamic JSON values

    What [map[string]interface{}] holds after decoding, as a tree: a string
    leaf, an array, or an object given by its fields. *)
Abbreviation json := (gen_tree string).
Definition JStr (s : string) : json := GenLeaf s.
Definition JArr (l : list json) : json := GenNode 0 l.
Definition JObj (fields : list (string * json)) : json :=
  GenNode 1 ((λ '(k, v), GenNode 2 [GenLeaf k; v]) <$> fields).

(** A Go map: [None] is the nil map, which reads as empty and panics on write. *)
Abbreviation gomap V := (option (gmap string V)).

(** The keys of a map are strings; the values of a [map[string][]byte] are bytes. *)
Definition keys_utf8 {V} (m : gmap string V) : bool := forallb utf8 (map_to_list m).*1.
#[export] Instance bytes_map_Encodable : Encodable (gomap string) :=
  λ m, match m with Some m => keys_utf8 m | None => true end.

Fixpoint json_utf8 (j : json) : bool :=
  match j with GenLeaf s => utf8 s | GenNode _ l => forallb json_utf8 l end.
#[export] Instance json_map_Encodable : Encodable (gomap json) :=
  λ m, match m with Some m => keys_utf8 m && forallb json_utf8 (map_to_list m).*2 | None => true end.

Definition map_lookup {V} (m : gomap V) (k : string) : option V :=
  match m with Some m' => m' !! k | None => None end.

Definition map_assign {V} (m : gomap V) (k : string) (v : V) : outcome (gmap string V) :=
  match m with
  | Some m' => Ok (<[k := v]> m')
  | None => Panic "assignment to entry in nil map"
  end.

(** The base64 text [encoding/json] gives a [[]byte]. *)
Definition b64_char (n : N) : ascii :=
  if (n <? 26)%N then ascii_of_N (65 + n)
  else if (n <? 52)%N then ascii_of_N (71 + n)
  else if (n <? 62)%N then ascii_of_N (n - 4)
  else if (n =? 62)%N then "+"%char else "/"%char.

Fixpoint base64 (s : string) : string :=
  match s with
  | String a (String b (String c s')) =>
      let n := (65536 * N_of_ascii a + 256 * N_of_ascii b + N_of_ascii c)%N in
      String (b64_char (n / 262144)) (String (b64_char (n / 4096 mod 64))
        (String (b64_char (n / 64 mod 64)) (String (b64_char (n mod 64)) (base64 s'))))
  | String a (String b EmptyString) =>
      let n := (1024 * N_of_ascii a + 4 * N_of_ascii b)%N in
      String (b64_char (n / 4096)) (String (b64_char (n / 64 mod 64))
        (String (b64_char (n mod 64)) "="))
  | String a EmptyString =>
      let n := (16 * N_of_ascii a)%N in
      String (b64_char (n / 64)) (String (b64_char (n mod 64)) "==")
  | EmptyString => EmptyString
  end.

Example base64_ex : base64 "Aristo!" = "QXJpc3RvIQ==".
Proof. reflexivity. Qed.
