(* ===== verification/Core.v ===== *)
(** Package [core]: the objects, events, attestations and enclave records the
    other packages exchange, their validators, and the regional key format
    ([core/state_types.go], [core/tee_types.go], [core/regional_helpers.go],
    [core/regional_types.go], [core/platform.go]). *)

From S2P Require Import Prelude GoTime KV.
From Stdlib Require Import ZArith Lia Ascii String.
From stdpp Require Import base tactics option list strings pretty gmap.

Local Open Scope Z_scope.

(** * Data *)

Record TEEAttestation : Type := mkAttestation {
  EnclaveID : string;
  Measurement : string;
  Timestamp : Time;
  Data : string;
  Signature : string;
  RegionProof : string;
}.

#[export] Instance TEEAttestation_eq_dec : EqDecision TEEAttestation.
Proof. solve_decision. Defined.

Record ObjectState : Type := mkObject {
  Code : string;
  Storage : string;
  RegionID : string;
  Events : list string;
  LastUpdated : Time;
  Status : string;
}.

(** The Go array [[2]TEEAttestation] is a pair. *)
Record Event : Type := mkEvent {
  FunctionCall : string;
  Parameters : string;
  Attestations : TEEAttestation * TEEAttestation;
  EventTimestamp : string;
  EventStatus : string;
}.

#[export] Instance ObjectState_eq_dec : EqDecision ObjectState.
Proof. solve_decision. Defined.
#[export] Instance Event_eq_dec : EqDecision Event.
Proof. solve_decision. Defined.
#[export] Instance TEEAttestation_countable : Countable TEEAttestation.
Proof.
  refine (inj_countable' (λ a, (EnclaveID a, Measurement a, Timestamp a, Data a, Signature a, RegionProof a))
    (λ '(a, b, c, d, e, f), mkAttestation a b c d e f) _). by intros [].
Defined.
#[export] Instance Event_countable : Countable Event.
Proof.
  refine (inj_countable' (λ a, (FunctionCall a, Parameters a, Attestations a, EventTimestamp a, EventStatus a))
    (λ '(a, b, c, d, e), mkEvent a b c d e) _). by intros [].
Defined.

(** The ids, measurements and parameters are bytes; the rest of an event is text and
    times. *)
#[export] Instance Event_Encodable : Encodable Event :=
  λ e, utf8 (FunctionCall e) && encodable_time (Timestamp (Attestations e).1) &&
       encodable_time (Timestamp (Attestations e).2) && utf8 (EventTimestamp e) && utf8 (EventStatus e).

Record EnclaveInfo : Type := mkEnclaveInfo {
  EI_EnclaveID : string;
  EI_Measurement : string;
  EI_ValidFrom : Time;
  EI_ValidUntil : Time;
  EI_EnclaveType : string;
  EI_RegionID : string;
  EI_Status : string;
}.

Definition StatusActive : string := "active".
Definition StatusPending : string := "pending".
Definition StatusComplete : string := "complete".
Definition StatusError : string := "error".

Definition MaxCodeSize : Z := 1024 * 1024.
Definition MaxStorageSize : Z := 1024 * 1024.

Definition ErrCodeTooLarge := Sentinel "core" "ErrCodeTooLarge".
Definition ErrStorageTooLarge := Sentinel "core" "ErrStorageTooLarge".
Definition ErrInvalidRegionID := Sentinel "core" "ErrInvalidRegionID".
Definition ErrInvalidStatus := Sentinel "core" "ErrInvalidStatus".
Definition ErrEmptyFunctionCall := Sentinel "core" "ErrEmptyFunctionCall".
Definition ErrMissingAttestations := Sentinel "core" "ErrMissingAttestations".
Definition ErrInvalidRegionalKey := Sentinel "core" "ErrInvalidRegionalKey".
Definition ErrInvalidEnclaveID := Sentinel "core" "ErrInvalidEnclaveID".
Definition ErrInvalidMeasurement := Sentinel "core" "ErrInvalidMeasurement".
Definition ErrInvalidTimestamp := Sentinel "core" "ErrInvalidTimestamp".
Definition ErrMissingSignature := Sentinel "core" "ErrMissingSignature".
Definition ErrInvalidTEEType := Sentinel "core" "ErrInvalidTEEType".

(** [return err] / [return nil] of a validator. *)
Abbreviation verdict := (outcome unit).
Definition check (b : bool) (e : goerr) : verdict := if b then Err e else Ok tt.

Lemma check_ok b e (k : verdict) : (check b e ;; k) = Ok tt ↔ b = false ∧ k = Ok tt.
Proof. destruct b; cbv; naive_solver. Qed.

(** * Attestations *)

Definition Attestation_Validate (t : TEEAttestation) : verdict :=
  check (slen (EnclaveID t) =? 0) ErrInvalidEnclaveID ;;
  check (slen (Measurement t) =? 0) ErrInvalidMeasurement ;;
  check (IsZero (Timestamp t)) ErrInvalidTimestamp ;;
  check (slen (Signature t) =? 0) ErrMissingSignature.

Definition GetTimeUTC (t : TEEAttestation) : string := Format (UTC (Timestamp t)).

Definition Attestation_Equal (t other : TEEAttestation) : bool :=
  bool_decide (EnclaveID t = EnclaveID other) &&
  bool_decide (Measurement t = Measurement other) &&
  TimeEqual (Timestamp t) (Timestamp other) &&
  bool_decide (Data t = Data other) &&
  bool_decide (Signature t = Signature other) &&
  bool_decide (RegionProof t = RegionProof other).

(** * Objects and events *)

Definition isValidStatus (status : string) : bool :=
  bool_decide (status = StatusActive) || bool_decide (status = StatusPending) ||
  bool_decide (status = StatusComplete) || bool_decide (status = StatusError).

Definition ObjectState_Validate (o : ObjectState) : verdict :=
  check (MaxCodeSize <? slen (Code o)) ErrCodeTooLarge ;;
  check (MaxStorageSize <? slen (Storage o)) ErrStorageTooLarge ;;
  check (bool_decide (RegionID o = "")) ErrInvalidRegionID ;;
  check (IsZero (LastUpdated o)) (Errorf "last updated time cannot be zero") ;;
  check (negb (isValidStatus (Status o))) ErrInvalidStatus.

Definition wrap_verdict (msg : string) (v : verdict) : verdict :=
  match v with Err e => Err (Wrapf msg e) | r => r end.

(** The loop over the two attestations, unrolled; [len(e.Attestations) != 2]
    is false of a [[2]TEEAttestation]. *)
Definition Event_Validate (e : Event) : verdict :=
  check (bool_decide (FunctionCall e = "")) ErrEmptyFunctionCall ;;
  check (MaxStorageSize <? slen (Parameters e)) ErrStorageTooLarge ;;
  wrap_verdict "invalid attestation" (Attestation_Validate (Attestations e).1) ;;
  wrap_verdict "invalid attestation" (Attestation_Validate (Attestations e).2) ;;
  check (bool_decide (GetTimeUTC (Attestations e).1 ≠ GetTimeUTC (Attestations e).2))
    (Errorf "attestation timestamps do not match").

Definition CreateEventID (objectID : string) (attestation : TEEAttestation) : string :=
  objectID +s+ ":" +s+ GetTimeUTC attestation.

(** [(o *ObjectState) UpdateStatus] at clock reading [now]. *)
Definition ObjectState_UpdateStatus (now : Time) (newStatus : string) : go ObjectState unit :=
  fail_if (negb (isValidStatus newStatus)) ErrInvalidStatus ;;
  modify (λ o, mkObject (Code o) (Storage o) (RegionID o) (Events o) (UTC now) newStatus).

Definition Event_UpdateStatus (newStatus : string) : go Event unit :=
  fail_if (negb (isValidStatus newStatus)) ErrInvalidStatus ;;
  modify (λ e, mkEvent (FunctionCall e) (Parameters e) (Attestations e) (EventTimestamp e) newStatus).

Definition GetPrimaryAttestation (e : Event) : TEEAttestation := (Attestations e).1.
Definition GetSecondaryAttestation (e : Event) : TEEAttestation := (Attestations e).2.

Definition VerifyAttestations (e : Event) : verdict :=
  check (negb (Attestation_Equal (Attestations e).1 (Attestations e).2))
    (Errorf "attestation mismatch").

(** * Enclave records *)

Definition TEETypeSGX : string := "SGX".
Definition TEETypeSEV : string := "SEV".

Definition EnclaveInfo_Validate (e : EnclaveInfo) : verdict :=
  check (slen (EI_EnclaveID e) =? 0) ErrInvalidEnclaveID ;;
  check (slen (EI_Measurement e) =? 0) ErrInvalidMeasurement ;;
  check (IsZero (EI_ValidFrom e) || IsZero (EI_ValidUntil e)) ErrInvalidTimestamp ;;
  check (After (EI_ValidFrom e) (EI_ValidUntil e))
    (Errorf "invalid validity period: start after end") ;;
  check (negb (bool_decide (EI_EnclaveType e = TEETypeSGX)) &&
         negb (bool_decide (EI_EnclaveType e = TEETypeSEV)))
    (Wrapf "type" ErrInvalidTEEType) ;;
  check (bool_decide (EI_RegionID e = "")) (Errorf "missing region ID").

Definition EnclaveInfo_IsValid (e : EnclaveInfo) (at_ : Time) : bool :=
  negb (Before at_ (EI_ValidFrom e)) && negb (After at_ (EI_ValidUntil e)).

Definition EnclaveInfo_GetType (e : EnclaveInfo) : string := EI_EnclaveType e.

(** * Regional keys *)

Definition MakeRegionalKey (regionID key : string) : string :=
  String.concat "/" ["r"; regionID; key].

(** A key and its region, or [ErrInvalidRegionalKey]. *)
Definition ParseRegionalKey (key : string) : outcome (string * string) :=
  match Split slash key with
  | p0 :: p1 :: p2 :: _ =>
      if bool_decide (p0 = "r") then Ok (p1, p2) else Err ErrInvalidRegionalKey
  | _ => Err ErrInvalidRegionalKey
  end.

Definition ValidateRegionID (id : string) : verdict :=
  check (bool_decide (id = "")) ErrInvalidRegionID.

(** * Properties *)

Lemma MakeRegionalKey_app regionID key :
  MakeRegionalKey regionID key = "r" +s+ String slash (regionID +s+ String slash key).
Proof. done. Qed.

(** A regional key parses back to the region and key it was made from, when
    neither holds a path separator. *)
Theorem ParseRegionalKey_MakeRegionalKey regionID key :
  contains slash regionID = false → contains slash key = false →
  ParseRegionalKey (MakeRegionalKey regionID key) = Ok (regionID, key).
Proof.
  intros Hr Hk. rewrite MakeRegionalKey_app. unfold ParseRegionalKey.
  by rewrite (Split_app slash "r"), (Split_app _ _ _ Hr), (Split_none _ _ Hk).
Qed.

Lemma ParseRegionalKey_MakeRegionalKey_witness :
  ParseRegionalKey (MakeRegionalKey "eu-west" "obj:7") = Ok ("eu-west", "obj:7").
Proof. apply ParseRegionalKey_MakeRegionalKey; reflexivity. Defined.

(** What [ParseRegionalKey] cuts off. A key with a separator inside its last
    part comes back truncated at that separator. *)
Theorem ParseRegionalKey_truncates regionID key rest :
  contains slash regionID = false → contains slash key = false →
  ParseRegionalKey (MakeRegionalKey regionID (key +s+ String slash rest)) = Ok (regionID, key).
Proof.
  intros Hr Hk. rewrite MakeRegionalKey_app. unfold ParseRegionalKey.
  by rewrite (Split_app slash "r"), (Split_app _ _ _ Hr), (Split_app _ _ _ Hk).
Qed.

Lemma ParseRegionalKey_truncates_witness :
  ParseRegionalKey (MakeRegionalKey "eu-west" "object/7") = Ok ("eu-west", "object").
Proof. apply (ParseRegionalKey_truncates "eu-west" "object" "7"); reflexivity. Defined.

(** Keys of different regions never collide. *)
Lemma MakeRegionalKey_inj r r' k k' :
  contains slash r = false → contains slash r' = false →
  MakeRegionalKey r k = MakeRegionalKey r' k' → r = r' ∧ k = k'.
Proof.
  intros Hr Hr'. rewrite !MakeRegionalKey_app. intros H%app_inj_l_str.
  injection H as H. by apply (sep_inj slash).
Qed.

Lemma Attestation_Validate_ok t :
  Attestation_Validate t = Ok tt ↔
  EnclaveID t ≠ "" ∧ Measurement t ≠ "" ∧ IsZero (Timestamp t) = false ∧ Signature t ≠ "".
Proof.
  assert (∀ s, (slen s =? 0) = false ↔ s ≠ "") as Hl.
  { intros [|a s]; rewrite Z.eqb_neq; [by cbv; naive_solver|].
    unfold slen. simpl. split; [done|lia]. }
  unfold Attestation_Validate. rewrite !check_ok, !Hl.
  unfold check. destruct (slen (Signature t) =? 0) eqn:E; [|apply Hl in E; naive_solver].
  split; [naive_solver|]. intros (_ & _ & _ & H). apply Hl in H. congruence.
Qed.

Lemma wrap_verdict_ok msg v : wrap_verdict msg v = Ok tt ↔ v = Ok tt.
Proof. by destruct v. Qed.
