(* ===== verification/CoreClone.v ===== *)
(** [core/state_types.go], the [Clone] methods, over an explicit memory.

    The rest of the development models objects and events by value; whether a clone
    shares memory with its original is only visible when slices are pointers to cells.
    A slice is nil or points to the cell that holds its elements. *)

From S2P Require Import Prelude GoTime Core.
From Stdlib Require Import ZArith Lia Ascii String.
From stdpp Require Import base tactics option list strings pretty gmap.

(** * Memory *)

Inductive cell : Type := CBytes (b : string) | CStrings (l : list string).
Abbreviation Mem := (gmap nat cell).
Abbreviation slice_ptr := (option nat).

(** [make] and [copy]: a new cell with the elements of an old one. *)
Definition fresh_addr (m : Mem) : nat := fresh (dom m : gset nat).
Definition copy_slice (s : slice_ptr) : go Mem slice_ptr := λ m,
  match s with
  | None => (m, Ok None)
  | Some a =>
      match m !! a with
      | Some c => (<[fresh_addr m := c]> m, Ok (Some (fresh_addr m)))
      | None => (m, Panic "invalid memory address or nil pointer dereference")
      end
  end.

(** What a slice holds. *)
Definition elements (m : Mem) (s : slice_ptr) : option cell := s ≫= λ a, m !! a.

(** * Objects and events by reference *)

Record ObjectRef : Type := mkObjectRef {
  or_Code : slice_ptr;
  or_Storage : slice_ptr;
  or_RegionID : string;
  or_Events : slice_ptr;
  or_LastUpdated : Time;
  or_Status : string;
}.

Record AttestationRef : Type := mkAttestationRef {
  ar_EnclaveID : slice_ptr;
  ar_Measurement : slice_ptr;
  ar_Timestamp : Time;
  ar_Data : slice_ptr;
  ar_Signature : slice_ptr;
  ar_RegionProof : slice_ptr;
}.

Record EventRef : Type := mkEventRef {
  er_FunctionCall : string;
  er_Parameters : slice_ptr;
  er_Attestations : AttestationRef * AttestationRef;
  er_Timestamp : string;
  er_Status : string;
}.

Definition ObjectState_Clone (o : ObjectRef) : go Mem ObjectRef :=
  code ← copy_slice (or_Code o);
  storage ← copy_slice (or_Storage o);
  events ← copy_slice (or_Events o);
  mret (mkObjectRef code storage (or_RegionID o) events (or_LastUpdated o) (or_Status o)).

(** The two attestations are copied as structs, slices and all. *)
Definition Event_Clone (e : EventRef) : go Mem EventRef :=
  parameters ← copy_slice (er_Parameters e);
  mret (mkEventRef (er_FunctionCall e) parameters (er_Attestations e) (er_Timestamp e) (er_Status e)).

(** The slices of an object, an attestation and an event. *)
Definition object_slices (o : ObjectRef) : list slice_ptr := [or_Code o; or_Storage o; or_Events o].
Definition attestation_slices (a : AttestationRef) : list slice_ptr :=
  [ar_EnclaveID a; ar_Measurement a; ar_Data a; ar_Signature a; ar_RegionProof a].
Definition event_slices (e : EventRef) : list slice_ptr :=
  er_Parameters e :: attestation_slices (er_Attestations e).1 ++ attestation_slices (er_Attestations e).2.

(** Every slice points to a cell. *)
Definition points_to_cells (m : Mem) (l : list slice_ptr) : Prop := ∀ a, Some a ∈ l → is_Some (m !! a).

(** * Properties *)

Lemma fresh_addr_fresh (m : Mem) : m !! fresh_addr m = None.
Proof. apply (not_elem_of_dom (D := gset nat)). unfold fresh_addr. apply is_fresh. Qed.

(** What copying a slice does: the memory grows by at most one new cell with the same
    elements. *)
Definition copied (m : Mem) (s : slice_ptr) (m' : Mem) (s' : slice_ptr) : Prop :=
  m ⊆ m' ∧ elements m' s' = elements m s ∧ (∀ a, s' = Some a → m !! a = None ∧ is_Some (m' !! a)).

Lemma copy_slice_run s m :
  (∀ a, s = Some a → is_Some (m !! a)) → ∃ m' s', copy_slice s m = (m', Ok s') ∧ copied m s m' s'.
Proof.
  intros Hs. destruct s as [a|]; [|by exists m, None]. destruct (Hs a eq_refl) as [c Hc]. simpl. rewrite Hc.
  eexists _, _. split; [reflexivity|]. split; [apply insert_subseteq, fresh_addr_fresh|].
  split; [simpl; by rewrite lookup_insert_eq, Hc|].
  intros b [= <-]. rewrite lookup_insert_eq. split; [apply fresh_addr_fresh|by eexists].
Qed.

Lemma elements_mono m m' s c : m ⊆ m' → elements m s = Some c → elements m' s = Some c.
Proof. intros Hm. destruct s as [a|]; [|done]. simpl. intros H. by eapply lookup_weaken. Qed.

Lemma points_mono m m' l : m ⊆ m' → points_to_cells m l → points_to_cells m' l.
Proof. intros Hm Hp a Ha. destruct (Hp a Ha) as [c Hc]. exists c. by eapply lookup_weaken. Qed.

(** A write to a cell that was not there before leaves every old slice alone. *)
Lemma write_elsewhere m m' l s a c :
  m ⊆ m' → points_to_cells m l → s ∈ l → m !! a = None → elements (<[a := c]> m') s = elements m s.
Proof.
  intros Hm Hp Hs Ha. destruct s as [b|]; [|done]. destruct (Hp b Hs) as [x Hx]. simpl. rewrite Hx.
  rewrite lookup_insert_ne by (intros ->; congruence). by eapply lookup_weaken.
Qed.

(** C34: the clone of an object has the object's contents and its own memory: whatever
    is later written through the clone's slices, the object keeps its contents. *)
Theorem ObjectState_Clone_isolated o m :
  points_to_cells m (object_slices o) →
  ∃ m' o', ObjectState_Clone o m = (m', Ok o') ∧
    elements m' <$> object_slices o' = elements m <$> object_slices o ∧
    or_RegionID o' = or_RegionID o ∧ or_LastUpdated o' = or_LastUpdated o ∧ or_Status o' = or_Status o ∧
    ∀ a c, Some a ∈ object_slices o' → elements (<[a := c]> m') <$> object_slices o = elements m <$> object_slices o.
Proof.
  intros Hp.
  destruct (copy_slice_run (or_Code o) m) as (m1 & s1 & E1 & H1 & V1 & F1).
  { intros a Ha. apply Hp. rewrite <-Ha. left. }
  assert (points_to_cells m1 (object_slices o)) as Hp1 by (by eapply points_mono).
  destruct (copy_slice_run (or_Storage o) m1) as (m2 & s2 & E2 & H2 & V2 & F2).
  { intros a Ha. apply Hp1. rewrite <-Ha. right. left. }
  assert (points_to_cells m2 (object_slices o)) as Hp2 by (by eapply points_mono).
  destruct (copy_slice_run (or_Events o) m2) as (m3 & s3 & E3 & H3 & V3 & F3).
  { intros a Ha. apply Hp2. rewrite <-Ha. right. right. left. }
  eexists m3, _. split.
  { unfold ObjectState_Clone. rewrite (bind_ok _ _ _ _ _ E1), (bind_ok _ _ _ _ _ E2), (bind_ok _ _ _ _ _ E3). done. }
  assert (∀ x y s, x ⊆ y → (∀ a, s = Some a → is_Some (x !! a)) → elements y s = elements x s) as Hmono.
  { intros x y [a|] Hxy Hx; [|done]. simpl. destruct (Hx a eq_refl) as [c Hc]. rewrite Hc. by eapply lookup_weaken. }
  split; [|split; [done|split; [done|split; [done|]]]].
  - simpl. f_equal; [|f_equal; [|f_equal]].
    + rewrite <-V1. rewrite (Hmono m2 m3), (Hmono m1 m2); [done|done|naive_solver|done|].
      intros a Ha. destruct (F1 a Ha) as [_ [c Hc]]. exists c. by eapply lookup_weaken.
    + rewrite (Hmono m2 m3) by naive_solver. rewrite V2. apply Hmono; [done|].
      intros a Ha. apply Hp. rewrite <-Ha. right. left.
    + rewrite V3. rewrite (Hmono m1 m2), (Hmono m m1); [done|done| |done|];
        intros a Ha; [apply Hp|apply Hp1]; rewrite <-Ha; right; right; left.
  - intros a c Ha. apply list_fmap_ext. intros i s Hs. apply (write_elsewhere m m3 (object_slices o)); [|done| |].
    + by etransitivity; [|etransitivity].
    + by eapply list_elem_of_lookup_2.
    + unfold object_slices in Ha. cbn [or_Code or_Storage or_Events] in Ha. rewrite !elem_of_cons, elem_of_nil in Ha. apply eq_None_not_Some. intros Hn.
      destruct Ha as [Ha|[Ha|[Ha|[]]]]; [destruct (F1 a (eq_sym Ha))|destruct (F2 a (eq_sym Ha))|destruct (F3 a (eq_sym Ha))];
        destruct Hn as [x Hx]; try congruence.
      * pose proof (lookup_weaken _ _ _ _ Hx H1). congruence.
      * pose proof (lookup_weaken _ _ _ _ (lookup_weaken _ _ _ _ Hx H1) H2). congruence.
Qed.

(** An event's clone has its own parameters and the event's own attestations: a write
    through an attestation of the clone is a write to the event. *)
Lemma Event_Clone_aliases e m :
  points_to_cells m (event_slices e) →
  ∃ m' e', Event_Clone e m = (m', Ok e') ∧ elements m' <$> event_slices e' = elements m <$> event_slices e ∧
    (∀ a c, er_Parameters e' = Some a → elements (<[a := c]> m') <$> event_slices e = elements m <$> event_slices e) ∧
    er_Attestations e' = er_Attestations e ∧
    ∀ a c, ar_Data (er_Attestations e').1 = Some a → elements (<[a := c]> m') (ar_Data (er_Attestations e).1) = Some c.
Proof.
  intros Hp. destruct (copy_slice_run (er_Parameters e) m) as (m1 & s1 & E1 & H1 & V1 & F1).
  { intros a Ha. apply Hp. rewrite <-Ha. left. }
  eexists m1, _. split; [unfold Event_Clone; by rewrite (bind_ok _ _ _ _ _ E1)|].
  split; [|split; [|split; [done|]]].
  - unfold event_slices. simpl er_Parameters. simpl er_Attestations. rewrite !fmap_cons. f_equal; [done|].
    apply list_fmap_ext. intros i s Hs. destruct s as [a|]; [|done]. simpl.
    destruct (Hp a) as [c Hc]; [right; by eapply list_elem_of_lookup_2|]. rewrite Hc. by eapply lookup_weaken.
  - intros a c Ha. simpl in Ha. subst s1. apply list_fmap_ext. intros i s Hs.
    apply (write_elsewhere m m1 (event_slices e)); [done|done|by eapply list_elem_of_lookup_2|].
    by destruct (F1 a eq_refl).
  - intros a c Ha. simpl in *. rewrite Ha. simpl. apply lookup_insert_eq.
Qed.

(** * Witnesses *)

Definition sample_mem : Mem := {[ 0%nat := CBytes "code"; 1%nat := CStrings ["e1"] ]}.

Lemma ObjectState_Clone_isolated_witness :
  ∃ m' o', ObjectState_Clone (mkObjectRef (Some 0%nat) None "eu" (Some 1%nat) zeroTime "active") sample_mem = (m', Ok o') ∧
    elements m' (or_Code o') = Some (CBytes "code") ∧ or_Code o' ≠ Some 0%nat.
Proof.
  destruct (ObjectState_Clone_isolated (mkObjectRef (Some 0%nat) None "eu" (Some 1%nat) zeroTime "active") sample_mem)
    as (m' & o' & E & H & _ & _ & _ & Hw).
  - intros a Ha. unfold object_slices in Ha. cbn [or_Code or_Storage or_Events] in Ha. rewrite !elem_of_cons, elem_of_nil in Ha.
    destruct Ha as [[= ->]|[Ha|[[= ->]|[]]]]; [by eexists|done|by eexists].
  - exists m', o'. split; [exact E|]. split; [by injection H|]. intros Hc.
    specialize (Hw 0%nat (CBytes "changed")). specialize (Hw ltac:(rewrite <-Hc; left)).
    assert (elements (<[0%nat := CBytes "changed"]> m') (Some 0%nat) = elements sample_mem (Some 0%nat)) as Hh
      by (apply (f_equal (λ l, default None (hd_error l)) Hw)).
    simpl in Hh. rewrite lookup_insert_eq in Hh. discriminate Hh.
Defined.
