(* ===== verification/Storage.v ===== *)
(** [storage/storage.go]: the keys of the flat state, account balances, and the
    object, event, region, input-object and coordination records kept in a
    [state.Mutable]. *)

From S2P Require Import Prelude GoTime KV Core.
From Stdlib Require Import ZArith Lia Ascii String.
From stdpp Require Import base tactics option list strings pretty gmap.

Local Open Scope Z_scope.

(** * Library code the file calls

    [codec.Address] of hypersdk with its printed form, and two helpers of
    avalanchego. *)
Class ChainLib : Type := {
  Address_String : string → string;
  ParseUInt64 : string → outcome Z;
  Add64 : Z → Z → outcome Z;
}.

(** Their documented behaviour: distinct addresses print differently and as
    more characters than they have bytes, an eight-byte big-endian word parses
    as its value, and [Add64] adds or reports the overflow. *)
Class ChainLibLaws `{!ChainLib} : Prop := {
  Address_String_inj :: Inj (=) (=) Address_String;
  Address_String_longer : ∀ a, slen a < slen (Address_String a);
  ParseUInt64_PutUint64 : ∀ x, is_u64 x → ParseUInt64 (PutUint64 x) = Ok x;
  Add64_spec : ∀ x y, is_u64 x → is_u64 y →
    (x + y < 2 ^ 64 → Add64 x y = Ok (x + y)) ∧
    (2 ^ 64 ≤ x + y → ∃ e, Add64 x y = Err e);
}.

(** An instance for evaluating the definitions: addresses print in hexadecimal. *)
#[local] Instance hex_ChainLib : ChainLib := {
  Address_String a := "0x" +s+ hex a;
  ParseUInt64 s := if bool_decide (String.length s = 8%nat) then Ok (Uint64 s) else Err (Errorf "expected 8 bytes");
  Add64 x y := if 2 ^ 64 <=? x + y then Err (Sentinel "math" "ErrOverflow") else Ok (x + y);
}.

Lemma length_hex s : String.length (hex s) = (2 * String.length s)%nat.
Proof. induction s as [|a s IH]; [done|]. cbn [hex String.length]. rewrite IH. lia. Qed.

#[local] Instance hex_ChainLibLaws : ChainLibLaws.
Proof.
  split.
  - intros a b H. apply hex_inj. by apply (app_inj_l_str "0x").
  - intros a. unfold slen. cbn [Address_String hex_ChainLib].
    rewrite length_app_str, length_hex. simpl String.length. lia.
  - intros x Hx. cbn [ParseUInt64 hex_ChainLib]. rewrite bool_decide_eq_true_2.
    + by rewrite Uint64_PutUint64.
    + apply length_be_put.
  - intros x y _ _. cbn [Add64 hex_ChainLib].
    destruct (Z.leb_spec (2 ^ 64) (x + y)); split; intros; try lia; eauto.
Qed.

(** * Key prefixes *)

Definition balancePrefix : ascii := Ascii.ascii_of_nat 0.
Definition heightPrefix : ascii := Ascii.ascii_of_nat 1.
Definition timestampPrefix : ascii := Ascii.ascii_of_nat 2.
Definition feePrefix : ascii := Ascii.ascii_of_nat 3.
Definition objectPrefix : ascii := Ascii.ascii_of_nat 4.
Definition eventPrefix : ascii := Ascii.ascii_of_nat 5.
Definition inputPrefix : ascii := Ascii.ascii_of_nat 6.
Definition regionPrefix : ascii := Ascii.ascii_of_nat 7.
Definition coordPrefix : ascii := Ascii.ascii_of_nat 8.

Definition heightKey : string := String heightPrefix "".
Definition timestampKey : string := String timestampPrefix "".
Definition feeKey : string := String feePrefix "".

Definition ErrInvalidCoordination := Sentinel "storage" "ErrInvalidCoordination".
Definition ErrInsufficientBalance := Sentinel "storage" "ErrInsufficientBalance".

Record TaskState : Type := mkTaskState {
  TS_Status : string;
  TS_Workers : list string;
  TS_Attestations : list (string * string);
  TS_Timestamp : string;
}.

(** [Tasks] is a Go map, nil when the decoded text has none. *)
Record CoordinationState : Type := mkCoordinationState {
  CS_Workers : list string;
  CS_Regions : list string;
  CS_Tasks : gomap TaskState;
}.

#[export] Instance TaskState_eq_dec : EqDecision TaskState.
Proof. solve_decision. Defined.
#[export] Instance TaskState_countable : Countable TaskState.
Proof.
  refine (inj_countable' (λ t, (TS_Status t, TS_Workers t, TS_Attestations t, TS_Timestamp t))
    (λ '(a, b, c, d), mkTaskState a b c d) _). by intros [].
Defined.
#[export] Instance CoordinationState_eq_dec : EqDecision CoordinationState.
Proof. solve_decision. Defined.
#[export] Instance CoordinationState_countable : Countable CoordinationState.
Proof.
  refine (inj_countable' (λ t, (CS_Workers t, CS_Regions t, CS_Tasks t))
    (λ '(a, b, c), mkCoordinationState a b c) _). by intros [].
Defined.

(** Worker ids are strings, also where they are made from the bytes of an enclave id;
    attestations are bytes. *)
#[export] Instance TaskState_Encodable : Encodable TaskState :=
  λ t, utf8 (TS_Status t) && forallb utf8 (TS_Workers t) && utf8 (TS_Timestamp t).
#[export] Instance CoordinationState_Encodable : Encodable CoordinationState :=
  λ s, forallb utf8 (CS_Workers s) && forallb utf8 (CS_Regions s) &&
       match CS_Tasks s with Some m => keys_utf8 m && forallb encodable (map_to_list m).*2 | None => true end.

(** * Keys *)

Definition makeKey (regionID : string) (prefix : ascii) (id : string) : string :=
  if bool_decide (regionID = "") then String prefix id
  else "r/" +s+ regionID +s+ "/" +s+ pretty (N_of_ascii prefix) +s+ "/" +s+ id.

Definition makeObjectKey (regionID id : string) : string := makeKey regionID objectPrefix id.

Definition EventKey (timestamp id : string) : string := String eventPrefix (timestamp +s+ id).

Definition makeEventKey (regionID timestamp id : string) : string :=
  if bool_decide (regionID = "") then EventKey timestamp id
  else makeKey regionID eventPrefix (timestamp +s+ "/" +s+ id).

Definition makeStateKey (regionID id : string) : string := makeKey regionID coordPrefix id.

Definition extractRegionFromKey (key : string) : string :=
  match Split slash key with
  | p0 :: p1 :: _ => if bool_decide (p0 = "r") then p1 else ""
  | _ => ""
  end.

Definition CoordinationKey (id : string) : string := String coordPrefix id.
Definition HeightKey : string := heightKey.
Definition TimestampKey : string := timestampKey.
Definition FeeKey : string := feeKey.
Definition ObjectKey (id : string) : string := String objectPrefix id.
Definition InputObjectKey : string := String inputPrefix "".
Definition RegionKey (id : string) : string := String regionPrefix id.

Definition BalanceKey `{!ChainLib} (addr : string) : string :=
  String balancePrefix (Address_String addr).

(** * Balances *)

Section balances.
Context {CL : ChainLib} {S : Type} `{!Mutable S}.

Definition GetBalance (addr : string) (r : S) : outcome Z :=
  match mu_GetValue (BalanceKey addr) r with
  | Err e => if errors_Is e ErrNotFound then Ok 0 else Err e
  | Ok val => if slen val <? 8 then Err (Errorf "corrupt balance data") else Ok (Uint64 val)
  | Panic w => Panic w
  | Hang w => Hang w
  end.

Definition setBalance (key : string) (balance : Z) : go S unit :=
  mu_Insert key (PutUint64 balance).

Definition SetBalance (addr : string) (balance : Z) : go S unit :=
  setBalance (BalanceKey addr) balance.

Definition getBalance (addr : string) : go S Z := λ s, (s, GetBalance addr s).

Definition AddBalance (addr : string) (amount : Z) : go S Z :=
  balance ← getBalance addr;
  let newBalance := u64_add balance amount in
  fail_if (newBalance <? balance) (Errorf "balance overflow") ;;
  SetBalance addr newBalance ;;
  mret newBalance.

Definition SubBalance (addr : string) (amount : Z) : go S Z :=
  oldBal ← getBalance addr;
  fail_if (oldBal <? amount) ErrInsufficientBalance ;;
  let newBal := u64_sub oldBal amount in
  if newBal =? 0 then (mu_Remove (BalanceKey addr) ;; mret 0)
  else (SetBalance addr newBal ;; mret newBal).

(** [ReadState]: one read per key, values and errors side by side. *)
Definition innerGetBalance (v : string + goerr) : outcome (Z * bool) :=
  match v with
  | inr e => if errors_Is e ErrNotFound then Ok (0, false) else Err e
  | inl b => match ParseUInt64 b with
             | Ok x => Ok (x, true)
             | Err e => Err e
             | Panic w => Panic w
             | Hang w => Hang w
             end
  end.

Definition GetBalanceFromState (f : list string → list (string + goerr)) (addr : string) : outcome Z :=
  match f [BalanceKey addr] with
  | v :: _ => match innerGetBalance v with
              | Ok (bal, _) => Ok bal
              | Err e => Err e
              | Panic w => Panic w
              | Hang w => Hang w
              end
  | [] => Panic "index out of range"
  end.
End balances.

(** * Records *)

Section records.
Context {S : Type} `{!Mutable S}.
Context `{!Json (gomap string), !Json (gomap json), !Json CoordinationState}.

(** [v, err := im.GetValue(k)]: absent is nil without error. *)
Definition get_json {A} `{!Json A} (absent : A) (k : string) : go S A :=
  r ← try (getValue k);
  match r with
  | inr e => if errors_Is e ErrNotFound then mret absent else fail e
  | inl v => lift (Unmarshal v)
  end.

Definition GetCoordinationState : go S CoordinationState :=
  get_json (mkCoordinationState [] [] (Some ∅)) (String coordPrefix "").

Definition SetCoordinationState (state : CoordinationState) : go S unit :=
  mu_Insert (String coordPrefix "") (Marshal state).

Definition GetObject (id regionID : string) : go S (gomap string) :=
  get_json (A := gomap string) None (makeObjectKey regionID id).

Definition SetObject (id : string) (obj : gomap string) (coordState : option CoordinationState)
    (regionID : string) : go S unit :=
  mu_Insert (makeObjectKey regionID id) (Marshal obj) ;;
  match coordState with
  | Some cs => SetCoordinationState cs
  | None => mret tt
  end.

Definition UpdateTaskState (taskID status : string) (workers : list string)
    (attestations : list (string * string)) : go S unit :=
  state ← GetCoordinationState;
  tasks ← lift (map_assign (CS_Tasks state) taskID
                  (mkTaskState status workers attestations timestampKey));
  SetCoordinationState (mkCoordinationState (CS_Workers state) (CS_Regions state) (Some tasks)).

(** The JSON of an attestation and of the pair. *)
Definition attestation_json (a : TEEAttestation) : json :=
  JObj [("enclave_id", JStr (base64 (EnclaveID a))); ("measurement", JStr (base64 (Measurement a)));
        ("timestamp", JStr (FormatNano (Timestamp a))); ("data", JStr (base64 (Data a)));
        ("signature", JStr (base64 (Signature a))); ("region_proof", JStr (base64 (RegionProof a)))].

Definition attestations_json (p : TEEAttestation * TEEAttestation) : json :=
  JArr [attestation_json p.1; attestation_json p.2].

Definition QueueEvent (id functionCall parameters : string)
    (attestations : TEEAttestation * TEEAttestation)
    (coordState : option CoordinationState) (regionID : string) : go S unit :=
  let timestamp := Format (Timestamp attestations.1) in
  let event : gmap string json :=
    {[ "function_call" := JStr functionCall; "parameters" := JStr (base64 parameters);
       "attestations" := attestations_json attestations ]} in
  mu_Insert (makeEventKey regionID timestamp id) (Marshal (Some event)) ;;
  match coordState with
  | None => mret tt
  | Some _ =>
      let taskID := "event:" +s+ id +s+ ":" +s+ TimeString (Timestamp attestations.1) in
      let workers := [EnclaveID attestations.1; EnclaveID attestations.2] in
      UpdateTaskState taskID "pending" workers [(EnclaveID attestations.1, EnclaveID attestations.2)]
  end.

Definition GetEvent (timestamp id : string) : go S (gomap json) :=
  get_json (A := gomap json) None (EventKey timestamp id).

Definition GetInputObject : go S string :=
  r ← try (getValue InputObjectKey);
  match r with
  | inr e => if errors_Is e ErrNotFound then mret "" else fail e
  | inl v => mret v
  end.

Definition SetInputObject (id : string) : go S unit := mu_Insert InputObjectKey id.

Definition GetRegion (id : string) : go S (gomap json) :=
  get_json (A := gomap json) None (RegionKey id).

Definition SetRegion (id : string) (region : gomap json) : go S unit :=
  mu_Insert (RegionKey id) (Marshal region).
End records.

(** A range over a map visits its entries in an arbitrary order, given here as
    the list of entries. *)
Definition ValidateCoordinationState (state : option CoordinationState)
    (order : list (string * TaskState)) : verdict :=
  match state with
  | None => Err ErrInvalidCoordination
  | Some st =>
      check (Z.of_nat (length (CS_Workers st)) <? 2)
        (Wrapf "insufficient workers" ErrInvalidCoordination) ;;
      (fix go_tasks (l : list (string * TaskState)) : verdict :=
         match l with
         | [] => Ok tt
         | (taskID, task) :: l' =>
             check (Z.of_nat (length (TS_Workers task)) <? 2)
               (Wrapf ("insufficient workers for task " +s+ taskID) ErrInvalidCoordination) ;;
             check (Z.of_nat (length (TS_Attestations task)) =? 0)
               (Wrapf ("missing attestations for task " +s+ taskID) ErrInvalidCoordination) ;;
             go_tasks l'
         end) order
  end.

(** * The ledger the balances implement

    The abstract state is a function from addresses to amounts.  The flat
    state represents it when every balance record has its eight bytes. *)

Section ledger.
Context {CL : ChainLib} {CLL : ChainLibLaws}.

Definition balance_of (m : gmap string string) (addr : string) : Z :=
  match m !! BalanceKey addr with Some v => Uint64 v | None => 0 end.

Definition balances_wf (m : gmap string string) : Prop :=
  ∀ addr v, m !! BalanceKey addr = Some v → 8 ≤ slen v.

Lemma BalanceKey_inj a b : BalanceKey a = BalanceKey b → a = b.
Proof. unfold BalanceKey. intros [= H]. by apply (inj Address_String). Qed.

Lemma is_u64_balance_of m a : is_u64 (balance_of m a).
Proof. unfold balance_of. destruct (m !! _); [auto with go_db|]. cbv; split; congruence. Qed.

Lemma balance_of_insert m a b x :
  is_u64 x →
  balance_of (<[BalanceKey a := PutUint64 x]> m) b = if bool_decide (a = b) then x else balance_of m b.
Proof.
  intros Hx. unfold balance_of. case_bool_decide as H.
  - subst b. rewrite lookup_insert_eq. by apply Uint64_PutUint64.
  - rewrite lookup_insert_ne; [done|]. intros E. by apply H, BalanceKey_inj.
Qed.

Lemma balance_of_delete m a b :
  balance_of (delete (BalanceKey a) m) b = if bool_decide (a = b) then 0 else balance_of m b.
Proof.
  unfold balance_of. case_bool_decide as H.
  - subst b. by rewrite lookup_delete_eq.
  - rewrite lookup_delete_ne; [done|]. intros E. by apply H, BalanceKey_inj.
Qed.

Lemma balances_wf_insert m a x :
  balances_wf m → balances_wf (<[BalanceKey a := PutUint64 x]> m).
Proof.
  intros Hm b v. destruct (decide (BalanceKey a = BalanceKey b)) as [E|E].
  - rewrite E, lookup_insert_eq. intros [= <-]. unfold slen, PutUint64. rewrite length_be_put. lia.
  - rewrite lookup_insert_ne by done. apply Hm.
Qed.

Lemma balances_wf_delete m k : balances_wf m → balances_wf (delete k m).
Proof. intros Hm b v [_ H]%lookup_delete_Some. eauto. Qed.

Context {S : Type} `{!Mutable S, !KVLaws S}.
Implicit Types (s : S).

(** [GetBalance] reads the ledger. *)
Lemma GetBalance_ledger addr s :
  balances_wf (contents s) → GetBalance addr s = Ok (balance_of (contents s) addr).
Proof.
  intros Hwf. unfold GetBalance, balance_of. rewrite mu_GetValue_contents.
  destruct (contents s !! BalanceKey addr) as [v|] eqn:E; [|done].
  specialize (Hwf addr v E). destruct (Z.ltb_spec (slen v) 8); [lia|done].
Qed.

(** The ledger a credit or a debit leads to. *)
Definition credited (m : gmap string string) (addr : string) (amount : Z) : gmap string string :=
  <[BalanceKey addr := PutUint64 (balance_of m addr + amount)]> m.

Definition debited (m : gmap string string) (addr : string) (amount : Z) : gmap string string :=
  if balance_of m addr =? amount then delete (BalanceKey addr) m
  else <[BalanceKey addr := PutUint64 (balance_of m addr - amount)]> m.

Lemma balance_of_credited m a b amount :
  is_u64 (balance_of m a + amount) →
  balance_of (credited m a amount) b =
    if bool_decide (a = b) then balance_of m a + amount else balance_of m b.
Proof. intros H. unfold credited. by rewrite balance_of_insert. Qed.

Lemma balance_of_debited m a b amount :
  0 ≤ amount ≤ balance_of m a →
  balance_of (debited m a amount) b =
    if bool_decide (a = b) then balance_of m a - amount else balance_of m b.
Proof.
  intros H. unfold debited. destruct (Z.eqb_spec (balance_of m a) amount) as [E|E].
  - rewrite balance_of_delete. case_bool_decide; [lia|done].
  - apply balance_of_insert. pose proof (is_u64_balance_of m a). unfold is_u64 in *. lia.
Qed.

Lemma balances_wf_credited m a x : balances_wf m → balances_wf (credited m a x).
Proof. apply balances_wf_insert. Qed.

Lemma balances_wf_debited m a x : balances_wf m → balances_wf (debited m a x).
Proof.
  intros H. unfold debited. destruct (_ =? _); auto using balances_wf_insert, balances_wf_delete.
Qed.

Lemma AddBalance_fits addr amount s :
  balances_wf (contents s) → is_u64 amount →
  balance_of (contents s) addr + amount < 2 ^ 64 →
  ∃ s', AddBalance addr amount s = (s', Ok (balance_of (contents s) addr + amount))
        ∧ contents s' = credited (contents s) addr amount.
Proof.
  intros Hwf Ha Hfit. pose proof (is_u64_balance_of (contents s) addr) as Hb.
  unfold AddBalance, getBalance. go_unfold. rewrite GetBalance_ledger by done.
  rewrite u64_add_overflow by done.
  destruct (Z.leb_spec (2 ^ 64) (balance_of (contents s) addr + amount)); [lia|].
  unfold SetBalance, setBalance.
  destruct (mu_Insert_run (BalanceKey addr) (PutUint64 (u64_add (balance_of (contents s) addr) amount)) s)
    as (s' & -> & Hs').
  unfold is_u64 in *. unfold u64_add in *. rewrite u64_small in * by (unfold is_u64; lia).
  by exists s'.
Qed.

Lemma AddBalance_overflow addr amount s :
  balances_wf (contents s) → is_u64 amount →
  2 ^ 64 ≤ balance_of (contents s) addr + amount →
  AddBalance addr amount s = (s, Err (Errorf "balance overflow")).
Proof.
  intros Hwf Ha Hbig. pose proof (is_u64_balance_of (contents s) addr) as Hb.
  unfold AddBalance, getBalance. go_unfold. rewrite GetBalance_ledger by done.
  rewrite u64_add_overflow by done.
  by destruct (Z.leb_spec (2 ^ 64) (balance_of (contents s) addr + amount)); [|lia].
Qed.

Lemma SubBalance_enough addr amount s :
  balances_wf (contents s) → 0 ≤ amount ≤ balance_of (contents s) addr →
  ∃ s', SubBalance addr amount s = (s', Ok (balance_of (contents s) addr - amount))
        ∧ contents s' = debited (contents s) addr amount.
Proof.
  intros Hwf Ha. pose proof (is_u64_balance_of (contents s) addr) as Hb.
  unfold SubBalance, getBalance. go_unfold. rewrite GetBalance_ledger by done.
  destruct (Z.ltb_spec (balance_of (contents s) addr) amount); [lia|].
  unfold u64_sub, debited. rewrite u64_small by (unfold is_u64 in *; lia).
  destruct (Z.eqb_spec (balance_of (contents s) addr - amount) 0) as [E|E].
  - destruct (mu_Remove_run (BalanceKey addr) s) as (s' & -> & Hs').
    rewrite (proj2 (Z.eqb_eq _ _)) by lia. exists s'. by rewrite E.
  - unfold SetBalance, setBalance.
    destruct (mu_Insert_run (BalanceKey addr) (PutUint64 (balance_of (contents s) addr - amount)) s)
      as (s' & -> & Hs').
    rewrite (proj2 (Z.eqb_neq _ _)) by lia. by exists s'.
Qed.

Lemma SubBalance_insufficient addr amount s :
  balances_wf (contents s) → balance_of (contents s) addr < amount →
  SubBalance addr amount s = (s, Err ErrInsufficientBalance).
Proof.
  intros Hwf Ha. unfold SubBalance, getBalance. go_unfold. rewrite GetBalance_ledger by done.
  by rewrite (proj2 (Z.ltb_lt _ _) Ha).
Qed.
End ledger.

#[export] Hint Resolve balances_wf_credited balances_wf_debited is_u64_balance_of : go_db.

(** * Keys of different kinds and regions *)

Lemma makeKey_regional regionID prefix id :
  regionID ≠ "" →
  makeKey regionID prefix id =
    "r" +s+ String slash (regionID +s+ String slash
      (pretty (N_of_ascii prefix) +s+ String slash id)).
Proof. intros H. unfold makeKey. by rewrite bool_decide_eq_false_2. Qed.

Lemma makeKey_inj prefix r r' id id' :
  prefix ≠ "r"%char → contains slash r = false → contains slash r' = false →
  makeKey r prefix id = makeKey r' prefix id' → r = r' ∧ id = id'.
Proof.
  intros Hp Hr Hr' H.
  destruct (decide (r = "")) as [->|Hne], (decide (r' = "")) as [->|Hne'];
    try (rewrite (makeKey_regional r) in H by done);
    try (rewrite (makeKey_regional r') in H by done).
  - by injection H as ->.
  - injection H as ? _. done.
  - injection H as ? _. done.
  - apply (app_inj_l_str "r") in H. injection H as H.
    apply (sep_inj slash) in H as [-> H]; [|done..].
    apply app_inj_l_str in H. by injection H as ->.
Qed.

(** A key that starts with one of the flat prefixes is never a regional key,
    nor the key of another kind. *)
Lemma makeKey_not_flat r prefix prefix' id x :
  prefix' ≠ "r"%char → prefix ≠ prefix' → makeKey r prefix id ≠ String prefix' x.
Proof.
  intros Hp Hne H. destruct (decide (r = "")) as [->|Hr].
  - by injection H.
  - rewrite makeKey_regional in H by done. injection H as ? _. congruence.
Qed.

(** The region written into a key is the region read back from it, so a
    record of one region is never attributed to another. *)
Theorem extractRegionFromKey_makeKey regionID prefix id :
  regionID ≠ "" → contains slash regionID = false →
  extractRegionFromKey (makeKey regionID prefix id) = regionID.
Proof.
  intros Hne Hr. rewrite makeKey_regional by done. unfold extractRegionFromKey.
  by rewrite (Split_app slash "r"), (Split_app _ _ _ Hr).
Qed.

Lemma extractRegionFromKey_makeKey_witness :
  extractRegionFromKey (makeKey "eu-west" objectPrefix "a/b") = "eu-west".
Proof. apply extractRegionFromKey_makeKey; done. Defined.

Section records_theory.
Context {S : Type} `{!Mutable S, !KVLaws S}.
Context `{!Json (gomap string), !Json (gomap json), !Json CoordinationState}.
Context `{!JsonLaws (gomap string), !JsonLaws (gomap json), !JsonLaws CoordinationState}.
Implicit Types (s : S).

Lemma get_json_run {A} `{!Json A} (absent : A) k s :
  get_json absent k s =
    (s, match contents s !! k with None => Ok absent | Some v => Unmarshal v end).
Proof.
  unfold get_json, getValue. go_unfold. rewrite mu_GetValue_contents.
  by destruct (contents s !! k).
Qed.

Lemma SetCoordinationState_run cs s :
  ∃ s', SetCoordinationState cs s = (s', Ok tt) ∧
        contents s' = <[String coordPrefix "" := Marshal cs]> (contents s).
Proof. apply mu_Insert_run. Qed.

(** What [SetObject] leaves in the store. *)
Lemma SetObject_run id obj cs r s :
  ∃ s', SetObject id obj cs r s = (s', Ok tt) ∧
    contents s' =
      match cs with
      | Some c => <[String coordPrefix "" := Marshal c]> (<[makeObjectKey r id := Marshal obj]> (contents s))
      | None => <[makeObjectKey r id := Marshal obj]> (contents s)
      end.
Proof.
  unfold SetObject. destruct (mu_Insert_run (makeObjectKey r id) (Marshal obj) s) as (s1 & H1 & C1).
  rewrite (bind_ok _ _ _ _ _ H1). destruct cs as [c|]; [|by exists s1].
  destruct (SetCoordinationState_run c s1) as (s2 & H2 & C2). exists s2. by rewrite C2, C1.
Qed.

(** An object read back is the object stored under that region and id, its field names
    being UTF-8, and storing one leaves every other object of every region as it was. *)
Theorem SetObject_GetObject id obj cs r s s' id' r' :
  contains slash r = false → contains slash r' = false → encodable obj = true →
  SetObject id obj cs r s = (s', Ok tt) →
  (GetObject id' r' s').2 =
    if bool_decide (r = r' ∧ id = id') then Ok obj else (GetObject id' r' s).2.
Proof.
  intros Hr Hr' He H. destruct (SetObject_run id obj cs r s) as (s1 & H1 & Hs').
  rewrite H1 in H. injection H as <-. unfold GetObject. rewrite !get_json_run. simpl.
  assert (contents s1 !! makeObjectKey r' id' =
          <[makeObjectKey r id := Marshal obj]> (contents s) !! makeObjectKey r' id') as ->.
  { rewrite Hs'. destruct cs as [c|]; [|done]. rewrite lookup_insert_ne; [done|].
    apply not_eq_sym. by apply makeKey_not_flat. }
  case_bool_decide as E.
  - destruct E as [<- <-]. rewrite lookup_insert_eq. by apply Unmarshal_Marshal.
  - rewrite lookup_insert_ne; [done|]. intros HK. by apply E, (makeKey_inj objectPrefix).
Qed.

(** A task update on a store whose coordination state has a map of tasks. *)
Lemma UpdateTaskState_run taskID status workers atts s st tasks :
  (GetCoordinationState s).2 = Ok st → CS_Tasks st = Some tasks →
  ∃ s', UpdateTaskState taskID status workers atts s = (s', Ok tt) ∧
    contents s' = <[String coordPrefix "" := Marshal (mkCoordinationState (CS_Workers st) (CS_Regions st)
      (Some (<[taskID := mkTaskState status workers atts timestampKey]> tasks)))]> (contents s).
Proof.
  intros Hst Ht. unfold UpdateTaskState. unfold GetCoordinationState in *.
  rewrite get_json_run in Hst. simpl in Hst. erewrite bind_ok; [|rewrite get_json_run, Hst; done].
  unfold map_assign. rewrite Ht.
  match goal with |- ∃ _, (lift (Ok ?x) ≫= _) s = _ ∧ _ => rewrite (bind_ok _ _ s s x) by done end.
  apply SetCoordinationState_run.
Qed.
Lemma makeEventKey_not_coord r ts id : makeEventKey r ts id ≠ String coordPrefix "".
Proof.
  unfold makeEventKey. case_bool_decide; [done|]. by apply makeKey_not_flat.
Qed.

(** The event record [QueueEvent] writes. *)
Definition event_record (functionCall parameters : string)
    (attestations : TEEAttestation * TEEAttestation) : gmap string json :=
  {[ "function_call" := JStr functionCall; "parameters" := JStr (base64 parameters);
     "attestations" := attestations_json attestations ]}.

(** The state with the task of a queued event. *)
Definition with_event_task (id : string) (atts : TEEAttestation * TEEAttestation) (tasks : gmap string TaskState)
    (st : CoordinationState) : CoordinationState :=
  mkCoordinationState (CS_Workers st) (CS_Regions st)
    (Some (<["event:" +s+ id +s+ ":" +s+ TimeString (Timestamp atts.1) :=
             mkTaskState "pending" [EnclaveID atts.1; EnclaveID atts.2]
               [(EnclaveID atts.1, EnclaveID atts.2)] timestampKey]> tasks)).

(** Queueing an event with a coordination state stores the event and marks
    its task pending for the two attesting enclaves, keeping the other tasks (as they
    read back when the ids involved are UTF-8);
    when the stored coordination state has no task map the call panics, with
    the event already written. *)
Theorem QueueEvent_task id fc params atts cs r s st :
  (GetCoordinationState s).2 = Ok st →
  let run := QueueEvent id fc params atts (Some cs) r s in
  contents run.1 !! makeEventKey r (Format (Timestamp atts.1)) id =
    Some (Marshal (Some (event_record fc params atts))) ∧
  match CS_Tasks st with
  | Some tasks =>
      run.2 = Ok tt ∧
      (encodable (with_event_task id atts tasks st) = true →
       (GetCoordinationState run.1).2 = Ok (with_event_task id atts tasks st))
  | None => run.2 = Panic "assignment to entry in nil map"
  end.
Proof.
  intros Hst run. unfold run, QueueEvent. clear run. cbv zeta.
  set (k := makeEventKey r (Format (Timestamp atts.1)) id).
  assert (k ≠ String coordPrefix "") as Hk by apply makeEventKey_not_coord.
  destruct (mu_Insert_run k (Marshal (Some (event_record fc params atts))) s) as (s1 & H1 & C1).
  unfold event_record in H1 at 1. rewrite (bind_ok _ _ _ _ _ H1).
  assert ((GetCoordinationState s1).2 = Ok st) as Hst1.
  { unfold GetCoordinationState in *. rewrite get_json_run in *. simpl in *.
    by rewrite C1, lookup_insert_ne by done. }
  destruct (CS_Tasks st) as [tasks|] eqn:Ht.
  - edestruct UpdateTaskState_run as (s2 & H2 & C2); [exact Hst1|exact Ht|]. rewrite H2. simpl.
    split; [|split; [done|]].
    + by rewrite C2, lookup_insert_ne, C1, lookup_insert_eq by done.
    + intros He. unfold GetCoordinationState. rewrite get_json_run. simpl.
      rewrite C2, lookup_insert_eq. exact (Unmarshal_Marshal _ He).
  - unfold UpdateTaskState. unfold GetCoordinationState in *. rewrite get_json_run in Hst1.
    simpl in Hst1. erewrite bind_ok; [|rewrite get_json_run, Hst1; done].
    rewrite Ht. simpl. by rewrite C1, lookup_insert_eq.
Qed.
End records_theory.

#[local] Instance obj_Json : Json (gomap string) := countable_Json (gomap string).
#[local] Instance obj_JsonLaws : JsonLaws (gomap string) := countable_JsonLaws (gomap string).
#[local] Instance json_Json : Json (gomap json) := countable_Json (gomap json).
#[local] Instance json_JsonLaws : JsonLaws (gomap json) := countable_JsonLaws (gomap json).
#[local] Instance coord_Json : Json CoordinationState := countable_Json CoordinationState.
#[local] Instance coord_JsonLaws : JsonLaws CoordinationState := countable_JsonLaws CoordinationState.

Lemma SetObject_GetObject_witness :
  (GetObject "o1" "eu" (SetObject "o1" (Some {["code" := "\x01"]}) None "eu" (∅ : gmap string string)).1).2
    = Ok (Some {["code" := "\x01"]}).
Proof.
  apply (SetObject_GetObject (S := gmap string string) "o1" (Some {["code" := "\x01"]}) None "eu" ∅ _ "o1" "eu");
    reflexivity.
Defined.

(** A clock reading and an attestation to evaluate the definitions with. *)
Definition sample_time : Time := fromUnix 1700000000.
Definition sample_att (enclave : string) : TEEAttestation :=
  mkAttestation enclave "m" sample_time "d" "s" "p".

(** The first event on an empty store: its task is recorded. *)
Lemma QueueEvent_task_witness :
  let run := QueueEvent "o1" "f" "x" (sample_att "sgx", sample_att "sev")
    (Some (mkCoordinationState [] [] None)) "" (∅ : gmap string string) in
  run.2 = Ok tt ∧
  (GetCoordinationState run.1).2 = Ok (mkCoordinationState [] []
    (Some {["event:o1:2023-11-14 22:13:20 +0000 UTC" :=
       mkTaskState "pending" ["sgx"; "sev"] [("sgx", "sev")] timestampKey]})).
Proof.
  destruct (QueueEvent_task (S := gmap string string) "o1" "f" "x" (sample_att "sgx", sample_att "sev")
    (mkCoordinationState [] [] None) "" ∅ (mkCoordinationState [] [] (Some ∅))) as (_ & Hok & Hst);
    [reflexivity|].
  split; [exact Hok|]. apply Hst. vm_compute. reflexivity.
Defined.
