(* ===== verification/Transfer.v ===== *)
(** [actions/transfer.go]: the token transfer action, run against any
    [state.Mutable], and the ledger it implements. *)

From S2P Require Import Prelude GoTime KV Core Storage.
From Stdlib Require Import ZArith Lia Ascii String.
From stdpp Require Import base tactics option list strings pretty gmap.

Local Open Scope Z_scope.

(** hypersdk's key permissions, as the state keys of an action name them. *)
Inductive perm : Type := PRead | PWrite | PReadWrite | PAll.

Definition TransferComputeUnits : Z := 1.
Definition MaxMemoSize : Z := 256.

Definition ErrOutputValueZero := Sentinel "actions" "ErrOutputValueZero".
Definition ErrOutputMemoTooLarge := Sentinel "actions" "ErrOutputMemoTooLarge".

(** [TransferID], [iota] of the action ids. *)
Definition TransferID : Z := 0.

Record Transfer : Type := mkTransfer {
  To : string;
  Value : Z;
  Memo : string;
}.

Record TransferResult : Type := mkTransferResult {
  SenderBalance : Z;
  ReceiverBalance : Z;
}.

Section transfer.
Context {CL : ChainLib} {S : Type} `{!Mutable S}.

Definition Transfer_GetTypeID (t : Transfer) : Z := TransferID.

Definition Transfer_StateKeys (t : Transfer) (actor : string) : gmap string perm :=
  <[BalanceKey (To t) := PAll]> {[BalanceKey actor := PReadWrite]}.

Definition Transfer_Execute (t : Transfer) (actor : string) : go S TransferResult :=
  fail_if (Value t =? 0) ErrOutputValueZero ;;
  fail_if (MaxMemoSize <? slen (Memo t)) ErrOutputMemoTooLarge ;;
  senderBalance ← SubBalance actor (Value t);
  receiverBalance ← AddBalance (To t) (Value t);
  mret (mkTransferResult senderBalance receiverBalance).

Definition Transfer_ComputeUnits (t : Transfer) : Z := TransferComputeUnits.
Definition Transfer_ValidRange (t : Transfer) : Z * Z := (-1, -1).
End transfer.

Section theory.
Context {CL : ChainLib} {CLL : ChainLibLaws} {S : Type} `{!Mutable S, !KVLaws S}.
Implicit Types (s : S) (t : Transfer).

(** The ledger after a transfer: the debit, then the credit on its result. *)
Definition transferred (m : gmap string string) (actor to : string) (v : Z) : gmap string string :=
  credited (debited m actor v) to v.

Lemma balance_of_transferred m actor to v a :
  0 ≤ v ≤ balance_of m actor → is_u64 (balance_of (debited m actor v) to + v) →
  balance_of (transferred m actor to v) a =
    balance_of m a - (if bool_decide (actor = a) then v else 0)
                   + (if bool_decide (to = a) then v else 0).
Proof.
  intros Hv Hu. unfold transferred. rewrite balance_of_credited by done.
  rewrite !balance_of_debited by done. repeat case_bool_decide; subst; done || lia.
Qed.

Lemma Transfer_Execute_run t actor s :
  balances_wf (contents s) → is_u64 (Value t) → Value t ≠ 0 → slen (Memo t) ≤ MaxMemoSize →
  Value t ≤ balance_of (contents s) actor →
  let m1 := debited (contents s) actor (Value t) in
  if balance_of m1 (To t) + Value t <? 2 ^ 64
  then ∃ s', Transfer_Execute t actor s =
               (s', Ok (mkTransferResult (balance_of (contents s) actor - Value t)
                                         (balance_of m1 (To t) + Value t)))
             ∧ contents s' = transferred (contents s) actor (To t) (Value t)
  else ∃ s', Transfer_Execute t actor s = (s', Err (Errorf "balance overflow"))
             ∧ contents s' = m1.
Proof.
  intros Hwf Hv Hz Hm Hb m1.
  unfold Transfer_Execute.
  rewrite (proj2 (Z.eqb_neq _ _) Hz), (proj2 (Z.ltb_ge _ _) Hm).
  rewrite !(bind_ok (fail_if false _) _ s s tt) by done.
  destruct (SubBalance_enough actor (Value t) s) as (s1 & H1 & C1);
    [done|unfold is_u64 in Hv; lia|].
  rewrite (bind_ok _ _ _ _ _ H1).
  assert (balances_wf (contents s1)) as Hwf1 by (rewrite C1; auto with go_db).
  unfold m1. rewrite <-C1. destruct (Z.ltb_spec (balance_of (contents s1) (To t) + Value t) (2 ^ 64)).
  - destruct (AddBalance_fits (To t) (Value t) s1) as (s2 & H2 & C2); [done..|].
    rewrite (bind_ok _ _ _ _ _ H2). exists s2. split; [done|].
    unfold transferred. by rewrite C2, C1.
  - exists s1. by rewrite (bind_err _ _ _ _ _ (AddBalance_overflow (To t) (Value t) s1 Hwf1 Hv H)).
Qed.

Lemma Transfer_Execute_rejects t actor s :
  balances_wf (contents s) →
  (Value t = 0 → Transfer_Execute t actor s = (s, Err ErrOutputValueZero)) ∧
  (Value t ≠ 0 → MaxMemoSize < slen (Memo t) →
     Transfer_Execute t actor s = (s, Err ErrOutputMemoTooLarge)) ∧
  (Value t ≠ 0 → slen (Memo t) ≤ MaxMemoSize → balance_of (contents s) actor < Value t →
     Transfer_Execute t actor s = (s, Err ErrInsufficientBalance)).
Proof.
  intros Hwf. unfold Transfer_Execute. repeat split; intros.
  - by rewrite (proj2 (Z.eqb_eq _ _)).
  - by rewrite (proj2 (Z.eqb_neq _ _)), (proj2 (Z.ltb_lt _ _)).
  - rewrite (proj2 (Z.eqb_neq _ _)), (proj2 (Z.ltb_ge _ _)) by done.
    rewrite !(bind_ok (fail_if false _) _ s s tt) by done.
    by rewrite (bind_err _ _ _ _ _ (SubBalance_insufficient actor (Value t) s ltac:(done) ltac:(done))).
Qed.

(** A successful transfer passed every check. *)
Lemma Transfer_Execute_ok t actor s s' r :
  balances_wf (contents s) → is_u64 (Value t) →
  Transfer_Execute t actor s = (s', Ok r) →
  let m1 := debited (contents s) actor (Value t) in
  0 < Value t ≤ balance_of (contents s) actor ∧
  slen (Memo t) ≤ MaxMemoSize ∧
  balance_of m1 (To t) + Value t < 2 ^ 64 ∧
  r = mkTransferResult (balance_of (contents s) actor - Value t) (balance_of m1 (To t) + Value t) ∧
  contents s' = transferred (contents s) actor (To t) (Value t).
Proof.
  intros Hwf Hv Hrun m1. pose proof (Transfer_Execute_rejects t actor s Hwf) as (R1 & R2 & R3).
  destruct (decide (Value t = 0)) as [E|E]; [by rewrite R1 in Hrun|].
  destruct (Z.le_gt_cases (slen (Memo t)) MaxMemoSize) as [Hm|Hm]; [|rewrite R2 in Hrun by lia; done].
  destruct (Z.le_gt_cases (Value t) (balance_of (contents s) actor)) as [Hb|Hb];
    [|rewrite R3 in Hrun by lia; done].
  pose proof (Transfer_Execute_run t actor s Hwf Hv E Hm Hb) as Hr. cbv zeta in Hr. fold m1 in Hr.
  destruct (Z.ltb_spec (balance_of m1 (To t) + Value t) (2 ^ 64)) as [Hf|Hf];
    destruct Hr as (s1 & H1 & C1); rewrite H1 in Hrun; simplify_eq.
  unfold is_u64 in Hv. repeat split; try done; lia.
Qed.

(** The sum of the balances of a list of accounts. *)
Definition total (m : gmap string string) (accounts : list string) : Z :=
  foldr (λ a acc, balance_of m a + acc) 0 accounts.

Lemma bool_decide_elem_cons (x a : string) (l : list string) :
  bool_decide (x ∈ a :: l) = bool_decide (x = a) || bool_decide (x ∈ l).
Proof. apply eq_bool_prop_intro. rewrite orb_True, !bool_decide_spec. apply elem_of_cons. Qed.

Lemma total_transferred m actor to v accounts :
  0 ≤ v ≤ balance_of m actor → is_u64 (balance_of (debited m actor v) to + v) →
  NoDup accounts →
  total (transferred m actor to v) accounts =
    total m accounts - (if bool_decide (actor ∈ accounts) then v else 0)
                     + (if bool_decide (to ∈ accounts) then v else 0).
Proof.
  intros Hv Hu. induction 1 as [|a l Ha Hl IH]; [simpl; lia|].
  cbn [total foldr]. fold (total (transferred m actor to v) l) (total m l).
  rewrite IH, balance_of_transferred by done.
  rewrite !bool_decide_elem_cons.
  repeat case_bool_decide; subst; simpl; contradiction || lia.
Qed.

(** C1: a transfer that succeeds moves exactly its value: the sender paid it and
    the receiver has it (nothing changes when they are the same account), every
    other account is as before, the total over any set of accounts holding both
    is unchanged, and the reported balances are the new ones. *)
Theorem Transfer_Execute_moves_value t actor s s' r accounts :
  balances_wf (contents s) → is_u64 (Value t) →
  Transfer_Execute t actor s = (s', Ok r) →
  NoDup accounts → actor ∈ accounts → To t ∈ accounts →
  0 < Value t ≤ balance_of (contents s) actor ∧
  (∀ a, balance_of (contents s') a =
      balance_of (contents s) a - (if bool_decide (actor = a) then Value t else 0)
                                + (if bool_decide (To t = a) then Value t else 0)) ∧
  total (contents s') accounts = total (contents s) accounts ∧
  ReceiverBalance r = balance_of (contents s') (To t) ∧
  (actor ≠ To t → SenderBalance r = balance_of (contents s') actor) ∧
  balances_wf (contents s').
Proof.
  intros Hwf Hv Hrun Hnd Ha Ht.
  destruct (Transfer_Execute_ok t actor s s' r Hwf Hv Hrun) as (Hb & Hm & Hf & -> & C).
  pose proof (is_u64_balance_of (debited (contents s) actor (Value t)) (To t)) as Hu.
  assert (is_u64 (balance_of (debited (contents s) actor (Value t)) (To t) + Value t)) as Hu'
    by (unfold is_u64 in *; lia).
  rewrite C. simpl. split_and!; try lia.
  - intros a. apply balance_of_transferred; [lia|done].
  - rewrite total_transferred by (done || lia). rewrite !bool_decide_eq_true_2 by done. lia.
  - unfold transferred. rewrite balance_of_credited by done. by rewrite bool_decide_eq_true_2.
  - intros Hne. rewrite balance_of_transferred by (done || lia).
    rewrite bool_decide_eq_true_2, bool_decide_eq_false_2 by done. lia.
  - unfold transferred. auto with go_db.
Qed.

(** C2: a funded transfer of a positive value with a short memo succeeds whenever
    the receiver's new balance fits in 64 bits; when it does not, the action
    fails after the sender was already debited in the state it was given. *)
Theorem Transfer_Execute_progress t actor s :
  balances_wf (contents s) → is_u64 (Value t) →
  0 < Value t ≤ balance_of (contents s) actor → slen (Memo t) ≤ MaxMemoSize →
  (actor = To t ∨ balance_of (contents s) (To t) + Value t < 2 ^ 64 →
     is_ok (Transfer_Execute t actor s).2 = true) ∧
  (actor ≠ To t → 2 ^ 64 ≤ balance_of (contents s) (To t) + Value t →
     (Transfer_Execute t actor s).2 = Err (Errorf "balance overflow") ∧
     balance_of (contents (Transfer_Execute t actor s).1) actor =
       balance_of (contents s) actor - Value t).
Proof.
  intros Hwf Hv Hb Hm.
  pose proof (Transfer_Execute_run t actor s Hwf Hv ltac:(lia) Hm ltac:(lia)) as Hr. cbv zeta in Hr.
  rewrite !balance_of_debited in Hr by lia.
  pose proof (is_u64_balance_of (contents s) actor) as Hu.
  split.
  - intros Hc. rewrite (proj2 (Z.ltb_lt _ _)) in Hr.
    + destruct Hr as (s' & -> & _). done.
    + unfold is_u64 in *. case_bool_decide; [subst; lia|]. destruct Hc as [->|Hc]; [done|lia].
  - intros Hne Ho. rewrite bool_decide_eq_false_2, (proj2 (Z.ltb_ge _ _)) in Hr by done || lia.
    destruct Hr as (s' & -> & C). simpl. split; [done|]. rewrite C.
    rewrite balance_of_debited by lia. by rewrite bool_decide_eq_true_2.
Qed.

(** C3: a transfer reads and writes only the keys it declares: the rest of the
    state is untouched on every outcome. *)
Theorem Transfer_Execute_within_StateKeys t actor s k :
  balances_wf (contents s) → is_u64 (Value t) → k ∉ dom (Transfer_StateKeys t actor) →
  contents (Transfer_Execute t actor s).1 !! k = contents s !! k.
Proof.
  intros Hwf Hv Hk. unfold Transfer_StateKeys in Hk.
  rewrite dom_insert_L, dom_singleton_L in Hk.
  assert (BalanceKey actor ≠ k ∧ BalanceKey (To t) ≠ k) as [Hk1 Hk2] by set_solver.
  assert (∀ m v, debited m actor v !! k = m !! k) as Hd.
  { intros m v. unfold debited. destruct (_ =? _);
      [by rewrite lookup_delete_ne|by rewrite lookup_insert_ne]. }
  pose proof (Transfer_Execute_rejects t actor s Hwf) as (R1 & R2 & R3).
  destruct (decide (Value t = 0)) as [E|E]; [by rewrite R1|].
  destruct (Z.le_gt_cases (slen (Memo t)) MaxMemoSize) as [Hm|Hm]; [|by rewrite R2].
  destruct (Z.le_gt_cases (Value t) (balance_of (contents s) actor)) as [Hb|Hb]; [|by rewrite R3].
  pose proof (Transfer_Execute_run t actor s Hwf Hv E Hm Hb) as Hr. cbv zeta in Hr.
  destruct (_ <? _); destruct Hr as (s1 & -> & C1); simpl; rewrite C1; [|by rewrite Hd].
  unfold transferred, credited. by rewrite lookup_insert_ne, Hd.
Qed.
End theory.

#[local] Existing Instances hex_ChainLib hex_ChainLibLaws.

(** A ledger with one account, to run the theorems on. *)
Definition sample_ledger : gmap string string := {[BalanceKey "alice" := PutUint64 10]}.
Definition sample_transfer : Transfer := mkTransfer "bob" 4 "rent".

Lemma sample_ledger_wf : balances_wf sample_ledger.
Proof. unfold sample_ledger. intros a v [_ <-]%lookup_singleton_Some. unfold slen, PutUint64. by rewrite length_be_put. Qed.

Lemma Transfer_Execute_moves_value_witness :
  let s' := (Transfer_Execute sample_transfer "alice" sample_ledger).1 in
  total s' ["alice"; "bob"] = 10 ∧ balance_of s' "alice" = 6.
Proof.
  destruct (Transfer_Execute_moves_value (S := gmap string string) sample_transfer "alice" sample_ledger
    (Transfer_Execute sample_transfer "alice" sample_ledger).1 (mkTransferResult 6 4) ["alice"; "bob"])
    as (_ & Hb & Ht & _).
  - apply sample_ledger_wf.
  - done.
  - vm_compute. reflexivity.
  - repeat constructor; set_solver.
  - set_solver.
  - set_solver.
  - split; [exact Ht|]. exact (Hb "alice").
Defined.

Lemma Transfer_Execute_progress_witness :
  is_ok (Transfer_Execute sample_transfer "alice" sample_ledger).2 = true.
Proof.
  apply (Transfer_Execute_progress (S := gmap string string) sample_transfer "alice" sample_ledger).
  - apply sample_ledger_wf.
  - done.
  - vm_compute. split; congruence.
  - done.
  - right. vm_compute. reflexivity.
Defined.

Lemma Transfer_Execute_within_StateKeys_witness :
  (Transfer_Execute sample_transfer "alice" sample_ledger).1 !! heightKey = sample_ledger !! heightKey.
Proof.
  apply (Transfer_Execute_within_StateKeys (S := gmap string string) (KVLaws0 := map_KVLaws) sample_transfer "alice" sample_ledger heightKey).
  - apply sample_ledger_wf.
  - done.
  - apply not_elem_of_dom. vm_compute. reflexivity.
Defined.
