(* ===== verification/Float64.v ===== *)
(** Go's [float64]: IEEE 754 binary64 in the executable specification of the
    standard library ([SpecFloat]), with round-to-nearest-even. *)

From Stdlib Require Import ZArith Lia Bool SpecFloat.

Definition float64 : Type := spec_float.
Definition f_prec : Z := 53.
Definition f_emax : Z := 1024.

(** [float64(x)] of an integer. *)
Definition f_of_Z (x : Z) : float64 := binary_normalize f_prec f_emax x 0 false.
Definition f_add : float64 -> float64 -> float64 := SFadd f_prec f_emax.
Definition f_sub : float64 -> float64 -> float64 := SFsub f_prec f_emax.
Definition f_mul : float64 -> float64 -> float64 := SFmul f_prec f_emax.
Definition f_div : float64 -> float64 -> float64 := SFdiv f_prec f_emax.
Definition f_lt : float64 -> float64 -> bool := SFltb.
Definition f_le : float64 -> float64 -> bool := SFleb.

#[global] Arguments f_add : simpl never.
#[global] Arguments f_sub : simpl never.
#[global] Arguments f_mul : simpl never.
#[global] Arguments f_div : simpl never.
#[global] Arguments f_lt : simpl never.
#[global] Arguments f_le : simpl never.
#[global] Arguments f_of_Z : simpl never.

(** A decimal literal [n / 10^d], correctly rounded. *)
Definition f_lit (n : Z) (d : nat) : float64 := f_div (f_of_Z n) (f_of_Z (10 ^ Z.of_nat d)).

Definition f_zero : float64 := f_of_Z 0.
Definition f_one : float64 := f_of_Z 1.

Example f_lit_08 : f_lit 8 1 = S754_finite false 7205759403792794 (-53).
Proof. reflexivity. Qed.
Example f_div_third : f_lt (f_div (f_of_Z 1) (f_of_Z 3)) (f_lit 8 1) = true.
Proof. reflexivity. Qed.

(** [math.MaxFloat64] and [-1.0]. *)
Definition MaxFloat64 : float64 := S754_finite false (2 ^ 53 - 1) 971.
Definition f_minus_one : float64 := f_of_Z (-1).

(** Not a number, and the values [encoding/json] accepts. *)
Definition f_is_nan (x : float64) : bool := match x with S754_nan => true | _ => false end.
Definition f_finite (x : float64) : bool :=
  match x with S754_zero _ | S754_finite _ _ _ => true | _ => false end.

(** ** The order

    A value that is a number is ranked by its sign class, its exponent and its
    mantissa; the comparisons are the lexicographic order of the ranks. *)
Definition f_rank (x : float64) : Z * Z * Z :=
  match x with
  | S754_nan => (3, 0, 0)
  | S754_infinity true => (-2, 0, 0)
  | S754_finite true m e => (-1, - e, - Z.pos m)
  | S754_zero _ => (0, 0, 0)
  | S754_finite false m e => (1, e, Z.pos m)
  | S754_infinity false => (2, 0, 0)
  end%Z.

Definition rank_lt (r s : Z * Z * Z) : Prop :=
  let '(a, b, c) := r in let '(a', b', c') := s in
  (a < a' \/ a = a' /\ (b < b' \/ b = b' /\ c < c'))%Z.

Ltac f_order_cases :=
  repeat match goal with x : float64 |- _ => destruct x as [[]|[]| |[] ? ?] end;
  unfold f_lt, f_le, SFltb, SFleb, SFcompare, rank_lt, f_rank, f_is_nan;
  repeat match goal with
  | |- context [Pos.compare_cont Eq ?a ?b] => change (Pos.compare_cont Eq a b) with (Pos.compare a b)
  | |- context [Z.compare ?a ?b] => destruct (Z.compare_spec a b)
  | |- context [Pos.compare ?a ?b] => destruct (Pos.compare_spec a b)
  end; simpl; try intuition (try discriminate; lia).

Lemma f_lt_spec (x y : float64) :
  f_lt x y = true <-> f_is_nan x = false /\ f_is_nan y = false /\ rank_lt (f_rank x) (f_rank y).
Proof. f_order_cases. Qed.

Lemma f_le_spec (x y : float64) :
  f_le x y = true <-> f_is_nan x = false /\ f_is_nan y = false /\ ~ rank_lt (f_rank y) (f_rank x).
Proof. f_order_cases. Qed.

Ltac f_order :=
  repeat match goal with
  | H : _ = true |- _ => first [apply f_lt_spec in H | apply f_le_spec in H]
  | |- f_lt _ _ = true => apply f_lt_spec
  | |- f_le _ _ = true => apply f_le_spec
  end; unfold rank_lt in *;
  repeat match goal with |- context [f_rank ?x] => destruct (f_rank x) as [[? ?] ?] end;
  repeat match goal with H : context [f_rank ?x] |- _ => destruct (f_rank x) as [[? ?] ?] end;
  intuition lia.

(** [<] is a strict order that is total on numbers; a NaN is comparable with
    nothing. *)
Lemma f_lt_irrefl (x : float64) : f_lt x x = false.
Proof. destruct (f_lt x x) eqn:H; [exfalso; f_order|reflexivity]. Qed.

Lemma f_lt_trans (x y z : float64) : f_lt x y = true -> f_lt y z = true -> f_lt x z = true.
Proof. intros H1 H2. f_order. Qed.

Lemma f_lt_le (x y : float64) : f_lt x y = true -> f_le x y = true.
Proof. intros H. f_order. Qed.

Lemma f_le_refl (x : float64) : f_is_nan x = false -> f_le x x = true.
Proof. intros H. f_order. Qed.

Lemma f_le_trans (x y z : float64) : f_le x y = true -> f_le y z = true -> f_le x z = true.
Proof. intros H1 H2. f_order. Qed.

Lemma f_le_lt_trans (x y z : float64) : f_le x y = true -> f_lt y z = true -> f_lt x z = true.
Proof. intros H1 H2. f_order. Qed.

Lemma f_lt_le_trans (x y z : float64) : f_lt x y = true -> f_le y z = true -> f_lt x z = true.
Proof. intros H1 H2. f_order. Qed.

Lemma f_not_lt_le (x y : float64) :
  f_is_nan x = false -> f_is_nan y = false -> f_lt x y = false -> f_le y x = true.
Proof.
  intros Hx Hy H. apply f_le_spec. repeat split; [assumption..|]. intros Hr.
  rewrite (proj2 (f_lt_spec x y)) in H by auto. discriminate.
Qed.

Lemma f_lt_nan_l (x y : float64) : f_is_nan x = true -> f_lt x y = false.
Proof. destruct x; try discriminate. reflexivity. Qed.

Lemma f_lt_nan_r (x y : float64) : f_is_nan y = true -> f_lt x y = false.
Proof. destruct y; try discriminate. destruct x; reflexivity. Qed.

Lemma f_lt_numbers (x y : float64) : f_lt x y = true -> f_is_nan x = false /\ f_is_nan y = false.
Proof. intros H. apply f_lt_spec in H. tauto. Qed.
