(* ===== verification/Channel.v ===== *)
(** [coordination/channel.go] and [coordination/storage_wrapper.go]: the secure
    channel between two workers, and the typed records the coordinator keeps
    in a [BaseStorage].  The interface [BaseStore] is what [storage/wrapper.go]
    implements over a database ([CoordinationStorageWrapper]). *)

From S2P Require Import Prelude GoTime KV Core.
From Stdlib Require Import ZArith Lia Ascii String.
From stdpp Require Import base tactics option list strings pretty gmap.

Local Open Scope Z_scope.

(** * The channel *)

Definition ErrTimeout := Sentinel "coordination" "ErrTimeout".

(** [messages] is a buffered Go channel, its content in arrival order; [done]
    tells whether the [done] channel was closed. *)
Record SecureChannel : Type := mkChannel {
  Worker1 : string;
  Worker2 : string;
  Key : string;
  Encrypted : bool;
  messages : list string;
  chan_done : bool;
}.

(** [make(chan []byte, 100)]. *)
Definition channel_cap : nat := 100.

Definition NewSecureChannel (w1 w2 : string) : SecureChannel :=
  mkChannel w1 w2 "" false [] false.

(** [rand.Read(key)] gives 32 bytes or an error. *)
Definition EstablishSecure (rnd : outcome string) : go SecureChannel unit :=
  key ← lift rnd;
  modify (λ c, mkChannel (Worker1 c) (Worker2 c) key true (messages c) (chan_done c)).

(** The placeholders of the source: both return their argument. *)
Definition encrypt (data key : string) : outcome string := Ok data.
Definition decrypt (data key : string) : outcome string := Ok data.

(** With nobody reading meanwhile, the five-second timer of [Send] fires exactly
    when the buffer is full, and that of [Receive] when it is empty. *)
Definition Send (data : string) : go SecureChannel unit := λ c,
  match (if Encrypted c then encrypt data (Key c) else Ok data) with
  | Ok d =>
      if (length (messages c) <? channel_cap)%nat
      then (mkChannel (Worker1 c) (Worker2 c) (Key c) (Encrypted c) (messages c ++ [d]) (chan_done c), Ok tt)
      else (c, Err ErrTimeout)
  | Err e => (c, Err e)
  | Panic w => (c, Panic w)
  | Hang w => (c, Hang w)
  end.

Definition Receive : go SecureChannel string := λ c,
  match messages c with
  | d :: rest =>
      (mkChannel (Worker1 c) (Worker2 c) (Key c) (Encrypted c) rest (chan_done c),
       if Encrypted c then decrypt d (Key c) else Ok d)
  | [] => (c, Err ErrTimeout)
  end.

(** [close(c.done)] panics the second time. *)
Definition Channel_Close : go SecureChannel unit := λ c,
  if chan_done c then (c, Panic "close of closed channel")
  else (mkChannel (Worker1 c) (Worker2 c) (Key c) (Encrypted c) (messages c) true, Ok tt).

(** The four exported fields, which are all that is marshalled. *)
Abbreviation channel_alias := (string * string * string * bool)%type.

(** Worker ids are strings, the key is bytes. *)
#[export] Instance channel_Encodable : Encodable channel_alias := λ '(w1, w2, _, _), utf8 w1 && utf8 w2.
Definition ends_utf8 (c : SecureChannel) : bool := utf8 (Worker1 c) && utf8 (Worker2 c).

Definition Channel_MarshalJSON `{!Json channel_alias} (c : SecureChannel) : string :=
  Marshal (Worker1 c, Worker2 c, Key c, Encrypted c).

Definition Channel_UnmarshalJSON `{!Json channel_alias} (data : string) : outcome SecureChannel :=
  a ← Unmarshal data;
  let '(w1, w2, key, enc) := (a : channel_alias) in
  mret (mkChannel w1 w2 key enc [] false).

(** * [BaseStorage] *)

Class BaseStore (B : Type) : Type := {
  bs_Put : string → string → go B unit;
  bs_Get : string → B → outcome string;
  bs_Delete : string → go B unit;
  bs_GetByPrefix : string → B → outcome (list string);
}.

(** A base storage that does not fail is a finite map; [nf] is the error it
    gives for an absent key, which the interface does not fix. *)
Class BaseStoreLaws (B : Type) `{!BaseStore B} (nf : goerr) : Type := {
  bs_contents : B → gmap string string;
  bs_Get_contents : ∀ k b,
    bs_Get k b = match bs_contents b !! k with Some v => Ok v | None => Err nf end;
  bs_Put_ok : ∀ k v b, (bs_Put k v b).2 = Ok tt;
  bs_Put_contents : ∀ k v b, bs_contents (bs_Put k v b).1 = <[k := v]> (bs_contents b);
  bs_Delete_ok : ∀ k b, (bs_Delete k b).2 = Ok tt;
  bs_Delete_contents : ∀ k b, bs_contents (bs_Delete k b).1 = delete k (bs_contents b);
}.

Lemma bs_Put_run {B} `{!BaseStore B} {nf} `{!BaseStoreLaws B nf} k v (b : B) :
  ∃ b', bs_Put k v b = (b', Ok tt) ∧ bs_contents b' = <[k := v]> (bs_contents b).
Proof.
  exists (bs_Put k v b).1. split; [|apply bs_Put_contents].
  rewrite <-(bs_Put_ok k v b). apply surjective_pairing.
Qed.

(** ** Its implementation over a database: [CoordinationStorageWrapper]

    [ctx] is the error of a context that is already done, if it is. *)

Definition csw_guard {S} (ctx : option goerr) (m : go S unit) : go S unit :=
  match ctx with Some e => fail e | None => m end.

Definition csw_Put {S} `{!Mutable S} (ctx : option goerr) (key value : string) : go S unit :=
  csw_guard ctx (mu_Insert key value).

Definition csw_Get {S} `{!Mutable S} (ctx : option goerr) (key : string) (s : S) : outcome string :=
  match ctx with Some e => Err e | None => mu_GetValue key s end.

Definition csw_Delete {S} `{!Mutable S} (ctx : option goerr) (key : string) : go S unit :=
  csw_guard ctx (mu_Remove key).

(** The iteration over the keys with a prefix, in the order the database gives
    them; a context that is done stops it at the first entry. *)
Definition csw_GetByPrefix (ctx : option goerr) (entries : list (string * string)) : outcome (list string) :=
  match ctx, entries with
  | Some e, _ :: _ => Err e
  | _, _ => Ok (entries.*2)
  end.

(** Iteration by prefix over the store, in key order: a parameter of the
    database. *)
Class PrefixIter (S : Type) : Type := { iter_prefix : string → S → list (string * string) }.

#[export] Instance csw_BaseStore {S} `{!Mutable S, !PrefixIter S} : BaseStore S := {
  bs_Put := csw_Put None;
  bs_Get := csw_Get None;
  bs_Delete := csw_Delete None;
  bs_GetByPrefix p s := csw_GetByPrefix None (iter_prefix p s);
}.

(** The wrapper keeps the contract of [BaseStorage], with the database's own
    not-found error. *)
#[export] Instance csw_BaseStoreLaws {S} `{!Mutable S, !KVLaws S, !PrefixIter S} :
  BaseStoreLaws S ErrNotFound.
Proof.
  refine {| bs_contents := contents |}.
  - apply mu_GetValue_contents.
  - apply mu_Insert_ok.
  - apply mu_Insert_contents.
  - apply mu_Remove_ok.
  - apply mu_Remove_contents.
Defined.

(** * Typed records: [StorageWrapper] *)

Definition channelPrefix : string := "channel/".
Definition workerPrefix : string := "worker/".
Definition regionPrefix : string := "region/".
Definition teePrefix : string := "tee/".
Definition metricsPrefix : string := "metrics/".
Definition stateKey : string := "coordinator_state".

(** The same key for both orders of the two workers. *)
Definition makeChannelKey (worker1 worker2 : string) : string :=
  if String.ltb worker1 worker2 then worker1 +s+ ":" +s+ worker2
  else worker2 +s+ ":" +s+ worker1.

Section wrapper.
Context {B : Type} `{!BaseStore B}.

Definition sw_Put (key value : string) : go B unit := bs_Put key value.
Definition sw_Get (key : string) : go B string := λ b, (b, bs_Get key b).
Definition sw_Delete (key : string) : go B unit := bs_Delete key.

(** [json.Marshal] then [Put], and [Get] then [json.Unmarshal], at a key. *)
Definition save {A} `{!Json A} (key : string) (a : A) : go B unit := sw_Put key (Marshal a).
Definition load {A} `{!Json A} (msg key : string) : go B A :=
  data ← sw_Get key;
  wrap msg (lift (Unmarshal data)).

Definition SaveChannel `{!Json channel_alias} (c : SecureChannel) : go B unit :=
  sw_Put (channelPrefix +s+ makeChannelKey (Worker1 c) (Worker2 c)) (Channel_MarshalJSON c).

Definition LoadChannel `{!Json channel_alias} (worker1 worker2 : string) : go B SecureChannel :=
  data ← sw_Get (channelPrefix +s+ makeChannelKey worker1 worker2);
  wrap "failed to unmarshal channel" (lift (Channel_UnmarshalJSON data)).

Definition DeleteChannel (worker1 worker2 : string) : go B unit :=
  sw_Delete (channelPrefix +s+ makeChannelKey worker1 worker2).

Definition SaveRegion {R} `{!Json R} (ID : string) (region : R) : go B unit :=
  save (regionPrefix +s+ ID) region.
Definition LoadRegion {R} `{!Json R} (id : string) : go B R :=
  load "failed to unmarshal region" (regionPrefix +s+ id).
Definition DeleteRegion (id : string) : go B unit := sw_Delete (regionPrefix +s+ id).

Definition SaveCoordinatorState {R} `{!Json R} (state : R) : go B unit := save stateKey state.
Definition LoadCoordinatorState {R} `{!Json R} : go B R :=
  load "failed to unmarshal coordinator state" stateKey.

Definition SaveTEEPairInfo {R} `{!Json R} (ID : string) (info : R) : go B unit :=
  save (teePrefix +s+ ID) info.
Definition GetTEEPairInfo {R} `{!Json R} (pairID : string) : go B R :=
  load "failed to unmarshal TEE pair info" (teePrefix +s+ pairID).

Definition SaveTEEMetrics {R} `{!Json R} (pairID : string) (metrics : R) : go B unit :=
  save (metricsPrefix +s+ pairID) metrics.
Definition GetTEEMetrics {R} `{!Json R} (pairID : string) : go B R :=
  load "failed to unmarshal TEE metrics" (metricsPrefix +s+ pairID).

(** All the pairs under the prefix; the first record that does not decode ends
    the listing with its error. *)
Fixpoint unmarshal_all {R} `{!Json R} (values : list string) : outcome (list R) :=
  match values with
  | [] => Ok []
  | v :: vs =>
      match Unmarshal v with
      | Ok r => rs ← unmarshal_all vs; mret (r :: rs)
      | Err e => Err (Wrapf "failed to unmarshal TEE pair info" e)
      | Panic w => Panic w
      | Hang w => Hang w
      end
  end.

Definition ListTEEPairInfo {R} `{!Json R} (b : B) : outcome (list R) :=
  values ← bs_GetByPrefix teePrefix b;
  unmarshal_all values.
End wrapper.

(** * The channel as a bounded queue *)

Definition send_all (ms : list string) : go SecureChannel unit := for_each Send ms.

Fixpoint receive_n (n : nat) : go SecureChannel (list string) :=
  match n with
  | O => mret []
  | S n' => d ← Receive; ds ← receive_n n'; mret (d :: ds)
  end.

Definition with_messages (c : SecureChannel) (ms : list string) : SecureChannel :=
  mkChannel (Worker1 c) (Worker2 c) (Key c) (Encrypted c) ms (chan_done c).

Lemma Send_room d c :
  (length (messages c) < channel_cap)%nat → Send d c = (with_messages c (messages c ++ [d]), Ok tt).
Proof.
  intros H. unfold Send, encrypt. destruct (Encrypted c) eqn:E;
    rewrite (proj2 (Nat.ltb_lt _ _) H); unfold with_messages; by rewrite ?E.
Qed.

Lemma Send_full d c :
  (channel_cap ≤ length (messages c))%nat → Send d c = (c, Err ErrTimeout).
Proof.
  intros H. unfold Send, encrypt. by destruct (Encrypted c); rewrite (proj2 (Nat.ltb_ge _ _) H).
Qed.

Lemma send_all_room ms c :
  (length (messages c) + length ms ≤ channel_cap)%nat →
  send_all ms c = (with_messages c (messages c ++ ms), Ok tt).
Proof.
  unfold send_all. revert c. induction ms as [|d ms IH]; intros c H; cbn [for_each length] in *.
  - rewrite app_nil_r. by destruct c.
  - rewrite (bind_ok _ _ _ _ _ (Send_room d c ltac:(lia))), IH; simpl.
    + by rewrite <-app_assoc.
    + rewrite length_app. simpl. lia.
Qed.

Lemma receive_n_all ms rest c :
  messages c = ms ++ rest → receive_n (length ms) c = (with_messages c rest, Ok ms).
Proof.
  revert c. induction ms as [|d ms IH]; intros c H; simpl in *.
  - by destruct c; simpl in *; subst.
  - assert (Receive c = (with_messages c (ms ++ rest), Ok d)) as Hr.
    { unfold Receive, with_messages, decrypt. rewrite H. by destruct (Encrypted c). }
    rewrite (bind_ok _ _ _ _ _ Hr).
    by rewrite (bind_ok _ _ _ _ _ (IH (with_messages c (ms ++ rest)) eq_refl)).
Qed.

(** A channel is a first-in first-out queue of a hundred messages: what was
    sent is received in order, encrypted or not, and the message after the
    hundredth is refused by the timeout without disturbing the queue. *)
Theorem channel_fifo c ms d :
  messages c = [] →
  ((length ms ≤ channel_cap)%nat →
     ∃ c1, send_all ms c = (c1, Ok tt) ∧ receive_n (length ms) c1 = (c, Ok ms)) ∧
  (length ms = channel_cap →
     ∃ c1, send_all ms c = (c1, Ok tt) ∧ Send d c1 = (c1, Err ErrTimeout)).
Proof.
  intros Hc. split; intros Hl.
  - exists (with_messages c ms). rewrite send_all_room by (rewrite Hc; simpl; lia).
    rewrite Hc. split; [done|].
    rewrite (receive_n_all ms [] (with_messages c ms)) by (by rewrite app_nil_r).
    destruct c; simpl in *. by subst.
  - exists (with_messages c ms). rewrite send_all_room by (rewrite Hc; simpl; lia).
    rewrite Hc. split; [done|]. apply Send_full. simpl. lia.
Qed.

Lemma channel_fifo_witness :
  ∃ c1, send_all ["a"; "b"] (NewSecureChannel "w1" "w2") = (c1, Ok tt) ∧
        receive_n 2 c1 = (NewSecureChannel "w1" "w2", Ok ["a"; "b"]).
Proof.
  apply (channel_fifo (NewSecureChannel "w1" "w2") ["a"; "b"] "x" eq_refl).
  vm_compute. lia.
Defined.

(** * Stored channels *)

Lemma makeChannelKey_comm a b : makeChannelKey a b = makeChannelKey b a.
Proof.
  unfold makeChannelKey, String.ltb.
  pose proof (String.compare_antisym a b) as H.
  destruct (String.compare a b) eqn:E1, (String.compare b a) eqn:E2; simpl in H; try done.
  apply String.compare_eq_iff in E1 as ->. done.
Qed.

(** The key of a channel is the same for both orders of its workers, and
    for worker ids without a colon it determines the pair. *)
Theorem makeChannelKey_pair a b a' b' :
  contains ":" a = false → contains ":" b = false →
  contains ":" a' = false → contains ":" b' = false →
  makeChannelKey a b = makeChannelKey a' b' ↔ (a = a' ∧ b = b') ∨ (a = b' ∧ b = a').
Proof.
  intros Ha Hb Ha' Hb'. split.
  - unfold makeChannelKey. destruct (String.ltb a b), (String.ltb a' b'); intros H;
      apply (sep_inj ":") in H as [-> ->]; auto.
  - intros [[-> ->]|[-> ->]]; [done|apply makeChannelKey_comm].
Qed.

Lemma makeChannelKey_pair_witness :
  makeChannelKey "sgx-1" "sev-1" = makeChannelKey "sev-1" "sgx-1".
Proof. apply makeChannelKey_pair; [reflexivity..|]. right. done. Defined.

(** Ids that hold a colon can share a key: two different pairs, one channel. *)
Example makeChannelKey_colon : makeChannelKey "a:b" "c" = makeChannelKey "a" "b:c".
Proof. reflexivity. Qed.

Section stored.
Context {B : Type} `{!BaseStore B} (nf : goerr) `{!BaseStoreLaws B nf}.
Context `{!Json channel_alias, !JsonLaws channel_alias}.
Implicit Types (b : B).

Lemma LoadChannel_Some w1 w2 b c :
  ends_utf8 c = true →
  bs_contents b !! (channelPrefix +s+ makeChannelKey w1 w2) = Some (Channel_MarshalJSON c) →
  LoadChannel w1 w2 b = (b, Ok (mkChannel (Worker1 c) (Worker2 c) (Key c) (Encrypted c) [] false)).
Proof.
  intros He H. unfold LoadChannel, sw_Get.
  rewrite (bind_ok _ _ b b (Channel_MarshalJSON c)) by (by rewrite bs_Get_contents, H).
  unfold wrap, lift, Channel_UnmarshalJSON, Channel_MarshalJSON. by rewrite Unmarshal_Marshal by exact He.
Qed.

Lemma LoadChannel_None w1 w2 b :
  bs_contents b !! (channelPrefix +s+ makeChannelKey w1 w2) = None →
  LoadChannel w1 w2 b = (b, Err nf).
Proof.
  intros H. unfold LoadChannel, sw_Get. apply bind_err. by rewrite bs_Get_contents, H.
Qed.

(** A saved channel whose ends are named in UTF-8 loads back under either order of its workers, with its key
    and an empty buffer: the messages still in it are not stored. *)
Lemma SaveChannel_LoadChannel c b :
  ends_utf8 c = true →
  ∃ b', SaveChannel c b = (b', Ok tt) ∧
    ∀ w1 w2, (w1 = Worker1 c ∧ w2 = Worker2 c) ∨ (w1 = Worker2 c ∧ w2 = Worker1 c) →
      LoadChannel w1 w2 b' = (b', Ok (with_messages (mkChannel (Worker1 c) (Worker2 c) (Key c) (Encrypted c) [] false) [])).
Proof.
  intros He. destruct (bs_Put_run (channelPrefix +s+ makeChannelKey (Worker1 c) (Worker2 c)) (Channel_MarshalJSON c) b)
    as (b' & H & C).
  exists b'. split; [done|]. intros w1 w2 Hw. apply LoadChannel_Some; [done|]. rewrite C.
  assert (makeChannelKey w1 w2 = makeChannelKey (Worker1 c) (Worker2 c)) as ->.
  { destruct Hw as [[-> ->]|[-> ->]]; [done|apply makeChannelKey_comm]. }
  apply lookup_insert_eq.
Qed.
End stored.
