(* ===== verification/Worker.v ===== *)
(** [coordination/worker.go]: a coordination worker, its mailbox, its channels to
    other workers and its counters.

    Channels are shared by pointer between the two workers they connect, so
    they live in a heap; the mailbox and the stop signal are Go channels, nil
    until they are made. *)

From S2P Require Import Prelude GoTime KV Core Float64 Channel.
From Stdlib Require Import ZArith Lia Ascii String.
From stdpp Require Import base tactics option list strings pretty gmap.

Local Open Scope Z_scope.

(** * Messages *)

Definition MessageTypeSync : Z := 0.
Definition MessageTypeData : Z := 1.
Definition MessageTypeAttestation : Z := 2.
Definition MessageTypeVerification : Z := 3.
Definition MessageTypeComplete : Z := 4.

Record Message : Type := mkMessage {
  MsgType : Z;
  From : string;
  MsgTo : string;
  MsgData : string;
  MsgTimestamp : Time;
}.

(** * The heap of channels and the source of session keys *)

Record Heap : Type := mkHeap {
  cells : gmap nat SecureChannel;
  next_cell : nat;
  rng : nat → outcome string;   (* the results of [rand.Read] *)
  rng_pos : nat;
}.

Definition heap_wf (h : Heap) : Prop := ∀ p, is_Some (cells h !! p) → (p < next_cell h)%nat.

Definition draw_key : go Heap string := λ h,
  (mkHeap (cells h) (next_cell h) (rng h) (S (rng_pos h)), rng h (rng_pos h)).

Definition alloc (c : SecureChannel) : go Heap nat := λ h,
  (mkHeap (<[next_cell h := c]> (cells h)) (S (next_cell h)) (rng h) (rng_pos h), Ok (next_cell h)).

(** A method call through a channel pointer. *)
Definition on_channel {A} (p : nat) (m : go SecureChannel A) : go Heap A := λ h,
  match cells h !! p with
  | Some c => let '(c', o) := m c in
              (mkHeap (<[p := c']> (cells h)) (next_cell h) (rng h) (rng_pos h), o)
  | None => (h, Panic "invalid memory address or nil pointer dereference")
  end.

(** [NewSecureChannel] followed by [EstablishSecure]. *)
Definition new_established (w1 w2 : string) : go Heap nat :=
  p ← alloc (NewSecureChannel w1 w2);
  key ← draw_key;
  on_channel p (EstablishSecure (Ok key)) ;;
  mret p.

(** * Workers *)

Inductive WorkerStatus : Type := WorkerStatusIdle | WorkerStatusActive | WorkerStatusError.

#[export] Instance WorkerStatus_eq_dec : EqDecision WorkerStatus.
Proof. solve_decision. Defined.

(** A [chan struct{}] only ever closed. *)
Inductive signal : Type := SigNil | SigOpen | SigClosed.

Record Worker : Type := mkWorker {
  ID : string;
  WEnclaveID : string;
  WStatus : WorkerStatus;
  WType : string;
  WRegionID : string;
  Channels : gmap string nat;
  LastActive : Time;
  TaskCount : Z;
  SuccessCount : Z;
  ErrorCount : Z;
  LoadFactor : float64;
  msgCh : option (list Message);   (* [None]: the nil channel *)
  doneCh : signal;
}.

(** [make(chan *Message, 100)]. *)
Definition msgCh_cap : nat := 100.

Definition NewWorker (now : Time) (id enclaveID workerType : string) : Worker :=
  mkWorker id enclaveID WorkerStatusIdle workerType "" ∅ now 0 0 0 f_zero (Some []) SigOpen.

(** The field updates the methods make. *)
Definition set_status (st : WorkerStatus) (w : Worker) : Worker :=
  mkWorker (ID w) (WEnclaveID w) st (WType w) (WRegionID w) (Channels w) (LastActive w)
    (TaskCount w) (SuccessCount w) (ErrorCount w) (LoadFactor w) (msgCh w) (doneCh w).
Definition set_region (r : string) (w : Worker) : Worker :=
  mkWorker (ID w) (WEnclaveID w) (WStatus w) (WType w) r (Channels w) (LastActive w)
    (TaskCount w) (SuccessCount w) (ErrorCount w) (LoadFactor w) (msgCh w) (doneCh w).
Definition set_channels (cs : gmap string nat) (w : Worker) : Worker :=
  mkWorker (ID w) (WEnclaveID w) (WStatus w) (WType w) (WRegionID w) cs (LastActive w)
    (TaskCount w) (SuccessCount w) (ErrorCount w) (LoadFactor w) (msgCh w) (doneCh w).
Definition set_active (now : Time) (w : Worker) : Worker :=
  mkWorker (ID w) (WEnclaveID w) (WStatus w) (WType w) (WRegionID w) (Channels w) now
    (TaskCount w) (SuccessCount w) (ErrorCount w) (LoadFactor w) (msgCh w) (doneCh w).
Definition set_mailbox (ms : option (list Message)) (w : Worker) : Worker :=
  mkWorker (ID w) (WEnclaveID w) (WStatus w) (WType w) (WRegionID w) (Channels w) (LastActive w)
    (TaskCount w) (SuccessCount w) (ErrorCount w) (LoadFactor w) ms (doneCh w).
Definition set_done (d : signal) (w : Worker) : Worker :=
  mkWorker (ID w) (WEnclaveID w) (WStatus w) (WType w) (WRegionID w) (Channels w) (LastActive w)
    (TaskCount w) (SuccessCount w) (ErrorCount w) (LoadFactor w) (msgCh w) d.

(** ** Counters *)

Definition UpdateMetrics (now : Time) (success : bool) (w : Worker) : Worker :=
  let tc := u64_add (TaskCount w) 1 in
  let sc := if success then u64_add (SuccessCount w) 1 else SuccessCount w in
  let ec := if success then ErrorCount w else u64_add (ErrorCount w) 1 in
  mkWorker (ID w) (WEnclaveID w) (WStatus w) (WType w) (WRegionID w) (Channels w) now
    tc sc ec (f_div (f_of_Z (u64_sub tc sc)) (f_of_Z tc)) (msgCh w) (doneCh w).

Definition CanAcceptTask (w : Worker) : bool :=
  bool_decide (WStatus w = WorkerStatusActive) && f_lt (LoadFactor w) (f_lit 8 1) &&
  negb (bool_decide (WRegionID w = "")).

Definition AssignToRegion (now : Time) (regionID : string) (w : Worker) : Worker :=
  set_active now (set_status WorkerStatusActive (set_region regionID w)).

Definition UnassignFromRegion (w : Worker) : Worker :=
  set_status WorkerStatusIdle (set_region "" w).

(** ** Lifecycle *)

Definition Start (now : Time) : go Worker unit :=
  modify (λ w, set_active now (set_status WorkerStatusActive w)).

(** [close] panics on a nil and on a closed channel; the status was set before. *)
Definition Stop : go Worker unit := λ w,
  let w1 := set_status WorkerStatusIdle w in
  match doneCh w with
  | SigNil => (w1, Panic "close of nil channel")
  | SigClosed => (w1, Panic "close of closed channel")
  | SigOpen => (set_region "" (set_done SigClosed w1), Ok tt)
  end.

(** ** Mailbox *)

(** The [select] of [SendMessage]: [pick_done] is the choice Go makes when both
    the mailbox has room and the worker has stopped. *)
Definition SendMessage (pick_done : bool) (msg : Message) : go Worker unit := λ w,
  let room := match msgCh w with Some l => (length l <? msgCh_cap)%nat | None => false end in
  let stopped := match doneCh w with SigClosed => true | _ => false end in
  if room && negb (stopped && pick_done)
  then (set_mailbox (match msgCh w with Some l => Some (l ++ [msg]) | None => None end) w, Ok tt)
  else if stopped then (w, Err (Errorf "worker stopped"))
  else (w, Err (Errorf "message channel full")).

(** ** Message handling, on the worker and the heap *)

Abbreviation WH := (Worker * Heap)%type.

Definition on_heap {A} (m : go Heap A) : go WH A := zoom snd (λ h wh, (wh.1, h)) m.

Definition GetChannel (otherWorker : string) : go WH nat := λ '(w, h),
  match Channels w !! otherWorker with
  | Some p => ((w, h), Ok p)
  | None =>
      match wrap "failed to establish channel" (new_established (ID w) otherWorker) h with
      | (h', Ok p) => ((set_channels (<[otherWorker := p]> (Channels w)) w, h'), Ok p)
      | (h', Err e) => ((w, h'), Err e)
      | (h', Panic s) => ((w, h'), Panic s)
      | (h', Hang s) => ((w, h'), Hang s)
      end
  end.

(** Both handlers answer with the empty payload of their response message. *)
Definition handleSyncMessage (msg : Message) : go WH unit :=
  p ← wrap "failed to get channel" (GetChannel (From msg));
  on_heap (on_channel p (Send "")).

Definition processData (data : string) : go WH unit := mret tt.

Definition handleDataMessage (msg : Message) : go WH unit :=
  wrap "failed to process" (processData (MsgData msg)) ;;
  p ← wrap "failed to get channel" (GetChannel (From msg));
  on_heap (on_channel p (Send "")).

Definition handleCompleteMessage (msg : Message) : go WH unit := mret tt.
Definition handleAttestationMessage (msg : Message) : go WH unit := mret tt.
Definition handleVerificationMessage (msg : Message) : go WH unit := mret tt.

Definition HandleMessage (now : Time) (msg : Message) : go WH unit :=
  modify (λ wh, (set_active now wh.1, wh.2)) ;;
  me ← gets (λ wh, ID wh.1);
  fail_if (negb (bool_decide (MsgTo msg = me))) (Errorf "message not intended for this worker") ;;
  if MsgType msg =? MessageTypeSync then handleSyncMessage msg
  else if MsgType msg =? MessageTypeData then handleDataMessage msg
  else if MsgType msg =? MessageTypeComplete then handleCompleteMessage msg
  else if MsgType msg =? MessageTypeAttestation then handleAttestationMessage msg
  else if MsgType msg =? MessageTypeVerification then handleVerificationMessage msg
  else fail (Errorf "unknown message type").

(** One turn of the [processMessages] loop that takes a message: an error of
    the handler is printed and dropped. *)
Definition process_message (now : Time) : go WH unit := λ '(w, h),
  match msgCh w with
  | Some (msg :: rest) =>
      match HandleMessage now msg (set_mailbox (Some rest) w, h) with
      | (wh, Err _) => (wh, Ok tt)
      | r => r
      end
  | _ => ((w, h), Hang "receive from an empty channel")
  end.

(** * Properties *)

(** ** Counters *)

Definition run_metrics (now : Time) (history : list bool) (w : Worker) : Worker :=
  foldl (λ w ok, UpdateMetrics now ok w) w history.

Lemma count_split (history : list bool) :
  length history = (length (filter Is_true history) + length (filter (λ b, ¬ Is_true b) history))%nat.
Proof.
  induction history as [|[] l IH]; [done|..]; rewrite !filter_cons; simpl; repeat case_decide;
    simpl in *; try (naive_solver lia); tauto.
Qed.

(** The state the counters are in after a history. *)
Definition counters_are (w : Worker) (history : list bool) : Prop :=
  TaskCount w = Z.of_nat (length history) ∧
  SuccessCount w = Z.of_nat (length (filter Is_true history)) ∧
  ErrorCount w = Z.of_nat (length (filter (λ b, ¬ Is_true b) history)) ∧
  (history ≠ [] → LoadFactor w = f_div (f_of_Z (ErrorCount w)) (f_of_Z (TaskCount w))).

Lemma counters_step now w history ok :
  counters_are w history → Z.of_nat (length (history ++ [ok])) < 2 ^ 64 →
  counters_are (UpdateMetrics now ok w) (history ++ [ok]).
Proof.
  intros (Ht & Hs & He & _) Hl. unfold counters_are.
  pose proof (count_split history) as Hc.
  rewrite !length_app in *. rewrite !filter_app, !length_app. simpl length in *.
  unfold UpdateMetrics. cbn [TaskCount SuccessCount ErrorCount LoadFactor].
  assert (∀ x, 0 ≤ x < 2 ^ 64 - 1 → u64_add x 1 = x + 1) as Hadd.
  { intros x Hx. unfold u64_add. apply u64_small. unfold is_u64. lia. }
  destruct ok; rewrite !filter_cons, !filter_nil; repeat case_decide; simpl in *; try tauto;
    rewrite ?Hadd by lia; split_and!; try lia; intros _; f_equal; f_equal;
    unfold u64_sub; rewrite u64_small; unfold is_u64; lia.
Qed.

(** The counters of a worker agree with the results it reported: every task
    is counted once, as a success or an error, and the load factor is the share
    of errors as a [float64]. *)
Theorem run_metrics_counters now id enclaveID ty history :
  Z.of_nat (length history) < 2 ^ 64 →
  counters_are (run_metrics now history (NewWorker now id enclaveID ty)) history.
Proof.
  induction history as [|ok l IH] using rev_ind; intros Hl.
  - unfold counters_are. simpl. by split_and!.
  - unfold run_metrics. rewrite foldl_app. simpl. apply counters_step; [|done].
    apply IH. rewrite length_app in Hl. simpl in Hl. lia.
Qed.

Lemma run_metrics_counters_witness :
  counters_are (run_metrics zeroTime [true; false; true] (NewWorker zeroTime "w" "e" "SGX"))
    [true; false; true].
Proof. apply run_metrics_counters. done. Defined.

(** ** Mailbox and lifecycle *)

Lemma SendMessage_nil pick msg w :
  msgCh w = None → doneCh w = SigNil →
  SendMessage pick msg w = (w, Err (Errorf "message channel full")).
Proof. intros Hm Hd. unfold SendMessage. by rewrite Hm, Hd. Qed.

(** The life of a worker made by [NewWorker]: started it is active, stopped
    it is idle and out of its region, and no second stop is possible: the
    channel it signals with is closed already, and closing it again panics. *)
Theorem worker_lifecycle now id enclaveID ty :
  ∃ w1 w2,
    Start now (NewWorker now id enclaveID ty) = (w1, Ok tt) ∧ WStatus w1 = WorkerStatusActive ∧
    Stop w1 = (w2, Ok tt) ∧ WStatus w2 = WorkerStatusIdle ∧ WRegionID w2 = "" ∧
    (Stop w2).2 = Panic "close of closed channel" ∧
    ∀ msg, (SendMessage true msg w2).2 = Err (Errorf "worker stopped").
Proof.
  do 2 eexists. split_and!; [reflexivity|done|reflexivity|done|done|done|done].
Qed.

(** ** Replies *)

Lemma lookup_next_cell h : heap_wf h → cells h !! next_cell h = None.
Proof.
  intros H. destruct (cells h !! next_cell h) eqn:E; [|done].
  specialize (H _ (mk_is_Some _ _ E)). lia.
Qed.

Lemma new_established_run w1 w2 key h :
  rng h (rng_pos h) = Ok key →
  new_established w1 w2 h =
    (mkHeap (<[next_cell h := mkChannel w1 w2 key true [] false]> (cells h))
       (S (next_cell h)) (rng h) (S (rng_pos h)), Ok (next_cell h)).
Proof.
  intros Hk. unfold new_established, alloc, draw_key, on_channel, mbind, go_bind. simpl.
  rewrite Hk, lookup_insert_eq. simpl. by rewrite insert_insert_eq.
Qed.

Definition heap_put (h : Heap) (p : nat) (c : SecureChannel) : Heap :=
  mkHeap (<[p := c]> (cells h)) (next_cell h) (rng h) (rng_pos h).

Lemma send_ack_run (w : Worker) h p c :
  cells h !! p = Some c → (length (messages c) < channel_cap)%nat →
  on_heap (on_channel p (Send "")) (w, h) =
    ((w, heap_put h p (with_messages c (messages c ++ [""]))), Ok tt).
Proof.
  intros Hp Hl. unfold on_heap, zoom, on_channel. simpl.
  rewrite Hp, Send_room by done. done.
Qed.

Definition wants_reply (msg : Message) : bool :=
  (MsgType msg =? MessageTypeSync) || (MsgType msg =? MessageTypeData).

Lemma HandleMessage_reply_eq now msg w h :
  MsgTo msg = ID w → wants_reply msg = true →
  HandleMessage now msg (w, h) =
    (p ← wrap "failed to get channel" (GetChannel (From msg)); on_heap (on_channel p (Send "")))
      (set_active now w, h).
Proof.
  intros Hto Hr. unfold HandleMessage. unfold mbind at 1 2 3, go_bind at 1 2 3. simpl.
  rewrite Hto, bool_decide_eq_true_2 by done. simpl.
  unfold wants_reply in Hr. destruct (MsgType msg =? MessageTypeSync) eqn:E; [done|].
  simpl in Hr. by rewrite Hr.
Qed.

(** A sync or data message addressed to the worker is acknowledged on the
    channel to its sender: on the one the worker has, or on a new one, keyed
    with fresh randomness, which it keeps for later messages. *)
Theorem HandleMessage_acknowledges now msg w h :
  MsgTo msg = ID w → wants_reply msg = true →
  (∀ p c, Channels w !! From msg = Some p → cells h !! p = Some c →
     (length (messages c) < channel_cap)%nat →
     HandleMessage now msg (w, h) =
       ((set_active now w, heap_put h p (with_messages c (messages c ++ [""]))), Ok tt)) ∧
  (∀ key, Channels w !! From msg = None → rng h (rng_pos h) = Ok key →
     ∃ w' h' p, HandleMessage now msg (w, h) = ((w', h'), Ok tt) ∧
       Channels w' = <[From msg := p]> (Channels w) ∧
       cells h' = <[p := mkChannel (ID w) (From msg) key true [""] false]> (cells h)).
Proof.
  intros Hto Hr. split.
  - intros p c Hp Hc Hl. rewrite HandleMessage_reply_eq by done.
    erewrite bind_ok; [|unfold wrap, GetChannel; simpl; by rewrite Hp].
    by apply send_ack_run.
  - intros key Hp Hk. rewrite HandleMessage_reply_eq by done.
    set (h1 := mkHeap (<[next_cell h := mkChannel (ID w) (From msg) key true [] false]> (cells h))
                 (S (next_cell h)) (rng h) (S (rng_pos h))).
    set (w1 := set_channels (<[From msg := next_cell h]> (Channels w)) (set_active now w)).
    exists w1, (heap_put h1 (next_cell h) (mkChannel (ID w) (From msg) key true [""] false)), (next_cell h).
    split; [|split; [done|]].
    + erewrite (bind_ok _ _ _ (w1, h1) (next_cell h)).
      * apply (send_ack_run w1 h1 _ (mkChannel (ID w) (From msg) key true [] false)).
        -- simpl. apply lookup_insert_eq.
        -- simpl. unfold channel_cap. lia.
      * unfold wrap, GetChannel. cbn [Channels set_active ID]. rewrite Hp. unfold wrap.
        by rewrite (new_established_run _ _ _ _ Hk).
    + simpl. by rewrite insert_insert_eq.
Qed.

Definition sample_heap : Heap := mkHeap ∅ 0 (λ n, Ok (pretty (N.of_nat n))) 0.

Lemma HandleMessage_acknowledges_witness :
  ∃ w' h' p,
    HandleMessage zeroTime (mkMessage MessageTypeSync "w2" "w1" "" zeroTime)
      (NewWorker zeroTime "w1" "e" "SGX", sample_heap) = ((w', h'), Ok tt) ∧
    Channels w' = {["w2" := p]} ∧
    cells h' = {[p := mkChannel "w1" "w2" "0" true [""] false]}.
Proof.
  apply (HandleMessage_acknowledges zeroTime (mkMessage MessageTypeSync "w2" "w1" "" zeroTime)
    (NewWorker zeroTime "w1" "e" "SGX") sample_heap eq_refl eq_refl); reflexivity.
Defined.

(** A message for another worker is refused; only the time of the last activity
    changes. *)
Lemma HandleMessage_misaddressed now msg w h :
  MsgTo msg ≠ ID w →
  HandleMessage now msg (w, h) =
    ((set_active now w, h), Err (Errorf "message not intended for this worker")).
Proof.
  intros Hto. unfold HandleMessage. unfold mbind, go_bind. simpl.
  by rewrite bool_decide_eq_false_2.
Qed.
