(* ===== verification/Coordinator.v ===== *)
(** [coordination/coordinator.go]: the coordinator that registers workers and
    regions, queues tasks, runs them on the workers of a region and tracks
    their status.

    Tasks are shared by pointer between the queue, the status table and the
    caller, so they live in a table of their own.  [mu] and [regionLock] are
    not reentrant: taking one that is held blocks for ever. *)

From S2P Require Import Prelude GoTime KV Core Channel Worker.
From Stdlib Require Import ZArith Lia Ascii String.
From stdpp Require Import base tactics option list strings pretty gmap.

Local Open Scope Z_scope.

(** * Configuration and data *)

Record Config : Type := mkConfig {
  MinWorkers : Z;
  MaxWorkers : Z;
  WorkerTimeout : Z;
  MaxTasks : Z;
  TaskQueueSize : Z;
  TaskTimeout : Z;
  TaskCleanupInterval : Z;
  ChannelTimeout : Z;
  MaxMessageSize : Z;
  EncryptionEnabled : bool;
  RequireAttestation : bool;
  AttestationTimeout : Z;
  StoragePath : string;
  PersistenceEnabled : bool;
}.

Definition DefaultConfig : Config :=
  mkConfig 2 10 (30 * Second) 100 1000 (5 * Minute) (60 * Minute) (10 * Second) (1024 * 1024)
    true true (5 * Second) "" true.

Definition TaskStatusPending : string := "pending".
Definition TaskStatusRunning : string := "running".
Definition TaskStatusComplete : string := "complete".
Definition TaskStatusFailed : string := "failed".

Definition ErrNotEnoughWorkers := Sentinel "coordination" "ErrNotEnoughWorkers".
Definition ErrWorkerNotFound := Sentinel "coordination" "ErrWorkerNotFound".
Definition ErrRegionNotFound := Sentinel "coordination" "ErrRegionNotFound".

(** The "not found" the coordinator tests for: the one of go-ethereum's
    [signer/storage], not the database's. *)
Definition geth_ErrNotFound : goerr := Sentinel "ethereum/signer/storage" "ErrNotFound".

Record Task : Type := mkTask {
  TaskID : string;
  WorkerIDs : list string;
  TaskData : string;
  TaskAttestations : list string;
  Timeout : Z;
  TaskRegionID : string;
}.

Record TaskInfo : Type := mkTaskInfo {
  TI_Task : nat;      (* pointer *)
  TI_Status : string;
  TI_StartTime : Time;
  TI_EndTime : Time;
  TI_Error : option goerr;
  TI_Results : list string;
}.

Record TEEPairInfo : Type := mkPairInfo {
  PairID : string;
  SGXWorker : string;
  SEVWorker : string;
  PairChannel : nat;  (* pointer *)
  PairTaskCount : Z;  (* int32 *)
  LastUsed : Time;
}.

Record Region : Type := mkRegion {
  Region_ID : string;
  Region_Workers : string * string;
  Region_CreatedAt : Time;
  Region_Status : string;
  Region_Meta : Z * Z;   (* MaxObjects, MaxEvents *)
}.

#[export] Instance Region_eq_dec : EqDecision Region.
Proof. solve_decision. Defined.
#[export] Instance Region_countable : Countable Region.
Proof.
  refine (inj_countable' (λ r, (Region_ID r, Region_Workers r, Region_CreatedAt r, Region_Status r, Region_Meta r))
    (λ '(a, b, c, d, e), mkRegion a b c d e) _). by intros [].
Defined.

Record Coordinator (B : Type) : Type := mkCoordinator {
  config : Config;
  workers : gmap string Worker;
  queue : list nat;
  taskStatus : gmap string TaskInfo;
  done : signal;
  store : B;
  mu : bool;
  regionLock : bool;
  teePairs : gmap string (list TEEPairInfo);
  heap : Heap;
  task_table : gmap nat Task;
}.
Arguments mkCoordinator {_} _ _ _ _ _ _ _ _ _ _ _.
Arguments config {_} _.
Arguments workers {_} _.
Arguments queue {_} _.
Arguments taskStatus {_} _.
Arguments done {_} _.
Arguments store {_} _.
Arguments mu {_} _.
Arguments regionLock {_} _.
Arguments teePairs {_} _.
Arguments heap {_} _.
Arguments task_table {_} _.

(** Field updates. *)
Definition set_workers {B} ws (c : Coordinator B) : Coordinator B :=
  mkCoordinator (config c) ws (queue c) (taskStatus c) (done c) (store c) (mu c) (regionLock c)
    (teePairs c) (heap c) (task_table c).
Definition set_queue {B} q (c : Coordinator B) : Coordinator B :=
  mkCoordinator (config c) (workers c) q (taskStatus c) (done c) (store c) (mu c) (regionLock c)
    (teePairs c) (heap c) (task_table c).
Definition set_taskStatus {B} ts (c : Coordinator B) : Coordinator B :=
  mkCoordinator (config c) (workers c) (queue c) ts (done c) (store c) (mu c) (regionLock c)
    (teePairs c) (heap c) (task_table c).
Definition set_done {B} d (c : Coordinator B) : Coordinator B :=
  mkCoordinator (config c) (workers c) (queue c) (taskStatus c) d (store c) (mu c) (regionLock c)
    (teePairs c) (heap c) (task_table c).
Definition set_store {B} b (c : Coordinator B) : Coordinator B :=
  mkCoordinator (config c) (workers c) (queue c) (taskStatus c) (done c) b (mu c) (regionLock c)
    (teePairs c) (heap c) (task_table c).
Definition set_mu {B} l (c : Coordinator B) : Coordinator B :=
  mkCoordinator (config c) (workers c) (queue c) (taskStatus c) (done c) (store c) l (regionLock c)
    (teePairs c) (heap c) (task_table c).
Definition set_regionLock {B} l (c : Coordinator B) : Coordinator B :=
  mkCoordinator (config c) (workers c) (queue c) (taskStatus c) (done c) (store c) (mu c) l
    (teePairs c) (heap c) (task_table c).
Definition set_teePairs {B} ps (c : Coordinator B) : Coordinator B :=
  mkCoordinator (config c) (workers c) (queue c) (taskStatus c) (done c) (store c) (mu c) (regionLock c)
    ps (heap c) (task_table c).
Definition set_heap {B} h (c : Coordinator B) : Coordinator B :=
  mkCoordinator (config c) (workers c) (queue c) (taskStatus c) (done c) (store c) (mu c) (regionLock c)
    (teePairs c) h (task_table c).
Definition set_task_table {B} t (c : Coordinator B) : Coordinator B :=
  mkCoordinator (config c) (workers c) (queue c) (taskStatus c) (done c) (store c) (mu c) (regionLock c)
    (teePairs c) (heap c) t.

(** * Locks

    [mu.Lock(); defer mu.Unlock()] around a body: the deferred unlock runs on
    return and on panic. *)
Definition with_mu {B A} (body : go (Coordinator B) A) : go (Coordinator B) A := λ c,
  if mu c then (c, Hang "mu is locked")
  else match body (set_mu true c) with
       | (c', Hang w) => (c', Hang w)
       | (c', o) => (set_mu false c', o)
       end.

Definition with_mu_read {B A} (body : go (Coordinator B) A) : go (Coordinator B) A := λ c,
  if mu c then (c, Hang "mu is locked") else body c.

Definition with_regionLock {B A} (body : go (Coordinator B) A) : go (Coordinator B) A := λ c,
  if regionLock c then (c, Hang "regionLock is locked")
  else match body (set_regionLock true c) with
       | (c', Hang w) => (c', Hang w)
       | (c', o) => (set_regionLock false c', o)
       end.

Definition with_regionLock_read {B A} (body : go (Coordinator B) A) : go (Coordinator B) A := λ c,
  if regionLock c then (c, Hang "regionLock is locked") else body c.

Definition NewCoordinator {B} (cfg : Config) (base : B) (h : Heap) : Coordinator B :=
  let cfg' :=
    if TaskCleanupInterval cfg <=? 0 then
      mkConfig (MinWorkers cfg) (MaxWorkers cfg) (WorkerTimeout cfg) (MaxTasks cfg) (TaskQueueSize cfg)
        (TaskTimeout cfg) Minute (ChannelTimeout cfg) (MaxMessageSize cfg) (EncryptionEnabled cfg)
        (RequireAttestation cfg) (AttestationTimeout cfg) (StoragePath cfg) (PersistenceEnabled cfg)
    else cfg in
  mkCoordinator cfg' ∅ [] ∅ SigOpen base false false ∅ h ∅.

(** What [Worker.MarshalJSON] writes: id, enclave, status code and channels. *)
Abbreviation worker_alias := (string * string * Z * gmap string channel_alias)%type.

(** The worker's id and those of its peers are strings, its enclave id is bytes. *)
#[export] Instance worker_Encodable : Encodable worker_alias :=
  λ '(id, _, _, channels), utf8 id && keys_utf8 channels && forallb encodable (map_to_list channels).*2.

Definition status_code (st : WorkerStatus) : Z :=
  match st with WorkerStatusIdle => 0 | WorkerStatusActive => 1 | WorkerStatusError => 2 end.

Definition channel_fields (h : Heap) (p : nat) : option channel_alias :=
  (λ c, (Worker1 c, Worker2 c, Key c, Encrypted c)) <$> cells h !! p.

Definition Worker_MarshalJSON `{!Json worker_alias} (h : Heap) (w : Worker) : string :=
  Marshal (ID w, WEnclaveID w, status_code (WStatus w), omap (channel_fields h) (Channels w)).

Section operations.
Context {B : Type} `{!BaseStore B}.
Context `{!Json channel_alias, !Json worker_alias, !Json Region}.
(** merkledb's [NewView] on the coordinator's database: nil or its error. *)
Context (NewView : outcome unit).
Implicit Types (c : Coordinator B).

Definition on_store {A} (m : go B A) : go (Coordinator B) A := zoom store set_store m.
Definition on_heap_of {A} (m : go Heap A) : go (Coordinator B) A := zoom heap set_heap m.

(** A method call on a registered worker. *)
Definition on_worker {A} (id : string) (m : go Worker A) : go (Coordinator B) A := λ c,
  match workers c !! id with
  | Some w => let '(w', o) := m w in (set_workers (<[id := w']> (workers c)) c, o)
  | None => (c, Panic "invalid memory address or nil pointer dereference")
  end.

Definition SaveWorker (w : Worker) : go (Coordinator B) unit := λ c,
  on_store (sw_Put (workerPrefix +s+ ID w) (Worker_MarshalJSON (heap c) w)) c.
Definition DeleteWorker (id : string) : go (Coordinator B) unit :=
  on_store (sw_Delete (workerPrefix +s+ id)).

(** * Channels *)

(** The stored channel as a fresh object, or a new one, established and saved. *)
Definition GetSecureChannel (worker1 worker2 : string) : go (Coordinator B) nat :=
  r ← try (on_store (LoadChannel worker1 worker2));
  match r with
  | inl ch => on_heap_of (alloc ch)
  | inr e =>
      fail_if (negb (errors_Is e geth_ErrNotFound)) (Wrapf "failed to load channel" e) ;;
      p ← wrap "failed to establish secure channel" (on_heap_of (new_established worker1 worker2));
      ch ← gets (λ c, cells (heap c) !! p);
      match ch with
      | Some ch => wrap "failed to save channel" (on_store (SaveChannel ch)) ;; mret p
      | None => gopanic "invalid memory address or nil pointer dereference"
      end
  end.

(** * Workers *)

(** The worker value [RegisterWorker] builds: no mailbox and no stop channel. *)
Definition registered_worker (now : Time) (id enclaveID : string) : Worker :=
  mkWorker id enclaveID WorkerStatusIdle "" "" ∅ now 0 0 0 Float64.f_zero None SigNil.

Definition RegisterWorker (now : Time) (id enclaveID : string) : go (Coordinator B) unit :=
  with_mu (
    exists_ ← gets (λ c, bool_decide (is_Some (workers c !! id)));
    fail_if exists_ (Errorf "worker already registered") ;;
    let worker := registered_worker now id enclaveID in
    wrap "failed to save worker" (SaveWorker worker) ;;
    match Start now worker with
    | (worker', Ok _) => modify (λ c, set_workers (<[id := worker']> (workers c)) c)
    | (_, Err e) => try (DeleteWorker id) ;; fail (Wrapf "failed to start worker" e)
    | (_, Panic w) => gopanic w
    | (_, Hang w) => gohang w
    end).

Definition UnregisterWorker (id : string) : go (Coordinator B) unit :=
  with_mu (
    exists_ ← gets (λ c, bool_decide (is_Some (workers c !! id)));
    fail_if (negb exists_) ErrWorkerNotFound ;;
    wrap "failed to stop worker" (on_worker id Stop) ;;
    wrap "failed to delete worker" (DeleteWorker id) ;;
    modify (λ c, set_workers (delete id (workers c)) c)).

(** * TEE pairs and regions *)

Definition append_pair (regionID : string) (p : TEEPairInfo) (c : Coordinator B) : Coordinator B :=
  set_teePairs (<[regionID := default [] (teePairs c !! regionID) ++ [p]]> (teePairs c)) c.

Definition RegisterTEEPair (now : Time) (regionID SGXID SEVID : string) : go (Coordinator B) unit :=
  with_mu (
    wrap "failed to register SGX worker" (RegisterWorker now SGXID SGXID) ;;
    r ← try (RegisterWorker now SEVID SEVID);
    match r with
    | inr e => try (UnregisterWorker SGXID) ;; fail (Wrapf "failed to register SEV worker" e)
    | inl _ =>
        rc ← try (GetSecureChannel SGXID SEVID);
        match rc with
        | inr e => try (UnregisterWorker SGXID) ;; try (UnregisterWorker SEVID) ;;
                   fail (Wrapf "failed to establish secure channel" e)
        | inl p =>
            with_regionLock (modify (append_pair regionID
              (mkPairInfo (SGXID +s+ "-" +s+ SEVID) SGXID SEVID p 0 now)))
        end
    end).

(** The index of the least loaded pair: the first of the minimal ones, and only
    one below the largest [int32]. *)
Fixpoint least_loaded (pairs : list TEEPairInfo) (i : nat) (minTasks : Z) (selected : option nat) : option nat :=
  match pairs with
  | [] => selected
  | p :: ps =>
      if PairTaskCount p <? minTasks
      then least_loaded ps (S i) (PairTaskCount p) (Some i)
      else least_loaded ps (S i) minTasks selected
  end.

Definition update_pair (regionID : string) (i : nat) (f : TEEPairInfo → TEEPairInfo)
    (c : Coordinator B) : Coordinator B :=
  set_teePairs (alter (alter f i) regionID (teePairs c)) c.

Definition bump (d : Z) (now : Time) (p : TEEPairInfo) : TEEPairInfo :=
  mkPairInfo (PairID p) (SGXWorker p) (SEVWorker p) (PairChannel p) (int32 (PairTaskCount p + d)) now.

(** The selected pair is returned by its place in the region's list. *)
Definition selectTEEPair (now : Time) (regionID : string) : go (Coordinator B) nat :=
  pairs ← with_regionLock_read (gets (λ c, default [] (teePairs c !! regionID)));
  fail_if (length pairs =? 0)%nat (Errorf "no TEE pairs available for region") ;;
  match least_loaded pairs 0 MaxInt32 None with
  | None => fail (Errorf "no available TEE pairs in region")
  | Some i => modify (update_pair regionID i (bump 1 now)) ;; mret i
  end.

Definition RegisterRegion (now : Time) (regionID : string) (teeWorkers : string * string) :
    go (Coordinator B) unit :=
  with_regionLock (
    fail_if (bool_decide (regionID = "")) (Errorf "invalid region ID") ;;
    existing ← try (on_store (LoadRegion (R := Region) regionID));
    match existing with
    | inl _ => fail (Errorf "region already exists")
    | inr e =>
        fail_if (negb (errors_Is e geth_ErrNotFound)) (Wrapf "failed to check existing region" e) ;;
        ws ← gets workers;
        fail_if (bool_decide (ws !! teeWorkers.1 = None)) (Errorf "worker not found") ;;
        fail_if (bool_decide (ws !! teeWorkers.2 = None)) (Errorf "worker not found") ;;
        wrap "failed to save region"
          (on_store (SaveRegion regionID (mkRegion regionID teeWorkers (UTC now) "" (0, 0)))) ;;
        p ← wrap "failed to establish secure channel" (GetSecureChannel teeWorkers.1 teeWorkers.2);
        modify (append_pair regionID
          (mkPairInfo (teeWorkers.1 +s+ "-" +s+ teeWorkers.2) teeWorkers.1 teeWorkers.2 p 0 now))
    end).

Definition ValidateRegionalOperation (now : Time) (regionID : string)
    (attestations : TEEAttestation * TEEAttestation) : go (Coordinator B) unit :=
  with_regionLock_read (
    pairs ← gets (λ c, default [] (teePairs c !! regionID));
    fail_if (length pairs =? 0)%nat ErrRegionNotFound ;;
    fail_if (negb (existsb (λ p, bool_decide (EnclaveID attestations.1 = SGXWorker p) &&
                                 bool_decide (EnclaveID attestations.2 = SEVWorker p)) pairs))
      (Errorf "unauthorized TEE pair for region") ;;
    fail_if (negb (TimeEqual (Timestamp attestations.1) (Timestamp attestations.2)))
      (Errorf "attestation timestamps do not match") ;;
    window ← gets (λ c, AttestationTimeout (config c));
    fail_if (outside_window now (Timestamp attestations.1) window ||
             outside_window now (Timestamp attestations.2) window)
      (Errorf "attestation timestamp outside valid window")).

Definition GetTEEPair (regionID : string) : go (Coordinator B) (string * string) :=
  with_regionLock_read (
    pairs ← gets (λ c, default [] (teePairs c !! regionID));
    match pairs with
    | [] => fail ErrRegionNotFound
    | p :: _ => mret (SGXWorker p, SEVWorker p)
    end).

(** * Tasks *)

(** The status change of the entry of a task, when it has one. *)
Definition update_info (id : string) (f : TaskInfo → TaskInfo) (c : Coordinator B) : Coordinator B :=
  set_taskStatus (alter f id (taskStatus c)) c.

Definition with_status (st : string) (i : TaskInfo) : TaskInfo :=
  mkTaskInfo (TI_Task i) st (TI_StartTime i) (TI_EndTime i) (TI_Error i) (TI_Results i).

(** [info.Status = Failed; info.Error = err; info.EndTime = now]. *)
Definition failed_info (now : Time) (err : goerr) (i : TaskInfo) : TaskInfo :=
  mkTaskInfo (TI_Task i) TaskStatusFailed (TI_StartTime i) now (Some err) (TI_Results i).

Definition completed_info (now : Time) (i : TaskInfo) : TaskInfo :=
  mkTaskInfo (TI_Task i) TaskStatusComplete (TI_StartTime i) now (TI_Error i) (TI_Results i).

(** The critical section of [SubmitTask] that enters the task in the table. *)
Definition admit_task (now : Time) (p : nat) (t : Task) : go (Coordinator B) unit :=
  with_mu (
    full ← gets (λ c, MaxTasks (config c) <=? Z.of_nat (size (taskStatus c)));
    fail_if full (Errorf "maximum number of concurrent tasks reached") ;;
    modify (λ c, set_taskStatus (<[TaskID t :=
      mkTaskInfo p TaskStatusPending now zeroTime None []]> (taskStatus c)) c)).

(** A task that could not be queued leaves the table. *)
Definition cancel_task (t : Task) (e : goerr) : go (Coordinator B) unit :=
  with_mu (modify (λ c, set_taskStatus (delete (TaskID t) (taskStatus c)) c)) ;;
  fail e.

(** Its [select]: the task enters the queue, or leaves the table with the error
    of the context ([ctx], when it is done) or of the timeout.  [pick_ctx] is
    Go's choice when the queue also has room. *)
Definition enqueue_task (ctx : option goerr) (pick_ctx : bool) (p : nat) (t : Task) :
    go (Coordinator B) unit :=
  room ← gets (λ c, Z.of_nat (length (queue c)) <? MaxTasks (config c));
  match ctx with
  | Some e => if room && negb pick_ctx then modify (λ c, set_queue (queue c ++ [p]) c)
              else cancel_task t e
  | None => if (room : bool) then modify (λ c, set_queue (queue c ++ [p]) c)
            else cancel_task t (Errorf "task submission timed out")
  end.

(** [task] is a pointer, nil as [None]. *)
Definition SubmitTask (now : Time) (ctx : option goerr) (pick_ctx : bool) (task : option nat) :
    go (Coordinator B) unit :=
  match task with
  | None => fail (Errorf "nil task")
  | Some p =>
      t ← gets (λ c, task_table c !! p);
      match t with
      | None => gopanic "invalid memory address or nil pointer dereference"
      | Some t => admit_task now p t ;; enqueue_task ctx pick_ctx p t
      end
  end.

(** The workers of a task that are registered, in the task's order. *)
Definition task_workers (ids : list string) (c : Coordinator B) : list string :=
  filter (λ id, is_Some (workers c !! id)) ids.

(** The pairs [(i, j)] with [i < j], in the order of the two loops. *)
Fixpoint all_pairs (l : list string) : list (string * string) :=
  match l with
  | [] => []
  | x :: l' => ((λ y, (x, y)) <$> l') ++ all_pairs l'
  end.

Definition add_channel (other : string) (p : nat) (w : Worker) : Worker :=
  set_channels (<[other := p]> (Channels w)) w.

Definition connect (ij : string * string) : go (Coordinator B) unit :=
  p ← wrap "failed to establish channel" (GetSecureChannel ij.1 ij.2);
  on_worker ij.1 (modify (add_channel ij.2 p)) ;;
  on_worker ij.2 (modify (add_channel ij.1 p)).

(** [withView]: the view itself is not used by the function it is given. *)
Definition withView {A} (fn : go (Coordinator B) A) : go (Coordinator B) A :=
  wrap "failed to create view" (lift NewView) ;; fn.

Definition handleTask (pick_done : bool) (task : Task) : go (Coordinator B) unit :=
  ws ← with_mu_read (gets (task_workers (WorkerIDs task)));
  min ← gets (λ c, MinWorkers (config c));
  fail_if (Z.of_nat (length ws) <? min) ErrNotEnoughWorkers ;;
  withView (
    for_each connect (all_pairs ws) ;;
    for_each (λ id, wrap "failed to send task to worker"
      (on_worker id (SendMessage pick_done (mkMessage MessageTypeData "" "" (TaskData task) zeroTime)))) ws).

(** The task's worker ids are overwritten through its pointer. *)
Definition handleRegionalTask (now : Time) (pick_done : bool) (p : nat) (task : Task) (regionID : string) :
    go (Coordinator B) unit :=
  i ← selectTEEPair now regionID;
  pair ← gets (λ c, default [] (teePairs c !! regionID) !! i);
  match pair with
  | None => gopanic "index out of range"
  | Some pr =>
      let task' := mkTask (TaskID task) [SGXWorker pr; SEVWorker pr] (TaskData task)
                     (TaskAttestations task) (Timeout task) (TaskRegionID task) in
      modify (λ c, set_task_table (<[p := task']> (task_table c)) c) ;;
      r ← try (handleTask pick_done task');
      modify (update_pair regionID i (bump (-1) now)) ;;
      match r with inl _ => mret tt | inr e => fail e end
  end.

Definition executeTask (now : Time) (pick_done : bool) (p : nat) (task : Task) : go (Coordinator B) unit :=
  if negb (bool_decide (TaskRegionID task = ""))
  then handleRegionalTask now pick_done p task (TaskRegionID task)
  else handleTask pick_done task.

(** The three critical sections of one turn of [processTasks]: take the next
    task and mark it running, run it, record how it ended. *)
Definition start_next : go (Coordinator B) (option nat) :=
  q ← gets queue;
  match q with
  | [] => gohang "receive from an empty channel"
  | p :: rest =>
      modify (set_queue rest) ;;
      with_mu (
        t ← gets (λ c, task_table c !! p);
        match t with
        | None => gopanic "invalid memory address or nil pointer dereference"
        | Some t =>
            known ← gets (λ c, bool_decide (is_Some (taskStatus c !! TaskID t)));
            if (known : bool) then modify (update_info (TaskID t) (with_status TaskStatusRunning)) ;; mret (Some p)
            else mret None
        end)
  end.

Definition finish (now : Time) (id : string) (r : unit + goerr) : go (Coordinator B) unit :=
  with_mu (modify (update_info id (match r with
    | inl _ => completed_info now
    | inr e => failed_info now e
    end))).

Definition processTask (now : Time) (pick_done : bool) : go (Coordinator B) unit :=
  next ← start_next;
  match next with
  | None => mret tt
  | Some p =>
      t ← gets (λ c, task_table c !! p);
      match t with
      | None => gopanic "invalid memory address or nil pointer dereference"
      | Some t => r ← try (executeTask now pick_done p t); finish now (TaskID t) r
      end
  end.

Definition is_terminal (i : TaskInfo) : bool :=
  bool_decide (TI_Status i = TaskStatusComplete) || bool_decide (TI_Status i = TaskStatusFailed).

(** One tick of [cleanupTasks]. *)
Definition cleanup_tick (now : Time) : go (Coordinator B) unit :=
  with_mu (modify (λ c,
    set_taskStatus (filter (λ kv, ¬ (is_terminal kv.2 = true ∧
      TaskCleanupInterval (config c) < Sub now (TI_EndTime kv.2))) (taskStatus c)) c)).

Definition GetTaskStatus (taskID : string) : go (Coordinator B) TaskInfo :=
  with_mu_read (
    i ← gets (λ c, taskStatus c !! taskID);
    match i with Some i => mret i | None => fail (Errorf "task not found") end).

Definition SetTaskResult (now : Time) (taskID result workerID : string) : go (Coordinator B) unit :=
  with_mu (
    i ← gets (λ c, taskStatus c !! taskID);
    match i with
    | None => fail (Errorf "task not found")
    | Some i =>
        fail_if (negb (bool_decide (TI_Status i = TaskStatusRunning))) (Errorf "task is not running") ;;
        t ← gets (λ c, task_table c !! TI_Task i);
        match t with
        | None => gopanic "invalid memory address or nil pointer dereference"
        | Some t =>
            let results := TI_Results i ++ [result] in
            let full := (length results =? length (WorkerIDs t))%nat in
            modify (update_info taskID (λ _, mkTaskInfo (TI_Task i)
              (if full then TaskStatusComplete else TI_Status i) (TI_StartTime i)
              (if full then now else TI_EndTime i) (TI_Error i) results))
        end
    end).

(** * Health *)

Definition affected (c : Coordinator B) (workerID : string) (i : TaskInfo) : bool :=
  match task_table c !! TI_Task i with
  | Some t => bool_decide (workerID ∈ WorkerIDs t)
  | None => false
  end.

(** Every task that names the worker is failed, whatever its status. *)
Definition handleWorkerTimeout (now : Time) (workerID : string) (c : Coordinator B) : Coordinator B :=
  set_taskStatus ((λ i, if affected c workerID i
    then failed_info now (Errorf ("worker " +s+ workerID +s+ " timeout")) i else i) <$> taskStatus c) c.

Definition timed_out (now : Time) (c : Coordinator B) (id : string) : bool :=
  match workers c !! id with
  | Some w => bool_decide (WStatus w = WorkerStatusActive) &&
              (WorkerTimeout (config c) <? Sub now (LastActive w))
  | None => false
  end.

(** [order] is the order in which the map of workers is visited. *)
Definition checkWorkerHealth (now : Time) (order : list string) : go (Coordinator B) unit :=
  with_mu (modify (λ c, foldl (λ c id,
    if timed_out now c id
    then handleWorkerTimeout now id (set_workers (alter (set_status WorkerStatusError) id (workers c)) c)
    else c) c order)).

Definition VerifyAttestation (now : Time) (att : option TEEAttestation) (c : Coordinator B) : verdict :=
  match att with
  | None => Err (Errorf "nil attestation")
  | Some a =>
      check (outside_window now (Timestamp a) (AttestationTimeout (config c)))
        (Errorf "attestation timestamp outside valid window") ;;
      check (slen (Signature a) =? 0) (Errorf "missing attestation signature")
  end.

Definition Coordinator_SendMessage (msg : Message) : go (Coordinator B) unit :=
  with_mu_read (
    ws ← gets workers;
    fail_if (bool_decide (ws !! From msg = None)) (Errorf "sender worker not found") ;;
    fail_if (bool_decide (ws !! MsgTo msg = None)) (Errorf "recipient worker not found")) ;;
  p ← wrap "failed to get secure channel" (GetSecureChannel (From msg) (MsgTo msg));
  wrap "failed to send message" (on_heap_of (on_channel p (Send (MsgData msg)))) ;;
  on_worker (From msg) (modify (set_status WorkerStatusActive)) ;;
  on_worker (MsgTo msg) (modify (set_status WorkerStatusActive)).

(** * Queries and shutdown *)

Definition GetWorker (id : string) : go (Coordinator B) (option Worker) :=
  with_mu_read (gets (λ c, workers c !! id)).
Definition GetWorkerCount : go (Coordinator B) Z :=
  with_mu_read (gets (λ c, Z.of_nat (size (workers c)))).

Definition verifyWorkerPair (worker1 worker2 : string) : go (Coordinator B) unit :=
  with_mu_read (
    ws ← gets workers;
    fail_if (bool_decide (ws !! worker1 = None)) (Errorf "worker not found") ;;
    fail_if (bool_decide (ws !! worker2 = None)) (Errorf "worker not found")).

Definition isWorkerActive (id : string) : go (Coordinator B) bool :=
  with_mu_read (gets (λ c, match workers c !! id with
    | Some w => bool_decide (WStatus w = WorkerStatusActive)
    | None => false
    end)).

(** [order] is the order in which the workers are stopped. *)
Definition Coordinator_Stop (now : Time) (order : list string) : go (Coordinator B) unit := λ c,
  match done c with
  | SigOpen =>
      with_mu (
        modify (λ c, set_taskStatus ((λ i,
          if bool_decide (TI_Status i = TaskStatusRunning)
          then failed_info now (Errorf "coordinator stopped") i else i) <$> taskStatus c) c) ;;
        for_each (λ id, try (on_worker id Stop) ;; mret tt) order) (set_done SigClosed c)
  | _ => (c, Panic "close of closed channel")
  end.

Definition cleanup : go (Coordinator B) unit :=
  with_mu (modify (λ c,
    set_teePairs ((λ _, []) <$> teePairs c)
      (set_workers ((λ w, set_channels ∅ (set_status WorkerStatusIdle w)) <$> workers c)
        (set_taskStatus ∅ c)))).
End operations.
