(* ===== verification/CoordinatorFacts.v ===== *)
(** Properties of the coordinator: selection of the least loaded pair, secure
    channels, registration, the tasks that can run, and the invariants of the
    task table over every interleaving of its operations. *)

From S2P Require Import Prelude GoTime KV Core Channel Worker Coordinator.
From Stdlib Require Import ZArith Lia Ascii String.
From stdpp Require Import base tactics option list strings pretty gmap.

Local Open Scope Z_scope.

(** * Selection of a pair *)

(** What [least_loaded] returns on a suffix of the list it was started on. *)
Lemma least_loaded_spec pairs i m sel :
  match least_loaded pairs i m sel with
  | Some j =>
      (sel = Some j ∧ ∀ k p, pairs !! k = Some p → m ≤ PairTaskCount p) ∨
      (∃ k p, j = (i + k)%nat ∧ pairs !! k = Some p ∧ PairTaskCount p < m ∧
         (∀ k' p', pairs !! k' = Some p' → PairTaskCount p ≤ PairTaskCount p') ∧
         (∀ k' p', (k' < k)%nat → pairs !! k' = Some p' → PairTaskCount p < PairTaskCount p'))
  | None => sel = None ∧ ∀ k p, pairs !! k = Some p → m ≤ PairTaskCount p
  end.
Proof.
  revert i m sel. induction pairs as [|q qs IH]; intros i m sel; simpl.
  { destruct sel; [left|]; split; try done; intros k p H; by rewrite lookup_nil in H. }
  destruct (Z.ltb_spec (PairTaskCount q) m) as [Hq|Hq].
  - specialize (IH (S i) (PairTaskCount q) (Some i)).
    destruct (least_loaded qs (S i) (PairTaskCount q) (Some i)) as [j|]; [|naive_solver].
    right. destruct IH as [[[= ->] Hmin]|(k & p & -> & Hk & Hlt & Hmin & Hfst)].
    + exists 0%nat, q. split; [lia|]. split; [done|]. split; [done|]. split.
      * intros [|k'] p' H; simpl in H; [injection H as <-; lia|eauto].
      * lia.
    + exists (S k), p. split; [lia|]. split; [done|]. split; [lia|]. split.
      * intros [|k'] p' H; simpl in H; [injection H as <-; lia|eauto].
      * intros [|k'] p' Hk' H; simpl in H; [injection H as <-; lia|]. apply (Hfst k'); [lia|done].
  - specialize (IH (S i) m sel).
    assert (∀ k p, (∀ k p, qs !! k = Some p → m ≤ PairTaskCount p) →
              (q :: qs) !! k = Some p → m ≤ PairTaskCount p) as Hcons.
    { intros [|k] p H Hk; simpl in Hk; [injection Hk as <-; lia|eauto]. }
    destruct (least_loaded qs (S i) m sel) as [j|]; [|naive_solver].
    destruct IH as [[? Hmin]|(k & p & -> & Hk & Hlt & Hmin & Hfst)]; [left; naive_solver|right].
    exists (S k), p. split; [lia|]. split; [done|]. split; [done|]. split.
    + intros [|k'] p' H; simpl in H; [injection H as <-; lia|eauto].
    + intros [|k'] p' Hk' H; simpl in H; [injection H as <-; lia|]. apply (Hfst k'); [lia|done].
Qed.

(** The pair chosen for a task is the least loaded one of its region, the
    first of them when several are; none is chosen exactly when every pair is
    at the largest 32-bit count. *)
Theorem least_loaded_correct pairs :
  match least_loaded pairs 0 MaxInt32 None with
  | Some j => ∃ p, pairs !! j = Some p ∧
      (∀ k q, pairs !! k = Some q → PairTaskCount p ≤ PairTaskCount q) ∧
      (∀ k q, (k < j)%nat → pairs !! k = Some q → PairTaskCount p < PairTaskCount q)
  | None => ∀ k q, pairs !! k = Some q → MaxInt32 ≤ PairTaskCount q
  end.
Proof.
  pose proof (least_loaded_spec pairs 0 MaxInt32 None) as H.
  destruct (least_loaded pairs 0 MaxInt32 None) as [j|]; [|naive_solver].
  destruct H as [[? _]|(k & p & -> & Hk & _ & Hmin & Hfst)]; [done|].
  exists p. simpl. naive_solver.
Qed.

Lemma int32_roundtrip x : - 2 ^ 31 ≤ x < 2 ^ 31 → int32 (int32 (x + 1) - 1) = x.
Proof.
  unfold int32. intros Hx.
  replace (((x + 1 + 2 ^ 31) mod 2 ^ 32 - 2 ^ 31 - 1 + 2 ^ 31)) with ((x + 1 + 2 ^ 31) mod 2 ^ 32 - 1) by lia.
  rewrite Zminus_mod_idemp_l. rewrite Z.mod_small by lia. lia.
Qed.

(** Calls under a lock preserve a relation that ignores the lock. *)
Section locks.
Context {B : Type} (R : relation (Coordinator B)) `{!PreOrder R}.

Lemma preserves_with_mu {A} (m : go (Coordinator B) A) :
  (∀ b c, R c (set_mu b c)) → preserves R m → preserves R (with_mu m).
Proof.
  intros HR H c. unfold with_mu. destruct (mu c); [reflexivity|].
  specialize (H (set_mu true c)). destruct (m (set_mu true c)) as [c' o].
  assert (R c c') by (etrans; [apply (HR true)|done]).
  destruct o; simpl; try done; (etrans; [done|apply HR]).
Qed.

Lemma preserves_with_regionLock {A} (m : go (Coordinator B) A) :
  (∀ b c, R c (set_regionLock b c)) → preserves R m → preserves R (with_regionLock m).
Proof.
  intros HR H c. unfold with_regionLock. destruct (regionLock c); [reflexivity|].
  specialize (H (set_regionLock true c)). destruct (m (set_regionLock true c)) as [c' o].
  assert (R c c') by (etrans; [apply (HR true)|done]).
  destruct o; simpl; try done; (etrans; [done|apply HR]).
Qed.

Lemma preserves_with_mu_read {A} (m : go (Coordinator B) A) :
  preserves R m → preserves R (with_mu_read m).
Proof. intros H c. unfold with_mu_read. destruct (mu c); [reflexivity|apply H]. Qed.

Lemma preserves_with_regionLock_read {A} (m : go (Coordinator B) A) :
  preserves R m → preserves R (with_regionLock_read m).
Proof. intros H c. unfold with_regionLock_read. destruct (regionLock c); [reflexivity|apply H]. Qed.

Lemma preserves_on_store {A} (m : go B A) :
  (∀ b c, R c (set_store b c)) → preserves R (on_store m).
Proof using Type. intros HR c. unfold on_store, zoom. destruct (m (store c)). apply HR. Qed.

Lemma preserves_on_heap {A} (m : go Heap A) :
  (∀ h c, R c (set_heap h c)) → preserves R (on_heap_of m).
Proof using Type. intros HR c. unfold on_heap_of, zoom. destruct (m (heap c)). apply HR. Qed.
End locks.

(** The calls of the coordinator on top of those of [solve_preserves]. *)
Ltac solve_coord tac :=
  repeat first
    [ progress (solve_preserves tac)
    | apply preserves_with_mu; [apply _|tac|]
    | apply preserves_with_regionLock; [apply _|tac|]
    | apply preserves_with_mu_read; [apply _|]
    | apply preserves_with_regionLock_read; [apply _|]
    | (apply preserves_on_store; tac)
    | (apply preserves_on_heap; tac) ].

Section facts.
Context {B : Type} `{!BaseStore B}.
Context `{!Json channel_alias, !Json worker_alias, !Json Region}.
Context (NewView : outcome unit).
Implicit Types (c : Coordinator B).

(** * Locks *)

Lemma with_mu_free {A} (body : go (Coordinator B) A) c :
  mu c = false →
  with_mu body c = match body (set_mu true c) with
                   | (c', Hang w) => (c', Hang w)
                   | (c', o) => (set_mu false c', o)
                   end.
Proof. intros H. unfold with_mu. by rewrite H. Qed.

(** Registering a TEE pair never returns: it takes the coordinator's mutex
    and then calls the worker registration, which takes it again. *)
Theorem RegisterTEEPair_blocks now regionID SGXID SEVID c :
  (RegisterTEEPair now regionID SGXID SEVID c).2 = Hang "mu is locked".
Proof.
  unfold RegisterTEEPair, with_mu at 1. destruct (mu c); [done|].
  unfold mbind at 1, go_bind at 1, wrap at 1, RegisterWorker at 1, with_mu at 1. done.
Qed.

(** * Regional operations *)

(** An operation on a region is accepted exactly when the region has a pair
    whose SGX and SEV workers are the two attesting enclaves in that order, the
    two attestations are of the same instant, and that instant is within the
    attestation window of the clock. *)
Theorem ValidateRegionalOperation_accepts now regionID atts c :
  regionLock c = false → 0 ≤ AttestationTimeout (config c) < maxDuration →
  (ValidateRegionalOperation now regionID atts c).2 = Ok tt ↔
  (∃ pairs p, teePairs c !! regionID = Some pairs ∧ p ∈ pairs ∧
     SGXWorker p = EnclaveID atts.1 ∧ SEVWorker p = EnclaveID atts.2) ∧
  t_ns (Timestamp atts.1) = t_ns (Timestamp atts.2) ∧
  Z.abs (t_ns now - t_ns (Timestamp atts.1)) ≤ AttestationTimeout (config c).
Proof.
  intros HL HT. unfold ValidateRegionalOperation, with_regionLock_read. rewrite HL. go_unfold.
  set (pairs := default [] (teePairs c !! regionID)).
  set (ok := existsb _ pairs).
  assert (ok = true ↔ ∃ pairs p, teePairs c !! regionID = Some pairs ∧ p ∈ pairs ∧
     SGXWorker p = EnclaveID atts.1 ∧ SEVWorker p = EnclaveID atts.2) as Hok.
  { unfold ok. rewrite existsb_exists. split.
    - intros (p & Hin & H). apply andb_true_iff in H as [H1%bool_decide_eq_true_1 H2%bool_decide_eq_true_1].
      unfold pairs in Hin. destruct (teePairs c !! regionID) as [ps|]; [|done].
      exists ps, p. split_and!; try done. by apply list_elem_of_In.
    - intros (ps & p & Hps & Hin & H1 & H2). exists p. unfold pairs. rewrite Hps. simpl.
      rewrite <-list_elem_of_In. split; [done|]. by rewrite !bool_decide_eq_true_2. }
  rewrite <-Hok. unfold TimeEqual.
  destruct ok eqn:Eok.
  - destruct (length pairs =? 0)%nat eqn:El.
    { apply Nat.eqb_eq, nil_length_inv in El. unfold ok in Eok. by rewrite El in Eok. }
    simpl. destruct (Z.eqb_spec (t_ns (Timestamp atts.1)) (t_ns (Timestamp atts.2))) as [E|E]; simpl.
    + destruct (outside_window now (Timestamp atts.1) _) eqn:E1; simpl.
      * split; [done|]. intros (_ & _ & H). apply (outside_window_false now (Timestamp atts.1)) in H; [congruence|done].
      * apply outside_window_false in E1 as HE; [|done].
        assert (outside_window now (Timestamp atts.2) (AttestationTimeout (config c)) = false) as ->
          by (apply outside_window_false; [done|lia]).
        done.
    + split; [done|]. naive_solver.
  - destruct (length pairs =? 0)%nat; simpl; naive_solver.
Qed.

(** * The task table

    What the calls on workers, channels, pairs and the store leave alone: the
    configuration, the queue, the status table and the ids of the tasks. *)
Definition same_tasks c c' : Prop :=
  config c' = config c ∧ queue c' = queue c ∧ taskStatus c' = taskStatus c ∧
  ∀ p t, task_table c !! p = Some t → ∃ t', task_table c' !! p = Some t' ∧ TaskID t' = TaskID t.

#[local] Instance same_tasks_preorder : PreOrder same_tasks.
Proof.
  split; [intros c; unfold same_tasks; naive_solver|].
  intros c1 c2 c3 (C1 & Q1 & S1 & T1) (C2 & Q2 & S2 & T2). unfold same_tasks.
  rewrite C2, Q2, S2. split_and!; try done. intros p t H.
  destruct (T1 p t H) as (t' & H' & E'). destruct (T2 p t' H') as (t'' & H'' & E'').
  exists t''. by rewrite E''.
Qed.

(** A call that leaves the task table alone, whatever its outcome. *)
Abbreviation frames := (preserves same_tasks).

Ltac same_tasks := intros; unfold same_tasks; simpl; naive_solver.

Lemma same_tasks_set_mu b c : same_tasks c (set_mu b c).
Proof. same_tasks. Qed.

Lemma frames_on_worker {A} id (m : go Worker A) : frames (on_worker id m).
Proof.
  intros c. unfold on_worker. destruct (workers c !! id); [destruct (m w)|]; same_tasks.
Qed.
#[local] Hint Resolve frames_on_worker : pres_db.

Ltac solve_frames := solve_coord ltac:(solve [same_tasks]).

Lemma frames_GetSecureChannel a b : frames (GetSecureChannel a b).
Proof. unfold GetSecureChannel. solve_frames. Qed.
#[local] Hint Resolve frames_GetSecureChannel : pres_db.

Lemma frames_SaveWorker w : frames (SaveWorker w).
Proof. intros c. apply (preserves_on_store same_tasks). same_tasks. Qed.
#[local] Hint Resolve frames_SaveWorker : pres_db.

Lemma frames_RegisterWorker now id e : frames (RegisterWorker now id e).
Proof. unfold RegisterWorker, DeleteWorker. solve_frames. Qed.

Lemma frames_UnregisterWorker id : frames (UnregisterWorker id).
Proof. unfold UnregisterWorker, DeleteWorker. solve_frames. Qed.

Lemma frames_RegisterRegion now r ws : frames (RegisterRegion now r ws).
Proof. unfold RegisterRegion. solve_frames. Qed.

Lemma frames_handleTask pick t : frames (handleTask NewView pick t).
Proof. unfold handleTask, withView, connect. solve_frames. Qed.
#[local] Hint Resolve frames_handleTask : pres_db.

Lemma frames_selectTEEPair now r : frames (selectTEEPair now r).
Proof. unfold selectTEEPair, update_pair. solve_frames. Qed.
#[local] Hint Resolve frames_selectTEEPair : pres_db.

(** A run keeps the id of the task it is given, whose workers it may replace. *)
Lemma same_tasks_executeTask now pick p t c t0 :
  task_table c !! p = Some t0 → TaskID t0 = TaskID t →
  same_tasks c (executeTask NewView now pick p t c).1.
Proof.
  intros Hp Ht. unfold executeTask.
  destruct (negb _); [|apply frames_handleTask]. unfold handleRegionalTask.
  pose proof (frames_selectTEEPair now (TaskRegionID t) c) as H1.
  unfold mbind at 1, go_bind at 1. destruct (selectTEEPair now (TaskRegionID t) c) as [c1 [i| | |]];
    try done. simpl in H1. etrans; [exact H1|].
  unfold mbind at 1, go_bind at 1, gets at 1. destruct (default [] _ !! i) as [pr|]; [|reflexivity].
  set (t' := mkTask _ _ _ _ _ _).
  assert (same_tasks c1 (set_task_table (<[p := t']> (task_table c1)) c1)) as H2.
  { destruct H1 as (_ & _ & _ & HT). destruct (HT p t0 Hp) as (t1 & Hp1 & Ht1).
    unfold same_tasks; simpl. split_and!; try done. intros q u Hq.
    destruct (decide (q = p)) as [->|Hne].
    - exists t'. rewrite lookup_insert_eq. rewrite Hp1 in Hq. simplify_eq/=. split; congruence.
    - exists u. by rewrite lookup_insert_ne by done. }
  etrans; [exact H2|]. unfold mbind at 1, go_bind at 1, modify at 1.
  match goal with |- same_tasks ?c0 (?m ?c0).1 => enough (frames m) as Hm by apply Hm end.
  unfold update_pair. solve_frames.
Qed.

Definition valid_status (st : string) : Prop :=
  st ∈ [TaskStatusPending; TaskStatusRunning; TaskStatusComplete; TaskStatusFailed].

(** An entry of the status table: its status is one of the four, a failed task
    has its error, and it points to the task it is filed under. *)
Definition entry_ok c (id : string) (i : TaskInfo) : Prop :=
  valid_status (TI_Status i) ∧
  (TI_Status i = TaskStatusFailed → is_Some (TI_Error i)) ∧
  (∃ t, task_table c !! TI_Task i = Some t ∧ TaskID t = id).

(** The limit the coordinator was configured with. *)
Context (limit : Z).

(** The invariant: the limit does not change, the table and the queue stay
    within it, every entry is well formed and every queued pointer is a task. *)
Definition tasks_inv c : Prop :=
  (MaxTasks (config c) = limit ∧ Z.of_nat (size (taskStatus c)) ≤ limit) ∧
  Z.of_nat (length (queue c)) ≤ limit ∧
  map_Forall (entry_ok c) (taskStatus c) ∧
  Forall (λ p, is_Some (task_table c !! p)) (queue c).

(** The steps of the goroutines that share the coordinator: the critical
    sections of a submission and of the processing loop one by one, and the
    other operations. *)
Inductive step : Coordinator B → Coordinator B → Prop :=
  | step_new_task p t c : task_table c !! p = None → step c (set_task_table (<[p := t]> (task_table c)) c)
  | step_admit now p t c : task_table c !! p = Some t → step c (admit_task now p t c).1
  | step_enqueue ctx pick p t c : task_table c !! p = Some t → step c (enqueue_task ctx pick p t c).1
  | step_start c : step c (start_next c).1
  | step_execute now pick p t c : task_table c !! p = Some t → step c (executeTask NewView now pick p t c).1
  | step_finish now id r c : step c (finish now id r c).1
  | step_cleanup_tick now c : step c (cleanup_tick now c).1
  | step_result now id r w c : step c (SetTaskResult now id r w c).1
  | step_health now order c : step c (checkWorkerHealth now order c).1
  | step_register now id e c : step c (RegisterWorker now id e c).1
  | step_unregister id c : step c (UnregisterWorker id c).1
  | step_region now r ws c : step c (RegisterRegion now r ws c).1
  | step_stop now order c : step c (Coordinator_Stop now order c).1
  | step_reset c : step c (cleanup c).1.

Lemma entry_ok_same c c' id i : same_tasks c c' → entry_ok c id i → entry_ok c' id i.
Proof.
  intros (_ & _ & _ & HT) (H1 & H2 & t & Ht & Hid). split_and!; try done.
  destruct (HT _ _ Ht) as (t' & Ht' & Hid'). exists t'. split; [done|congruence].
Qed.

Lemma tasks_inv_same c c' : same_tasks c c' → tasks_inv c → tasks_inv c'.
Proof.
  intros HS ([H0 H1] & H2 & H3 & H4). pose proof HS as (C & Q & S & T). unfold tasks_inv. rewrite C, Q, S.
  split_and!; try done.
  - eapply map_Forall_impl; [exact H3|]. intros. by eapply entry_ok_same.
  - eapply Forall_impl; [exact H4|]. intros p [t Ht]. destruct (T _ _ Ht) as (t' & -> & _). eauto.
Qed.

(** A change of the status table that keeps it small and well formed. *)
Lemma tasks_inv_status ts c :
  tasks_inv c → Z.of_nat (size ts) ≤ limit → map_Forall (entry_ok c) ts →
  tasks_inv (set_taskStatus ts c).
Proof. intros ([H0 H1] & H2 & H3 & H4) Hs He. by split_and!. Qed.

Lemma tasks_inv_subset ts c : ts ⊆ taskStatus c → tasks_inv c → tasks_inv (set_taskStatus ts c).
Proof.
  intros Hsub HI. apply tasks_inv_status; [done|..].
  - apply map_subseteq_size in Hsub. destruct HI as [[_ H] _]. lia.
  - intros id i Hi. destruct HI as (_ & _ & H & _). apply H. by eapply lookup_weaken.
Qed.

(** Rewriting the entries in place. *)
Lemma tasks_inv_fmap f c :
  (∀ id i, entry_ok c id i → entry_ok c id (f i)) →
  tasks_inv c → tasks_inv (set_taskStatus (f <$> taskStatus c) c).
Proof.
  intros Hf HI. apply tasks_inv_status; [done|..].
  - rewrite map_size_fmap. apply HI.
  - intros id i. rewrite lookup_fmap. intros (j & Hj & ->)%fmap_Some_1. apply Hf. by apply HI.
Qed.

Lemma tasks_inv_update id f c :
  (∀ i, entry_ok c id i → entry_ok c id (f i)) → tasks_inv c → tasks_inv (update_info id f c).
Proof.
  intros Hf HI. unfold update_info. apply tasks_inv_status; [done|..].
  - assert (size (alter f id (taskStatus c)) = size (taskStatus c)) as ->; [|apply HI].
    rewrite <-!size_dom, dom_alter_L. done.
  - intros id' i. rewrite lookup_alter. case_decide as E; [subst|intros; by apply HI].
    intros (j & Hj & ->)%fmap_Some_1. apply Hf. by apply HI.
Qed.

(** The critical sections under [mu] preserve the invariant when their bodies do. *)
Lemma tasks_inv_with_mu {A} (m : go (Coordinator B) A) c :
  (∀ c, tasks_inv c → tasks_inv (m c).1) → tasks_inv c → tasks_inv (with_mu m c).1.
Proof.
  intros Hm HI. unfold with_mu. destruct (mu c); [done|].
  assert (tasks_inv (m (set_mu true c)).1) as H.
  { apply Hm. by eapply tasks_inv_same; [apply same_tasks_set_mu|]. }
  destruct (m (set_mu true c)) as [c' [| | |]]; simpl in *; try done;
    (eapply tasks_inv_same; [apply same_tasks_set_mu|done]).
Qed.

Lemma tasks_inv_admit now p t c :
  task_table c !! p = Some t → tasks_inv c → tasks_inv (admit_task now p t c).1.
Proof.
  intros Ht HI. unfold admit_task, with_mu. destruct (mu c); [done|].
  go_unfold. simpl. destruct (Z.leb_spec (MaxTasks (config c)) (Z.of_nat (size (taskStatus c)))) as [H|H];
    simpl; [eapply tasks_inv_same; [|exact HI]; unfold same_tasks; naive_solver|].
  eapply tasks_inv_same; [apply (same_tasks_set_mu false)|]. simpl.
  apply (tasks_inv_status _ (set_mu true c)); simpl.
  - eapply tasks_inv_same; [apply same_tasks_set_mu|done].
  - destruct HI as [[HL _] _]. rewrite map_size_insert. destruct (taskStatus c !! TaskID t); simpl; lia.
  - apply map_Forall_insert_2; [|by apply HI].
    split_and!; simpl; [unfold valid_status; set_solver|done|eauto].
Qed.

Lemma tasks_inv_cancel t e c : tasks_inv c → tasks_inv (cancel_task t e c).1.
Proof.
  intros HI. unfold cancel_task, mbind, go_bind.
  pose proof (tasks_inv_with_mu (modify (λ c, set_taskStatus (delete (TaskID t) (taskStatus c)) c)) c) as H.
  destruct (with_mu _ c) as [c' [| | |]]; simpl in *; apply H; try done;
    intros c0 H0; (apply tasks_inv_subset; [apply delete_subseteq|done]).
Qed.

Lemma tasks_inv_enqueue ctx pick p t c :
  task_table c !! p = Some t → tasks_inv c → tasks_inv (enqueue_task ctx pick p t c).1.
Proof.
  intros Ht HI. unfold enqueue_task. unfold mbind, go_bind, gets.
  pose proof (λ e, tasks_inv_cancel t e c HI) as Hc.
  assert (Z.of_nat (length (queue c)) < MaxTasks (config c) →
    tasks_inv (modify (λ c, set_queue (queue c ++ [p]) c) c).1) as Hq.
  { intros Hl. destruct HI as ([H0 H1] & H2 & H3 & H4). unfold tasks_inv. simpl. rewrite length_app. simpl.
    split_and!; [done|done|lia|done|]. apply Forall_app. split; [done|]. constructor; [eauto|done]. }
  destruct (Z.ltb_spec (Z.of_nat (length (queue c))) (MaxTasks (config c)));
    destruct ctx, pick; simpl; auto.
Qed.

Lemma tasks_inv_start c : tasks_inv c → tasks_inv (start_next c).1.
Proof.
  intros HI. unfold start_next. unfold mbind at 1, go_bind at 1, gets at 1. cbn iota beta.
  destruct (queue c) as [|p rest] eqn:Q; [done|].
  unfold mbind at 1, go_bind at 1, modify at 1. cbn iota beta.
  apply tasks_inv_with_mu.
  - intros c0 H0. go_unfold. destruct (task_table c0 !! p) as [t|]; [|done].
    case_bool_decide; simpl; [|done]. apply tasks_inv_update; [|done].
    intros i (H1 & H2 & H3). split_and!; simpl; try done. unfold valid_status. set_solver.
  - destruct HI as ([H0 H1] & H2 & H3 & H4). rewrite Q in *. apply Forall_cons in H4 as [_ H4].
    unfold tasks_inv. simpl in *. split_and!; try done. lia.
Qed.

Lemma entry_ok_failed now e c id i : entry_ok c id i → entry_ok c id (failed_info now e i).
Proof. intros (H1 & H2 & H3). split_and!; simpl; try done. unfold valid_status. set_solver. Qed.

Lemma entry_ok_completed now c id i : entry_ok c id i → entry_ok c id (completed_info now i).
Proof. intros (H1 & H2 & H3). split_and!; simpl; try done. unfold valid_status. set_solver. Qed.
#[local] Hint Resolve entry_ok_failed entry_ok_completed : pres_db.

Lemma tasks_inv_result now id r w c : tasks_inv c → tasks_inv (SetTaskResult now id r w c).1.
Proof.
  apply tasks_inv_with_mu. intros c0 H0. go_unfold.
  destruct (taskStatus c0 !! id) as [i|] eqn:Ei; [|done].
  destruct (negb _) eqn:En; simpl; [done|]. destruct (task_table c0 !! TI_Task i) as [t|] eqn:Et; [|done].
  apply negb_false_iff, bool_decide_eq_true_1 in En.
  apply tasks_inv_update; [|done]. intros j _.
  destruct H0 as (_ & _ & H & _). destruct (H _ _ Ei) as (H1 & H2 & H3).
  split_and!; simpl; [|rewrite En; by destruct (_ =? _)%nat|done].
  destruct (_ =? _)%nat; [unfold valid_status; set_solver|done].
Qed.

Lemma tasks_inv_timeout now id c : tasks_inv c → tasks_inv (handleWorkerTimeout now id c).
Proof. apply tasks_inv_fmap. intros id' i H. destruct (affected c id i); auto with pres_db. Qed.

Lemma tasks_inv_health now order c : tasks_inv c → tasks_inv (checkWorkerHealth now order c).1.
Proof.
  apply tasks_inv_with_mu. intros c0. unfold modify. simpl. revert c0.
  induction order as [|id order IH]; simpl; [done|]. intros c0 H0. apply IH.
  destruct (timed_out now c0 id); [|done]. apply tasks_inv_timeout.
  eapply tasks_inv_same; [|exact H0]. unfold same_tasks. simpl. naive_solver.
Qed.

Lemma tasks_inv_stop now order c : tasks_inv c → tasks_inv (Coordinator_Stop now order c).1.
Proof.
  intros HI. unfold Coordinator_Stop. destruct (done c); try done.
  apply tasks_inv_with_mu; [|eapply tasks_inv_same; [|exact HI]; unfold same_tasks; simpl; naive_solver].
  intros c0 H0. unfold mbind at 1, go_bind at 1, modify at 1. cbn iota beta.
  match goal with |- tasks_inv (?m ?c0).1 => enough (frames m) as Hm end.
  - eapply tasks_inv_same; [apply Hm|]. apply tasks_inv_fmap; [|done].
    intros id i H. case_bool_decide; auto with pres_db.
  - solve_frames.
Qed.

Lemma tasks_inv_step c c' : step c c' → tasks_inv c → tasks_inv c'.
Proof.
  destruct 1 as [p t c Hp|now p t c Hp|ctx pick p t c Hp|c|now pick p t c Hp|now id r c|now c|now id r w c
    |now order c|now id e c|id c|now r ws c|now order c|c]; intros HI.
  - eapply tasks_inv_same; [|exact HI]. unfold same_tasks. simpl. split_and!; try done.
    intros q u Hq. exists u. rewrite lookup_insert_ne by congruence. done.
  - by apply tasks_inv_admit.
  - by apply tasks_inv_enqueue.
  - by apply tasks_inv_start.
  - eapply tasks_inv_same; [|exact HI]. by eapply same_tasks_executeTask.
  - apply tasks_inv_with_mu; [|done]. intros c0 H0. apply tasks_inv_update; [|done].
    destruct r; auto with pres_db.
  - apply tasks_inv_with_mu; [|done]. intros c0 H0. apply tasks_inv_subset; [|done].
    apply map_filter_subseteq.
  - by apply tasks_inv_result.
  - by apply tasks_inv_health.
  - eapply tasks_inv_same; [apply frames_RegisterWorker|done].
  - eapply tasks_inv_same; [apply frames_UnregisterWorker|done].
  - eapply tasks_inv_same; [apply frames_RegisterRegion|done].
  - by apply tasks_inv_stop.
  - apply tasks_inv_with_mu; [|done]. intros c0 H0.
    assert (tasks_inv (set_taskStatus ∅ c0)) by (apply tasks_inv_subset; [apply map_empty_subseteq|done]).
    eapply tasks_inv_same; [|eassumption]. unfold same_tasks. simpl. naive_solver.
Qed.
End facts.

(** * Workers without mailboxes

    [RegisterWorker] builds its workers without the constructor, so their
    mailbox and stop channel are nil, and no operation ever makes them. *)
Definition unwired_worker (w : Worker) : Prop := msgCh w = None ∧ doneCh w = SigNil.
Definition unwired {B} (c : Coordinator B) : Prop := map_Forall (λ _, unwired_worker) (workers c).

(** The configuration is kept and unwired workers stay so. *)
Definition keeps_unwired {B} : relation (Coordinator B) := λ c c',
  config c' = config c ∧ (unwired c → unwired c').

#[export] Instance keeps_unwired_preorder {B} : PreOrder (keeps_unwired (B := B)).
Proof. split; unfold keeps_unwired; [by intros c|]. intros c1 c2 c3 [-> H1] [-> H2]. auto. Qed.

Section unwired.
Context {B : Type} `{!BaseStore B}.
Context `{!Json channel_alias, !Json worker_alias, !Json Region}.
Context (NewView : outcome unit).
Implicit Types (c : Coordinator B).

Lemma preserves_on_worker {A} id (m : go Worker A) :
  (∀ w, unwired_worker w → unwired_worker (m w).1) → preserves keeps_unwired (on_worker (B := B) id m).
Proof.
  intros Hm c. unfold on_worker. destruct (workers c !! id) as [w|] eqn:Ew; [|reflexivity].
  specialize (Hm w). destruct (m w) as [w' o]. split; [done|]. intros Hc.
  unfold unwired; simpl. apply map_Forall_insert_2; [|done]. apply Hm. by eapply Hc.
Qed.

Ltac keeps := solve [intros; split; [done|]; unfold unwired; simpl; auto].
Ltac solve_unwired :=
  repeat first [ progress (solve_coord keeps)
    | (apply preserves_on_worker; intros w [Hm Hd]; unfold SendMessage; simpl; rewrite ?Hm, ?Hd; by split) ].

Lemma unwired_Stop w : unwired_worker w → unwired_worker (Stop w).1.
Proof. intros [Hm Hd]. unfold Stop. rewrite Hd. by split. Qed.
#[local] Hint Resolve unwired_Stop : pres_db.

Lemma unwired_GetSecureChannel a b : preserves keeps_unwired (GetSecureChannel (B := B) a b).
Proof. unfold GetSecureChannel. solve_unwired. Qed.
#[local] Hint Resolve unwired_GetSecureChannel : pres_db.

Lemma unwired_SaveWorker w : preserves keeps_unwired (SaveWorker (B := B) w).
Proof. intros c. apply (preserves_on_store keeps_unwired). keeps. Qed.
#[local] Hint Resolve unwired_SaveWorker : pres_db.

Lemma unwired_RegisterWorker now id e : preserves keeps_unwired (RegisterWorker (B := B) now id e).
Proof.
  unfold RegisterWorker, DeleteWorker, Start, modify at 1. cbv beta iota zeta. solve_unwired.
  apply preserves_modify. intros c. split; [done|]. intros Hc. unfold unwired; simpl.
  apply map_Forall_insert_2; [|done]. by split.
Qed.

Lemma unwired_fmap f c c' :
  config c' = config c → workers c' = f <$> workers c →
  (∀ w, unwired_worker w → unwired_worker (f w)) → keeps_unwired c c'.
Proof.
  intros HC HW Hf. split; [done|]. unfold unwired. rewrite HW. intros Hc id w.
  rewrite lookup_fmap. intros (w0 & Hw0 & ->)%fmap_Some_1. apply Hf. by eapply Hc.
Qed.

Lemma unwired_connect ij : preserves keeps_unwired (connect (B := B) ij).
Proof. unfold connect. solve_unwired. Qed.
#[local] Hint Resolve unwired_connect : pres_db.

Lemma unwired_handleTask pick t : preserves keeps_unwired (handleTask (B := B) NewView pick t).
Proof. unfold handleTask, withView. solve_unwired. Qed.
#[local] Hint Resolve unwired_handleTask : pres_db.

Lemma unwired_executeTask now pick p t : preserves keeps_unwired (executeTask (B := B) NewView now pick p t).
Proof. unfold executeTask, handleRegionalTask, selectTEEPair, update_pair. solve_unwired. Qed.

Lemma unwired_UnregisterWorker id : preserves keeps_unwired (UnregisterWorker (B := B) id).
Proof.
  unfold UnregisterWorker, DeleteWorker. solve_unwired; [apply preserves_on_worker, unwired_Stop|].
  apply preserves_modify. intros c. split; [done|]. by apply map_Forall_delete.
Qed.

Lemma unwired_RegisterRegion now r ws : preserves keeps_unwired (RegisterRegion (B := B) now r ws).
Proof. unfold RegisterRegion. solve_unwired. Qed.

Lemma unwired_health now order : preserves keeps_unwired (checkWorkerHealth (B := B) now order).
Proof.
  apply preserves_with_mu; [apply _|keeps|]. apply preserves_modify. intros c. revert c.
  induction order as [|id order IH]; intros c; simpl; [reflexivity|].
  etrans; [|apply IH]. destruct (timed_out now c id); [|reflexivity]. split; [done|].
  intros Hc id' w. unfold unwired, handleWorkerTimeout; simpl. rewrite lookup_alter. case_decide as E; [subst|by apply Hc].
  intros (w0 & Hw0 & ->)%fmap_Some_1. by apply (Hc _ _ Hw0).
Qed.

Lemma unwired_stop now order : preserves keeps_unwired (Coordinator_Stop (B := B) now order).
Proof.
  intros c. unfold Coordinator_Stop. destruct (done c); try reflexivity.
  transitivity (set_done SigClosed c); [keeps|].
  apply (preserves_with_mu keeps_unwired); [keeps|].
  solve_unwired. apply preserves_on_worker, unwired_Stop.
Qed.

Lemma unwired_step c c' : step NewView c c' → keeps_unwired c c'.
Proof.
  destruct 1; try keeps.
  - revert c H. unfold admit_task. intros c _. revert c. change (preserves keeps_unwired (admit_task (B := B) now p t)).
    unfold admit_task. solve_unwired.
  - revert c H. intros c _. apply (λ H : preserves keeps_unwired _, H c).
    unfold enqueue_task, cancel_task. solve_unwired.
  - revert c. change (preserves keeps_unwired (start_next (B := B))). unfold start_next, update_info. solve_unwired.
  - apply unwired_executeTask.
  - revert c. change (preserves keeps_unwired (finish (B := B) now id r)). unfold finish, update_info. solve_unwired.
  - revert c. change (preserves keeps_unwired (cleanup_tick (B := B) now)). unfold cleanup_tick. solve_unwired.
  - revert c. change (preserves keeps_unwired (SetTaskResult (B := B) now id r w)).
    unfold SetTaskResult, update_info. solve_unwired.
  - apply unwired_health.
  - apply unwired_RegisterWorker.
  - apply unwired_UnregisterWorker.
  - apply unwired_RegisterRegion.
  - apply unwired_stop.
  - revert c. change (preserves keeps_unwired (cleanup (B := B))). unfold cleanup. solve_unwired.
    apply preserves_modify. intros c. eapply unwired_fmap; [done|done|]. by intros w [].
Qed.

Lemma unwired_reachable cfg base h c :
  rtc (step NewView) (NewCoordinator cfg base h) c →
  config c = config (NewCoordinator cfg base h) ∧ unwired c.
Proof.
  intros Hc. assert (keeps_unwired (NewCoordinator cfg base h) c) as [HC HU].
  { induction Hc; [reflexivity|]. etrans; [by eapply unwired_step|done]. }
  split; [done|]. apply HU. apply map_Forall_empty.
Qed.

(** A task is never delivered to an unwired worker. *)
Lemma handleTask_unwired pick task c c' :
  0 < MinWorkers (config c) → unwired c → handleTask NewView pick task c ≠ (c', Ok tt).
Proof.
  intros Hmin HU H. unfold handleTask, withView in H. go_inv. unfold with_mu_read in *.
  destruct (mu c); [done|]. unfold gets in *. simplify_eq/=.
  unfold lift in *; simplify_eq.
  destruct (task_workers (WorkerIDs task) _) as [|id ws] eqn:Ew;
    [match goal with H : (_ <? _) = false |- _ => apply Z.ltb_ge in H; simpl in H; lia end|].
  match goal with H : for_each connect ?l ?c0 = (?c1, _) |- _ =>
    pose proof (preserves_for_each keeps_unwired connect l unwired_connect c0) as [_ HU1];
    rewrite H in HU1 end.
  simpl in *. go_inv. unfold on_worker in *.
  destruct (workers _ !! id) as [w|] eqn:Eid; [|done].
  destruct (HU1 HU _ _ Eid) as [Hm Hd]. rewrite (SendMessage_nil _ _ _ Hm Hd) in *. done.
Qed.
End unwired.

(** ** Every reachable task table *)

Section reachable.
Context {B : Type} `{!BaseStore B}.
Context `{!Json channel_alias, !Json worker_alias, !Json Region}.
Context (NewView : outcome unit).

(** A task sent to registered workers is never delivered: whatever happened
    before, as long as a task needs a worker at all the run does not succeed. *)
Theorem handleTask_never_delivers cfg base h (c : Coordinator B) pick task :
  0 < MinWorkers cfg → rtc (step NewView) (NewCoordinator cfg base h) c →
  is_ok (handleTask NewView pick task c).2 = false.
Proof.
  intros Hmin [HC HU]%unwired_reachable.
  destruct (handleTask NewView pick task c) as [c' [[]| | |]] eqn:E; try done.
  exfalso. eapply handleTask_unwired; [|done|exact E].
  rewrite HC. unfold NewCoordinator. simpl. by destruct (_ <=? 0).
Qed.

(** Unregistering a registered worker panics, in every reachable state in
    which the mutex is free: the worker's stop channel was never made. *)
Theorem UnregisterWorker_panics cfg base h (c : Coordinator B) id w :
  rtc (step NewView) (NewCoordinator cfg base h) c →
  workers c !! id = Some w → mu c = false →
  (UnregisterWorker id c).2 = Panic "close of nil channel".
Proof.
  intros [_ HU]%unwired_reachable Hw Hmu. destruct (HU _ _ Hw) as [_ Hd].
  unfold UnregisterWorker, with_mu, on_worker, Stop. rewrite Hmu. go_unfold.
  rewrite bool_decide_eq_true_2 by (simpl; rewrite Hw; eauto). simpl. by rewrite Hw, Hd.
Qed.

(** C4: in every state the coordinator can reach, through any interleaving of
    submissions, processing, results, health checks, cleanups, registrations
    and shutdown, the task table and the queue hold at most [MaxTasks] tasks,
    every status is one of the four, a failed task carries its error, and every
    entry is filed under the id of the task it points to. *)
Theorem tasks_inv_reachable cfg base h (c : Coordinator B) :
  0 ≤ MaxTasks cfg → rtc (step NewView) (NewCoordinator cfg base h) c → tasks_inv (MaxTasks cfg) c.
Proof.
  intros HM Hc. remember (NewCoordinator cfg base h) as c0 eqn:E0.
  assert (tasks_inv (MaxTasks cfg) c0) as H0.
  { subst. unfold tasks_inv, NewCoordinator. simpl. rewrite map_size_empty. simpl.
    destruct (_ <=? 0); split_and!; try done; apply map_Forall_empty. }
  clear E0. induction Hc; [done|]. eauto using tasks_inv_step.
Qed.
End reachable.

(** * Pair loads *)

(** The task counts of the pairs of a region. *)
Definition counts {B} (regionID : string) (c : Coordinator B) : list Z :=
  PairTaskCount <$> default [] (teePairs c !! regionID).

Definition keeps_pairs {B} : relation (Coordinator B) := λ c c', teePairs c' = teePairs c.

#[export] Instance keeps_pairs_preorder {B} : PreOrder (keeps_pairs (B := B)).
Proof. split; unfold keeps_pairs; [by intros c|]. intros c1 c2 c3 ? ?. congruence. Qed.

Section loads.
Context {B : Type} `{!BaseStore B}.
Context `{!Json channel_alias, !Json worker_alias, !Json Region}.
Context (NewView : outcome unit).
Implicit Types (c : Coordinator B).

Lemma keeps_pairs_on_worker {A} id (m : go Worker A) : preserves keeps_pairs (on_worker (B := B) id m).
Proof. intros c. unfold on_worker. destruct (workers c !! id) as [w|]; [by destruct (m w)|done]. Qed.

Lemma keeps_pairs_handleTask pick t : preserves keeps_pairs (handleTask (B := B) NewView pick t).
Proof.
  unfold handleTask, withView, connect, GetSecureChannel.
  repeat first [progress (solve_coord ltac:(done)) | apply keeps_pairs_on_worker].
Qed.

Lemma counts_update r r' i f c :
  counts r' (update_pair r i f c) =
  if decide (r = r') then PairTaskCount <$> alter f i (default [] (teePairs c !! r)) else counts r' c.
Proof.
  unfold counts, update_pair. simpl. rewrite lookup_alter. case_decide; [subst|done].
  destruct (teePairs c !! r'); [done|]. simpl. by destruct i.
Qed.

(** Counting a task in and out again leaves the counts as they were. *)
Lemma counts_bump_twice now now' r r' i c c1 :
  Forall (λ x, - 2 ^ 31 ≤ x < 2 ^ 31) (counts r c) →
  teePairs c1 = teePairs (update_pair r i (bump 1 now) c) →
  counts r' (update_pair r i (bump (-1) now') c1) = counts r' c.
Proof.
  intros HR HC. rewrite counts_update. unfold counts in *. rewrite HC. unfold update_pair; simpl.
  case_decide as E; [subst r'|by rewrite lookup_alter_ne].
  rewrite lookup_alter_eq. destruct (teePairs c !! r) as [ps|]; simpl in *; [|by destruct i].
  apply list_eq. intros k. rewrite !list_lookup_fmap, !list_lookup_alter.
  case_decide; [subst k|done].
  rewrite decide_True by done. destruct (ps !! i) as [p|] eqn:Ep; [|done]. simpl. f_equal. apply int32_roundtrip.
  eapply Forall_lookup_1 in HR; [exact HR|]. by rewrite list_lookup_fmap, Ep.
Qed.

(** A task run on a pair of a region counts while it runs and is counted
    out again however it ends, so the loads of every region's pairs are as
    before the call; only a panic or a block keeps the count. *)
Theorem handleRegionalTask_restores_loads now pick p task regionID c c' o r :
  Forall (λ x, - 2 ^ 31 ≤ x < 2 ^ 31) (counts regionID c) →
  handleRegionalTask NewView now pick p task regionID c = (c', o) →
  match o with Ok _ | Err _ => True | _ => False end →
  counts r c' = counts r c.
Proof.
  intros HR H Ho. unfold handleRegionalTask in H.
  destruct (selectTEEPair now regionID c) as [c1 o1] eqn:E1.
  assert (match o1 with Ok i => c1 = update_pair regionID i (bump 1 now) c | _ => c1 = c end) as Hc1.
  { unfold selectTEEPair, with_regionLock_read in E1. go_unfold. go_cases. }
  unfold mbind at 1, go_bind at 1 in H. rewrite E1 in H.
  destruct o1 as [i| | |]; simplify_eq; try done.
  unfold mbind at 1, go_bind at 1, gets at 1 in H. destruct (_ !! i) as [pr|]; [|unfold gopanic in H; by simplify_eq/=].
  unfold mbind at 1, go_bind at 1, modify at 1 in H. cbv beta iota zeta in H.
  match type of H with context [set_task_table ?t ?c] => set (c2 := set_task_table t c) in H end.
  pose proof (keeps_pairs_handleTask pick (mkTask (TaskID task) [SGXWorker pr; SEVWorker pr] (TaskData task)
    (TaskAttestations task) (Timeout task) (TaskRegionID task)) c2) as HP.
  unfold try, mbind, go_bind, modify in H.
  destruct (handleTask _ _ _ _) as [c3 o3]. unfold keeps_pairs in HP. simpl in HP.
  destruct o3; unfold mret, go_ret, fail in H; simplify_eq/=; try done; by apply (counts_bump_twice now).
Qed.
End loads.

(** * Secure channels *)

Section channels.
Context {B : Type} `{!BaseStore B} (nf : goerr) `{!BaseStoreLaws B nf}.
Context `{!Json channel_alias, !JsonLaws channel_alias, !Json worker_alias, !Json Region}.
Implicit Types (c : Coordinator B).

Definition stored_channel c (w1 w2 : string) : option string :=
  bs_contents (store c) !! (channelPrefix +s+ makeChannelKey w1 w2).

(** A stored channel is returned as a new object with an empty buffer. *)
Lemma GetSecureChannel_stored w1 w2 c ch :
  ends_utf8 ch = true →
  stored_channel c w1 w2 = Some (Channel_MarshalJSON ch) →
  ∃ c', GetSecureChannel w1 w2 c = (c', Ok (next_cell (heap c))) ∧ (∃ h, c' = set_heap h c) ∧
    cells (heap c') !! next_cell (heap c) =
      Some (mkChannel (Worker1 ch) (Worker2 ch) (Key ch) (Encrypted ch) [] false).
Proof.
  intros He H. unfold GetSecureChannel, try, on_store, on_heap_of, zoom, mbind, go_bind.
  rewrite (LoadChannel_Some nf w1 w2 (store c) ch He H). simpl. eexists. split; [done|]. simpl.
  split; [by eexists|]. apply lookup_insert_eq.
Qed.

Lemma GetSecureChannel_absent w1 w2 c :
  stored_channel c w1 w2 = None → errors_Is nf geth_ErrNotFound = false →
  GetSecureChannel w1 w2 c = (c, Err (Wrapf "failed to load channel" nf)).
Proof.
  intros H Hnf. unfold GetSecureChannel, try, on_store, zoom, mbind, go_bind.
  rewrite (LoadChannel_None nf w1 w2 (store c) H), Hnf. simpl. by destruct c.
Qed.

(** With a store whose "not found" is the one the coordinator tests for, a
    channel is created on first use with a fresh session key, and from then on
    both ends, if their ids are UTF-8, get that key, whichever asks; every later use starts with an
    empty buffer, on an object of its own. *)
Theorem GetSecureChannel_creates w1 w2 c key :
  utf8 w1 && utf8 w2 = true →
  errors_Is nf geth_ErrNotFound = true → stored_channel c w1 w2 = None →
  rng (heap c) (rng_pos (heap c)) = Ok key →
  ∃ c1 p, GetSecureChannel w1 w2 c = (c1, Ok p) ∧
    cells (heap c1) !! p = Some (mkChannel w1 w2 key true [] false) ∧
    ∀ a b, (a = w1 ∧ b = w2) ∨ (a = w2 ∧ b = w1) →
      ∃ c2 q, GetSecureChannel a b c1 = (c2, Ok q) ∧ q ≠ p ∧
        cells (heap c2) !! q = Some (mkChannel w1 w2 key true [] false).
Proof.
  intros He Hnf Hc Hk. set (ch := mkChannel w1 w2 key true [] false).
  destruct (bs_Put_run (channelPrefix +s+ makeChannelKey w1 w2) (Channel_MarshalJSON ch) (store c))
    as (b' & Hput & Hcont).
  assert (SaveChannel ch (store c) = (b', Ok tt)) as Hsave by exact Hput. clear Hput.
  unfold GetSecureChannel at 1, try, on_store, on_heap_of, wrap, zoom, mbind, go_bind, fail_if.
  rewrite (LoadChannel_None nf w1 w2 (store c) Hc), Hnf. simpl.
  rewrite (new_established_run w1 w2 key _ Hk). simpl. rewrite lookup_insert_eq. simpl.
  fold ch. rewrite Hsave. simpl. eexists _, _. split; [done|]. simpl.
  split; [apply lookup_insert_eq|]. intros a b Hab.
  match goal with |- context [GetSecureChannel a b ?c1] =>
    destruct (GetSecureChannel_stored a b c1 ch) as (c2 & H2 & _ & Hq) end; [exact He| |exists c2, (S (next_cell (heap c)))].
  { unfold stored_channel. cbn [store set_store set_heap]. rewrite Hcont.
    assert (makeChannelKey a b = makeChannelKey w1 w2) as ->.
    { destruct Hab as [[-> ->]|[-> ->]]; [done|apply makeChannelKey_comm]. }
    apply lookup_insert_eq. }
  split; [exact H2|]. split; [lia|exact Hq].
Qed.

(** With a store whose "not found" is another error, such as the
    database's, a channel that is not stored cannot be created and a region that
    is not stored cannot be registered: both calls return the error of the
    lookup and leave the coordinator as it was. *)
Theorem fresh_channel_and_region_refused w1 w2 now regionID c :
  errors_Is nf geth_ErrNotFound = false →
  (stored_channel c w1 w2 = None →
     GetSecureChannel w1 w2 c = (c, Err (Wrapf "failed to load channel" nf))) ∧
  (regionID ≠ "" → regionLock c = false → bs_contents (store c) !! (regionPrefix +s+ regionID) = None →
     RegisterRegion now regionID (w1, w2) c = (c, Err (Wrapf "failed to check existing region" nf))).
Proof.
  intros Hnf. split; [intros H; by apply GetSecureChannel_absent|].
  intros Hid HL Hs. unfold RegisterRegion, with_regionLock. rewrite HL.
  unfold fail_if. rewrite bool_decide_eq_false_2 by done.
  assert (LoadRegion (R := Region) regionID (store c) = (store c, Err nf)) as HLR.
  { unfold LoadRegion, load, sw_Get. apply bind_err. by rewrite bs_Get_contents, Hs. }
  unfold mbind, go_bind, try, on_store, zoom. simpl. rewrite HLR. simpl. rewrite Hnf. simpl.
  destruct c; simpl in *. by subst.
Qed.
End channels.

(** * Witnesses *)

(** A base storage that answers with the error the coordinator expects. *)
Record geth_store : Type := mkGeth { geth_map : gmap string string }.

#[local] Instance geth_BaseStore : BaseStore geth_store := {
  bs_Put k v := modify (λ b, mkGeth (<[k := v]> (geth_map b)));
  bs_Get k b := match geth_map b !! k with Some v => Ok v | None => Err geth_ErrNotFound end;
  bs_Delete k := modify (λ b, mkGeth (delete k (geth_map b)));
  bs_GetByPrefix p b := Ok ((filter (λ kv, String.prefix p kv.1 = true) (map_to_list (geth_map b))).*2);
}.
#[local] Instance geth_BaseStoreLaws : BaseStoreLaws geth_store geth_ErrNotFound.
Proof. refine {| bs_contents := geth_map |}; done. Defined.
#[local] Instance map_PrefixIter : PrefixIter (gmap string string) := {
  iter_prefix p m := filter (λ kv, String.prefix p kv.1 = true) (map_to_list m);
}.
#[local] Instance channel_Json : Json channel_alias := countable_Json channel_alias.
#[local] Instance channel_JsonLaws : JsonLaws channel_alias := countable_JsonLaws channel_alias.
#[local] Instance worker_Json : Json worker_alias := countable_Json worker_alias.
#[local] Instance region_Json : Json Region := countable_Json Region.

Definition sample_heap : Heap := mkHeap ∅ 0 (λ n, Ok (pretty n)) 0.
Definition sample_geth : Coordinator geth_store := NewCoordinator DefaultConfig (mkGeth ∅) sample_heap.
Definition sample_coord : Coordinator (gmap string string) := NewCoordinator DefaultConfig ∅ sample_heap.
Definition sample_now : Time := mkTime (10 * Second) 0.
Definition sample_task : Task := mkTask "task-1" ["w1"; "w2"] "payload" [] 0 "".

(** Both workers registered. *)
Definition with_workers : Coordinator (gmap string string) :=
  (RegisterWorker sample_now "w2" "e2" (RegisterWorker sample_now "w1" "e1" sample_coord).1).1.

Lemma with_workers_reachable : rtc (step (Ok tt)) sample_coord with_workers.
Proof.
  eapply rtc_l; [apply (step_register _ sample_now "w1" "e1")|].
  eapply rtc_l; [apply (step_register _ sample_now "w2" "e2")|]. apply rtc_refl.
Qed.

Lemma GetSecureChannel_creates_witness :
  ∃ c1 p, GetSecureChannel "w1" "w2" sample_geth = (c1, Ok p) ∧
    cells (heap c1) !! p = Some (mkChannel "w1" "w2" (pretty 0%nat) true [] false).
Proof.
  assert (stored_channel geth_ErrNotFound sample_geth "w1" "w2" = None) as Hn by (vm_compute; reflexivity).
  destruct (GetSecureChannel_creates geth_ErrNotFound "w1" "w2" sample_geth (pretty 0%nat)
    eq_refl eq_refl Hn eq_refl) as (c1 & p & H & Hp & _). by exists c1, p.
Defined.

Lemma fresh_channel_and_region_refused_witness :
  GetSecureChannel "w1" "w2" sample_coord = (sample_coord, Err (Wrapf "failed to load channel" ErrNotFound)) ∧
  RegisterRegion sample_now "us-east" ("w1", "w2") sample_coord =
    (sample_coord, Err (Wrapf "failed to check existing region" ErrNotFound)).
Proof.
  destruct (fresh_channel_and_region_refused ErrNotFound "w1" "w2" sample_now "us-east" sample_coord eq_refl)
    as [H1 H2].
  split; [apply H1; vm_compute; reflexivity|apply H2; [done|vm_compute; reflexivity..]].
Defined.

Lemma handleTask_never_delivers_witness :
  is_ok (handleTask (Ok tt) false sample_task with_workers).2 = false.
Proof.
  apply (handleTask_never_delivers (Ok tt) DefaultConfig ∅ sample_heap); [vm_compute; reflexivity|].
  apply with_workers_reachable.
Defined.

Lemma UnregisterWorker_panics_witness :
  (UnregisterWorker "w1" with_workers).2 = Panic "close of nil channel".
Proof.
  eapply (UnregisterWorker_panics (Ok tt) DefaultConfig ∅ sample_heap);
    [apply with_workers_reachable|vm_compute; reflexivity..].
Defined.

(** A submission and the start of its processing. *)
Definition submitted : Coordinator (gmap string string) :=
  set_task_table (<[7%nat := sample_task]> (task_table with_workers)) with_workers.
Definition processing : Coordinator (gmap string string) :=
  (start_next (enqueue_task None false 7 sample_task (admit_task sample_now 7 sample_task submitted).1).1).1.

Lemma tasks_inv_reachable_witness :
  TI_Status <$> taskStatus processing !! "task-1" = Some TaskStatusRunning ∧
  tasks_inv 100 processing.
Proof.
  split; [vm_compute; reflexivity|].
  apply (tasks_inv_reachable (Ok tt) DefaultConfig ∅ sample_heap); [vm_compute; discriminate|].
  etrans; [apply with_workers_reachable|].
  eapply rtc_l; [apply (step_new_task _ 7 sample_task); vm_compute; reflexivity|].
  eapply rtc_l; [apply (step_admit _ sample_now 7 sample_task); vm_compute; reflexivity|].
  eapply rtc_l; [apply (step_enqueue _ None false 7 sample_task); vm_compute; reflexivity|].
  eapply rtc_l; [apply step_start|]. apply rtc_refl.
Defined.

Definition with_pair : Coordinator (gmap string string) :=
  set_teePairs {["us-east" := [mkPairInfo "w1-w2" "w1" "w2" 0 3 sample_now]]} submitted.

Lemma handleRegionalTask_restores_loads_witness :
  counts "us-east" (handleRegionalTask (Ok tt) sample_now false 7 sample_task "us-east" with_pair).1 = [3].
Proof.
  rewrite (handleRegionalTask_restores_loads (Ok tt) sample_now false 7 sample_task "us-east" with_pair
    (handleRegionalTask (Ok tt) sample_now false 7 sample_task "us-east" with_pair).1
    (handleRegionalTask (Ok tt) sample_now false 7 sample_task "us-east" with_pair).2 "us-east").
  - reflexivity.
  - assert (counts "us-east" with_pair = [3]) as -> by (vm_compute; reflexivity).
    constructor; [lia|constructor].
  - apply surjective_pairing.
  - vm_compute. exact I.
Defined.

Definition att_of (id : string) : TEEAttestation := mkAttestation id "m" sample_now "d" "s" "".

Lemma ValidateRegionalOperation_accepts_witness :
  (ValidateRegionalOperation sample_now "us-east" (att_of "w1", att_of "w2") with_pair).2 = Ok tt.
Proof.
  apply (ValidateRegionalOperation_accepts sample_now "us-east" (att_of "w1", att_of "w2") with_pair);
    [reflexivity|vm_compute; split; [discriminate|reflexivity]|].
  split; [|split; [reflexivity|vm_compute; discriminate]].
  eexists _, _. split; [reflexivity|]. split; [apply list_elem_of_singleton; reflexivity|].
  split; reflexivity.
Defined.
