(* ===== verification/CoordinatorState.v ===== *)
(** Package [coordination], the rest of [coordinator.go] and [worker.go]: start-up,
    metrics, resource usage, the saved state of the coordinator and task ids. *)

From S2P Require Import Prelude GoTime Float64 KV Channel Worker Coordinator CoordinatorFacts.
From Stdlib Require Import ZArith Lia Ascii String.
From stdpp Require Import base tactics option list strings pretty gmap.

Local Open Scope Z_scope.

(** * Metrics *)

(** The entries of a worker's metrics map. *)
Record WorkerMetrics : Type := mkWorkerMetrics {
  wm_taskCount : Z;
  wm_successCount : Z;
  wm_errorCount : Z;
  wm_loadFactor : float64;
  wm_lastActive : Time;
  wm_status : WorkerStatus;
  wm_regionID : string;
  wm_type : string;
}.

Definition Worker_GetMetrics (w : Worker) : WorkerMetrics :=
  mkWorkerMetrics (TaskCount w) (SuccessCount w) (ErrorCount w) (LoadFactor w) (LastActive w) (WStatus w) (WRegionID w)
    (WType w).

(** The two entries of the coordinator's. *)
Record CoordMetrics : Type := mkCoordMetrics {
  cm_workers : gmap string WorkerStatus;
  cm_tasks : gmap string Z;
}.

(** [taskCounts[status]++] for a task. *)
Definition count_status (info : TaskInfo) (counts : gmap string Z) : gmap string Z :=
  <[TI_Status info := default 0 (counts !! TI_Status info) + 1]> counts.

(** The two entries of the resource usage. *)
Record ResourceUsage : Type := mkUsage { ru_task_queue : float64; ru_worker_usage : float64 }.

(** The saved state: the fields of the map that is encoded. *)
Record SavedState : Type := mkSavedState {
  ss_worker_count : Z;
  ss_task_count : Z;
  ss_timestamp : Time;
}.
#[export] Instance SavedState_Encodable : Encodable SavedState := λ s, encodable_time (ss_timestamp s).

(** The letters of a task id, and the string the random indices select. *)
Definition letters : string := "abcdefghijklmnopqrstuvwxyzABCDEFGHIJKLMNOPQRSTUVWXYZ0123456789".
Fixpoint randomString (picks : list nat) : string :=
  match picks with
  | [] => ""
  | i :: picks' => String (default "000"%char (String.get i letters)) (randomString picks')
  end.

Definition generateTaskID (now : Time) (picks : list nat) : string :=
  "task-" +s+ pretty (UnixNano now) +s+ "-" +s+ randomString picks.

(** Errors are logged; every case of the switch is empty. *)
Definition handleError {S} (err : option goerr) (context : string) : go S unit := mret tt.

Section coordinator.
Context {B : Type} `{!BaseStore B, !Json SavedState}.
Implicit Types (c : Coordinator B).

Definition Coordinator_GetMetrics : go (Coordinator B) CoordMetrics :=
  with_mu_read (gets (λ c,
    mkCoordMetrics (WStatus <$> workers c) (map_fold (λ _ info counts, count_status info counts) ∅ (taskStatus c)))).

Definition activeWorkers c : Z :=
  Z.of_nat (size (filter (λ kw : string * Worker, WStatus kw.2 = WorkerStatusActive) (workers c))).

Definition getResourceUsage : go (Coordinator B) ResourceUsage :=
  with_mu_read (gets (λ c,
    mkUsage (f_div (f_of_Z (Z.of_nat (size (taskStatus c)))) (f_of_Z (MaxTasks (config c))))
      (f_div (f_of_Z (activeWorkers c)) (f_of_Z (Z.of_nat (size (workers c))))))).

(** The placeholders of the source. *)
Definition restoreWorkers : go (Coordinator B) unit := mret tt.
Definition restoreTEEPairs : go (Coordinator B) unit := with_regionLock (mret tt).

(** [Start], before its goroutines. *)
Definition Coordinator_Start : go (Coordinator B) unit := wrap "failed to restore workers" restoreWorkers.

Definition saveState (now : Time) : go (Coordinator B) unit :=
  with_mu_read (
    state ← gets (λ c, mkSavedState (Z.of_nat (size (workers c))) (Z.of_nat (size (taskStatus c))) now);
    Coordinator.on_store (SaveCoordinatorState state)).

Definition restoreState : go (Coordinator B) unit :=
  wrap "failed to load coordinator state" (Coordinator.on_store (LoadCoordinatorState (R := SavedState))) ;;
  wrap "failed to restore workers" restoreWorkers ;;
  wrap "failed to restore TEE pairs" restoreTEEPairs.
End coordinator.

(** * Properties *)

Section facts.
Context {B : Type} `{!BaseStore B, !Json SavedState} (nf : goerr) `{!BaseStoreLaws B nf, !JsonLaws SavedState}.
Implicit Types (c : Coordinator B).

Lemma count_status_lookup info counts st :
  default 0 (count_status info counts !! st) =
  default 0 (counts !! st) + (if decide (TI_Status info = st) then 1 else 0).
Proof using Type. unfold count_status. rewrite lookup_insert. case_decide; [by subst|lia]. Qed.

(** The metrics count the tasks of each status: exactly those of the table. *)
Lemma Coordinator_GetMetrics_spec c :
  mu c = false → ∃ m, Coordinator_GetMetrics c = (c, Ok m) ∧
    (∀ id, cm_workers m !! id = WStatus <$> workers c !! id) ∧
    ∀ st, default 0 (cm_tasks m !! st) =
      Z.of_nat (size (filter (λ ki : string * TaskInfo, TI_Status ki.2 = st) (taskStatus c))).
Proof using Type.
  intros Hm. eexists. split; [unfold Coordinator_GetMetrics, with_mu_read; by rewrite Hm|]. simpl.
  split; [intros id; apply lookup_fmap|]. intros st.
  apply (map_fold_weak_ind (λ counts (m : gmap string TaskInfo), default 0 (counts !! st) =
    Z.of_nat (size (filter (λ ki : string * TaskInfo, TI_Status ki.2 = st) m)))).
  - by rewrite map_filter_empty, map_size_empty.
  - intros k info m counts Hk IH. rewrite count_status_lookup, IH. case_decide as Hs.
    + rewrite map_filter_insert_True by done. rewrite map_size_insert_None; [lia|].
      apply map_lookup_filter_None. auto.
    + rewrite map_filter_insert_False by done. rewrite delete_id by done. lia.
Qed.

(** Without workers the worker usage is 0/0. *)
Lemma getResourceUsage_no_workers c :
  mu c = false → workers c = ∅ → ∃ u, getResourceUsage c = (c, Ok u) ∧ f_is_nan (ru_worker_usage u) = true.
Proof using Type.
  intros Hm Hw. eexists. split; [unfold getResourceUsage, with_mu_read; by rewrite Hm|]. simpl.
  unfold activeWorkers. rewrite Hw, map_filter_empty, map_size_empty. by vm_compute.
Qed.

(** A saved state can be restored, and restoring reads it and restores nothing. *)
Lemma saveState_restoreState now c :
  mu c = false → regionLock c = false → encodable_time now = true →
  ∃ c1, saveState now c = (c1, Ok tt) ∧ restoreState c1 = (c1, Ok tt) ∧ workers c1 = workers c ∧
    bs_contents (store c1) !! stateKey =
      Some (Marshal (mkSavedState (Z.of_nat (size (workers c))) (Z.of_nat (size (taskStatus c))) now)).
Proof using Type*.
  intros Hm Hr Hn. set (st := mkSavedState (Z.of_nat (size (workers c))) (Z.of_nat (size (taskStatus c))) now).
  destruct (bs_Put_run stateKey (Marshal st) (store c)) as (b & Hb & Hc).
  set (c1 := set_store b c). exists c1.
  assert (bs_contents b !! stateKey = Some (Marshal st)) as Hl by (by rewrite Hc, lookup_insert_eq).
  split; [|split; [|split; [done|exact Hl]]].
  - unfold saveState, with_mu_read. rewrite Hm. rewrite (bind_ok _ _ c c st) by done.
    unfold Coordinator.on_store, zoom, SaveCoordinatorState, save, sw_Put. by rewrite Hb.
  - unfold restoreState. rewrite (bind_ok _ _ c1 c1 st); cycle 1.
    { unfold wrap, Coordinator.on_store, zoom, LoadCoordinatorState, load, sw_Get.
      change (store c1) with b. rewrite (bind_ok _ _ b b (Marshal st)) by (by rewrite bs_Get_contents, Hl).
      unfold wrap, lift. rewrite Unmarshal_Marshal by exact Hn. by destruct c. }
    rewrite (bind_ok _ _ c1 c1 tt) by done.
    unfold wrap, restoreTEEPairs, with_regionLock. unfold c1. destruct c. simpl in *. by rewrite Hr.
Qed.

(** No state was saved: restoring fails. *)
Lemma restoreState_fresh c :
  bs_contents (store c) !! stateKey = None → (restoreState c).2 = Err (Wrapf "failed to load coordinator state" nf).
Proof using Type*.
  intros Hl. unfold restoreState. erewrite bind_err; [reflexivity|].
  unfold wrap, Coordinator.on_store, zoom, LoadCoordinatorState, load, sw_Get.
  erewrite bind_err; [reflexivity|]. by rewrite bs_Get_contents, Hl.
Qed.

Lemma randomString_length picks : String.length (randomString picks) = length picks.
Proof using Type. induction picks as [|i picks IH]; simpl; [done|by rewrite IH]. Qed.
End facts.
