(* ===== verification/StateManager.v ===== *)
(** [storage/state_manager.go], [storage/region_store.go] and
    [storage/iterator.go]: the state manager that routes keys to the backing
    store or to the Merkle store of a region, the regional object, event and
    region records, the sponsor's balance operations, the region
    configurations and the prefix iterator.

    The mutexes of these types are taken once per call and never nested, so
    they are not part of the state.  The database the coordinator persists to is
    the state manager's own [db]. *)

From S2P Require Import Prelude GoTime KV Core Channel Worker Coordinator CoordinatorState Storage Transfer.
From Stdlib Require Import ZArith Lia Ascii String.
From stdpp Require Import base tactics option list strings pretty gmap.

Local Open Scope Z_scope.

(** * Keys *)

Definition validEnclavesPrefix : string := "valid_enclaves/".
Definition regionMeasurementsPrefix : string := "region_measurements/".

Definition storage_ErrInvalidRegionID : goerr := Sentinel "storage" "ErrInvalidRegionID".
Definition storage_ErrRegionNotFound : goerr := Sentinel "storage" "ErrRegionNotFound".

Definition makeRegionKey (regionID prefix id : string) : string :=
  regionID +s+ "/" +s+ prefix +s+ "/" +s+ id.

Definition makeRegionalKey (regionID key : string) : string :=
  "r/" +s+ regionID +s+ "/" +s+ key.

Definition createRegionKey (prefix regionID suffix : string) : string :=
  if bool_decide (suffix = "") then prefix +s+ "/" +s+ regionID
  else prefix +s+ "/" +s+ regionID +s+ "/" +s+ suffix.

Definition isValidRegionID (id : string) : bool :=
  if (slen id =? 0) || (64 <? slen id) then false
  else negb (ContainsAny id "/\?#[]{}").

(** The region of a key, for the keys that are routed to a region. *)
Definition IsRegionalKey (key : string) : option string :=
  if HasPrefix key "r/" then
    match SplitN slash key 3 with
    | _ :: r :: _ => Some r
    | _ => None
    end
  else None.

Definition extractRegionID (key : string) : string :=
  match Split slash key with
  | _ :: r :: _ :: _ => r
  | _ => ""
  end.

(** The key of an account as the sponsor operations build it: the raw address
    bytes behind the prefix. *)
Definition createBalanceKey (addr : string) : string := String balancePrefix addr.

(** The enclave record of this package. *)
Record StoredEnclave : Type := mkStoredEnclave {
  SE_Measurement : string;
  SE_ValidFrom : Time;
  SE_ValidUntil : Time;
  SE_EnclaveType : string;
  SE_RegionID : string;
}.

(** * Operations on a [state.Mutable] of the caller *)

Section on_mutable.
Context {CL : ChainLib} {S : Type} `{!Mutable S} `{!Json StoredEnclave}.

(** [nil] without error when there is no record. *)
Definition GetValidEnclave (enclaveID : string) : go S (option StoredEnclave) :=
  r ← try (getValue (validEnclavesPrefix +s+ enclaveID));
  match r with
  | inr e => if errors_Is e ErrNotFound then mret None else fail e
  | inl v => info ← lift (Unmarshal v); mret (Some info)
  end.

Definition SetValidEnclave (enclaveID : string) (info : StoredEnclave) : go S unit :=
  mu_Insert (validEnclavesPrefix +s+ enclaveID) (Marshal info).

Definition GetRegionMeasurement (regionID : string) : go S string :=
  getValue (regionMeasurementsPrefix +s+ regionID).

Definition SetRegionMeasurement (regionID measurement : string) : go S unit :=
  mu_Insert (regionMeasurementsPrefix +s+ regionID) measurement.

(** [math.Add64] is the checked addition of avalanchego. *)
Definition SM_AddBalance (addr : string) (amount : Z) (createAccount : bool) : go S unit :=
  oldBal ← getBalance addr;
  fail_if (negb createAccount && (oldBal =? 0)) ErrNotFound ;;
  newBal ← lift (Add64 oldBal amount);
  SetBalance addr newBal.

Definition Deduct (addr : string) (amount : Z) : go S unit :=
  oldBal ← getBalance addr;
  fail_if (oldBal <? amount) ErrInsufficientBalance ;;
  let newBal := u64_sub oldBal amount in
  if newBal =? 0 then mu_Remove (createBalanceKey addr)
  else SetBalance addr newBal.

Definition CanDeduct (addr : string) (amount : Z) (s : S) : verdict :=
  bal ← GetBalance addr s;
  check (bal <? amount) ErrInsufficientBalance.

Definition SponsorStateKeys (addr : string) : gmap string perm :=
  {[ createBalanceKey addr := PReadWrite ]}.
End on_mutable.

(** * merkledb

    [Get], [Put] and [Delete] are those of [Mutable]. *)
Class MerkleDB (M : Type) `{!Mutable M} : Type := {
  mdb_GetMerkleRoot : M → outcome string;
  mdb_New : go M M;        (* [merkledb.New] over this database *)
  mdb_GetProof : string → M → outcome string;
}.

(** * The store of a region *)

Record MerkleStore : Type := mkMS {
  ms_regionID : string;
  ms_lastHash : string;
  ms_updateCount : Z;
  ms_coordinator : bool;      (* false: the nil pointer *)
  ms_workers : string * string;
}.

Definition NewMerkleStore (regionID : string) (workers : string * string) : MerkleStore :=
  mkMS regionID "" 0 true workers.

(** What a store's method works on: its own fields, its database and the
    coordinator. *)
Record MSState (M D : Type) : Type := mkMSS {
  st_ms : MerkleStore;
  st_db : M;
  st_coord : Coordinator D;
}.
Arguments mkMSS {_ _} _ _ _.
Arguments st_ms {_ _} _.
Arguments st_db {_ _} _.
Arguments st_coord {_ _} _.

Section merkle_store.
Context {M D : Type} `{!Mutable M, !MerkleDB M, !BaseStore D}.
Context `{!Json channel_alias, !Json Message}.

Definition on_ms (f : MerkleStore → MerkleStore) : go (MSState M D) unit :=
  modify (λ s, mkMSS (f (st_ms s)) (st_db s) (st_coord s)).
Definition on_mdb {A} (m : go M A) : go (MSState M D) A :=
  zoom st_db (λ db s, mkMSS (st_ms s) db (st_coord s)) m.
Definition on_coord {A} (m : go (Coordinator D) A) : go (MSState M D) A :=
  zoom st_coord (λ c s, mkMSS (st_ms s) (st_db s) c) m.

Definition updateMerkleRoot : go (MSState M D) unit :=
  root ← on_mdb (λ db, (db, mdb_GetMerkleRoot db));
  on_ms (λ ms, mkMS (ms_regionID ms) root (ms_updateCount ms) (ms_coordinator ms) (ms_workers ms)).

Definition MerkleStore_Insert (now : Time) (key value : string) : go (MSState M D) unit :=
  ms ← gets st_ms;
  if negb (ms_coordinator ms) then gopanic "invalid memory address or nil pointer dereference"
  else
    p ← wrap "failed to get secure channel"
          (on_coord (GetSecureChannel (ms_workers ms).1 (ms_workers ms).2));
    let msg := mkMessage MessageTypeData (ms_workers ms).1 (ms_workers ms).2 value now in
    wrap "failed to send coordination message"
      (on_coord (on_heap_of (on_channel p (Send (Marshal msg))))) ;;
    wrap "failed to store value" (on_mdb (mu_Insert (makeRegionalKey (ms_regionID ms) key) value)) ;;
    on_ms (λ ms, mkMS (ms_regionID ms) (ms_lastHash ms) (u64_add (ms_updateCount ms) 1)
                   (ms_coordinator ms) (ms_workers ms)) ;;
    updateMerkleRoot.

Definition MerkleStore_Get (key : string) : go (MSState M D) string :=
  ms ← gets st_ms;
  on_mdb (getValue (makeRegionalKey (ms_regionID ms) key)).

Definition MerkleStore_GetProof (key : string) : go (MSState M D) string :=
  ms ← gets st_ms;
  on_mdb (λ db, (db, mdb_GetProof (makeRegionalKey (ms_regionID ms) key) db)).

(** [GetValue] repeats the body of [Get]. *)
Definition MerkleStore_GetValue (key : string) : go (MSState M D) string :=
  ms ← gets st_ms;
  on_mdb (getValue (makeRegionalKey (ms_regionID ms) key)).

Definition MerkleStore_Delete (key : string) : go (MSState M D) unit :=
  ms ← gets st_ms;
  on_mdb (mu_Remove (makeRegionalKey (ms_regionID ms) key)) ;;
  updateMerkleRoot.

(** [Remove] does not refresh the cached root. *)
Definition MerkleStore_Remove (key : string) : go (MSState M D) unit :=
  ms ← gets st_ms;
  on_mdb (mu_Remove (makeRegionalKey (ms_regionID ms) key)).

Definition VerifyProof : go (MSState M D) unit := mret tt.

Definition GetRoot : go (MSState M D) string := on_mdb (λ db, (db, mdb_GetMerkleRoot db)).

Definition VerifyStateUpdate (newRoot : string) : go (MSState M D) unit :=
  currentRoot ← on_mdb (λ db, (db, mdb_GetMerkleRoot db));
  fail_if (negb (bool_decide (currentRoot = newRoot))) (Errorf "root mismatch").
End merkle_store.

(** * The state manager *)

(** [sm_regional] are the stores of the [RegionalStateManager], each over a
    Merkle database of its own. *)
Record StateManager (S D M : Type) : Type := mkSM {
  sm_backing : S;
  sm_coord : Coordinator D;
  sm_merkle : M;
  sm_regionStores : gmap string MerkleStore;
  sm_regional : gmap string (MerkleStore * M);
}.
Arguments mkSM {_ _ _} _ _ _ _ _.
Arguments sm_backing {_ _ _} _.
Arguments sm_coord {_ _ _} _.
Arguments sm_merkle {_ _ _} _.
Arguments sm_regionStores {_ _ _} _.
Arguments sm_regional {_ _ _} _.

(** The dynamic type of a returned [core.RegionalStore]; both kinds delegate to
    the cached store of the region. *)
Inductive RegionalStore : Type :=
  | RegionalStoreAdapter (regionID : string)
  | MutableWrapper (regionID : string).

(** The configuration the coordinator is created with. *)
Definition coordCfg : Config :=
  mkConfig 2 10 (30 * Second) 100 1000 (5 * Minute) 0 (10 * Second) 0 true true (5 * Second)
    "/tmp/coordinator" true.

Section manager.
Context {S D M : Type} `{!Mutable S, !Mutable M, !MerkleDB M, !BaseStore D}.
Context `{!Json channel_alias, !Json worker_alias, !Json Coordinator.Region, !Json Message}.
Context `{!Json (gomap string), !Json (gomap json), !Json Event}.

Abbreviation SM := (StateManager S D M).

(** The coordinator is created and started before the manager is built from it. *)
Definition NewStateManager (store : S) (db : D) (merkle : M) (h : Heap) : outcome SM :=
  match wrap "failed to start coordinator" Coordinator_Start (NewCoordinator coordCfg db h) with
  | (coord, Ok _) => Ok (mkSM store coord merkle ∅ ∅)
  | (_, Err e) => Err e
  | (_, Panic w) => Panic w
  | (_, Hang w) => Hang w
  end.

(** Starting the coordinator restores nothing, so construction succeeds. *)
Lemma NewStateManager_ok store db merkle h :
  NewStateManager store db merkle h = Ok (mkSM store (NewCoordinator coordCfg db h) merkle ∅ ∅).
Proof using Type. reflexivity. Qed.

Definition on_backing {A} (m : go S A) : go SM A :=
  zoom sm_backing (λ b s, mkSM b (sm_coord s) (sm_merkle s) (sm_regionStores s) (sm_regional s)) m.
Definition on_sm_coord {A} (m : go (Coordinator D) A) : go SM A :=
  zoom sm_coord (λ c s, mkSM (sm_backing s) c (sm_merkle s) (sm_regionStores s) (sm_regional s)) m.
Definition on_sm_merkle {A} (m : go M A) : go SM A :=
  zoom sm_merkle (λ db s, mkSM (sm_backing s) (sm_coord s) db (sm_regionStores s) (sm_regional s)) m.

(** A call on the cached store of a region. *)
Definition on_region_store {A} (regionID : string) (m : go (MSState M D) A) : go SM A := λ s,
  match sm_regionStores s !! regionID with
  | Some ms =>
      let '(st, o) := m (mkMSS ms (sm_merkle s) (sm_coord s)) in
      (mkSM (sm_backing s) (st_coord st) (st_db st)
         (<[regionID := st_ms st]> (sm_regionStores s)) (sm_regional s), o)
  | None => (s, Panic "invalid memory address or nil pointer dereference")
  end.

(** A call on the store of the regional manager. *)
Definition on_regional {A} (regionID : string) (m : go (MSState M D) A) : go SM A := λ s,
  match sm_regional s !! regionID with
  | Some (ms, db) =>
      let '(st, o) := m (mkMSS ms db (sm_coord s)) in
      (mkSM (sm_backing s) (st_coord st) (sm_merkle s) (sm_regionStores s)
         (<[regionID := (st_ms st, st_db st)]> (sm_regional s)), o)
  | None => (s, Panic "invalid memory address or nil pointer dereference")
  end.

(** ** Stores of regions *)

(** [RegionalStateManager.GetRegionalStore]: the store of the region exists
    afterwards. It has no coordinator and no workers. *)
Definition RSM_GetRegionalStore (regionID : string) : go SM unit :=
  exists_ ← gets (λ s, bool_decide (is_Some (sm_regional s !! regionID)));
  if (exists_ : bool) then mret tt
  else
    mdb ← wrap "failed to create merkle store for region" (on_sm_merkle mdb_New);
    modify (λ s, mkSM (sm_backing s) (sm_coord s) (sm_merkle s) (sm_regionStores s)
      (<[regionID := (mkMS regionID "" 0 false ("", ""), mdb)]> (sm_regional s))).

(** [given] is [len(mu) > 0]. *)
Definition getRegionalStoreInternal (regionID : string) (given : bool) : go SM RegionalStore :=
  let kind := if given then MutableWrapper regionID else RegionalStoreAdapter regionID in
  exists_ ← gets (λ s, bool_decide (is_Some (sm_regionStores s !! regionID)));
  if (exists_ : bool) then mret kind
  else
    teePair ← wrap "failed to get TEE pair" (on_sm_coord (GetTEEPair regionID));
    modify (λ s, mkSM (sm_backing s) (sm_coord s) (sm_merkle s)
      (<[regionID := NewMerkleStore regionID teePair]> (sm_regionStores s)) (sm_regional s)) ;;
    mret kind.

(** The variadic parameter receives one argument, the nil interface. *)
Definition GetRegionalStore (regionID : string) : go SM RegionalStore :=
  getRegionalStoreInternal regionID true.

Definition getRegionStore (regionID : string) : go SM MerkleStore :=
  r ← gets (λ s, sm_regionStores s !! regionID);
  match r with Some ms => mret ms | None => fail storage_ErrRegionNotFound end.

Definition GetRegionalStoreWithMutable (regionID : string) : go SM string :=
  store ← GetRegionalStore regionID;
  match store with
  | RegionalStoreAdapter r => mret r
  | MutableWrapper _ => fail (Errorf "invalid store type")
  end.

(** The methods of the returned store. *)
Definition store_region (st : RegionalStore) : string :=
  match st with RegionalStoreAdapter r | MutableWrapper r => r end.
Definition store_GetValue (st : RegionalStore) (key : string) : go SM string :=
  on_region_store (store_region st) (MerkleStore_Get key).
Definition store_Insert (now : Time) (st : RegionalStore) (key value : string) : go SM unit :=
  on_region_store (store_region st) (MerkleStore_Insert now key value).
Definition store_Remove (st : RegionalStore) (key : string) : go SM unit :=
  on_region_store (store_region st) (MerkleStore_Delete key).

(** The store every regional operation starts with. *)
Definition region_store (regionID : string) : go SM RegionalStore :=
  fail_if (bool_decide (regionID = "")) storage_ErrInvalidRegionID ;;
  wrap "failed to get regional store" (getRegionalStoreInternal regionID true).

(** ** Objects, events and regions: the caller's [mu] is accepted and not used *)

Definition object_of (regionID : string) (obj : gomap string) : ObjectState :=
  mkObject (default "" (map_lookup obj "code")) (default "" (map_lookup obj "storage")) regionID
    [] zeroTime (default "" (map_lookup obj "status")).

Definition SM_GetObject (id regionID : string) : go SM (option ObjectState) :=
  store ← region_store regionID;
  r ← try (store_GetValue store (makeRegionKey regionID "object" id));
  match r with
  | inr e => if errors_Is e ErrNotFound then mret None else fail e
  | inl v => obj ← lift (Unmarshal v); mret (Some (object_of regionID obj))
  end.

Definition object_map (obj : ObjectState) : gmap string string :=
  {[ "code" := Code obj; "storage" := Core.Storage obj; "status" := Status obj ]}.

Definition SM_SetObject (now : Time) (id : string) (obj : ObjectState) : go SM unit :=
  store ← region_store (RegionID obj);
  store_Insert now store (makeRegionKey (RegionID obj) "object" id) (Marshal (Some (object_map obj))).

Definition ObjectExists (id regionID : string) : go SM bool :=
  store ← region_store regionID;
  r ← try (store_GetValue store (makeRegionKey regionID "object" id));
  match r with
  | inr e => if errors_Is e ErrNotFound then mret false else fail e
  | inl v => mret (not_nil M v)
  end.

Definition SetEvent (now : Time) (id : string) (event : Event) (regionID : string) : go SM unit :=
  store ← region_store regionID;
  store_Insert now store (makeRegionKey regionID "event" id) (Marshal event).

(** [storage.GetRegion] and [storage.SetRegion] on the regional store. *)
Definition SM_GetRegion (regionID : string) : go SM (gomap json) :=
  store ← region_store regionID;
  r ← try (store_GetValue store (RegionKey regionID));
  match r with
  | inr e => if errors_Is e ErrNotFound then mret None else fail e
  | inl v => lift (Unmarshal v)
  end.

Definition SM_SetRegion (now : Time) (regionID : string) (region : gomap json) : go SM unit :=
  store ← region_store regionID;
  store_Insert now store (RegionKey regionID) (Marshal region).

Definition RegionExists (regionID : string) : go SM bool :=
  region ← SM_GetRegion regionID;
  mret (match region with Some _ => true | None => false end).

(** ** Raw keys *)

Definition SM_GetValue (key : string) : go SM string :=
  match IsRegionalKey key with
  | Some regionID => RSM_GetRegionalStore regionID ;; on_regional regionID (MerkleStore_Get key)
  | None => on_backing (getValue key)
  end.

Definition SM_Insert (now : Time) (key value : string) : go SM unit :=
  match IsRegionalKey key with
  | Some regionID => RSM_GetRegionalStore regionID ;; on_regional regionID (MerkleStore_Insert now key value)
  | None => on_backing (mu_Insert key value)
  end.

Definition SM_Remove (key : string) : go SM unit :=
  match IsRegionalKey key with
  | Some regionID => RSM_GetRegionalStore regionID ;; on_regional regionID (MerkleStore_Delete key)
  | None => on_backing (mu_Remove key)
  end.

(** Region records of type [R], at ["region/<id>"]. *)
Definition SM_LoadRegion {R} `{!Json R} (id : string) : go SM R :=
  data ← SM_GetValue ("region/" +s+ id);
  lift (Unmarshal data).

Definition SM_SaveRegion {R} `{!Json R} (now : Time) (id : string) (region : R) : go SM unit :=
  wrap "failed to save region" (SM_Insert now ("region/" +s+ id) (Marshal region)).

Definition SM_DeleteRegion (id : string) : go SM unit :=
  modify (λ s, mkSM (sm_backing s) (sm_coord s) (sm_merkle s) (delete id (sm_regionStores s)) (sm_regional s)) ;;
  on_backing (mu_Remove ("region/" +s+ id)).

Definition SM_Close (now : Time) (order : list string) : go SM unit :=
  wrap "stop coordinator" (on_sm_coord (Coordinator_Stop now order)).

Definition GetKeysByPrefix `{!PrefixIter D} (prefix : string) (s : SM) : list string :=
  (iter_prefix prefix (Coordinator.store (sm_coord s))).*1.
End manager.

(** * Region configurations: [RegionStore] *)

(** Views of a Merkle database: its contents with a batch of changes on top
    ([None] deletes), which are not part of the database until committed. *)
Class MerkleViews (M V : Type) : Type := {
  mdb_NewView : list (string * option string) → M → outcome V;
  view_GetValue : string → V → outcome string;
  view_GetMerkleRoot : V → outcome string;
}.

(** The contents of a view: those of the database with the changes applied in
    order. *)
Definition apply_changes (changes : list (string * option string)) (m : gmap string string) :
    gmap string string :=
  foldl (λ m '(k, v), match v with Some v => <[k := v]> m | None => delete k m end) m changes.

Class MerkleViewsLaws (M V : Type) `{!MerkleViews M V, !Mutable M, !KVLaws M} : Type := {
  view_contents : V → gmap string string;
  view_GetValue_contents : ∀ k v,
    view_GetValue k v = match view_contents v !! k with Some x => Ok x | None => Err ErrNotFound end;
  mdb_NewView_ok : ∀ ch m, ∃ v, mdb_NewView ch m = Ok v ∧ view_contents v = apply_changes ch (contents m);
}.

Record RegionStore (M V C : Type) : Type := mkRS {
  rs_db : M;
  rs_view : V;
  rs_cache : gmap string C;
}.
Arguments mkRS {_ _ _} _ _ _.
Arguments rs_db {_ _ _} _.
Arguments rs_view {_ _ _} _.
Arguments rs_cache {_ _ _} _.

Section region_store.
Context {M V C : Type} `{!MerkleViews M V, !Json C}.
Abbreviation RS := (RegionStore M V C).

Definition NewRegionStore (db : M) : outcome RS :=
  view ← mdb_NewView [] db;
  mret (mkRS db view ∅).

(** The new view is made of the database, not of the current view. *)
Definition updateState (changes : list (string * option string)) : go RS unit :=
  db ← gets rs_db;
  newView ← lift (mdb_NewView changes db);
  modify (λ r, mkRS (rs_db r) newView (rs_cache r)).

Definition set_cache (f : gmap string C → gmap string C) (r : RS) : RS :=
  mkRS (rs_db r) (rs_view r) (f (rs_cache r)).

Definition GetRegionConfig (regionID : string) : go RS C :=
  fail_if (negb (isValidRegionID regionID)) storage_ErrInvalidRegionID ;;
  cached ← gets (λ r, rs_cache r !! regionID);
  match cached with
  | Some config => mret config
  | None =>
      view ← gets rs_view;
      value ← wrap "failed to get region config" (lift (view_GetValue (createRegionKey "config" regionID "") view));
      config ← wrap "failed to unmarshal config" (lift (Unmarshal value));
      modify (set_cache (<[regionID := config]>)) ;;
      mret config
  end.

Definition SetRegionConfig (regionID : string) (config : C) : go RS unit :=
  fail_if (negb (isValidRegionID regionID)) storage_ErrInvalidRegionID ;;
  wrap "failed to store region config"
    (updateState [(createRegionKey "config" regionID "", Some (Marshal config))]) ;;
  modify (set_cache (<[regionID := config]>)).

Definition DeleteRegionConfig (regionID : string) : go RS unit :=
  fail_if (negb (isValidRegionID regionID)) storage_ErrInvalidRegionID ;;
  wrap "failed to delete region config" (updateState [(createRegionKey "config" regionID "", None)]) ;;
  modify (set_cache (delete regionID)).

(** [proof.Verify] is merkledb's. *)
Definition VerifyRegionState (Verify : string → verdict) : go RS unit :=
  view ← gets rs_view;
  currentRoot ← lift (view_GetMerkleRoot view);
  wrap "invalid region state proof" (lift (Verify currentRoot)).
End region_store.

(** * The prefix iterator *)

Record RegionIterator : Type := mkIter {
  it_ctx : option goerr;               (* the error of a context that is done *)
  it_iter : list (string * string);    (* what the database iterator has left *)
  it_iter_err : option goerr;
  it_prefix : string;
  it_err : option goerr;
  it_current : option (string * string);
}.

Definition NewRegionIterator (ctx : option goerr) (entries : list (string * string)) (prefix : string) :
    RegionIterator := mkIter ctx entries None prefix None None.

Definition Iter_Next (i : RegionIterator) : RegionIterator * bool :=
  match it_err i with
  | Some _ => (i, false)
  | None =>
      match it_ctx i with
      | Some e => (mkIter (it_ctx i) (it_iter i) (it_iter_err i) (it_prefix i) (Some e) (it_current i), false)
      | None =>
          match it_iter i with
          | [] => (i, false)
          | (k, v) :: rest =>
              if HasPrefix k (it_prefix i)
              then (mkIter (it_ctx i) rest (it_iter_err i) (it_prefix i) None (Some (k, v)), true)
              else (mkIter (it_ctx i) rest (it_iter_err i) (it_prefix i) None (it_current i), false)
          end
      end
  end.

Definition Iter_Key (i : RegionIterator) : string := default "" (fst <$> it_current i).
Definition Iter_Value (i : RegionIterator) : string := default "" (snd <$> it_current i).
Definition Iter_Error (i : RegionIterator) : option goerr :=
  match it_err i with Some e => Some e | None => it_iter_err i end.

(** [for it.Next() { ... it.Key(), it.Value() ... }], at most [n] turns. *)
Fixpoint drain (n : nat) (i : RegionIterator) : list (string * string) * RegionIterator :=
  match n with
  | O => ([], i)
  | S n' =>
      match Iter_Next i with
      | (i', true) => let '(l, i'') := drain n' i' in ((Iter_Key i', Iter_Value i') :: l, i'')
      | (i', false) => ([], i')
      end
  end.
