(* ===== verification/StateManagerFacts.v ===== *)
(** Properties of the state manager: the sponsor's balance operations against
    the ledger, the routing of keys, regional objects, the stores that cannot
    be used, region configurations and the prefix iterator. *)

From S2P Require Import Prelude GoTime KV Core Channel Worker Coordinator CoordinatorFacts.
From S2P Require Import Storage Transfer StateManager.
From Stdlib Require Import ZArith Lia Ascii String.
From stdpp Require Import base tactics option list strings pretty gmap.

Local Open Scope Z_scope.

(** * Sponsor balances *)

Section sponsor.
Context {CL : ChainLib} {CLL : ChainLibLaws} {S : Type} `{!Mutable S, !KVLaws S}.
Implicit Types (s : S).

Lemma createBalanceKey_ne addr : createBalanceKey addr ≠ BalanceKey addr.
Proof.
  unfold createBalanceKey, BalanceKey. intros [= H]. pose proof (Address_String_longer addr).
  rewrite <-H in *. lia.
Qed.

Lemma Deduct_insufficient addr amount s :
  balances_wf (contents s) → balance_of (contents s) addr < amount →
  Deduct addr amount s = (s, Err ErrInsufficientBalance).
Proof.
  intros Hwf Ha. unfold Deduct, getBalance. go_unfold. rewrite GetBalance_ledger by done.
  by rewrite (proj2 (Z.ltb_lt _ _) Ha).
Qed.

(** [Deduct] takes the amount off the account when something is left; an
    amount above the balance is refused with nothing written; an amount equal to
    the balance succeeds and leaves the whole balance in place, since it removes
    another key than the one balances are stored under. *)
Theorem Deduct_spec addr amount s :
  balances_wf (contents s) → is_u64 amount →
  ∃ s' o, Deduct addr amount s = (s', o) ∧
    ((amount < balance_of (contents s) addr → o = Ok tt ∧ contents s' = debited (contents s) addr amount) ∧
     (balance_of (contents s) addr < amount → o = Err ErrInsufficientBalance ∧ s' = s) ∧
     (amount = balance_of (contents s) addr →
        o = Ok tt ∧ balance_of (contents s') addr = balance_of (contents s) addr)).
Proof.
  intros Hwf Ha. pose proof (is_u64_balance_of (contents s) addr) as Hb.
  destruct (Z.lt_trichotomy (balance_of (contents s) addr) amount) as [Hlt|[Heq|Hgt]].
  - exists s, (Err ErrInsufficientBalance). split; [by apply Deduct_insufficient|]. split_and!; [lia|done|lia].
  - unfold Deduct, getBalance. go_unfold. rewrite GetBalance_ledger by done. rewrite Heq, Z.ltb_irrefl.
    unfold u64_sub. rewrite Z.sub_diag. cbn [Z.eqb u64 Z.modulo].
    destruct (mu_Remove_run (createBalanceKey addr) s) as (s' & Hr & Hs').
    exists s', (Ok tt). split; [exact Hr|]. split_and!; try lia. intros _. split; [done|].
    unfold balance_of. rewrite Hs', lookup_delete_ne by apply createBalanceKey_ne. exact Heq.
  - unfold Deduct, getBalance. go_unfold. rewrite GetBalance_ledger by done.
    destruct (Z.ltb_spec (balance_of (contents s) addr) amount); [lia|].
    unfold is_u64 in *. unfold u64_sub. rewrite u64_small by (unfold is_u64; lia).
    rewrite (proj2 (Z.eqb_neq _ _)) by lia.
    destruct (mu_Insert_run (BalanceKey addr) (PutUint64 (balance_of (contents s) addr - amount)) s)
      as (s' & Hr & Hs').
    exists s', (Ok tt). split; [exact Hr|]. split_and!; try lia.
    intros _. split; [done|]. unfold debited. rewrite (proj2 (Z.eqb_neq _ _)) by lia. done.
Qed.

(** [AddBalance] of the state manager credits the account; it refuses an
    empty account unless it may create one, and an amount that would overflow,
    writing nothing. *)
Theorem SM_AddBalance_spec addr amount create s :
  balances_wf (contents s) → is_u64 amount →
  let bal := balance_of (contents s) addr in
  if negb create && (bal =? 0) then SM_AddBalance addr amount create s = (s, Err ErrNotFound)
  else if 2 ^ 64 <=? bal + amount then ∃ e, SM_AddBalance addr amount create s = (s, Err e)
  else ∃ s', SM_AddBalance addr amount create s = (s', Ok tt) ∧ contents s' = credited (contents s) addr amount.
Proof.
  intros Hwf Ha bal. pose proof (is_u64_balance_of (contents s) addr) as Hb.
  unfold SM_AddBalance, getBalance. go_unfold. rewrite GetBalance_ledger by done. fold bal.
  destruct (negb create && (bal =? 0)); [done|]. destruct (Add64_spec bal amount Hb Ha) as [Hfit Hover].
  destruct (Z.leb_spec (2 ^ 64) (bal + amount)) as [H|H].
  - destruct (Hover H) as [e ->]. by exists e.
  - rewrite (Hfit H). apply mu_Insert_run.
Qed.

Lemma CanDeduct_iff addr amount s :
  balances_wf (contents s) → CanDeduct addr amount s = Ok tt ↔ amount ≤ balance_of (contents s) addr.
Proof.
  intros Hwf. unfold CanDeduct. rewrite GetBalance_ledger by done. unfold mbind, outcome_bind, check.
  destruct (Z.ltb_spec (balance_of (contents s) addr) amount); simpl; split; try done; lia.
Qed.
End sponsor.

(** * Keys *)

Lemma makeRegionalKey_inj r r' k k' :
  contains slash r = false → contains slash r' = false →
  makeRegionalKey r k = makeRegionalKey r' k' → r = r' ∧ k = k'.
Proof.
  unfold makeRegionalKey. intros Hr Hr' H. apply (app_inj_l_str "r/") in H.
  by apply (sep_inj slash) in H.
Qed.

(** A key made for a region is routed to that region, whatever the key in
    it, and a key of the flat state is never routed to one; the keys of the
    objects of all regions are distinct. *)
Theorem regional_key_routing r r' k id id' c rest :
  contains slash r = false → contains slash r' = false → c ≠ "r"%char →
  IsRegionalKey (makeRegionalKey r k) = Some r ∧
  IsRegionalKey (String c rest) = None ∧
  (makeRegionalKey r (makeRegionKey r "object" id) = makeRegionalKey r' (makeRegionKey r' "object" id') →
     r = r' ∧ id = id').
Proof.
  intros Hr Hr' Hc. split_and!.
  - unfold IsRegionalKey, makeRegionalKey, HasPrefix. rewrite Prelude.prefix_app. unfold SplitN.
    change ("r/" +s+ r +s+ "/" +s+ k) with ("r" +s+ String slash (r +s+ String slash k)).
    rewrite cut_app by done. by rewrite cut_app.
  - unfold IsRegionalKey, HasPrefix. cbn [String.prefix]. by destruct (ascii_dec "r" c).
  - intros [-> H]%makeRegionalKey_inj; [|done..]. split; [done|].
    unfold makeRegionKey in H. apply app_inj_l_str in H. by apply (app_inj_l_str "/object/") in H.
Qed.

(** * Regional stores *)

Section regional.
Context {S D M : Type} `{!Mutable S, !Mutable M, !MerkleDB M, !BaseStore D}.
Context `{!Json channel_alias, !Json worker_alias, !Json Coordinator.Region, !Json Message}.
Context `{!Json (gomap string), !Json (gomap json), !Json Event}.
Implicit Types (s : StateManager S D M).

(** The accessor that promises the Merkle store of a region never returns
    one: the store it asks for always comes back wrapped. *)
Theorem GetRegionalStoreWithMutable_fails regionID s :
  is_ok (GetRegionalStoreWithMutable regionID s).2 = false.
Proof.
  unfold GetRegionalStoreWithMutable, GetRegionalStore, getRegionalStoreInternal. go_unfold.
  case_bool_decide; simpl; [done|]. unfold on_sm_coord, zoom.
  by destruct (GetTEEPair regionID (sm_coord s)) as [c [p| | |]].
Qed.

(** The stores the regional manager creates have no coordinator. *)
Definition regional_unwired s : Prop := map_Forall (λ _ p, ms_coordinator (p.1 : MerkleStore) = false) (sm_regional s).

(** Writing a regional key through the state manager panics as soon as the
    region's database can be created, because the store it is sent to has no
    coordinator. *)
Theorem SM_Insert_regional_panics now key value regionID s :
  IsRegionalKey key = Some regionID → regional_unwired s →
  is_ok (mdb_New (sm_merkle s)).2 = true →
  (SM_Insert now key value s).2 = Panic "invalid memory address or nil pointer dereference".
Proof.
  intros Hk HU Hnew. unfold SM_Insert. rewrite Hk. unfold RSM_GetRegionalStore. go_unfold.
  case_bool_decide as Hex; simpl.
  - unfold on_regional. destruct (sm_regional s !! regionID) as [[ms db]|] eqn:E; [|done].
    specialize (HU _ _ E). simpl in HU. unfold MerkleStore_Insert. go_unfold. simpl. by rewrite HU.
  - unfold on_sm_merkle, zoom. destruct (mdb_New (sm_merkle s)) as [m' [db| | |]]; try done. simpl.
    unfold on_regional. simpl. by rewrite lookup_insert_eq.
Qed.

(** ** Objects *)

Context (nf : goerr) `{!BaseStoreLaws D nf, !KVLaws M, !JsonLaws channel_alias, !JsonLaws (gomap string)}.

(** The database gives its root. *)
Context (mdb_root_ok : ∀ m : M, is_ok (mdb_GetMerkleRoot m) = true).

(** The state in which the store of a region can be had, with the two workers
    it talks through: it is cached, or the region has a TEE pair. *)
Definition region_ready (regionID : string) (w : string * string) s : Prop :=
  regionID ≠ "" ∧
  match sm_regionStores s !! regionID with
  | Some ms => ms_regionID ms = regionID ∧ ms_coordinator ms = true ∧ ms_workers ms = w
  | None => regionLock (sm_coord s) = false ∧
            ∃ p ps, teePairs (sm_coord s) !! regionID = Some (p :: ps) ∧ w = (SGXWorker p, SEVWorker p)
  end.

Lemma region_store_run regionID w s :
  region_ready regionID w s →
  ∃ s' ms, region_store regionID s = (s', Ok (MutableWrapper regionID)) ∧
    sm_regionStores s' !! regionID = Some ms ∧ ms_regionID ms = regionID ∧ ms_coordinator ms = true ∧
    ms_workers ms = w ∧ sm_backing s' = sm_backing s ∧ sm_coord s' = sm_coord s ∧
    sm_merkle s' = sm_merkle s ∧ sm_regional s' = sm_regional s.
Proof.
  intros [Hne Hr]. unfold region_store, getRegionalStoreInternal. go_unfold.
  rewrite bool_decide_eq_false_2 by done.
  destruct (sm_regionStores s !! regionID) as [ms|] eqn:E.
  - rewrite bool_decide_eq_true_2 by eauto. exists s, ms. naive_solver.
  - rewrite bool_decide_eq_false_2 by (intros [? ?]; congruence).
    destruct Hr as [HL (p & ps & Hp & ->)]. unfold on_sm_coord, zoom, GetTEEPair, with_regionLock_read.
    rewrite HL. go_unfold. rewrite Hp. simpl. eexists _, _. split; [done|]. simpl.
    rewrite lookup_insert_eq. split; [done|]. by destruct s.
Qed.

(** A write through a region's store: the message goes to the pair's channel and
    one key of the Merkle database changes. *)
Lemma store_Insert_run now r k v s ms ch :
  sm_regionStores s !! r = Some ms → ms_regionID ms = r → ms_coordinator ms = true → ends_utf8 ch = true →
  stored_channel nf (sm_coord s) (ms_workers ms).1 (ms_workers ms).2 = Some (Channel_MarshalJSON ch) →
  ∃ s' ms', store_Insert now (MutableWrapper r) k v s = (s', Ok tt) ∧
    contents (sm_merkle s') = <[makeRegionalKey r k := v]> (contents (sm_merkle s)) ∧
    sm_backing s' = sm_backing s ∧ sm_regional s' = sm_regional s ∧
    (∃ h, sm_coord s' = set_heap h (sm_coord s)) ∧
    sm_regionStores s' = <[r := ms']> (sm_regionStores s) ∧
    ms_regionID ms' = r ∧ ms_coordinator ms' = true ∧ ms_workers ms' = ms_workers ms ∧
    ms_updateCount ms' = u64_add (ms_updateCount ms) 1.
Proof.
  intros Hms Hr Hco He Hch. unfold store_Insert, on_region_store. simpl store_region. rewrite Hms.
  destruct (GetSecureChannel_stored nf (ms_workers ms).1 (ms_workers ms).2 (sm_coord s) ch He Hch)
    as (c1 & Hg & [h1 ->] & Hcell).
  set (msg := Marshal (mkMessage MessageTypeData (ms_workers ms).1 (ms_workers ms).2 v now)).
  assert (∃ h2, on_heap_of (on_channel (next_cell (heap (sm_coord s))) (Send msg)) (set_heap h1 (sm_coord s)) =
    (set_heap h2 (sm_coord s), Ok tt)) as [h2 Hsend].
  { unfold on_heap_of, zoom, on_channel. rewrite Hcell, Send_room; [by eexists|]. simpl. unfold channel_cap. lia. }
  destruct (mu_Insert_run (makeRegionalKey r k) v (sm_merkle s)) as (m' & Hins & Hcont).
  pose proof (mdb_root_ok m') as Hroot. destruct (mdb_GetMerkleRoot m') as [root| | |] eqn:Er; try done.
  unfold MerkleStore_Insert, updateMerkleRoot, on_coord, on_mdb, on_ms. go_unfold.
  cbn [st_ms st_db st_coord]. rewrite Hco. cbn [negb st_ms st_db st_coord]. rewrite Hg. cbn [st_ms st_db st_coord].
  fold msg. rewrite Hsend. cbn [st_ms st_db st_coord]. rewrite Hr, Hins. cbn [st_ms st_db st_coord].
  rewrite Er. cbn [st_ms st_db st_coord].
  eexists _, _. split; [done|]. simpl. split_and!; try done. by exists h2.
Qed.

(** The names of an object's fields are plain. *)
Lemma object_map_encodable obj : encodable (Some (object_map obj) : gomap string) = true.
Proof. vm_compute. reflexivity. Qed.

(** A regional object stored is the object read back: code, storage, status
    and region (the event list and the time of the last update are not stored).
    The write changes one key of the Merkle database and nothing else, in
    particular not the state the caller passed; it counts one update. *)
Theorem SM_SetObject_GetObject now id obj w s ch :
  region_ready (RegionID obj) w s → ends_utf8 ch = true →
  stored_channel nf (sm_coord s) w.1 w.2 = Some (Channel_MarshalJSON ch) →
  ∃ s', SM_SetObject now id obj s = (s', Ok tt) ∧
    sm_backing s' = sm_backing s ∧ sm_regional s' = sm_regional s ∧
    contents (sm_merkle s') =
      <[makeRegionalKey (RegionID obj) (makeRegionKey (RegionID obj) "object" id) := Marshal (Some (object_map obj))]>
        (contents (sm_merkle s)) ∧
    (SM_GetObject id (RegionID obj) s').2 =
      Ok (Some (mkObject (Code obj) (Core.Storage obj) (RegionID obj) [] zeroTime (Status obj))).
Proof.
  intros Hready He Hch.
  destruct (region_store_run _ _ _ Hready) as (s1 & ms & H1 & Hms & Hid & Hco & Hw & Hb & Hc & Hm & Hreg).
  assert (stored_channel nf (sm_coord s1) (ms_workers ms).1 (ms_workers ms).2 = Some (Channel_MarshalJSON ch))
    as Hch1 by (by rewrite Hw, Hc).
  destruct (store_Insert_run now _ (makeRegionKey (RegionID obj) "object" id) (Marshal (Some (object_map obj)))
    _ _ _ Hms Hid Hco He Hch1) as (s2 & ms2 & H2 & Hcont & Hb2 & Hreg2 & _ & Hst2 & Hid2 & Hco2 & Hw2 & _).
  exists s2. split; [unfold SM_SetObject; by rewrite (bind_ok _ _ _ _ _ H1), <-H2|].
  split; [congruence|]. split; [congruence|]. split; [by rewrite Hcont, Hm|].
  assert (region_ready (RegionID obj) w s2) as Hready2.
  { destruct Hready as [Hne _]. split; [done|]. rewrite Hst2, lookup_insert_eq. by rewrite Hw2. }
  destruct (region_store_run _ _ _ Hready2) as (s3 & ms3 & H3 & Hms3 & Hid3 & _ & _ & _ & _ & Hm3 & _).
  unfold SM_GetObject. rewrite (bind_ok _ _ _ _ _ H3).
  unfold store_GetValue, on_region_store, MerkleStore_Get, on_mdb, getValue. go_unfold. simpl. rewrite Hms3. simpl.
  rewrite Hid3, Hm3.
  rewrite (mu_GetValue_Some _ (Marshal (Some (object_map obj)))) by (rewrite Hcont; apply lookup_insert_eq).
  simpl. rewrite Unmarshal_Marshal by apply object_map_encodable. done.
Qed.

(** Over a store whose "not found" is not the coordinator's, a regional
    write to a pair that has no stored channel fails and changes no data. *)
Theorem SM_SetObject_without_channel now id obj w s :
  region_ready (RegionID obj) w s → errors_Is nf geth_ErrNotFound = false →
  stored_channel nf (sm_coord s) w.1 w.2 = None →
  ∃ s', SM_SetObject now id obj s =
      (s', Err (Wrapf "failed to get secure channel" (Wrapf "failed to load channel" nf))) ∧
    sm_merkle s' = sm_merkle s ∧ sm_backing s' = sm_backing s.
Proof.
  intros Hready Hnf Hch.
  destruct (region_store_run _ _ _ Hready) as (s1 & ms & H1 & Hms & Hid & Hco & Hw & Hb & Hc & Hm & _).
  unfold SM_SetObject. rewrite (bind_ok _ _ _ _ _ H1).
  unfold store_Insert, on_region_store. simpl store_region. rewrite Hms.
  unfold MerkleStore_Insert, on_coord. go_unfold. cbn [st_ms st_db st_coord].
  rewrite Hco, Hw. cbn [negb st_ms st_db st_coord].
  rewrite (GetSecureChannel_absent nf w.1 w.2 (sm_coord s1)); [|by rewrite Hc|done].
  simpl. eexists. split; [done|]. by split.
Qed.
End regional.

(** * Region configurations *)

Section configs.
Context {M V C : Type} `{!Mutable M, !KVLaws M, !MerkleViews M V, !MerkleViewsLaws M V, !Json C}.
Implicit Types (r : RegionStore M V C).

Lemma config_key_inj a b : createRegionKey "config" a "" = createRegionKey "config" b "" → a = b.
Proof. unfold createRegionKey. simpl. by intros [= H]. Qed.

Lemma updateState_run ch r :
  ∃ v, updateState ch r = (mkRS (rs_db r) v (rs_cache r), Ok tt) ∧
       view_contents v = apply_changes ch (contents (rs_db r)).
Proof.
  destruct (mdb_NewView_ok ch (rs_db r)) as (v & Hv & Hc). exists v.
  unfold updateState. go_unfold. rewrite Hv. by destruct r.
Qed.

Lemma SetRegionConfig_run id c r :
  isValidRegionID id = true →
  ∃ v, SetRegionConfig id c r = (mkRS (rs_db r) v (<[id := c]> (rs_cache r)), Ok tt) ∧
       view_contents v = <[createRegionKey "config" id "" := Marshal c]> (contents (rs_db r)).
Proof.
  intros Hid. destruct (updateState_run [(createRegionKey "config" id "", Some (Marshal c))] r) as (v & Hv & Hc).
  exists v. unfold SetRegionConfig. rewrite Hid. unfold fail_if, wrap, mbind, go_bind. simpl.
  rewrite Hv. done.
Qed.

Lemma GetRegionConfig_cached id c r :
  isValidRegionID id = true → rs_cache r !! id = Some c → GetRegionConfig id r = (r, Ok c).
Proof. intros Hid Hc. unfold GetRegionConfig. rewrite Hid. go_unfold. simpl. by rewrite Hc. Qed.

(** Configurations are read back as they were set, but only from the cache:
    every update replaces the view by one made of the unchanged database, so the
    view shows the last configuration set and none of the earlier ones, and the
    database shows none at all. *)
Theorem SetRegionConfig_view a b ca cb r :
  isValidRegionID a = true → isValidRegionID b = true → a ≠ b →
  ∃ r1 r2, SetRegionConfig a ca r = (r1, Ok tt) ∧ SetRegionConfig b cb r1 = (r2, Ok tt) ∧
    GetRegionConfig a r2 = (r2, Ok ca) ∧ GetRegionConfig b r2 = (r2, Ok cb) ∧
    rs_db r2 = rs_db r ∧
    view_contents (rs_view r2) !! createRegionKey "config" b "" = Some (Marshal cb) ∧
    view_contents (rs_view r2) !! createRegionKey "config" a "" =
      contents (rs_db r) !! createRegionKey "config" a "".
Proof.
  intros Ha Hb Hab. destruct (SetRegionConfig_run a ca r Ha) as (v1 & H1 & _).
  destruct (SetRegionConfig_run b cb (mkRS (rs_db r) v1 (<[a := ca]> (rs_cache r))) Hb) as (v2 & H2 & Hc2).
  eexists _, _. split; [exact H1|]. split; [exact H2|]. simpl in *.
  split; [apply GetRegionConfig_cached; [done|]; simpl; by rewrite lookup_insert_ne, lookup_insert_eq|].
  split; [apply GetRegionConfig_cached; [done|]; simpl; by rewrite lookup_insert_eq|].
  split; [done|]. rewrite Hc2. split; [by rewrite lookup_insert_eq|].
  rewrite lookup_insert_ne; [done|]. intros H%config_key_inj. done.
Qed.
End configs.

(** * The iterator *)

Lemma drain_prefixed n p cur l :
  Forall (λ kv, HasPrefix kv.1 p = true) l → (length l < n)%nat →
  ∃ cur', drain n (mkIter None l None p None cur) = (l, mkIter None [] None p None cur').
Proof.
  intros Hp. revert n cur. induction Hp as [|[k v] l Hk Hl IH]; intros [|n] cur Hn; simpl in Hn; try lia;
    simpl; [by exists cur|].
  unfold Iter_Next. simpl in *. rewrite Hk. destruct (IH n (Some (k, v)) ltac:(lia)) as [cur' ->]. by exists cur'.
Qed.

(** C32: a loop over the iterator ends after the last entry the database has for
    the prefix: it visits exactly those entries, in order and without error, and
    then [Next] is false; when the context is done it visits none and reports the
    context's error. *)
Theorem iterator_visits_prefix entries prefix n :
  Forall (λ kv, HasPrefix kv.1 prefix = true) entries → (length entries < n)%nat →
  (drain n (NewRegionIterator None entries prefix)).1 = entries ∧
  (Iter_Next (drain n (NewRegionIterator None entries prefix)).2).2 = false ∧
  Iter_Error (drain n (NewRegionIterator None entries prefix)).2 = None ∧
  ∀ e, (drain n (NewRegionIterator (Some e) entries prefix)).1 = [] ∧
       (Iter_Next (drain n (NewRegionIterator (Some e) entries prefix)).2).2 = false ∧
       Iter_Error (drain n (NewRegionIterator (Some e) entries prefix)).2 = Some e.
Proof.
  intros Hp Hn. destruct (drain_prefixed n prefix None entries Hp Hn) as [cur' E].
  unfold NewRegionIterator in *. rewrite E. split_and!; [done..|].
  intros e. by destruct n; [lia|].
Qed.

(** * Witnesses *)

#[local] Existing Instances hex_ChainLib hex_ChainLibLaws.
#[local] Existing Instances channel_Json channel_JsonLaws worker_Json region_Json map_PrefixIter.
#[local] Existing Instances obj_Json obj_JsonLaws json_Json.

(** Messages and events are only written here, so any text does. *)
#[local] Instance message_Json : Json Message := {
  Marshal m := From m +s+ ">" +s+ MsgTo m +s+ ":" +s+ MsgData m; Unmarshal _ := Err (Errorf "unused") }.
#[local] Instance event_Json : Json Event := {
  Marshal e := FunctionCall e; Unmarshal _ := Err (Errorf "unused") }.
#[local] Instance map_MerkleDB : MerkleDB (gmap string string) := {
  mdb_GetMerkleRoot m := Ok "root"; mdb_GetProof k m := Ok "proof"; mdb_New := λ m, (m, Ok ∅) }.
#[local] Instance map_MerkleViews : MerkleViews (gmap string string) (gmap string string) := {
  mdb_NewView ch m := Ok (apply_changes ch m);
  view_GetValue k v := match v !! k with Some x => Ok x | None => Err ErrNotFound end;
  view_GetMerkleRoot v := Ok "root" }.
#[local] Instance map_MerkleViewsLaws : MerkleViewsLaws (gmap string string) (gmap string string).
Proof. refine {| view_contents v := v |}; [done|]. intros ch m. by exists (apply_changes ch m). Defined.

Abbreviation mapSM := (StateManager (gmap string string) (gmap string string) (gmap string string)).

Definition funded : gmap string string := {[ BalanceKey "alice" := PutUint64 100 ]}.

Lemma funded_wf : balances_wf funded.
Proof.
  intros a v. unfold funded. rewrite lookup_singleton_Some. intros [_ <-]. vm_compute. discriminate.
Qed.

Lemma Deduct_spec_witness :
  ∃ s', Deduct "alice" 100 funded = (s', Ok tt) ∧ balance_of s' "alice" = 100.
Proof.
  destruct (Deduct_spec (KVLaws0 := map_KVLaws) "alice" 100 funded funded_wf) as (s' & o & H & _ & _ & H3); [vm_compute; by split|].
  destruct H3 as [-> H3]; [reflexivity|]. exists s'. split; [exact H|]. etransitivity; [exact H3|]. vm_compute. reflexivity.
Defined.

Lemma SM_AddBalance_spec_witness :
  ∃ s', SM_AddBalance "alice" 5 false funded = (s', Ok tt) ∧ s' = credited funded "alice" 5.
Proof. apply (SM_AddBalance_spec (KVLaws0 := map_KVLaws) "alice" 5 false funded funded_wf). vm_compute; by split. Defined.

Lemma regional_key_routing_witness :
  IsRegionalKey (makeRegionalKey "us-east" "object/1") = Some "us-east".
Proof. apply (regional_key_routing "us-east" "eu-west" "object/1" "1" "2" "x" ""); [reflexivity..|discriminate]. Defined.

(** The manager [NewStateManager] builds on empty stores. *)
Definition fresh_sm : mapSM := mkSM ∅ (NewCoordinator coordCfg ∅ sample_heap) ∅ ∅ ∅.


Lemma SM_Insert_regional_panics_witness :
  (SM_Insert sample_now "r/us-east/k" "v" fresh_sm).2 = Panic "invalid memory address or nil pointer dereference".
Proof.
  apply (SM_Insert_regional_panics sample_now "r/us-east/k" "v" "us-east" fresh_sm);
    [reflexivity|apply map_Forall_empty|reflexivity].
Defined.

(** A region with a TEE pair whose channel is stored, and one without. *)
Definition pair_channel : SecureChannel := mkChannel "w1" "w2" "key" true [] false.
Definition with_region (db : gmap string string) : mapSM :=
  mkSM ∅ (set_teePairs {["us-east" := [mkPairInfo "w1-w2" "w1" "w2" 0 0 sample_now]]}
            (NewCoordinator coordCfg db sample_heap)) ∅ ∅ ∅.
Definition channel_db : gmap string string :=
  {[ channelPrefix +s+ makeChannelKey "w1" "w2" := Channel_MarshalJSON pair_channel ]}.
Definition sample_object : ObjectState := mkObject "code" "data" "us-east" ["e1"] sample_now StatusActive.

Lemma with_region_ready db : region_ready "us-east" ("w1", "w2") (with_region db).
Proof. split; [done|]. split; [done|]. eexists _, _. split; reflexivity. Qed.

Lemma SM_SetObject_GetObject_witness :
  ∃ s', SM_SetObject sample_now "obj" sample_object (with_region channel_db) = (s', Ok tt) ∧
    (SM_GetObject "obj" "us-east" s').2 = Ok (Some (mkObject "code" "data" "us-east" [] zeroTime StatusActive)).
Proof.
  assert (∀ m : gmap string string, is_ok (mdb_GetMerkleRoot m) = true) as Hroot by reflexivity.
  destruct (SM_SetObject_GetObject ErrNotFound Hroot sample_now "obj" sample_object ("w1", "w2")
    (with_region channel_db) pair_channel) as (s' & H & _ & _ & _ & Hget);
    [apply with_region_ready|reflexivity|vm_compute; reflexivity|].
  exists s'. split; [exact H|exact Hget].
Defined.

Lemma SM_SetObject_without_channel_witness :
  is_ok (SM_SetObject sample_now "obj" sample_object (with_region ∅)).2 = false.
Proof.
  destruct (SM_SetObject_without_channel ErrNotFound sample_now "obj" sample_object ("w1", "w2") (with_region ∅))
    as (s' & H & _); [apply with_region_ready|reflexivity|vm_compute; reflexivity|].
  rewrite H. reflexivity.
Defined.

Definition fresh_rs : RegionStore (gmap string string) (gmap string string) (gomap string) := mkRS ∅ ∅ ∅.

Lemma SetRegionConfig_view_witness :
  ∃ r1 r2, SetRegionConfig "us-east" None fresh_rs = (r1, Ok tt) ∧
    SetRegionConfig "eu-west" (Some ∅) r1 = (r2, Ok tt) ∧
    rs_view r2 !! createRegionKey "config" "us-east" "" = None.
Proof.
  destruct (SetRegionConfig_view "us-east" "eu-west" None (Some ∅) fresh_rs eq_refl eq_refl)
    as (r1 & r2 & H1 & H2 & _ & _ & _ & _ & H3); [discriminate|].
  exists r1, r2. split; [exact H1|]. split; [exact H2|]. etransitivity; [exact H3|]. vm_compute. reflexivity.
Defined.

Lemma iterator_visits_prefix_witness :
  (drain 3 (NewRegionIterator None [("r/1", "a"); ("r/2", "b")] "r/")).1 = [("r/1", "a"); ("r/2", "b")].
Proof.
  apply (iterator_visits_prefix [("r/1", "a"); ("r/2", "b")] "r/" 3); [|simpl; lia].
  repeat constructor.
Defined.
