(* ===== verification/Actions.v ===== *)
(** [actions/shuttle.go], [actions/region.go], [actions/enclave.go] and the wire
    format of [core/tee_types.go]: the actions that create objects and regions,
    send events, set the input object and register enclaves.

    The actions assert that the state they receive is a state manager and are written
    against its methods, [VMState]; what they rely on is [VMStateLaws], which the
    methods of the state manager of package [storage] satisfy.  That type fails the
    assertion all the same ([StateManagerVM.v]). *)

From S2P Require Import Prelude GoTime KV Core Storage Transfer.
From Stdlib Require Import ZArith Lia Ascii String.
From stdpp Require Import base tactics option list strings pretty gmap.

Local Open Scope Z_scope.

(** * Errors and limits *)

Definition act (name : string) : goerr := Sentinel "actions" name.
Definition ErrObjectExists := act "ErrObjectExists".
Definition ErrObjectNotFound := act "ErrObjectNotFound".
Definition ErrInvalidID := act "ErrInvalidID".
Definition ErrInvalidFunction := act "ErrInvalidFunction".
Definition act_ErrCodeTooLarge := act "ErrCodeTooLarge".
Definition act_ErrStorageTooLarge := act "ErrStorageTooLarge".
Definition ErrInvalidAttestation := act "ErrInvalidAttestation".
Definition ErrRegionRequired := act "ErrRegionRequired".
Definition ErrRegionExists := act "ErrRegionExists".
Definition act_ErrRegionNotFound := act "ErrRegionNotFound".
Definition ErrInvalidTEE := act "ErrInvalidTEE".
Definition act_ErrInvalidRegionID := act "ErrInvalidRegionID".
Definition ErrTooManyTEEs := act "ErrTooManyTEEs".
Definition ErrMissingAttestation := act "ErrMissingAttestation".
Definition ErrAttestationMismatch := act "ErrAttestationMismatch".
Definition ErrStoreAccess := act "ErrStoreAccess".
Definition ErrProofGeneration := act "ErrProofGeneration".
(** The package's own "not found", which no store returns. *)
Definition act_ErrNotFound := act "ErrNotFound".

Definition act_MaxCodeSize : Z := 1024 * 1024.
Definition act_MaxStorageSize : Z := 1024 * 1024.
Definition MaxIDLength : Z := 256.
Definition MaxTEEsPerRegion : Z := 32.

(** [fmt.Errorf("%w: %v", e, err)]. *)
Definition with_detail (e : goerr) : goerr := Wrapf "" e.

(** * The state manager the actions receive *)

Class VMState (W : Type) : Type := {
  vm_GetRegion : string → go W (gomap json);
  vm_RegionExists : string → go W bool;
  vm_ObjectExists : string → string → go W bool;
  vm_GetObject : string → string → go W (option ObjectState);
  vm_SetObject : Time → string → ObjectState → go W unit;
  vm_SetEvent : Time → string → Event → string → go W unit;
  (* the regional store: the call that gets it, and its methods *)
  vm_GetRegionalStore : string → go W unit;
  vm_store_Get : string → string → go W string;
  vm_store_Insert : Time → string → string → string → go W unit;
  vm_store_GetProof : string → string → go W string;
  vm_store_nil : string → bool;       (* a value read is the nil slice *)
}.

(** * Actions and results *)

Record CreateObjectAction : Type := mkCreateObject {
  CO_ID : string;
  CO_Code : string;
  CO_Storage : string;
  CO_RegionID : string;
}.

Record SendEventAction : Type := mkSendEvent {
  SEv_IDTo : string;
  SEv_FunctionCall : string;
  SEv_Parameters : string;
  SEv_Attestations : TEEAttestation * TEEAttestation;
  SEv_RegionID : string;
}.

Record SetInputObjectAction : Type := mkSetInput {
  SI_ID : string;
  SI_RegionID : string;
}.

Record CreateRegionAction : Type := mkCreateRegion {
  CR_RegionID : string;
  CR_TEEs : list string;
  CR_Attestations : TEEAttestation * TEEAttestation;
}.

Record UpdateRegionAction : Type := mkUpdateRegion {
  UR_RegionID : string;
  UR_SGXEndpoint : string;
  UR_SEVEndpoint : string;
  UR_Attestations : TEEAttestation * TEEAttestation;
}.

Record act_EnclaveInfo : Type := mkActEnclave {
  AE_Measurement : string;
  AE_ValidFrom : Time;
  AE_ValidUntil : Time;
  AE_EnclaveType : string;
  AE_RegionID : string;
}.

#[export] Instance act_EnclaveInfo_Encodable : Encodable act_EnclaveInfo :=
  λ e, encodable_time (AE_ValidFrom e) && encodable_time (AE_ValidUntil e) && utf8 (AE_EnclaveType e) && utf8 (AE_RegionID e).

Record UpdateValidEnclavesAction : Type := mkUpdateEnclaves {
  UE_EnclaveID : string;
  UE_Info : act_EnclaveInfo;
  UE_RegionID : string;
}.

Record CreateObjectResult : Type := mkCreateObjectResult { COR_ID : string; COR_RegionID : string }.

Record SendEventResult : Type := mkSendEventResult {
  SER_Success : bool;
  SER_IDTo : string;
  SER_EventID : string;
  SER_StateHash : string;
  SER_Timestamp : string;
  SER_RegionID : string;
}.

Record SetInputObjectResult : Type := mkSetInputResult { SIR_ID : string; SIR_Success : bool; SIR_RegionID : string }.

Record RegionResult : Type := mkRegionResult {
  RR_RegionID : string;
  RR_Success : bool;
  RR_StateHash : string;
  RR_Timestamp : string;
  RR_Proof : string;
}.

Record UpdateValidEnclavesResult : Type := mkEnclavesResult { UER_EnclaveID : string; UER_RegionID : string; UER_Success : bool }.

(** The type ids, in the order of the [iota] block of [consts]. *)
Definition CreateObjectID : Z := 3.
Definition SetInputObjectID : Z := 4.
Definition SendEventID : Z := 5.
Definition CreateRegionID : Z := 6.
Definition UpdateRegionID : Z := 7.
Definition UpdateValidEnclavesID : Z := 15.

(** * Validation *)

(** Attestation times are compared with [!=]: the same instant at the same
    offset. *)
Definition verifyAttestationPair (a : TEEAttestation * TEEAttestation) : verdict :=
  check ((slen (EnclaveID a.1) =? 0) || (slen (EnclaveID a.2) =? 0)) ErrMissingAttestation ;;
  check (negb (bool_decide (Timestamp a.1 = Timestamp a.2))) ErrAttestationMismatch ;;
  check (negb (bool_decide (Data a.1 = Data a.2))) ErrAttestationMismatch ;;
  check ((slen (Measurement a.1) =? 0) || (slen (Measurement a.2) =? 0)) ErrMissingAttestation ;;
  check ((slen (Signature a.1) =? 0) || (slen (Signature a.2) =? 0)) ErrMissingAttestation.

Definition validateCode (code : string) : verdict :=
  match code with
  | EmptyString => Err (Errorf "empty code")
  | String a _ => check (bool_decide (a = Ascii.zero)) (Errorf "invalid code start byte")
  end.

Definition validateFunctionExists (code functionName : string) : verdict :=
  check (slen code =? 0) (Errorf "empty code").

(** [tees] is [region["tees"].([]core.TEEAddress)], [None] when the assertion
    fails. *)
Definition verifyRegionTEEs (tees : option (list string)) (a : TEEAttestation * TEEAttestation) : verdict :=
  match tees with
  | None => Err (Errorf "invalid region TEE format")
  | Some tees =>
      check (negb (existsb (λ t, bool_decide (t = EnclaveID a.1)) tees)) ErrInvalidAttestation ;;
      check (negb (existsb (λ t, bool_decide (t = EnclaveID a.2)) tees)) ErrInvalidAttestation
  end.

(** [parse] is [time.Parse(time.RFC3339, _)]. *)
Definition validateTimestamp (parse : string → outcome Time) (now : Time) (timestamp : string) : verdict :=
  match parse timestamp with
  | Ok ts => let diff := Sub now ts in
             check ((5 * Minute <? diff) || (diff <? - (5 * Minute)))
               (Errorf "timestamp outside acceptable range")
  | Err e => Err (Wrapf "invalid timestamp format" e)
  | Panic w => Panic w
  | Hang w => Hang w
  end.

(** Retries: the loop of [submitTask] over any submission. *)
Fixpoint submit_retry {S} (submit : go S unit) (maxRetries i : nat) (lastErr : option goerr) : go S unit :=
  match i with
  | O => fail (match lastErr with Some e => Wrapf "failed after retries" e | None => Errorf "failed after 0 retries" end)
  | S i' =>
      r ← try submit;
      match r with inl _ => mret tt | inr e => submit_retry submit maxRetries i' (Some e) end
  end.

Definition submitTask {S} (submit : go S unit) (maxRetries : nat) : go S unit :=
  submit_retry submit maxRetries maxRetries None.

(** * Keys the actions declare *)

Definition CreateObject_StateKeys (c : CreateObjectAction) : gmap string perm :=
  {[ "r/" +s+ CO_RegionID c +s+ "/obj/" +s+ CO_ID c := PWrite; "r/" +s+ CO_RegionID c +s+ "/info" := PRead ]}.
Definition SendEvent_StateKeys (s : SendEventAction) : gmap string perm :=
  {[ "r/" +s+ SEv_RegionID s +s+ "/obj/" +s+ SEv_IDTo s := PReadWrite;
     "r/" +s+ SEv_RegionID s +s+ "/evt/" +s+ SEv_IDTo s := PWrite ]}.
Definition SetInputObject_StateKeys (s : SetInputObjectAction) : gmap string perm :=
  {[ "input_object" := PWrite; "object:" +s+ SI_ID s := PRead ]}.
Definition CreateRegion_StateKeys (c : CreateRegionAction) : gmap string perm :=
  {[ "region:" +s+ CR_RegionID c := PWrite ]}.
Definition UpdateRegion_StateKeys (u : UpdateRegionAction) : gmap string perm :=
  {[ "region:" +s+ UR_RegionID u := PReadWrite ]}.
Definition UpdateValidEnclaves_StateKeys (u : UpdateValidEnclavesAction) : gmap string perm :=
  {[ "enclave/" +s+ hex (UE_EnclaveID u) := PWrite; "r/" +s+ UE_RegionID u +s+ "/info" := PRead ]}.

Definition CreateObject_ComputeUnits (c : CreateObjectAction) : Z :=
  1 + (slen (CO_Code c) + slen (CO_Storage c)) / 1024.
Definition SendEvent_ComputeUnits (s : SendEventAction) : Z := 1 + slen (SEv_Parameters s) / 1024.

Definition act_makeRegionKey (prefix regionID suffix : string) : string :=
  if bool_decide (suffix = "") then prefix +s+ "/" +s+ regionID
  else prefix +s+ "/" +s+ regionID +s+ "/" +s+ suffix.

(** * Execution *)

Section execute.
Context {W : Type} `{!VMState W} `{!Json act_EnclaveInfo, !Json (gomap json)}.

(** [mu.(vm.StateManager)]: [ok] is whether the dynamic type of [mu] has the methods of
    the interface.  Objects and events use the form that panics, regions and enclaves
    the one that reports. *)
Definition assert_manager (ok : bool) : go W unit :=
  if ok then mret tt else gopanic "interface conversion: state.Mutable is not vm.StateManager".
Definition check_manager (ok : bool) : go W unit := fail_if (negb ok) (Errorf "invalid state manager type").

(** [now] is the clock, [timestamp] the time of the block in seconds. *)
Definition CreateObject_Execute (ok : bool) (now : Time) (timestamp : Z) (c : CreateObjectAction) : go W CreateObjectResult :=
  fail_if (bool_decide (CO_RegionID c = "")) ErrRegionRequired ;;
  assert_manager ok ;;
  fail_if ((slen (CO_ID c) =? 0) || (MaxIDLength <? slen (CO_ID c))) ErrInvalidID ;;
  fail_if (act_MaxCodeSize <? slen (CO_Code c)) act_ErrCodeTooLarge ;;
  fail_if (act_MaxStorageSize <? slen (CO_Storage c)) act_ErrStorageTooLarge ;;
  region ← vm_GetRegion (CO_RegionID c);
  fail_if (match region with None => true | Some _ => false end) act_ErrRegionNotFound ;;
  exists_ ← vm_ObjectExists (CO_ID c) (CO_RegionID c);
  fail_if exists_ ErrObjectExists ;;
  lift (validateCode (CO_Code c)) ;;
  vm_SetObject now (CO_ID c)
    (mkObject (CO_Code c) (CO_Storage c) (CO_RegionID c) [] (fromUnix timestamp) "active") ;;
  mret (mkCreateObjectResult (CO_ID c) (CO_RegionID c)).

Definition event_id (s : SendEventAction) : string :=
  SEv_IDTo s +s+ ":" +s+ Format (Timestamp (SEv_Attestations s).1).

Definition event_of (s : SendEventAction) : Event :=
  mkEvent (SEv_FunctionCall s) (SEv_Parameters s) (SEv_Attestations s)
    (Format (Timestamp (SEv_Attestations s).1)) "pending".

Definition SendEvent_Execute (ok : bool) (now : Time) (timestamp : Z) (s : SendEventAction) : go W SendEventResult :=
  fail_if (bool_decide (SEv_RegionID s = "")) ErrRegionRequired ;;
  assert_manager ok ;;
  r ← vm_GetObject (SEv_IDTo s) (SEv_RegionID s);
  match r with
  | None => fail ErrObjectNotFound
  | Some obj =>
      fail_if ((slen (SEv_FunctionCall s) =? 0) || (MaxIDLength <? slen (SEv_FunctionCall s))) ErrInvalidFunction ;;
      fail_if (act_MaxStorageSize <? slen (SEv_Parameters s)) act_ErrStorageTooLarge ;;
      fail_if (negb (bool_decide (RegionID obj = SEv_RegionID s)))
        (Errorf "object region does not match event region") ;;
      lift (verifyAttestationPair (SEv_Attestations s)) ;;
      vm_SetEvent now (event_id s) (event_of s) (SEv_RegionID s) ;;
      vm_SetObject now (SEv_IDTo s)
        (mkObject (Code obj) (Core.Storage obj) (RegionID obj) (Events obj ++ [event_id s])
           (fromUnix timestamp) (Status obj)) ;;
      mret (mkSendEventResult true (SEv_IDTo s) (event_id s) (Data (SEv_Attestations s).1)
              (Format (UTC (Timestamp (SEv_Attestations s).1))) (SEv_RegionID s))
  end.

Definition SetInputObject_Execute (ok : bool) (now : Time) (timestamp : Z) (s : SetInputObjectAction) :
    go W SetInputObjectResult :=
  assert_manager ok ;;
  fail_if ((slen (SI_ID s) =? 0) || (MaxIDLength <? slen (SI_ID s))) ErrInvalidID ;;
  exists_ ← vm_ObjectExists (SI_ID s) (SI_RegionID s);
  fail_if (negb exists_) ErrObjectNotFound ;;
  vm_SetObject now ("input:" +s+ SI_ID s)
    (mkObject "" "" (SI_RegionID s) [] (fromUnix timestamp) "input") ;;
  mret (mkSetInputResult (SI_ID s) true (SI_RegionID s)).

(** A call whose error is reported as [e]. *)
Definition as_error {A} (e : goerr) (m : go W A) : go W A :=
  r ← try m; match r with inl a => mret a | inr _ => fail (with_detail e) end.

(** [json.Marshal] of [interface{}] values: strings, addresses in base64. *)
Definition region_json (c : CreateRegionAction) : gmap string json :=
  let t := JStr (Format (Timestamp (CR_Attestations c).1)) in
  {[ "tees" := JArr ((λ x, JStr (base64 x)) <$> CR_TEEs c);
     "attestations" := Storage.attestations_json (CR_Attestations c);
     "created_at" := t; "last_updated" := t ]}.

(** [existing] is nil when the read failed with the "not found" tested for. *)
Definition existing_region (regionID key : string) : go W (option string) :=
  r ← try (vm_store_Get regionID key);
  match r with
  | inl v => mret (if vm_store_nil v then None else Some v)
  | inr e => fail_if (negb (errors_Is e act_ErrNotFound)) (Wrapf "failed to check existing region" e) ;; mret None
  end.

Definition CreateRegion_Execute (ok : bool) (now : Time) (c : CreateRegionAction) : go W RegionResult :=
  check_manager ok ;;
  fail_if ((slen (CR_RegionID c) =? 0) || (256 <? slen (CR_RegionID c))) act_ErrInvalidRegionID ;;
  fail_if ((Z.of_nat (length (CR_TEEs c)) =? 0) || (MaxTEEsPerRegion <? Z.of_nat (length (CR_TEEs c)))) ErrTooManyTEEs ;;
  as_error ErrStoreAccess (vm_GetRegionalStore (CR_RegionID c)) ;;
  let key := act_makeRegionKey "config" (CR_RegionID c) "" in
  existing ← existing_region (CR_RegionID c) key;
  fail_if (match existing with Some _ => true | None => false end) ErrRegionExists ;;
  fail_if (existsb (λ t, (slen t =? 0) || (64 <? slen t)) (CR_TEEs c)) ErrInvalidTEE ;;
  lift (verifyAttestationPair (CR_Attestations c)) ;;
  wrap "failed to store region"
    (vm_store_Insert now (CR_RegionID c) key (Marshal (Some (region_json c)))) ;;
  proof ← as_error ErrProofGeneration (vm_store_GetProof (CR_RegionID c) key);
  mret (mkRegionResult (CR_RegionID c) true (Data (CR_Attestations c).1)
          (Format (Timestamp (CR_Attestations c).1)) proof).

Definition set_endpoint (key endpoint : string) (region : gomap json) : outcome (gomap json) :=
  if bool_decide (endpoint = "") then Ok region
  else m ← map_assign region key (JStr endpoint); mret (Some m).

Definition UpdateRegion_Execute (ok : bool) (now : Time) (u : UpdateRegionAction) : go W RegionResult :=
  check_manager ok ;;
  fail_if ((slen (UR_RegionID u) =? 0) || (256 <? slen (UR_RegionID u))) act_ErrInvalidRegionID ;;
  as_error ErrStoreAccess (vm_GetRegionalStore (UR_RegionID u)) ;;
  lift (verifyAttestationPair (UR_Attestations u)) ;;
  let key := act_makeRegionKey "config" (UR_RegionID u) "" in
  r ← try (vm_store_Get (UR_RegionID u) key);
  match r with
  | inr e => if errors_Is e act_ErrNotFound then fail act_ErrRegionNotFound
             else fail (Wrapf "failed to get existing region" e)
  | inl data =>
      region ← wrap "failed to unmarshal region" (lift (Unmarshal data));
      region ← lift (set_endpoint "sgx_endpoint" (UR_SGXEndpoint u) region);
      region ← lift (set_endpoint "sev_endpoint" (UR_SEVEndpoint u) region);
      region ← lift (map_assign region "attestations" (Storage.attestations_json (UR_Attestations u)));
      region ← lift (map_assign (Some region) "last_updated" (JStr (Format (UTC now))));
      wrap "failed to store region update"
        (vm_store_Insert now (UR_RegionID u) key (Marshal (Some region))) ;;
      proof ← as_error ErrProofGeneration (vm_store_GetProof (UR_RegionID u) key);
      mret (mkRegionResult (UR_RegionID u) true (Data (UR_Attestations u).1) (Format (UTC now)) proof)
  end.

Definition UpdateValidEnclaves_Execute (ok : bool) (now : Time) (timestamp : Z) (u : UpdateValidEnclavesAction) :
    go W UpdateValidEnclavesResult :=
  check_manager ok ;;
  exists_ ← vm_RegionExists (UE_RegionID u);
  fail_if (negb exists_) act_ErrRegionNotFound ;;
  wrap "failed to store enclave info"
    (vm_SetObject now ("enclave/" +s+ hex (UE_EnclaveID u))
       (mkObject "" (Marshal (UE_Info u)) (UE_RegionID u) [] (fromUnix timestamp) "active")) ;;
  mret (mkEnclavesResult (UE_EnclaveID u) (UE_RegionID u) true).
End execute.

(** * The wire format

    hypersdk's [codec.Packer], as a reader and writer of typed fields. *)
Class Packer (P : Type) : Type := {
  UnpackString : bool → P → P * string;
  UnpackBytes : Z → bool → P → P * string;
  UnpackInt : bool → P → P * Z;
  UnpackUint64 : bool → P → P * Z;
  PackBytes : string → P → P;
  PackUint64 : Z → P → P;
  Packer_Err : P → option goerr;
}.

(** What the code relies on: [pending] are the fields written, in order; a read of bytes
    that gives no error is within its limit, which any limit but a negative one sets (zero
    does not mean unbounded); errors stay. *)
Inductive field : Type := FBytes (s : string) | FUint64 (x : Z).

Class PackerLaws (P : Type) `{!Packer P} : Type := {
  pending : P → list field;
  PackBytes_pending : ∀ s p, pending (PackBytes s p) = pending p ++ [FBytes s];
  PackUint64_pending : ∀ x p, is_u64 x → pending (PackUint64 x p) = pending p ++ [FUint64 x];
  UnpackBytes_limit : ∀ n r p, 0 ≤ n → Packer_Err (UnpackBytes n r p).1 = None → slen (UnpackBytes n r p).2 ≤ n;
  UnpackBytes_sticky : ∀ n r p, Packer_Err (UnpackBytes n r p).1 = None → Packer_Err p = None;
  UnpackString_sticky : ∀ r p, Packer_Err (UnpackString r p).1 = None → Packer_Err p = None;
  UnpackUint64_sticky : ∀ r p, Packer_Err (UnpackUint64 r p).1 = None → Packer_Err p = None;
}.

Definition zeroAttestation : TEEAttestation := mkAttestation "" "" zeroTime "" "" "".

Section wire.
Context {P : Type} `{!Packer P}.

Definition Attestation_Unmarshal (p : P) : P * TEEAttestation :=
  let '(p, e) := UnpackBytes 0 false p in
  let '(p, m) := UnpackBytes 0 false p in
  let '(p, sec) := UnpackUint64 false p in
  let '(p, d) := UnpackBytes 0 false p in
  let '(p, s) := UnpackBytes 0 false p in
  let '(p, r) := UnpackBytes 0 false p in
  (p, mkAttestation e m (fromUnix (int64 sec)) d s r).

Definition Attestation_Marshal (t : TEEAttestation) (p : P) : P :=
  let p := PackBytes (EnclaveID t) p in
  let p := PackBytes (Measurement t) p in
  let p := PackUint64 (u64 (Unix (Timestamp t))) p in
  let p := PackBytes (Data t) p in
  let p := PackBytes (Signature t) p in
  PackBytes (RegionProof t) p.

(** The error of the packer, after the fields were read. *)
Definition parsed {A} (r : P * A) : outcome A :=
  match Packer_Err r.1 with Some e => Err e | None => Ok r.2 end.

Definition CreateObject_Unmarshal (p : P) : P * CreateObjectAction :=
  let '(p, id) := UnpackString false p in
  let '(p, code) := UnpackBytes 0 false p in
  let '(p, storage) := UnpackBytes 0 false p in
  let '(p, region) := UnpackString false p in
  (p, mkCreateObject id code storage region).

(** The attestations are not read. *)
Definition SendEvent_Unmarshal (p : P) : P * SendEventAction :=
  let '(p, id) := UnpackString false p in
  let '(p, fc) := UnpackString false p in
  let '(p, params) := UnpackBytes 0 false p in
  let '(p, region) := UnpackString false p in
  (p, mkSendEvent id fc params (zeroAttestation, zeroAttestation) region).

(** The region is not read. *)
Definition SetInputObject_Unmarshal (p : P) : P * SetInputObjectAction :=
  let '(p, id) := UnpackString false p in
  (p, mkSetInput id "").

Fixpoint unpack_tees (n : nat) (p : P) : P * list string :=
  match n with
  | O => (p, [])
  | S n' => let '(p, tee) := UnpackBytes 32 true p in
            let '(p, tees) := unpack_tees n' p in (p, tee :: tees)
  end.

(** The addresses are read into a local slice that is not stored. *)
Definition CreateRegion_Unmarshal (p : P) : P * CreateRegionAction :=
  let '(p, id) := UnpackString false p in
  let '(p, addCount) := UnpackInt false p in
  let '(p, localTEEs) := unpack_tees (Z.to_nat addCount) p in
  let '(p, a0) := Attestation_Unmarshal p in
  let '(p, a1) := Attestation_Unmarshal p in
  (p, mkCreateRegion id [] (a0, a1)).

Definition UpdateRegion_Unmarshal (p : P) : P * UpdateRegionAction :=
  let '(p, id) := UnpackString false p in
  let '(p, sgx) := UnpackString false p in
  let '(p, sev) := UnpackString false p in
  let '(p, a0) := Attestation_Unmarshal p in
  let '(p, a1) := Attestation_Unmarshal p in
  (p, mkUpdateRegion id sgx sev (a0, a1)).

Definition ParseCreateObject (p : P) : outcome CreateObjectAction := parsed (CreateObject_Unmarshal p).
Definition ParseSendEvent (p : P) : outcome SendEventAction := parsed (SendEvent_Unmarshal p).
Definition ParseSetInputObject (p : P) : outcome SetInputObjectAction := parsed (SetInputObject_Unmarshal p).
Definition ParseCreateRegion (p : P) : outcome CreateRegionAction := parsed (CreateRegion_Unmarshal p).
Definition ParseUpdateRegion (p : P) : outcome UpdateRegionAction := parsed (UpdateRegion_Unmarshal p).
End wire.
