(* ===== verification/ActionsFacts.v ===== *)
(** What the actions rely on and what they do: the laws of the state manager
    interface, the effect of every action on the objects and events, and the
    actions that cannot succeed once they were decoded. *)

From S2P Require Import Prelude GoTime KV Core Storage Transfer Actions.
From Stdlib Require Import ZArith Lia Ascii String.
From stdpp Require Import base tactics option list strings pretty gmap.

Local Open Scope Z_scope.

(** * The contract of the state manager

    A state holds regions, objects and events, seen through [region_known],
    [object_at] and [event_at]; [ready r w] says that the store of region [r]
    can be used in [w].  Reads change none of these; an object is read back
    without its event list and update time. *)

Definition as_read (o : ObjectState) : ObjectState :=
  mkObject (Code o) (Core.Storage o) (RegionID o) [] zeroTime (Status o).

Class VMView (W : Type) : Type := {
  ready : string → W → Prop;
  store_open : string → W → Prop;     (* the region's store was obtained *)
  region_known : W → string → bool;
  object_at : W → string → string → option ObjectState;
  event_at : W → string → string → option Event;
  raw_at : W → string → string → option string;
}.

(** Two states with the same view of every usable region. *)
Definition same_view {W} `{!VMView W} (w w' : W) : Prop :=
  ∀ r, ready r w → ready r w' ∧ region_known w' r = region_known w r ∧
    (∀ id, object_at w' r id = object_at w r id) ∧ (∀ id, event_at w' r id = event_at w r id) ∧
    (∀ k, raw_at w' r k = raw_at w r k).

#[export] Instance same_view_preorder {W} `{!VMView W} : PreOrder (same_view (W := W)).
Proof.
  split; [by intros w r Hr|]. intros w1 w2 w3 H12 H23 r Hr.
  destruct (H12 r Hr) as (R2 & E2 & O2 & V2 & A2). destruct (H23 r R2) as (R3 & E3 & O3 & V3 & A3).
  split_and!; try done; intros; etrans; eauto.
Qed.

Class VMStateLaws (W : Type) `{!VMState W, !VMView W} : Prop := {
  GetRegion_law : ∀ r w, ready r w →
    ∃ w' g, vm_GetRegion r w = (w', Ok g) ∧ same_view w w' ∧
            match g with Some _ => region_known w r = true | None => region_known w r = false end;
  RegionExists_law : ∀ r w, ready r w →
    ∃ w', vm_RegionExists r w = (w', Ok (region_known w r)) ∧ same_view w w';
  ObjectExists_law : ∀ r id w, ready r w →
    ∃ w', vm_ObjectExists id r w = (w', Ok (bool_decide (is_Some (object_at w r id)))) ∧ same_view w w';
  GetObject_law : ∀ r id w, ready r w →
    ∃ w', vm_GetObject id r w = (w', Ok (object_at w r id)) ∧ same_view w w';
  object_at_region : ∀ r id w o, ready r w → object_at w r id = Some o → RegionID o = r;
  SetObject_law : ∀ now id o w, ready (RegionID o) w →
    ∃ w', vm_SetObject now id o w = (w', Ok tt) ∧
      ∀ r, ready r w → ready r w' ∧ region_known w' r = region_known w r ∧
        (∀ id', object_at w' r id' = if bool_decide (r = RegionID o ∧ id' = id) then Some (as_read o) else object_at w r id') ∧
        (∀ id', event_at w' r id' = event_at w r id');
  SetEvent_law : ∀ now id e r0 w, ready r0 w → encodable e = true →
    ∃ w', vm_SetEvent now id e r0 w = (w', Ok tt) ∧
      ∀ r, ready r w → ready r w' ∧ region_known w' r = region_known w r ∧
        (∀ id', object_at w' r id' = object_at w r id') ∧
        (∀ id', event_at w' r id' = if bool_decide (r = r0 ∧ id' = id) then Some e else event_at w r id');
  GetRegionalStore_law : ∀ r w, ready r w → 
    ∃ w', vm_GetRegionalStore r w = (w', Ok tt) ∧ same_view w w' ∧ store_open r w';
  store_Get_law : ∀ r k w, ready r w → store_open r w →
    ∃ w', vm_store_Get r k w = (w', match raw_at w r k with Some v => Ok v | None => Err ErrNotFound end) ∧ same_view w w';
  no_region_refused : ∀ id w, is_ok (vm_ObjectExists id "" w).2 = false;
}.

Lemma bool_decide_if {A} (P Q : Prop) `{Decision P, Decision Q} (a b : A) :
  (P ↔ Q) → (if bool_decide P then a else b) = (if bool_decide Q then a else b).
Proof. intros E. by rewrite (bool_decide_ext P Q E). Qed.

(** * Attestations *)

(** The pair check accepts exactly two attestations with enclaves,
    measurements and signatures that agree on the time and on the data. *)
Theorem verifyAttestationPair_ok a :
  verifyAttestationPair a = Ok tt ↔
    EnclaveID a.1 ≠ "" ∧ EnclaveID a.2 ≠ "" ∧ Timestamp a.1 = Timestamp a.2 ∧ Data a.1 = Data a.2 ∧
    Measurement a.1 ≠ "" ∧ Measurement a.2 ≠ "" ∧ Signature a.1 ≠ "" ∧ Signature a.2 ≠ "".
Proof.
  assert (∀ s : string, (slen s =? 0) = true ↔ s = "") as Hz.
  { intros [|c s]; [done|]. rewrite Z.eqb_eq. unfold slen. simpl. split; [lia|done]. }
  assert (∀ s t : string, (slen s =? 0) || (slen t =? 0) = false ↔ s ≠ "" ∧ t ≠ "") as Hor.
  { intros s t. rewrite orb_false_iff, <-!not_true_iff_false, !Hz. done. }
  unfold verifyAttestationPair. rewrite !check_ok, !Hor, !negb_false_iff, !bool_decide_eq_true.
  unfold check. specialize (Hor (Signature a.1) (Signature a.2)).
  destruct ((slen (Signature a.1) =? 0) || (slen (Signature a.2) =? 0)) eqn:E; [|naive_solver].
  split; [naive_solver|]. intros (? & ? & ? & ? & ? & ? & H1 & H2). pose proof (proj2 Hor (conj H1 H2)). congruence.
Qed.

Section wire_facts.
Context {P : Type} `{!Packer P, !PackerLaws P}.

(** What an attestation leaves on the wire: the fraction of its second is lost. *)
Lemma Attestation_Marshal_pending t p :
  pending (Attestation_Marshal t p) =
    pending p ++ [FBytes (EnclaveID t); FBytes (Measurement t); FUint64 (u64 (Unix (Timestamp t)));
      FBytes (Data t); FBytes (Signature t); FBytes (RegionProof t)].
Proof.
  unfold Attestation_Marshal.
  rewrite !PackBytes_pending, PackUint64_pending, !PackBytes_pending by apply is_u64_u64. by rewrite <-!(assoc_L (++)).
Qed.

Lemma slen_nonpos s : slen s ≤ 0 → s = "".
Proof using Type. destruct s; [done|]. unfold slen. simpl. lia. Qed.

(** Bytes are read with limit zero: without an error they are empty. *)
Lemma UnpackBytes_zero r p q s :
  UnpackBytes 0 r p = (q, s) → Packer_Err q = None → s = "" ∧ Packer_Err p = None.
Proof.
  intros E He. pose proof (UnpackBytes_limit 0 r p) as H1. pose proof (UnpackBytes_sticky 0 r p) as H2.
  rewrite E in H1, H2. simpl in *. split; [apply slen_nonpos, H1; [lia|done]|auto].
Qed.

(** An attestation read without error has no bytes, and there was no error before. *)
Lemma Attestation_Unmarshal_empty p q t :
  Attestation_Unmarshal p = (q, t) → Packer_Err q = None →
  EnclaveID t = "" ∧ Data t = "" ∧ Packer_Err p = None.
Proof.
  unfold Attestation_Unmarshal.
  destruct (UnpackBytes 0 false p) as [p1 e] eqn:E1. destruct (UnpackBytes 0 false p1) as [p2 m] eqn:E2.
  destruct (UnpackUint64 false p2) as [p3 sec] eqn:E3. destruct (UnpackBytes 0 false p3) as [p4 d] eqn:E4.
  destruct (UnpackBytes 0 false p4) as [p5 s] eqn:E5. destruct (UnpackBytes 0 false p5) as [p6 r] eqn:E6.
  intros [= <- <-] H6. apply (UnpackBytes_zero _ _ _ _ E6) in H6 as [_ H5]. apply (UnpackBytes_zero _ _ _ _ E5) in H5 as [_ H4].
  apply (UnpackBytes_zero _ _ _ _ E4) in H4 as [Hd H3]. pose proof (UnpackUint64_sticky false p2) as H2. rewrite E3 in H2.
  apply H2 in H3. apply (UnpackBytes_zero _ _ _ _ E2) in H3 as [_ H1]. by apply (UnpackBytes_zero _ _ _ _ E1) in H1 as [-> H0].
Qed.

(** What a decoded action cannot have: code, or attested enclaves. *)
Lemma ParseCreateObject_empty p c : ParseCreateObject p = Ok c → CO_Code c = "".
Proof.
  unfold ParseCreateObject, parsed, CreateObject_Unmarshal.
  destruct (UnpackString false p) as [p1 id]. destruct (UnpackBytes 0 false p1) as [p2 code] eqn:E2.
  destruct (UnpackBytes 0 false p2) as [p3 st] eqn:E3. pose proof (UnpackString_sticky false p3) as H4.
  destruct (UnpackString false p3) as [p4 r]. simpl in *. destruct (Packer_Err p4) eqn:He; intros [= <-].
  apply (UnpackBytes_zero _ _ _ _ E3) in H4 as [_ H3]; [|done]. by apply (UnpackBytes_zero _ _ _ _ E2) in H3 as [-> _].
Qed.

Lemma ParseUpdateRegion_empty p u : ParseUpdateRegion p = Ok u → EnclaveID (UR_Attestations u).1 = "".
Proof.
  unfold ParseUpdateRegion, parsed, UpdateRegion_Unmarshal.
  destruct (UnpackString false p) as [p1 id]. destruct (UnpackString false p1) as [p2 sgx].
  destruct (UnpackString false p2) as [p3 sev].
  destruct (Attestation_Unmarshal p3) as [p4 a0] eqn:E4. destruct (Attestation_Unmarshal p4) as [p5 a1] eqn:E5.
  simpl. destruct (Packer_Err p5) eqn:He; intros [= <-].
  apply (Attestation_Unmarshal_empty _ _ _ E5) in He as (_ & _ & H4).
  by apply (Attestation_Unmarshal_empty _ _ _ E4) in H4 as (H0 & _).
Qed.
End wire_facts.

(** * Execution *)

Section execution.
Context {W : Type} `{!VMState W, !VMView W, !VMStateLaws W} `{!Json act_EnclaveInfo, !Json (gomap json)}.
Implicit Types (w : W).

(** What makes a creation valid. *)
Definition create_valid (c : CreateObjectAction) w : bool :=
  negb (slen (CO_ID c) =? 0) && negb (MaxIDLength <? slen (CO_ID c)) &&
  negb (act_MaxCodeSize <? slen (CO_Code c)) && negb (act_MaxStorageSize <? slen (CO_Storage c)) &&
  region_known w (CO_RegionID c) && negb (bool_decide (is_Some (object_at w (CO_RegionID c) (CO_ID c)))) &&
  is_ok (validateCode (CO_Code c)).

Definition created_object (timestamp : Z) (c : CreateObjectAction) : ObjectState :=
  mkObject (CO_Code c) (CO_Storage c) (CO_RegionID c) [] (fromUnix timestamp) "active".

Lemma same_view_objects w w' r id :
  ready r w → same_view w w' → object_at w' r id = object_at w r id.
Proof. intros Hr H. by destruct (H r Hr) as (_ & _ & H' & _). Qed.

Lemma CreateObject_Execute_run ok now timestamp c w :
  CO_RegionID c ≠ "" → ready (CO_RegionID c) w →
  ∃ w' o, CreateObject_Execute ok now timestamp c w = (w', o) ∧ is_ok o = ok && create_valid c w ∧
    (∀ res, o = Ok res → res = mkCreateObjectResult (CO_ID c) (CO_RegionID c)) ∧
    ∀ id, object_at w' (CO_RegionID c) id =
      if ok && create_valid c w && bool_decide (id = CO_ID c)
      then Some (as_read (created_object timestamp c)) else object_at w (CO_RegionID c) id.
Proof.
  intros Hne Hr. unfold CreateObject_Execute, create_valid.
  destruct (GetRegion_law _ _ Hr) as (w1 & g & Hg & Hv1 & Hk).
  destruct (Hv1 _ Hr) as (Hr1 & _).
  destruct (ObjectExists_law _ (CO_ID c) w1 Hr1) as (w2 & He & Hv2). destruct (Hv2 _ Hr1) as (Hr2 & _).
  rewrite (same_view_objects w w1 _ _ Hr Hv1) in He.
  assert (∀ id, object_at w2 (CO_RegionID c) id = object_at w (CO_RegionID c) id) as Hsame.
  { intros id. by rewrite (same_view_objects w1 w2 _ _ Hr1 Hv2), (same_view_objects w w1 _ _ Hr Hv1). }
  unfold assert_manager. go_unfold. rewrite bool_decide_eq_false_2 by done.
  destruct ok; simpl; [|by eexists _, _]. destruct (slen (CO_ID c) =? 0); simpl; [by eexists _, _|].
  destruct (MaxIDLength <? slen (CO_ID c)); simpl; [by eexists _, _|].
  destruct (act_MaxCodeSize <? slen (CO_Code c)); simpl; [by eexists _, _|].
  destruct (act_MaxStorageSize <? slen (CO_Storage c)); simpl; [by eexists _, _|].
  rewrite Hg. destruct g as [g|]; rewrite Hk; simpl;
    [|eexists _, _; split_and!; [done..|]; intros id; by apply same_view_objects].
  rewrite He. case_bool_decide as Hex; simpl; [by eexists _, _|].
  destruct (validateCode (CO_Code c)) as [[]| | |]; simpl; try (by eexists _, _).
  destruct (SetObject_law now (CO_ID c) (created_object timestamp c) w2 Hr2) as (w3 & Hs & H3).
  unfold created_object in Hs at 1. rewrite Hs. eexists _, _. split_and!; [done..|by intros res [= <-]|]. intros id.
  destruct (H3 _ Hr2) as (_ & _ & H3' & _). rewrite H3'. simpl. rewrite Hsame.
  apply bool_decide_if. tauto.
Qed.

(** C6: creating an object succeeds exactly when the state is a state manager, the id,
    code and storage are within bounds, the code is acceptable, the region exists and the object does
    not; it then is the only object that changed, active with the given code and
    storage.  A refused creation changes no object. *)
Theorem CreateObject_Execute_spec ok now timestamp c w :
  CO_RegionID c ≠ "" → ready (CO_RegionID c) w →
  ∃ w' o, CreateObject_Execute ok now timestamp c w = (w', o) ∧ is_ok o = ok && create_valid c w ∧
    ∀ id, object_at w' (CO_RegionID c) id =
      if ok && create_valid c w && bool_decide (id = CO_ID c)
      then Some (as_read (created_object timestamp c)) else object_at w (CO_RegionID c) id.
Proof.
  intros Hne Hr. destruct (CreateObject_Execute_run ok now timestamp c w Hne Hr) as (w' & o & H1 & H2 & _ & H3). eauto.
Qed.

(** What makes an event acceptable: its function and parameters are within bounds, its
    object is in its region, and the two enclaves' attestations are complete and agree. *)
Definition pair_valid (a : TEEAttestation * TEEAttestation) : Prop :=
  EnclaveID a.1 ≠ "" ∧ EnclaveID a.2 ≠ "" ∧ Timestamp a.1 = Timestamp a.2 ∧ Data a.1 = Data a.2 ∧
  Measurement a.1 ≠ "" ∧ Measurement a.2 ≠ "" ∧ Signature a.1 ≠ "" ∧ Signature a.2 ≠ "".
#[export] Instance pair_valid_dec a : Decision (pair_valid a).
Proof. unfold pair_valid. apply _. Defined.

Definition event_valid (s : SendEventAction) w : bool :=
  negb (bool_decide (SEv_RegionID s = "")) && bool_decide (is_Some (object_at w (SEv_RegionID s) (SEv_IDTo s))) &&
  negb ((slen (SEv_FunctionCall s) =? 0) || (MaxIDLength <? slen (SEv_FunctionCall s))) &&
  negb (act_MaxStorageSize <? slen (SEv_Parameters s)) && bool_decide (pair_valid (SEv_Attestations s)).

Lemma pair_check a : is_ok (verifyAttestationPair a) = bool_decide (pair_valid a).
Proof.
  apply eq_bool_prop_intro. rewrite bool_decide_spec, Is_true_true. unfold pair_valid. rewrite <-verifyAttestationPair_ok.
  destruct (verifyAttestationPair a) as [[]| | |]; naive_solver.
Qed.

(** The view of a state in which the event was stored and the object rewritten. *)
Definition event_stored (s : SendEventAction) w w' : Prop :=
  ∀ r, ready r w → ready r w' ∧
    (∀ id, event_at w' r id =
       if bool_decide (r = SEv_RegionID s ∧ id = event_id s) then Some (event_of s) else event_at w r id) ∧
    (∀ id, object_at w' r id =
       if bool_decide (r = SEv_RegionID s ∧ id = SEv_IDTo s) then as_read <$> object_at w r id else object_at w r id).

(** The two writes of an accepted event. *)
Lemma store_event_run now timestamp s o w :
  ready (SEv_RegionID s) w → encodable (event_of s) = true →
  object_at w (SEv_RegionID s) (SEv_IDTo s) = Some o → RegionID o = SEv_RegionID s →
  ∃ w', (vm_SetEvent now (event_id s) (event_of s) (SEv_RegionID s) ;;
         vm_SetObject now (SEv_IDTo s) (mkObject (Code o) (Core.Storage o) (RegionID o) (Events o ++ [event_id s])
           (fromUnix timestamp) (Status o))) w = (w', Ok tt) ∧ event_stored s w w'.
Proof.
  intros Hr He Ho Hreg. destruct (SetEvent_law now (event_id s) (event_of s) (SEv_RegionID s) w Hr He) as (w1 & H1 & K1).
  destruct (K1 _ Hr) as (Hr1 & _).
  set (o' := mkObject (Code o) (Core.Storage o) (RegionID o) (Events o ++ [event_id s]) (fromUnix timestamp) (Status o)).
  destruct (SetObject_law now (SEv_IDTo s) o' w1) as (w2 & H2 & K2); [simpl; by rewrite Hreg|].
  exists w2. split; [by rewrite (bind_ok _ _ _ _ _ H1)|]. intros r Hrr.
  destruct (K1 r Hrr) as (Hr2 & _ & O1 & E1). destruct (K2 r Hr2) as (Hr3 & _ & O2 & E2).
  split; [done|]. split; [intros id; by rewrite E2, E1|]. intros id. rewrite O2. simpl. rewrite Hreg, O1.
  case_bool_decide as Hb; [|done]. destruct Hb as [-> ->]. by rewrite Ho.
Qed.

Ltac refused := eexists _, _; split_and!; [reflexivity|reflexivity|discriminate|assumption].

(** C7: an event is accepted exactly when the state is a state manager, the event's
    region is named, its function and parameters are within bounds, its object is in
    that region, and both attestations name an enclave, a measurement and a signature
    and agree on time and data.  An accepted event is stored as pending under the id of
    its object and second (replacing an event of the same object and second); no other
    event of any usable region changes, and every object reads as before but for the
    event list and update time of the event's own, which are never stored.  A refused
    event changes nothing. *)
Theorem SendEvent_Execute_spec ok now timestamp s w :
  ready (SEv_RegionID s) w → encodable (event_of s) = true →
  ∃ w' o, SendEvent_Execute ok now timestamp s w = (w', o) ∧ is_ok o = ok && event_valid s w ∧
    (∀ res, o = Ok res → SER_EventID res = event_id s ∧ SER_StateHash res = Data (SEv_Attestations s).1) ∧
    if ok && event_valid s w then event_stored s w w' else same_view w w'.
Proof.
  intros Hr He. unfold SendEvent_Execute, event_valid, assert_manager.
  destruct (GetObject_law (SEv_RegionID s) (SEv_IDTo s) w Hr) as (w1 & Hg & Hv).
  assert (same_view w w) as Hrefl by reflexivity. pose proof (pair_check (SEv_Attestations s)) as Hp.
  assert (same_view w w1) as Hv1 by exact Hv.
  go_unfold. destruct (bool_decide (SEv_RegionID s = "")); simpl; [destruct ok; refused|]. destruct ok; simpl; [|refused].
  rewrite Hg. destruct (object_at w (SEv_RegionID s) (SEv_IDTo s)) as [o|] eqn:Eo; simpl; [|refused].
  destruct ((slen (SEv_FunctionCall s) =? 0) || _); simpl; [refused|].
  destruct (act_MaxStorageSize <? slen (SEv_Parameters s)); simpl; [refused|].
  assert (RegionID o = SEv_RegionID s) as Hreg by exact (object_at_region _ _ _ _ Hr Eo).
  rewrite bool_decide_eq_true_2 by done. simpl. rewrite <-Hp.
  destruct (verifyAttestationPair (SEv_Attestations s)) as [[]| | |]; simpl; [|refused..].
  destruct (Hv _ Hr) as (Hr1 & _ & Ho1 & _).
  destruct (store_event_run now timestamp s o w1 Hr1 He) as (w2 & Hrun & Hst); [by rewrite Ho1|done|].
  unfold mbind, go_bind in Hrun. destruct (vm_SetEvent _ _ _ _ w1) as [wa [[]| | |]]; try done. rewrite Hrun.
  eexists w2, _. split_and!; [reflexivity..|by intros res [= <-]|].
  intros r Hrr. destruct (Hv _ Hrr) as (Hr2 & _ & O1 & E1 & _). destruct (Hst r Hr2) as (? & E2 & O2).
  split; [done|]. split; intros id; [by rewrite E2, E1|by rewrite O2, O1].
Qed.

(** Over the program's stores no region can be created by the action: the
    absent configuration is reported with another "not found" than the one
    tested for, and a present one is refused as existing. *)
Theorem CreateRegion_Execute_never_succeeds ok now c w :
  ready (CR_RegionID c) w →
  (∀ v, raw_at w (CR_RegionID c) (act_makeRegionKey "config" (CR_RegionID c) "") = Some v → vm_store_nil v = false) →
  is_ok (CreateRegion_Execute ok now c w).2 = false.
Proof.
  intros Hr Hnil. destruct (CreateRegion_Execute ok now c w) as [w' [res| | |]] eqn:E; try done. exfalso.
  destruct (GetRegionalStore_law _ _ Hr) as (w1 & Hg & Hv1 & Hop). destruct (Hv1 _ Hr) as (Hr1 & _ & _ & _ & Hraw).
  destruct (store_Get_law (CR_RegionID c) (act_makeRegionKey "config" (CR_RegionID c) "") w1 Hr1 Hop) as (w2 & Hget & _).
  rewrite Hraw in Hget.
  assert (as_error ErrStoreAccess (vm_GetRegionalStore (CR_RegionID c)) w = (w1, Ok tt)) as Hst.
  { unfold as_error, try, mbind, go_bind. by rewrite Hg. }
  unfold CreateRegion_Execute, check_manager in E. do 3 (apply bind_ok_inv in E as ([] & wa & [_ ->]%fail_if_ok_inv & E)).
  rewrite (bind_ok _ _ _ _ _ Hst) in E. apply bind_ok_inv in E as (ex & wb & Hex & E).
  unfold existing_region, try in Hex. go_unfold. rewrite Hget in Hex.
  destruct (raw_at w (CR_RegionID c) _) as [v|]; [|simpl in Hex; by simplify_eq].
  rewrite (Hnil v eq_refl) in Hex. by simplify_eq.
Qed.

(** No action can succeed once decoded from a transaction, whatever its bytes: the code of
    an object and the attestations of a region update are read with a limit of zero, and
    the attestations of an event, the region of an input object and the TEEs of a new
    region are not read at all. *)
Theorem decoded_actions_fail {P} `{!Packer P, !PackerLaws P} (p : P) ok now timestamp w :
  (∀ c, ParseCreateObject p = Ok c → is_ok (CreateObject_Execute ok now timestamp c w).2 = false) ∧
  (∀ u, ParseUpdateRegion p = Ok u → is_ok (UpdateRegion_Execute ok now u w).2 = false) ∧
  (∀ s, ParseSendEvent p = Ok s → is_ok (SendEvent_Execute ok now timestamp s w).2 = false) ∧
  (∀ s, ParseSetInputObject p = Ok s → is_ok (SetInputObject_Execute ok now timestamp s w).2 = false) ∧
  (∀ c, ParseCreateRegion p = Ok c → is_ok (CreateRegion_Execute ok now c w).2 = false).
Proof.
  split; [|split].
  { intros c Hc%ParseCreateObject_empty. destruct (CreateObject_Execute ok now timestamp c w) as [w' [res| | |]] eqn:E; try done.
    unfold CreateObject_Execute in E. go_inv. unfold lift in *. rewrite Hc in *. done. }
  { intros u Hu%ParseUpdateRegion_empty. destruct (UpdateRegion_Execute ok now u w) as [w' [res| | |]] eqn:E; try done.
    unfold UpdateRegion_Execute in E. do 3 (apply bind_ok_inv in E as ([] & ? & _ & E)).
    apply bind_ok_inv in E as ([] & ? & [_ Hv]%lift_ok_inv & _). apply verifyAttestationPair_ok in Hv. naive_solver. }
  split_and!; intros a Ha; unfold ParseSendEvent, ParseSetInputObject, ParseCreateRegion, parsed in Ha;
    destruct (Packer_Err _); simplify_eq.
  - assert (SEv_Attestations (SendEvent_Unmarshal p).2 = (zeroAttestation, zeroAttestation)) as Hz.
    { unfold SendEvent_Unmarshal. by repeat destruct (UnpackString _ _); repeat destruct (UnpackBytes _ _ _);
        repeat destruct (UnpackString _ _). }
    destruct (SendEvent_Execute ok now timestamp _ w) as [w' [res| | |]] eqn:E; try done. exfalso.
    unfold SendEvent_Execute in E. go_inv.
    match goal with H : match ?o with _ => _ end _ = _ |- _ => destruct o; go_inv end.
    unfold lift in *. rewrite Hz in *. done.
  - assert (SI_RegionID (SetInputObject_Unmarshal p).2 = "") as Hz.
    { unfold SetInputObject_Unmarshal. by destruct (UnpackString _ _). }
    destruct (SetInputObject_Execute ok now timestamp _ w) as [w' [res| | |]] eqn:E; try done. exfalso.
    unfold SetInputObject_Execute in E. go_inv. rewrite Hz in *.
    match goal with H : vm_ObjectExists ?id "" ?w1 = _ |- _ => pose proof (no_region_refused id w1) as Hn; by rewrite H in Hn end.
  - assert (CR_TEEs (CreateRegion_Unmarshal p).2 = []) as Hz.
    { unfold CreateRegion_Unmarshal. by destruct (UnpackString _ _), (UnpackInt _ _), (unpack_tees _ _),
        (Attestation_Unmarshal _), (Attestation_Unmarshal _). }
    unfold CreateRegion_Execute, check_manager. rewrite Hz. destruct ok; [|done]. go_unfold. by destruct (_ || _).
Qed.
End execution.
