(* ===== verification/StateManagerVM.v ===== *)
(** The methods of the state manager of package [storage] that the actions call: they
    are an instance of [VMState] and satisfy its contract [VMStateLaws].  (The Go type
    misses three methods of the interface with the types it has there, so the actions'
    type assertion fails on it: [Assertions.v].) *)

From S2P Require Import Prelude GoTime KV Core Channel Worker Coordinator CoordinatorFacts.
From S2P Require Import Storage Transfer StateManager StateManagerFacts Actions ActionsFacts.
From Stdlib Require Import ZArith Lia Ascii String.
From stdpp Require Import base tactics option list strings pretty gmap.

Local Open Scope Z_scope.

Section implementation.
Context {S D M : Type} `{!Mutable S, !Mutable M, !MerkleDB M, !BaseStore D}.
Context `{!Json channel_alias, !Json worker_alias, !Json Coordinator.Region, !Json Message}.
Context `{!Json (gomap string), !Json (gomap json), !Json Event}.
Implicit Types (s : StateManager S D M) (r : string).

#[export] Instance sm_VMState : VMState (StateManager S D M) := {
  vm_GetRegion := SM_GetRegion;
  vm_RegionExists := RegionExists;
  vm_ObjectExists := ObjectExists;
  vm_GetObject := SM_GetObject;
  vm_SetObject := SM_SetObject;
  vm_SetEvent := SetEvent;
  vm_GetRegionalStore r := GetRegionalStore r ;; mret tt;
  vm_store_Get r key := store_GetValue (MutableWrapper r) key;
  vm_store_Insert now r key value := store_Insert now (MutableWrapper r) key value;
  vm_store_GetProof r key := on_region_store r (MerkleStore_GetProof key);
  vm_store_nil v := negb (not_nil M v);
}.

Context (nf : goerr) `{!BaseStoreLaws D nf, !KVLaws M}.
Context `{!JsonLaws channel_alias, !JsonLaws (gomap string), !JsonLaws (gomap json), !JsonLaws Event}.
Context (mdb_root_ok : ∀ m : M, is_ok (mdb_GetMerkleRoot m) = true).

(** * The view of a state *)

Definition objKey r (id : string) : string := makeRegionalKey r (makeRegionKey r "object" id).
Definition evtKey r (id : string) : string := makeRegionalKey r (makeRegionKey r "event" id).
Definition regKey r : string := makeRegionalKey r (RegionKey r).

Definition decode_object r (v : string) : option ObjectState :=
  match Unmarshal (A := gomap string) v with Ok m => Some (object_of r m) | _ => None end.
Definition decode_event (v : string) : option Event :=
  match Unmarshal (A := Event) v with Ok e => Some e | _ => None end.
Definition decode_region (v : string) : bool :=
  match Unmarshal (A := gomap json) v with Ok (Some _) => true | _ => false end.

(** The region's store can be had and its pair's channel is stored, between workers
    named in UTF-8. *)
Definition usable r s : Prop :=
  ∃ w ch, region_ready r w s ∧ stored_channel nf (sm_coord s) w.1 w.2 = Some (Channel_MarshalJSON ch) ∧
    ends_utf8 ch = true.

Definition records_decode r s : Prop :=
  (∀ id v, contents (sm_merkle s) !! objKey r id = Some v → ∃ m : gomap string, Unmarshal v = Ok m) ∧
  (∀ v, contents (sm_merkle s) !! regKey r = Some v → ∃ m : gomap json, Unmarshal v = Ok m).

#[local] Instance sm_VMView : VMView (StateManager S D M) := {
  ready r s := contains slash r = false ∧ usable r s ∧ records_decode r s;
  store_open r s := is_Some (sm_regionStores s !! r);
  region_known s r := match contents (sm_merkle s) !! regKey r with Some v => decode_region v | None => false end;
  object_at s r id := contents (sm_merkle s) !! objKey r id ≫= decode_object r;
  event_at s r id := contents (sm_merkle s) !! evtKey r id ≫= decode_event;
  raw_at s r k := contents (sm_merkle s) !! makeRegionalKey r k;
}.

(** * Keys of different records are different *)

Lemma recKey_ne r r' p p' id id' :
  contains slash r = false → contains slash r' = false → p ≠ p' → contains slash p = false → contains slash p' = false →
  makeRegionalKey r (makeRegionKey r p id) ≠ makeRegionalKey r' (makeRegionKey r' p' id').
Proof.
  intros Hr Hr' Hp Hs Hs' [-> H]%makeRegionalKey_inj; [|done..]. unfold makeRegionKey in H.
  apply app_inj_l_str in H. apply (app_inj_l_str "/") in H. by apply (sep_inj slash) in H as [-> _].
Qed.

Lemma recKey_inj r r' p id id' :
  contains slash r = false → contains slash r' = false →
  makeRegionalKey r (makeRegionKey r p id) = makeRegionalKey r' (makeRegionKey r' p id') → r = r' ∧ id = id'.
Proof.
  intros Hr Hr' [-> H]%makeRegionalKey_inj; [|done..]. split; [done|]. unfold makeRegionKey in H.
  apply app_inj_l_str in H. apply (app_inj_l_str "/") in H. apply app_inj_l_str in H.
  by apply (app_inj_l_str "/") in H.
Qed.

Lemma recKey_ne_region r r' p id :
  contains slash r = false → contains slash r' = false →
  makeRegionalKey r (makeRegionKey r p id) ≠ regKey r'.
Proof.
  intros Hr Hr' [-> H]%makeRegionalKey_inj; [|done..].
  apply (f_equal (contains slash)) in H. unfold makeRegionKey, RegionKey in H.
  rewrite contains_app in H. simpl in H. rewrite Hr', orb_true_r in H. done.
Qed.

(** * States that differ only in caches *)

Definition cache_step s s' : Prop :=
  sm_merkle s' = sm_merkle s ∧ (∃ h, sm_coord s' = set_heap h (sm_coord s)) ∧
  ∀ r w, region_ready r w s → region_ready r w s'.

Lemma usable_cache r s s' :
  (∃ h, sm_coord s' = set_heap h (sm_coord s)) → (∀ w, region_ready r w s → region_ready r w s') →
  usable r s → usable r s'.
Proof.
  intros [h Hc] Hw (w & ch & H1 & H2 & H3). exists w, ch. split; [by apply Hw|].
  unfold stored_channel in *. by rewrite Hc.
Qed.

Lemma cache_step_view s s' : cache_step s s' → same_view s s'.
Proof.
  intros (Hm & Hc & Hw) r (Hs & Hu & Hd). simpl. unfold records_decode in *. rewrite Hm.
  split_and!; try done; try apply Hd. apply (usable_cache r s s'); [done|apply Hw|done].
Qed.

Lemma region_store_cache r w s :
  region_ready r w s →
  ∃ s' ms, region_store r s = (s', Ok (MutableWrapper r)) ∧ cache_step s s' ∧
    sm_regionStores s' !! r = Some ms ∧ ms_regionID ms = r ∧ ms_coordinator ms = true ∧ ms_workers ms = w ∧
    sm_coord s' = sm_coord s.
Proof.
  intros Hready. destruct (region_store_run r w s Hready) as
    (s' & ms & H & Hms & Hid & Hco & Hw & Hb & Hc & Hm & Hreg).
  exists s', ms. split; [done|]. split; [|done]. split; [done|]. split; [rewrite Hc; exists (heap (sm_coord s)); by destruct (sm_coord s)|].
  intros r' w' [Hne Hr']. split; [done|].
  destruct (decide (r' = r)) as [->|Hrr].
  - rewrite Hms. destruct Hready as [_ Hr]. destruct (sm_regionStores s !! r) as [ms0|]; [|naive_solver].
    destruct Hr as (? & ? & <-), Hr' as (? & ? & <-). done.
  - assert (sm_regionStores s' !! r' = sm_regionStores s !! r') as ->.
    { unfold region_store, getRegionalStoreInternal in H. go_unfold.
      destruct (bool_decide (r = "")); [done|]. case_bool_decide; simpl in H; [by simplify_eq|].
      unfold on_sm_coord, zoom in H. destruct (GetTEEPair r (sm_coord s)) as [c [p| | |]]; simplify_eq/=.
      by rewrite lookup_insert_ne. }
    destruct (sm_regionStores s !! r'); [done|]. by rewrite Hc.
Qed.

(** A read of a cached store. *)
Lemma store_GetValue_run r k s ms :
  sm_regionStores s !! r = Some ms → ms_regionID ms = r →
  store_GetValue (MutableWrapper r) k s =
    (s, match contents (sm_merkle s) !! makeRegionalKey r k with Some v => Ok v | None => Err ErrNotFound end).
Proof.
  intros Hms Hid. unfold store_GetValue, on_region_store, MerkleStore_Get, on_mdb, getValue. simpl.
  rewrite Hms. go_unfold. simpl. rewrite Hid, mu_GetValue_contents, insert_id by done. by destruct s.
Qed.

(** A write of a cached store: one key changes and every usable region stays so. *)
Lemma region_write now r k v s :
  usable r s → r ≠ "" →
  ∃ s', (store ← region_store r; store_Insert now store k v) s = (s', Ok tt) ∧
    contents (sm_merkle s') = <[makeRegionalKey r k := v]> (contents (sm_merkle s)) ∧
    ∀ r', usable r' s → usable r' s'.
Proof.
  intros (w & ch & Hready & Hch & Hends) Hne.
  destruct (region_store_cache r w s Hready) as (s1 & ms & H1 & (Hm1 & Hc1 & Hw1) & Hms & Hid & Hco & Hw & Hcc).
  assert (stored_channel nf (sm_coord s1) (ms_workers ms).1 (ms_workers ms).2 = Some (Channel_MarshalJSON ch))
    as Hch1 by (by rewrite Hw, Hcc).
  destruct (store_Insert_run nf mdb_root_ok now r k v s1 ms ch Hms Hid Hco Hends Hch1) as
    (s2 & ms2 & H2 & Hcont & _ & _ & Hh & Hst & Hid2 & Hco2 & Hw2 & _).
  exists s2. split; [by rewrite (bind_ok _ _ _ _ _ H1), <-H2|]. split; [by rewrite Hcont, Hm1|].
  intros r' Hu. apply (usable_cache r' s1 s2); [done| |by apply (usable_cache r' s s1); [|apply Hw1|]].
  intros w' [Hne' Hr']. split; [done|]. rewrite Hst. destruct (decide (r' = r)) as [->|Hrr].
  - rewrite lookup_insert_eq. rewrite Hms in Hr'. destruct Hr' as (_ & _ & <-). done.
  - rewrite lookup_insert_ne by done. destruct Hh as [h ->]. done.
Qed.

(** Reads of one record, through [region_store]. *)
Lemma region_read r k s {A} (f : string + goerr → go (StateManager S D M) A) :
  usable r s →
  ∃ s1, cache_step s s1 ∧
    (store ← region_store r; x ← try (store_GetValue store k); f x) s =
    f (match contents (sm_merkle s) !! makeRegionalKey r k with Some v => inl v | None => inr ErrNotFound end) s1.
Proof.
  intros (w & ch & Hready & _).
  destruct (region_store_cache r w s Hready) as (s1 & ms & H1 & Hstep & Hms & Hid & _).
  exists s1. split; [done|]. rewrite (bind_ok _ _ _ _ _ H1). unfold try, mbind, go_bind.
  rewrite (store_GetValue_run r k s1 ms Hms Hid). destruct Hstep as [-> _].
  by destruct (contents (sm_merkle s) !! makeRegionalKey r k).
Qed.

Lemma SM_GetRegion_run r s :
  ready r s → ∃ s1 g, SM_GetRegion r s = (s1, Ok g) ∧ cache_step s s1 ∧
    match g with Some _ => region_known s r = true | None => region_known s r = false end.
Proof.
  intros (Hs & Hu & Hd). unfold SM_GetRegion.
  destruct (region_read r (RegionKey r) s (λ x, match x with
    | inr e => if errors_Is e ErrNotFound then mret None else fail e
    | inl v => lift (Unmarshal v) end) Hu) as (s1 & Hstep & H).
  rewrite H. simpl. fold (regKey r). destruct (contents (sm_merkle s) !! regKey r) as [v|] eqn:Ev.
  - destruct (proj2 Hd v Ev) as [m Hm]. unfold decode_region. rewrite Hm.
    exists s1, m. split; [done|]. split; [done|]. by destruct m.
  - exists s1, None. by split_and!.
Qed.

Lemma object_text_nonnil (v : string) (m : gomap string) : Unmarshal v = Ok m → not_nil M v = true.
Proof.
  intros H. unfold not_nil. case_bool_decide as E; [|by rewrite andb_false_r].
  subst v. by apply Unmarshal_empty in H.
Qed.

Lemma SM_SetObject_run now id o s :
  ready (RegionID o) s → ∃ s', SM_SetObject now id o s = (s', Ok tt) ∧
    contents (sm_merkle s') = <[objKey (RegionID o) id := Marshal (Some (object_map o))]> (contents (sm_merkle s)) ∧
    ∀ r, usable r s → usable r s'.
Proof.
  intros (Hs & Hu & _). apply (region_write now (RegionID o)); [done|]. by destruct Hu as (w & ch & [Hne _] & _).
Qed.

Lemma decode_stored_object o : decode_object (RegionID o) (Marshal (Some (object_map o))) = Some (as_read o).
Proof. unfold decode_object. rewrite Unmarshal_Marshal by apply object_map_encodable. done. Qed.

Lemma sm_ObjectExists_law :
  ∀ r id (s : StateManager S D M), ready r s →
  ∃ s', vm_ObjectExists id r s = (s', Ok (bool_decide (is_Some (object_at s r id)))) ∧ same_view s s'.
Proof.
  intros r id s (Hs & Hu & Hd). simpl. unfold ObjectExists.
  destruct (region_read r (makeRegionKey r "object" id) s (λ x, match x with
    | inr e => if errors_Is e ErrNotFound then mret false else fail e
    | inl v => mret (not_nil M v) end) Hu) as (s1 & Hstep & H).
  exists s1. split; [|by apply cache_step_view]. rewrite H. fold (objKey r id).
  destruct (contents (sm_merkle s) !! objKey r id) as [v|] eqn:Ev; [|done]. simpl.
  destruct (proj1 Hd id v Ev) as [m Hm]. unfold decode_object. rewrite Hm, bool_decide_eq_true_2 by eauto.
  by rewrite (object_text_nonnil v m Hm).
Qed.

Lemma sm_GetObject_law :
  ∀ r id (s : StateManager S D M), ready r s →
  ∃ s', vm_GetObject id r s = (s', Ok (object_at s r id)) ∧ same_view s s'.
Proof.
  intros r id s (Hs & Hu & Hd). simpl. unfold SM_GetObject.
  destruct (region_read r (makeRegionKey r "object" id) s (λ x, match x with
    | inr e => if errors_Is e ErrNotFound then mret None else fail e
    | inl v => obj ← lift (Unmarshal v); mret (Some (object_of r obj)) end) Hu) as (s1 & Hstep & H).
  exists s1. split; [|by apply cache_step_view]. rewrite H. fold (objKey r id).
  destruct (contents (sm_merkle s) !! objKey r id) as [v|] eqn:Ev; [|done]. simpl.
  destruct (proj1 Hd id v Ev) as [m Hm]. unfold decode_object, lift, mbind, go_bind. by rewrite Hm.
Qed.

Lemma sm_SetObject_law :
  ∀ now id o (s : StateManager S D M), ready (RegionID o) s →
  ∃ s', vm_SetObject now id o s = (s', Ok tt) ∧
    ∀ r, ready r s → ready r s' ∧ region_known s' r = region_known s r ∧
      (∀ id', object_at s' r id' =
                if bool_decide (r = RegionID o ∧ id' = id) then Some (as_read o) else object_at s r id') ∧
      (∀ id', event_at s' r id' = event_at s r id').
Proof.
  intros now id o s Hr. destruct (SM_SetObject_run now id o s Hr) as (s' & H & Hc & Hu').
  destruct Hr as (Hs & _ & _). exists s'. split; [done|]. intros r (Hsr & Hur & Hd).
  simpl. unfold records_decode. rewrite Hc.
  rewrite (lookup_insert_ne _ _ (regKey r)) by (by apply recKey_ne_region).
  split; [split; [done|]; split; [by apply Hu'|]; split; [|apply Hd]|split; [done|split]].
  - intros id' v. rewrite lookup_insert_Some. intros [[_ <-]|[_ Hv]]; [|by eapply Hd].
    rewrite Unmarshal_Marshal by apply object_map_encodable. eauto.
  - intros id'. case_bool_decide as E.
    + destruct E as [-> ->]. rewrite lookup_insert_eq. simpl. apply decode_stored_object.
    + rewrite lookup_insert_ne; [done|]. intros [<- <-]%recKey_inj; [|done..]. by apply E.
  - intros id'. rewrite lookup_insert_ne; [done|]. by apply recKey_ne.
Qed.

Lemma sm_SetEvent_law :
  ∀ now id e r0 (s : StateManager S D M), ready r0 s → encodable e = true →
  ∃ s', vm_SetEvent now id e r0 s = (s', Ok tt) ∧
    ∀ r, ready r s → ready r s' ∧ region_known s' r = region_known s r ∧
      (∀ id', object_at s' r id' = object_at s r id') ∧
      (∀ id', event_at s' r id' = if bool_decide (r = r0 ∧ id' = id) then Some e else event_at s r id').
Proof.
  intros now id e r0 s (Hs0 & Hu0 & _) He. assert (r0 ≠ "") as Hne by (by destruct Hu0 as (w & ch & [Hne _] & _)).
  destruct (region_write now r0 (makeRegionKey r0 "event" id) (Marshal e) s Hu0 Hne) as (s' & H & Hc & Hu').
  exists s'. split; [exact H|]. intros r (Hsr & Hur & Hd). fold (evtKey r0 id) in Hc.
  simpl. unfold records_decode. rewrite Hc.
  rewrite (lookup_insert_ne _ _ (regKey r)) by (by apply recKey_ne_region).
  assert (∀ id', evtKey r0 id ≠ objKey r id') as Hoe by (intros id'; by apply recKey_ne).
  split; [split; [done|]; split; [by apply Hu'|]; split; [|apply Hd]|split; [done|split]].
  - intros id' v. rewrite lookup_insert_ne by done. apply Hd.
  - intros id'. by rewrite lookup_insert_ne.
  - intros id'. case_bool_decide as E.
    + destruct E as [-> ->]. rewrite lookup_insert_eq. simpl. unfold decode_event. by rewrite Unmarshal_Marshal.
    + rewrite lookup_insert_ne; [done|]. intros [<- <-]%recKey_inj; [|done..]. by apply E.
Qed.

Lemma sm_GetRegionalStore_law :
  ∀ r (s : StateManager S D M), ready r s →
  ∃ s', vm_GetRegionalStore r s = (s', Ok tt) ∧ same_view s s' ∧ store_open r s'.
Proof.
  intros r s (Hs & (w & ch & Hready & _) & Hd).
  destruct (region_store_cache r w s Hready) as (s1 & ms & H1 & Hstep & Hms & _).
  assert (getRegionalStoreInternal r true s = (s1, Ok (MutableWrapper r))) as H2.
  { unfold region_store in H1. destruct Hready as [Hne _]. apply bind_ok_inv in H1 as ([] & s0 & [_ ->]%fail_if_ok_inv & H1).
    by apply wrap_ok_inv in H1. }
  exists s1. simpl. unfold GetRegionalStore. rewrite (bind_ok _ _ _ _ _ H2).
  split; [done|]. split; [by apply cache_step_view|]. eauto.
Qed.

#[export] Instance sm_VMStateLaws : VMStateLaws (StateManager S D M).
Proof.
  split.
  - intros r s Hr. destruct (SM_GetRegion_run r s Hr) as (s1 & g & H & Hstep & Hg).
    exists s1, g. split; [done|]. split; [by apply cache_step_view|done].
  - intros r s Hr. destruct (SM_GetRegion_run r s Hr) as (s1 & g & H & Hstep & Hg).
    exists s1. unfold vm_RegionExists, sm_VMState, RegionExists. rewrite (bind_ok _ _ _ _ _ H).
    split; [|by apply cache_step_view]. destruct g; by rewrite Hg.
  - apply sm_ObjectExists_law.
  - apply sm_GetObject_law.
  - intros r id s o _. simpl. destruct (_ !! _) as [v|]; [|done]. simpl. unfold decode_object.
    destruct (Unmarshal v); [|done..]. by intros [= <-].
  - apply sm_SetObject_law.
  - apply sm_SetEvent_law.
  - apply sm_GetRegionalStore_law.
  - intros r k s (Hs & (w & ch & [_ Hready] & _) & Hd) [ms Hms]. exists s. simpl. rewrite Hms in Hready.
    rewrite (store_GetValue_run r k s ms Hms) by apply Hready. split; [done|reflexivity].
  - intros id s. done.
Qed.

End implementation.

(** * Witnesses *)

#[local] Existing Instances channel_Json channel_JsonLaws worker_Json region_Json map_PrefixIter.
#[local] Existing Instances obj_Json obj_JsonLaws json_Json json_JsonLaws message_Json map_MerkleDB.
#[local] Instance evt_Json : Json Event := countable_Json Event.
#[local] Instance evt_JsonLaws : JsonLaws Event := countable_JsonLaws Event.
#[local] Instance enclave_Json : Json act_EnclaveInfo := {
  Marshal e := AE_Measurement e; Unmarshal _ := Err (Errorf "unused") }.

Lemma map_root_ok (m : gmap string string) : is_ok (mdb_GetMerkleRoot m) = true.
Proof. done. Qed.

#[local] Instance map_VMView : VMView mapSM := sm_VMView ErrNotFound.
#[local] Instance map_VMStateLaws : VMStateLaws mapSM := sm_VMStateLaws ErrNotFound map_root_ok.


(** A state with one region, its pair's channel stored. *)
Definition sample_vm : mapSM :=
  mkSM ∅ (sm_coord (with_region channel_db)) {[ regKey "us-east" := Marshal (Some ∅ : gomap json) ]} ∅ ∅.

Lemma sample_vm_ready : ready "us-east" sample_vm.
Proof.
  split; [done|]. split.
  - exists ("w1", "w2"), pair_channel. split; [|split; vm_compute; reflexivity].
    split; [done|]. split; [done|]. eexists _, _. split; reflexivity.
  - unfold records_decode. change (contents (sm_merkle sample_vm)) with
      ({[ regKey "us-east" := Marshal (Some ∅ : gomap json) ]} : gmap string string). split.
    + intros id v. rewrite lookup_singleton_Some. intros [H _]. symmetry in H.
      by apply recKey_ne_region in H.
    + intros v. rewrite lookup_singleton_Some. intros [_ <-]. exists (Some ∅). by apply Unmarshal_Marshal.
Qed.

Definition sample_create : CreateObjectAction := mkCreateObject "obj" "code" "data" "us-east".

Lemma CreateObject_Execute_spec_witness :
  ∃ w' o, CreateObject_Execute true sample_now 10 sample_create sample_vm = (w', o) ∧ is_ok o = true ∧
    object_at w' "us-east" "obj" = Some (mkObject "code" "data" "us-east" [] zeroTime "active").
Proof.
  destruct (CreateObject_Execute_spec true sample_now 10 sample_create sample_vm) as (w' & o & H & Hok & Hobj);
    [done|apply sample_vm_ready|].
  assert (create_valid sample_create sample_vm = true) as Hv by (vm_compute; reflexivity).
  exists w', o. split; [exact H|]. split; [by rewrite Hok|].
  specialize (Hobj "obj"). rewrite Hv in Hobj. exact Hobj.
Defined.

(** The state after the creation, and an event for the object. *)
Definition created_vm : mapSM := (CreateObject_Execute true sample_now 10 sample_create sample_vm).1.
Definition sample_event : SendEventAction :=
  mkSendEvent "obj" "f" "p" (att_of "w1", att_of "w2") "us-east".
Definition sent : mapSM * outcome SendEventResult := SendEvent_Execute true sample_now 11 sample_event created_vm.

Lemma created_vm_ready : ready "us-east" created_vm.
Proof.
  unfold created_vm. split; [done|].
  assert (contents (sm_merkle created_vm) =
    <[objKey "us-east" "obj" := Marshal (Some (object_map (created_object 10 sample_create)))]>
      (contents (sm_merkle sample_vm))) as Hc by (vm_compute; reflexivity).
  unfold created_vm in Hc. split.
  - exists ("w1", "w2"), pair_channel. split; [|split; vm_compute; reflexivity].
    assert (sm_regionStores created_vm !! "us-east" = Some (mkMS "us-east" "root" 1 true ("w1", "w2"))) as Hst
      by (vm_compute; reflexivity).
    split; [done|]. unfold created_vm in Hst. rewrite Hst. split; [reflexivity|split; reflexivity].
  - split.
    + intros id v. rewrite Hc, lookup_insert_Some. intros [[_ <-]|[_ H]]; [rewrite Unmarshal_Marshal by apply object_map_encodable; eauto|].
      by apply (proj1 (proj2 (proj2 sample_vm_ready)) id).
    + intros v. rewrite Hc, lookup_insert_ne by (by apply recKey_ne_region).
      apply (proj2 (proj2 (proj2 sample_vm_ready))).
Qed.

Lemma SendEvent_Execute_spec_witness :
  is_ok sent.2 = true ∧ event_at sent.1 "us-east" (event_id sample_event) = Some (event_of sample_event).
Proof.
  destruct (SendEvent_Execute_spec true sample_now 11 sample_event created_vm created_vm_ready)
    as (w' & o & Hrun & Hok & _ & Hst); [vm_compute; reflexivity|].
  assert (event_valid sample_event created_vm = true) as Hv by (vm_compute; reflexivity). rewrite Hv in Hok, Hst.
  unfold sent. rewrite Hrun. split; [exact Hok|].
  destruct (Hst "us-east" created_vm_ready) as (_ & He & _). etransitivity; [apply (He (event_id sample_event))|].
  rewrite bool_decide_eq_true_2; [reflexivity|split; reflexivity].
Defined.

Definition sample_region_action : CreateRegionAction :=
  mkCreateRegion "us-east" ["tee"] (att_of "w1", att_of "w2").

Lemma CreateRegion_Execute_never_succeeds_witness :
  is_ok (CreateRegion_Execute true sample_now sample_region_action sample_vm).2 = false.
Proof.
  apply (CreateRegion_Execute_never_succeeds true sample_now sample_region_action sample_vm).
  - apply sample_vm_ready.
  - intros v Hv. assert (Some v = None) as E by (rewrite <-Hv; vm_compute; reflexivity). discriminate E.
Defined.

(** A packer over a list of fields and its first error, for evaluation. *)
Definition over_limit (n : Z) (s : string) : bool := (0 <=? n) && (n <? slen s).
Definition pop_field {A} (zero : A) (read : field → option A) (p : list field * option goerr) : (list field * option goerr) * A :=
  match p with
  | (f :: l, None) => match read f with Some x => ((l, None), x) | None => ((l, Some (Errorf "limit")), zero) end
  | ([], None) => (([], Some (Errorf "insufficient length")), zero)
  | (l, Some e) => ((l, Some e), zero)
  end.
#[local] Instance list_Packer : Packer (list field * option goerr) := {
  UnpackString _ := pop_field "" (λ f, match f with FBytes s => Some s | _ => None end);
  UnpackBytes n _ := pop_field "" (λ f, match f with FBytes s => if over_limit n s then None else Some s | _ => None end);
  UnpackInt _ := pop_field 0 (λ f, match f with FUint64 x => Some x | _ => None end);
  UnpackUint64 _ := pop_field 0 (λ f, match f with FUint64 x => Some x | _ => None end);
  PackBytes s p := (p.1 ++ [FBytes s], p.2);
  PackUint64 x p := (p.1 ++ [FUint64 x], p.2);
  Packer_Err p := p.2;
}.

Lemma pop_field_sticky {A} zero (read : field → option A) p : (pop_field zero read p).1.2 = None → p.2 = None.
Proof. destruct p as [[|f l] [e|]]; simpl; try done. Qed.

#[local] Instance list_PackerLaws : PackerLaws (list field * option goerr).
Proof.
  refine {| pending p := p.1 |}; try done; [|intros n r p|intros r p|intros r p]; try apply pop_field_sticky.
  intros n r [[|[s|x] l] [e|]] Hn; simpl; try (intros; unfold slen; simpl; lia); try done.
  unfold over_limit. rewrite (proj2 (Z.leb_le 0 n) Hn). simpl. destruct (Z.ltb_spec n (slen s)); [done|]. by intros _.
Defined.

Lemma decoded_actions_fail_witness :
  is_ok (SendEvent_Execute true sample_now 11
    (mkSendEvent "obj" "f" "" (zeroAttestation, zeroAttestation) "us-east") created_vm).2 = false.
Proof.
  apply (proj1 (proj2 (proj2 (decoded_actions_fail ([FBytes "obj"; FBytes "f"; FBytes ""; FBytes "us-east"], None)
    true sample_now 11 created_vm)))). reflexivity.
Defined.
