(* ===== verification/Assertions.v ===== *)
(** The type assertion [mu.(vm.StateManager)] at the head of the actions, decided from
    the method sets the source declares: the interface of [interfaces.go] and the methods
    of the state manager of [storage/state_manager.go].  In Go a type has an interface's
    method only if it has one of that name with identical types, and a type of another
    package is another type, even with the same fields or methods. *)

From S2P Require Import Prelude GoTime KV Core Channel Worker Coordinator Storage StateManager Actions StateManagerVM.
From Stdlib Require Import ZArith Ascii String.
From stdpp Require Import base tactics option list strings gmap fin_maps fin_map_dom.

(** * Method sets *)

(** The types of the parameters and of the results. *)
Definition signature : Type := list string * list string.
Definition method_set : Type := gmap string signature.


(** The interface [StateManager] of package [vm], without the methods of the
    [chain.StateManager] it embeds. *)
Definition StateManager_interface : method_set := list_to_map [
  ("GetObject", (["context.Context"; "state.Mutable"; "string"; "string"], ["*core.ObjectState"; "error"]));
  ("SetObject", (["context.Context"; "state.Mutable"; "string"; "*core.ObjectState"], ["error"]));
  ("ObjectExists", (["context.Context"; "state.Mutable"; "string"; "string"], ["bool"; "error"]));
  ("SetEvent", (["context.Context"; "state.Mutable"; "string"; "*core.Event"; "string"], ["error"]));
  ("GetRegion", (["context.Context"; "state.Mutable"; "string"], ["map[string]interface{}"; "error"]));
  ("SetRegion", (["context.Context"; "state.Mutable"; "string"; "map[string]interface{}"], ["error"]));
  ("RegionExists", (["context.Context"; "state.Mutable"; "string"], ["bool"; "error"]));
  ("SaveRegion", (["context.Context"; "*vm.Region"], ["error"]));
  ("LoadRegion", (["context.Context"; "string"], ["*vm.Region"; "error"]));
  ("DeleteRegion", (["context.Context"; "string"], ["error"]));
  ("SetInputObject", (["context.Context"; "state.Mutable"; "string"], ["error"]));
  ("GetCoordinator", ([], ["*coordination.Coordinator"]));
  ("GetKeysByPrefix", (["context.Context"; "[]byte"], ["[][]byte"; "error"]));
  ("Iterator", (["context.Context"; "[]byte"], ["vm.Iterator"]));
  ("GetRegionalStore", (["string"], ["core.RegionalStore"; "error"]));
  ("IsRegionalKey", (["[]byte"], ["bool"; "string"]))
]%string.

(** The exported methods of [*storage.StateManager]. *)
Definition StateManager_methods : method_set := list_to_map [
  ("GetValidEnclave", (["context.Context"; "state.Mutable"; "[]byte"], ["*storage.EnclaveInfo"; "error"]));
  ("SetValidEnclave", (["context.Context"; "state.Mutable"; "[]byte"; "*storage.EnclaveInfo"], ["error"]));
  ("GetRegionMeasurement", (["context.Context"; "state.Mutable"; "string"], ["[]byte"; "error"]));
  ("SetRegionMeasurement", (["context.Context"; "state.Mutable"; "string"; "[]byte"], ["error"]));
  ("Iterator", (["context.Context"; "[]byte"], ["interfaces.Iterator"]));
  ("AddBalance", (["context.Context"; "codec.Address"; "state.Mutable"; "uint64"; "bool"], ["error"]));
  ("Deduct", (["context.Context"; "codec.Address"; "state.Mutable"; "uint64"], ["error"]));
  ("CanDeduct", (["context.Context"; "codec.Address"; "state.Immutable"; "uint64"], ["error"]));
  ("SponsorStateKeys", (["codec.Address"], ["state.Keys"]));
  ("GetObject", (["context.Context"; "state.Mutable"; "string"; "string"], ["*core.ObjectState"; "error"]));
  ("SetObject", (["context.Context"; "state.Mutable"; "string"; "*core.ObjectState"], ["error"]));
  ("ObjectExists", (["context.Context"; "state.Mutable"; "string"; "string"], ["bool"; "error"]));
  ("SetEvent", (["context.Context"; "state.Mutable"; "string"; "*core.Event"; "string"], ["error"]));
  ("GetRegion", (["context.Context"; "state.Mutable"; "string"], ["map[string]interface{}"; "error"]));
  ("SetRegion", (["context.Context"; "state.Mutable"; "string"; "map[string]interface{}"], ["error"]));
  ("LoadRegion", (["context.Context"; "string"], ["*interfaces.Region"; "error"]));
  ("SaveRegion", (["context.Context"; "*interfaces.Region"], ["error"]));
  ("RegionExists", (["context.Context"; "state.Mutable"; "string"], ["bool"; "error"]));
  ("SetInputObject", (["context.Context"; "state.Mutable"; "string"], ["error"]));
  ("HeightKey", ([], ["[]byte"])); ("TimestampKey", ([], ["[]byte"])); ("FeeKey", ([], ["[]byte"]));
  ("GetValue", (["context.Context"; "[]byte"], ["[]byte"; "error"]));
  ("Insert", (["context.Context"; "[]byte"; "[]byte"], ["error"]));
  ("Remove", (["context.Context"; "[]byte"], ["error"]));
  ("GetRegionalStore", (["string"], ["core.RegionalStore"; "error"]));
  ("GetCoordinator", ([], ["*coordination.Coordinator"]));
  ("Close", ([], ["error"]));
  ("IsRegionalKey", (["[]byte"], ["bool"; "string"]));
  ("DeleteRegion", (["context.Context"; "string"], ["error"]));
  ("GetKeysByPrefix", (["context.Context"; "[]byte"], ["[][]byte"; "error"]));
  ("GetRegionalStoreWithMutable", (["string"; "state.Mutable"], ["*storage.MerkleStore"; "error"]));
  ("GetBaseStorage", ([], ["coordination.BaseStorage"]))
]%string.

(** The methods of the interface the state manager lacks. *)
Definition missing_methods (type iface : method_set) : gset string :=
  dom (filter (λ ns : string * signature, type !! ns.1 ≠ Some ns.2) iface).

(** It has every method by name; three have types of package [interfaces] where the
    interface has those of package [vm]. *)
Lemma StateManager_missing :
  missing_methods StateManager_methods StateManager_interface = {["SaveRegion"; "LoadRegion"; "Iterator"]}.
Proof. apply (bool_decide_eq_true _). vm_compute. reflexivity. Qed.


(** * The actions on that state manager *)

Section actions.
Context {S D M : Type} `{!Mutable S, !Mutable M, !MerkleDB M, !BaseStore D}.
Context `{!Json channel_alias, !Json worker_alias, !Json Coordinator.Region, !Json Message}.
Context `{!Json (gomap string), !Json (gomap json), !Json Event, !Json act_EnclaveInfo}.
Implicit Types (w : StateManager S D M).




End actions.
