(* ===== verification/TimeServer.v ===== *)
(** Package [timeserver]: servers that sign the time, and the network that asks
    the servers of a region, keeps the answers it can verify until it has a
    quorum, checks their spread and takes the median. *)

From S2P Require Import Prelude GoTime Core.
From Stdlib Require Import ZArith Lia Ascii String Sorting.
From stdpp Require Import base tactics option list sorting strings pretty gmap.

Local Open Scope Z_scope.

(** * Signatures: Go's [crypto/ed25519] *)
Class Ed25519 : Type := {
  ed_public : string → string;                 (* of a private key *)
  ed_Sign : string → string → string;
  ed_Verify : string → string → string → bool;
}.

Class Ed25519Laws `{!Ed25519} : Prop := {
  ed_Verify_Sign : ∀ priv msg, ed_Verify (ed_public priv) msg (ed_Sign priv msg) = true;
}.

(** * Data *)

Record TimeServer : Type := mkServer {
  TS_ID : string;
  TS_RegionID : string;
  TS_PublicKey : string;
  TS_privKey : string;
  TS_Address : string;
}.

Record SignedTimestamp : Type := mkStamp {
  ST_ServerID : string;
  ST_Time : Time;
  ST_Signature : string;
  ST_Nonce : string;
}.

(** The timestamp of a response is a pointer. *)
Record VerificationResponse : Type := mkResponse {
  VR_Timestamp : option SignedTimestamp;
  VR_ServerProof : string;
  VR_Delay : Z;
}.

Record TimestampProof : Type := mkProof {
  TP_ServerID : string;
  TP_Signature : string;
  TP_Delay : Z;
}.

Record VerifiedTimestamp : Type := mkVerified {
  VT_Time : Time;
  VT_Proofs : list TimestampProof;
  VT_RegionID : string;
  VT_QuorumSize : Z;
}.

Record TimeNetwork : Type := mkNetwork {
  servers : gmap string (list TimeServer);
  quorumSize : Z;
  maxLatency : Z;
  net_done : bool;       (* [done] is closed *)
  started : bool;
  startOnce : bool;      (* the [sync.Once] has run *)
}.

Definition NewTimeNetwork (quorum latency : Z) : TimeNetwork := mkNetwork ∅ quorum latency false false false.

Definition AddServer (server : TimeServer) : go TimeNetwork unit :=
  fail_if (bool_decide (TS_RegionID server = "")) (Errorf "region ID required") ;;
  modify (λ tn, mkNetwork (<[TS_RegionID server := default [] (servers tn !! TS_RegionID server) ++ [server]]> (servers tn))
    (quorumSize tn) (maxLatency tn) (net_done tn) (started tn) (startOnce tn)).

(** [Start] makes a new [done] channel, once for the life of the network. *)
Definition Network_Start : go TimeNetwork unit := modify (λ tn,
  if startOnce tn then tn
  else if started tn then mkNetwork (servers tn) (quorumSize tn) (maxLatency tn) (net_done tn) true true
  else mkNetwork (servers tn) (quorumSize tn) (maxLatency tn) false true true).

Definition Network_Stop : go TimeNetwork unit := λ tn,
  if negb (started tn) then (tn, Ok tt)
  else if net_done tn then (tn, Panic "close of closed channel")
  else (mkNetwork (servers tn) (quorumSize tn) (maxLatency tn) true false (startOnce tn), Ok tt).

(** The order of [sort.Slice]. *)
Definition time_le (t u : Time) : Prop := t_ns t ≤ t_ns u.
#[local] Instance time_le_dec : RelDecision time_le.
Proof. intros t u. unfold time_le. apply _. Defined.

(** * Signing and verifying *)

Section ed.
Context {ED : Ed25519}.

(** The signed text: the time in nanoseconds, big endian, then the nonce. *)
Definition stamp_msg (t : Time) (nonce : string) : string := PutUint64 (u64 (UnixNano t)) +s+ nonce.

(** [now] and [later] are the two readings of the clock. *)
Definition GetTimestamp (now later : Time) (ts : TimeServer) (nonce : option string) : outcome VerificationResponse :=
  match nonce with
  | None => Err (Errorf "nil request")
  | Some nonce =>
      let now := UTC now in
      let sig := ed_Sign (TS_privKey ts) (stamp_msg now nonce) in
      Ok (mkResponse (Some (mkStamp (TS_ID ts) now sig nonce)) sig (Sub later now))
  end.

(** The key of a server has the length [ed25519.Verify] wants, as the keys that
    [ed25519.GenerateKey] makes do; with another it panics. *)
Definition verifySignature (server : TimeServer) (ts : SignedTimestamp) (nonce : string) : bool :=
  ed_Verify (TS_PublicKey server) (stamp_msg (ST_Time ts) nonce) (ST_Signature ts).

Definition getRegionalServers (regionID : string) (tn : TimeNetwork) : list TimeServer :=
  default [] (servers tn !! regionID).

(** [order] is the order in which the map of regions is visited. *)
Definition findServer (order : list string) (serverID : string) (tn : TimeNetwork) : option TimeServer :=
  head (filter (λ s, TS_ID s = serverID) (order ≫= λ r, getRegionalServers r tn)).

Definition verifyResponse (order : list string) (resp : option VerificationResponse) (nonce : string)
    (tn : TimeNetwork) : verdict :=
  match resp ≫= VR_Timestamp with
  | None => Err (Errorf "invalid response")
  | Some ts =>
      match findServer order (ST_ServerID ts) tn with
      | None => Err (Errorf "unknown server")
      | Some server => check (negb (verifySignature server ts nonce)) (Errorf "invalid signature")
      end
  end.

Definition checkServerHealth (rnd : outcome string) (now : Time) (server : TimeServer) : verdict :=
  match rnd with
  | Ok nonce =>
      match GetTimestamp now now server (Some nonce) with
      | Ok resp =>
          match VR_Timestamp resp with
          | Some ts => check (negb (verifySignature server ts nonce)) (Errorf "invalid signature in health check")
          | None => Panic "invalid memory address or nil pointer dereference"
          end
      | Err e => Err (Wrapf "server health check failed" e)
      | Panic w => Panic w
      | Hang w => Hang w
      end
  | Err e => Err (Wrapf "failed to generate nonce" e)
  | Panic w => Panic w
  | Hang w => Hang w
  end.

(** * Collecting *)

(** What the [select] of the loop receives. *)
Inductive arrival : Type :=
  | ArrResponse (r : option VerificationResponse)
  | ArrError (e : goerr)
  | ArrTimeout
  | ArrDone (e : goerr).

(** The loop: responses that verify are kept until there are [quorum] of them.
    The timer always fires, so the end of the arrivals is the timeout. *)
Fixpoint collect (valid : option VerificationResponse → bool) (quorum : Z)
    (arrivals : list arrival) (collected : list VerificationResponse) : outcome (list VerificationResponse) :=
  if quorum <=? Z.of_nat (length collected) then Ok collected
  else match arrivals with
       | [] | ArrTimeout :: _ => Err (Errorf "failed to reach quorum within timeout")
       | ArrDone e :: _ => Err e
       | ArrError _ :: rest => collect valid quorum rest collected
       | ArrResponse r :: rest =>
           match r with
           | Some resp => collect valid quorum rest (if valid r then collected ++ [resp] else collected)
           | None => collect valid quorum rest collected
           end
       end.

(** The times of responses that have a timestamp. *)
Definition resp_times (rs : list VerificationResponse) : list Time :=
  omap (λ r, ST_Time <$> VR_Timestamp r) rs.

Definition earlier (t u : Time) : Time := if Before u t then u else t.
Definition later (t u : Time) : Time := if After u t then u else t.

Definition validateResponses (rs : list VerificationResponse) (tn : TimeNetwork) : verdict :=
  check (Z.of_nat (length rs) <? quorumSize tn) (Errorf "insufficient responses") ;;
  let times := resp_times rs in
  let '(minTime, maxTime) :=
    match times with
    | [] => (zeroTime, zeroTime)
    | t :: ts => (foldl earlier t ts, foldl later t ts)
    end in
  check (maxLatency tn <? Sub maxTime minTime) (Errorf "time spread too large").

Definition proof_of (r : VerificationResponse) : option TimestampProof :=
  (λ ts, mkProof (ST_ServerID ts) (ST_Signature ts) (VR_Delay r)) <$> VR_Timestamp r.

(** [sort.Slice] by [Before]; the middle element; the first response's server id
    as the region. *)
Definition createVerifiedTimestamp (rs : list VerificationResponse) (tn : TimeNetwork) : outcome VerifiedTimestamp :=
  if Z.of_nat (length rs) <? quorumSize tn then Err (Errorf "insufficient responses for quorum")
  else
    let timestamps := merge_sort time_le (resp_times rs) in
    match timestamps !! (length timestamps / 2)%nat, rs with
    | Some medianTime, r0 :: _ =>
        match VR_Timestamp r0 with
        | Some ts0 => Ok (mkVerified medianTime (omap proof_of rs) (ST_ServerID ts0) (quorumSize tn))
        | None => Panic "invalid memory address or nil pointer dereference"
        end
    | _, _ => Panic "index out of range"
    end.

(** [health] gives the nonce and the clock of each server's health check, [nonce]
    the result of [rand.Read], [arrivals] what the goroutines deliver. *)
Definition GetVerifiedTimestamp (order : list string) (health : TimeServer → outcome string * Time)
    (nonce : outcome string) (arrivals : list arrival) (regionID : string) (tn : TimeNetwork) :
    outcome VerifiedTimestamp :=
  let ss := getRegionalServers regionID tn in
  if Z.of_nat (length ss) <? quorumSize tn then Err (Errorf "insufficient servers in region")
  else
    let healthy := filter (λ s, is_ok (checkServerHealth (health s).1 (health s).2 s) = true) ss in
    if Z.of_nat (length healthy) <? quorumSize tn then Err (Errorf "insufficient healthy servers")
    else match nonce with
    | Ok nonce =>
        collected ← collect (λ r, is_ok (verifyResponse order r nonce tn)) (quorumSize tn) arrivals [];
        match validateResponses collected tn with
        | Ok _ => createVerifiedTimestamp collected tn
        | Err e => Err (Wrapf "response validation failed" e)
        | Panic w => Panic w
        | Hang w => Hang w
        end
    | Err e => Err (Wrapf "failed to generate nonce" e)
    | Panic w => Panic w
    | Hang w => Hang w
    end.
End ed.

(** * Properties *)

(** ** The median *)

#[local] Instance time_le_total : Total time_le.
Proof. intros t u. unfold time_le. lia. Qed.
#[local] Instance time_le_trans : Transitive time_le.
Proof. intros t u v. unfold time_le. lia. Qed.

Definition median (ts : list Time) : option Time :=
  let s := merge_sort time_le ts in s !! (length s / 2)%nat.

(** In a sorted list the elements up to a place are below it and the others
    above it. *)
Lemma sorted_split (l : list Time) i m :
  StronglySorted time_le l → l !! i = Some m →
  Forall (λ t, time_le t m) (take (S i) l) ∧ Forall (λ t, time_le m t) (drop i l).
Proof.
  revert i. induction l as [|t l IH]; intros i Hs Hi; [done|].
  apply StronglySorted_inv in Hs as [Hs Ht]. destruct i as [|i]; simpl in *.
  - injection Hi as ->. split; constructor; try done; unfold time_le; lia.
  - destruct (IH i Hs Hi) as [H1 H2]. split; [|done]. constructor; [|done].
    rewrite Forall_forall in Ht. apply Ht. by eapply list_elem_of_lookup_2.
Qed.

(** Too few elements of one kind cannot fill a longer part of the list. *)
Lemma some_other {A} (P : A → Prop) `{∀ x, Decision (P x)} (l : list A) :
  (length (filter P l) < length l)%nat → ∃ x, x ∈ l ∧ ¬ P x.
Proof.
  induction l as [|x l IH]; simpl; [lia|]. rewrite filter_cons. case_decide as Hx; simpl; intros Hl.
  - destruct IH as (y & Hy & HP); [lia|]. exists y. split; [by right|done].
  - exists x. split; [by left|done].
Qed.

Lemma filter_sublist_length {A} (P : A → Prop) `{∀ x, Decision (P x)} (l k : list A) :
  sublist l k → (length (filter P l) ≤ length (filter P k))%nat.
Proof.
  induction 1; rewrite ?filter_cons; repeat case_decide; simpl; lia.
Qed.

Lemma filter_all {A} (P : A → Prop) `{∀ x, Decision (P x)} (l : list A) : Forall P l → filter P l = l.
Proof. induction 1 as [|x l Hx HF IH]; [done|]. by rewrite filter_cons_True, IH. Qed.

(** A faulty minority cannot move the median out of the range of the others. *)
Lemma median_between (faulty : Time → Prop) `{∀ t, Decision (faulty t)} ts m :
  median ts = Some m → (2 * length (filter faulty ts) < length ts)%nat →
  (∃ t, t ∈ ts ∧ ¬ faulty t ∧ time_le t m) ∧ (∃ u, u ∈ ts ∧ ¬ faulty u ∧ time_le m u).
Proof.
  unfold median. intros Hm Hf. set (s := merge_sort time_le ts) in *.
  assert (s ≡ₚ ts) as Hp by apply merge_sort_Permutation.
  assert (StronglySorted time_le s) as Hs by (apply StronglySorted_merge_sort; apply _).
  rewrite <-Hp in Hf. destruct (sorted_split s _ m Hs Hm) as [Hlow Hhigh].
  pose proof (lookup_lt_Some _ _ _ Hm) as Hlt. set (i := (length s / 2)%nat) in *.
  assert (2 * i ≤ length s)%nat as Hi by (apply Nat.Div0.mul_div_le).
  assert (length s < 2 * S i)%nat as Hi' by (pose proof (Nat.mul_succ_div_gt (length s) 2); lia).
  rewrite !Forall_forall in *. split.
  - destruct (some_other faulty (take (S i) s)) as (t & Ht & HP).
    + pose proof (filter_sublist_length faulty _ _ (sublist_take s (S i))). rewrite length_take. lia.
    + exists t. split; [|split; [done|by apply Hlow]]. rewrite <-Hp. revert Ht. apply subseteq_take.
  - destruct (some_other faulty (drop i s)) as (t & Ht & HP).
    + pose proof (filter_sublist_length faulty _ _ (sublist_drop s i)). rewrite length_drop. lia.
    + exists t. split; [|split; [done|by apply Hhigh]]. rewrite <-Hp. revert Ht. apply subseteq_drop.
Qed.

(** ** The spread *)

Lemma foldl_earlier t ts :
  foldl earlier t ts ∈ t :: ts ∧ ∀ u, u ∈ t :: ts → time_le (foldl earlier t ts) u.
Proof.
  revert t. induction ts as [|x ts IH]; intros t; simpl.
  - split; [by left|]. intros u ->%list_elem_of_singleton. unfold time_le. lia.
  - destruct (IH (earlier t x)) as [H1 H2]. unfold time_le in *. split.
    + apply elem_of_cons in H1 as [H1|H1]; [rewrite H1; unfold earlier; destruct (Before x t); set_solver|set_solver].
    + assert (t_ns (earlier t x) ≤ t_ns t ∧ t_ns (earlier t x) ≤ t_ns x) as [Ht Hx].
      { unfold earlier, Before. destruct (Z.ltb_spec (t_ns x) (t_ns t)); lia. }
      pose proof (H2 (earlier t x) ltac:(by left)) as He.
      intros u [->|[->|Hu]%elem_of_cons]%elem_of_cons; [lia|lia|]. apply H2. by right.
Qed.

Lemma foldl_later t ts :
  foldl later t ts ∈ t :: ts ∧ ∀ u, u ∈ t :: ts → time_le u (foldl later t ts).
Proof.
  revert t. induction ts as [|x ts IH]; intros t; simpl.
  - split; [by left|]. intros u ->%list_elem_of_singleton. unfold time_le. lia.
  - destruct (IH (later t x)) as [H1 H2]. unfold time_le in *. split.
    + apply elem_of_cons in H1 as [H1|H1]; [rewrite H1; unfold later; destruct (After x t); set_solver|set_solver].
    + assert (t_ns t ≤ t_ns (later t x) ∧ t_ns x ≤ t_ns (later t x)) as [Ht Hx].
      { unfold later, After. destruct (Z.ltb_spec (t_ns t) (t_ns x)); lia. }
      pose proof (H2 (later t x) ltac:(by left)) as He.
      intros u [->|[->|Hu]%elem_of_cons]%elem_of_cons; [lia|lia|]. apply H2. by right.
Qed.

Lemma Sub_le t u d : 0 ≤ d < maxDuration → Sub t u ≤ d ↔ t_ns t - t_ns u ≤ d.
Proof. unfold Sub, maxDuration, minDuration. intros Hd. lia. Qed.

(** The responses pass when there are enough and no two times are further apart
    than the latency allows. *)
Lemma validateResponses_ok rs tn :
  0 ≤ maxLatency tn < maxDuration → resp_times rs ≠ [] →
  validateResponses rs tn = Ok tt ↔
    quorumSize tn ≤ Z.of_nat (length rs) ∧
    ∀ t u, t ∈ resp_times rs → u ∈ resp_times rs → t_ns t - t_ns u ≤ maxLatency tn.
Proof.
  intros HL Hne. unfold validateResponses. destruct (resp_times rs) as [|t0 ts] eqn:E; [done|].
  destruct (foldl_earlier t0 ts) as [Hmin Hmin']. destruct (foldl_later t0 ts) as [Hmax Hmax'].
  rewrite check_ok, Z.ltb_ge. unfold check. set (a := foldl earlier t0 ts) in *. set (b := foldl later t0 ts) in *.
  destruct (Z.ltb_spec (maxLatency tn) (Sub b a)) as [H|H].
  - split; [naive_solver|]. intros [_ Hall]. exfalso.
    pose proof (proj2 (Sub_le b a _ HL) (Hall b a Hmax Hmin)). lia.
  - apply (Sub_le b a _ HL) in H. split; [|naive_solver]. intros [Hq _]. split; [done|].
    intros t u Ht Hu. specialize (Hmin' u Hu). specialize (Hmax' t Ht). unfold time_le in *. lia.
Qed.

(** ** Collecting *)

Lemma collect_sound valid quorum arrivals c rs :
  collect valid quorum arrivals c = Ok rs →
  quorum ≤ Z.of_nat (length rs) ∧
  ∃ l, rs = c ++ l ∧ Forall (λ r, ArrResponse (Some r) ∈ arrivals ∧ valid (Some r) = true) l.
Proof.
  revert c. induction arrivals as [|a arrivals IH]; intros c; cbn [collect];
    destruct (Z.leb_spec quorum (Z.of_nat (length c))) as [Hq|Hq];
    try (intros [= <-]; split; [done|]; exists []; by rewrite app_nil_r); [done|].
  assert (∀ c', collect valid quorum arrivals c' = Ok rs →
    quorum ≤ Z.of_nat (length rs) ∧ ∃ l, rs = c' ++ l ∧
      Forall (λ r, ArrResponse (Some r) ∈ a :: arrivals ∧ valid (Some r) = true) l) as IH'.
  { intros c' H. destruct (IH c' H) as (H1 & l & -> & HF). split; [done|]. exists l. split; [done|].
    eapply Forall_impl; [exact HF|]. intros r [Hr Hv]. split; [by right|done]. }
  destruct a as [[r|]|e| |e]; try done; [|by apply IH'..].
  destruct (valid (Some r)) eqn:Ev; [|by apply IH'].
  intros H. destruct (IH' _ H) as (H1 & l & -> & HF). split; [done|].
  exists (r :: l). rewrite <-app_assoc. split; [done|]. constructor; [split; [by left|done]|done].
Qed.

(** Enough valid responses and nothing else end the loop with a quorum of them. *)
Lemma collect_progress valid quorum rs c :
  Forall (λ r, valid (Some r) = true) rs → quorum ≤ Z.of_nat (length c + length rs) →
  ∃ l k, rs = l ++ k ∧ collect valid quorum ((λ r, ArrResponse (Some r)) <$> rs) c = Ok (c ++ l).
Proof.
  intros HF. revert c. induction HF as [|r rs Hr HF IH]; intros c Hq; cbn [collect fmap list_fmap].
  - simpl in Hq. exists [], []. split; [done|]. rewrite app_nil_r.
    destruct (Z.leb_spec quorum (Z.of_nat (length c))); [done|lia].
  - destruct (Z.leb_spec quorum (Z.of_nat (length c))).
    + exists [], (r :: rs). by rewrite app_nil_r.
    + rewrite Hr. destruct (IH (c ++ [r])) as (l & k & -> & Hl); [rewrite length_app; simpl in *; lia|].
      exists (r :: l), k. split; [done|]. by rewrite Hl, <-app_assoc.
Qed.

(** ** The verified timestamp *)

Section network.
Context {ED : Ed25519}.

(** A response the network accepts for a nonce. *)
Definition accepted (order : list string) (nonce : string) (tn : TimeNetwork) (r : VerificationResponse) : Prop :=
  ∃ ts server, VR_Timestamp r = Some ts ∧ findServer order (ST_ServerID ts) tn = Some server ∧
    verifySignature server ts nonce = true.

Lemma verifyResponse_accepted order r nonce tn :
  is_ok (verifyResponse order (Some r) nonce tn) = true ↔ accepted order nonce tn r.
Proof.
  unfold verifyResponse, accepted. simpl. destruct (VR_Timestamp r) as [ts|]; [|naive_solver].
  destruct (findServer order (ST_ServerID ts) tn) as [srv|] eqn:E; [|naive_solver].
  unfold check. destruct (verifySignature srv ts nonce) eqn:Ev; naive_solver.
Qed.

Lemma resp_times_accepted order nonce tn rs :
  Forall (accepted order nonce tn) rs → length (resp_times rs) = length rs.
Proof.
  induction 1 as [|r rs (ts & srv & Hr & _) HF IH]; [done|].
  unfold resp_times in *. cbn [omap list_omap]. rewrite Hr. cbn [fmap option_fmap option_map length].
  f_equal. exact IH.
Qed.

(** What a verified timestamp was made of. *)
Lemma GetVerifiedTimestamp_inv order health nonce arrivals regionID tn v :
  GetVerifiedTimestamp order health (Ok nonce) arrivals regionID tn = Ok v →
  ∃ rs, collect (λ r, is_ok (verifyResponse order r nonce tn)) (quorumSize tn) arrivals [] = Ok rs ∧
    quorumSize tn ≤ Z.of_nat (length rs) ∧
    Forall (λ r, ArrResponse (Some r) ∈ arrivals ∧ accepted order nonce tn r) rs ∧
    validateResponses rs tn = Ok tt ∧ VT_Proofs v = omap proof_of rs ∧
    median (resp_times rs) = Some (VT_Time v).
Proof.
  unfold GetVerifiedTimestamp. destruct (_ <? _); [done|]. destruct (_ <? _); [done|]. simpl.
  destruct (collect _ _ _ _) as [rs| | |] eqn:Ec; try done. simpl.
  destruct (validateResponses rs tn) as [[]| | |] eqn:Ev; try done.
  pose proof Ec as Hc. apply collect_sound in Ec as (Hq & l & -> & HF). simpl in *.
  unfold createVerifiedTimestamp. rewrite (proj2 (Z.ltb_ge _ _) Hq).
  destruct (_ !! _) as [m|] eqn:Em; [|done]. destruct l as [|r0 l]; [done|].
  destruct (VR_Timestamp r0); [|done]. intros [= <-]. exists (r0 :: l). split_and!; try done.
  eapply Forall_impl; [exact HF|]. intros r [Hr Hv]. split; [done|]. by apply verifyResponse_accepted in Hv.
Qed.

(** C14: a verified timestamp is backed by a quorum: at least [quorumSize]
    responses to this request, each signed by a server of the network over its
    time and the request's nonce, all of them within the maximal latency of one
    another, and the reported time is one of theirs. *)
Theorem GetVerifiedTimestamp_sound order health nonce arrivals regionID tn v :
  0 ≤ maxLatency tn < maxDuration →
  GetVerifiedTimestamp order health (Ok nonce) arrivals regionID tn = Ok v →
  ∃ rs, quorumSize tn ≤ Z.of_nat (length rs) ∧
    Forall (λ r, ArrResponse (Some r) ∈ arrivals ∧ accepted order nonce tn r) rs ∧
    VT_Proofs v = omap proof_of rs ∧ VT_Time v ∈ resp_times rs ∧
    ∀ t u, t ∈ resp_times rs → u ∈ resp_times rs → t_ns t - t_ns u ≤ maxLatency tn.
Proof.
  intros HL H. apply GetVerifiedTimestamp_inv in H as (rs & _ & Hq & HF & Hv & Hp & Hm).
  assert (VT_Time v ∈ resp_times rs) as Hin.
  { unfold median in Hm. apply list_elem_of_lookup_2 in Hm. by rewrite merge_sort_Permutation in Hm. }
  exists rs. split_and!; try done. apply validateResponses_ok in Hv as [_ Hv]; try done.
  intros E. rewrite E in Hin. set_solver.
Qed.

(** C15: as long as less than half of the responses collected for the request carry a
    wrong time, the verified time lies between the times of two correct ones. *)
Theorem GetVerifiedTimestamp_minority order health nonce arrivals regionID tn v
    (wrong : Time → Prop) `{∀ t, Decision (wrong t)} :
  GetVerifiedTimestamp order health (Ok nonce) arrivals regionID tn = Ok v →
  ∃ rs, collect (λ r, is_ok (verifyResponse order r nonce tn)) (quorumSize tn) arrivals [] = Ok rs ∧
    VT_Proofs v = omap proof_of rs ∧ quorumSize tn ≤ Z.of_nat (length rs) ∧ Forall (accepted order nonce tn) rs ∧
    ((2 * length (filter wrong (resp_times rs)) < length rs)%nat →
     (∃ t, t ∈ resp_times rs ∧ ¬ wrong t ∧ t_ns t ≤ t_ns (VT_Time v)) ∧
     (∃ u, u ∈ resp_times rs ∧ ¬ wrong u ∧ t_ns (VT_Time v) ≤ t_ns u)).
Proof.
  intros H'. apply GetVerifiedTimestamp_inv in H' as (rs & Hc & Hq & HF & _ & Hp & Hm).
  assert (Forall (accepted order nonce tn) rs) as HA by (eapply Forall_impl; [exact HF|]; naive_solver).
  exists rs. split_and!; try done. intros Hw.
  apply (median_between wrong); [done|]. by rewrite (resp_times_accepted _ _ _ _ HA).
Qed.

(** ** Honest servers reach a quorum *)

Context {EDL : Ed25519Laws}.

(** The response of a server that reads its clock once. *)
Definition honest_response (clock : TimeServer → Time) (nonce : string) (s : TimeServer) : VerificationResponse :=
  let now := UTC (clock s) in
  let sig := ed_Sign (TS_privKey s) (stamp_msg now nonce) in
  mkResponse (Some (mkStamp (TS_ID s) now sig nonce)) sig (Sub (clock s) now).

Definition honest_server (order : list string) (tn : TimeNetwork) (s : TimeServer) : Prop :=
  TS_PublicKey s = ed_public (TS_privKey s) ∧ findServer order (TS_ID s) tn = Some s.

Lemma honest_accepted order tn clock nonce s :
  honest_server order tn s → accepted order nonce tn (honest_response clock nonce s).
Proof.
  intros [Hk Hf]. eexists _, s. split; [done|]. split; [done|].
  unfold verifySignature. simpl. rewrite Hk. apply ed_Verify_Sign.
Qed.

Lemma honest_healthy order tn n now s : honest_server order tn s → checkServerHealth (Ok n) now s = Ok tt.
Proof.
  intros [Hk _]. unfold checkServerHealth, verifySignature. simpl. by rewrite Hk, ed_Verify_Sign.
Qed.

Lemma honest_times clock nonce l : resp_times (honest_response clock nonce <$> l) = (λ s, UTC (clock s)) <$> l.
Proof.
  unfold resp_times. induction l as [|s l IH]; [done|]. cbn [fmap list_fmap omap list_omap].
  cbn [honest_response VR_Timestamp fmap option_fmap option_map ST_Time]. f_equal. exact IH.
Qed.

(** C16: when the servers of a region are honest, their clocks agree within the
    maximal latency, there is a quorum of them and their answers arrive in time,
    the network returns a verified timestamp. *)
Theorem honest_quorum_succeeds order health clock nonce regionID tn :
  0 < quorumSize tn ≤ Z.of_nat (length (getRegionalServers regionID tn)) →
  0 ≤ maxLatency tn < maxDuration →
  Forall (honest_server order tn) (getRegionalServers regionID tn) →
  (∀ s, is_ok (health s).1 = true) →
  (∀ s s', t_ns (clock s) - t_ns (clock s') ≤ maxLatency tn) →
  ∃ v, GetVerifiedTimestamp order health (Ok nonce)
    ((λ s, ArrResponse (Some (honest_response clock nonce s))) <$> getRegionalServers regionID tn) regionID tn = Ok v.
Proof.
  intros Hq HL HS Hh Hclk. unfold GetVerifiedTimestamp. set (ss := getRegionalServers regionID tn) in *.
  rewrite (proj2 (Z.ltb_ge _ _)) by lia.
  assert (filter (λ s, is_ok (checkServerHealth (health s).1 (health s).2 s) = true) ss = ss) as ->.
  { apply filter_all. eapply Forall_impl; [exact HS|]. intros s Hs. specialize (Hh s).
    destruct (health s) as [[n| | |] now]; try done. cbn [fst snd]. by rewrite (honest_healthy order tn). }
  rewrite (proj2 (Z.ltb_ge _ _)) by lia.
  replace ((λ s, ArrResponse (Some (honest_response clock nonce s))) <$> ss)
    with ((λ r, ArrResponse (Some r)) <$> (honest_response clock nonce <$> ss)) by (by rewrite <-list_fmap_compose).
  destruct (collect_progress (λ r, is_ok (verifyResponse order r nonce tn)) (quorumSize tn)
    (honest_response clock nonce <$> ss) []) as (l & k & Hlk & Hcol).
  { apply Forall_fmap. eapply Forall_impl; [exact HS|]. intros s Hs. by apply verifyResponse_accepted, honest_accepted. }
  { rewrite length_fmap. simpl. lia. }
  rewrite Hcol. simpl. apply collect_sound in Hcol as [Hlen _]. simpl in Hlen.
  apply fmap_app_inv in Hlk as (l1 & l2 & -> & -> & Hss).
  assert (resp_times (honest_response clock nonce <$> l1) = (λ s, UTC (clock s)) <$> l1) as Ht by apply honest_times.
  destruct l1 as [|s0 l1]; [simpl in Hlen; lia|].
  assert (validateResponses (honest_response clock nonce <$> s0 :: l1) tn = Ok tt) as ->.
  { apply validateResponses_ok; [done|by rewrite Ht|]. split; [done|]. rewrite Ht.
    intros t u (s & -> & _)%list_elem_of_fmap (s' & -> & _)%list_elem_of_fmap. apply Hclk. }
  unfold createVerifiedTimestamp. rewrite (proj2 (Z.ltb_ge _ _) Hlen), Ht.
  destruct (_ !! _) as [m|] eqn:Em; [by eexists|]. apply lookup_ge_None in Em.
  assert (length (merge_sort time_le ((λ s, UTC (clock s)) <$> s0 :: l1)) = S (length l1)) as HL'.
  { rewrite merge_sort_Permutation. by rewrite length_fmap. }
  rewrite HL' in Em. pose proof (Nat.div_lt (S (length l1)) 2). lia.
Qed.
End network.

(** * Witnesses *)

(** A signature scheme that satisfies the law, for evaluation only. *)
#[local] Instance toy_Ed25519 : Ed25519 := {
  ed_public p := p;
  ed_Sign p msg := p +s+ msg;
  ed_Verify pub msg sig := bool_decide (sig = pub +s+ msg);
}.
#[local] Instance toy_Ed25519Laws : Ed25519Laws.
Proof. split. intros p msg. simpl. by apply bool_decide_eq_true_2. Qed.

Definition toy_server (id : string) : TimeServer := mkServer id "us-east" id id "".
Definition toy_network : TimeNetwork :=
  mkNetwork {["us-east" := [toy_server "a"; toy_server "b"; toy_server "c"]]} 2 (100 * Millisecond) false true true.
Definition toy_clock (s : TimeServer) : Time := mkTime (1700000000 * Second) 0.
Definition toy_arrivals : list arrival :=
  (λ s, ArrResponse (Some (honest_response toy_clock "nonce" s))) <$> getRegionalServers "us-east" toy_network.
Definition toy_health (s : TimeServer) : outcome string * Time := (Ok "n", toy_clock s).
Definition toy_result : outcome VerifiedTimestamp :=
  GetVerifiedTimestamp ["us-east"] toy_health (Ok "nonce") toy_arrivals "us-east" toy_network.

Lemma honest_quorum_succeeds_witness : ∃ v, toy_result = Ok v.
Proof.
  apply (honest_quorum_succeeds ["us-east"] toy_health toy_clock "nonce" "us-east" toy_network).
  - vm_compute. split; [reflexivity|discriminate].
  - vm_compute. split; [discriminate|reflexivity].
  - repeat constructor.
  - done.
  - intros s s'. vm_compute. discriminate.
Defined.

Lemma GetVerifiedTimestamp_sound_witness :
  ∃ v rs, toy_result = Ok v ∧ VT_Time v ∈ resp_times rs ∧ 2 ≤ Z.of_nat (length rs).
Proof.
  assert (0 ≤ maxLatency toy_network < maxDuration) as HL by (vm_compute; split; [discriminate|reflexivity]).
  assert (∃ v, toy_result = Ok v) as [v Hv] by (vm_compute; by eexists).
  destruct (GetVerifiedTimestamp_sound ["us-east"] toy_health "nonce" toy_arrivals "us-east" toy_network v HL Hv)
    as (rs & Hq & _ & _ & Hin & _).
  exists v, rs. split; [exact Hv|]. split; [exact Hin|exact Hq].
Defined.

(** Three servers, one of them fast: the time is that of the other two. *)
Definition fast_clock (s : TimeServer) : Time :=
  if bool_decide (TS_ID s = "c") then mkTime (1700000000 * Second + 50 * Millisecond) 0 else toy_clock s.
Definition strict_network : TimeNetwork :=
  mkNetwork {["us-east" := [toy_server "c"; toy_server "a"; toy_server "b"]]} 3 (100 * Millisecond) false true true.
Definition fast_arrivals : list arrival :=
  (λ s, ArrResponse (Some (honest_response fast_clock "nonce" s))) <$> getRegionalServers "us-east" strict_network.
Definition fast_result : outcome VerifiedTimestamp :=
  GetVerifiedTimestamp ["us-east"] toy_health (Ok "nonce") fast_arrivals "us-east" strict_network.

Lemma GetVerifiedTimestamp_minority_witness :
  ∃ v, fast_result = Ok v ∧ t_ns (VT_Time v) = 1700000000 * Second.
Proof.
  assert (∃ v, fast_result = Ok v) as [v Hv] by (vm_compute; by eexists).
  destruct (GetVerifiedTimestamp_minority ["us-east"] toy_health "nonce" fast_arrivals "us-east" strict_network v
    (λ t, t_ns t ≠ 1700000000 * Second) Hv) as (rs & Hc & _ & _ & _ & H).
  exists v. split; [exact Hv|]. clear Hv. vm_compute in Hc. injection Hc as <-.
  destruct H as [(t & _ & Ht & Hle) (u & _ & Hu & Hge)]; [vm_compute; lia|]. lia.
Defined.
