(* ===== verification/Verifier.v ===== *)
(** Package [verifier]: the checks of single actions against the state
    ([verifier.go]) and of batches of actions ([batch.go]).

    The state is only read.  Maps are visited in any order, which matters to no
    result here: the order check of the batch reports the same error whichever
    queue it finds out of order. *)

From S2P Require Import Prelude GoTime KV Core Channel Storage Actions TimeServer.
From Stdlib Require Import ZArith Lia Ascii String.
From stdpp Require Import base tactics option list strings pretty gmap.

Local Open Scope Z_scope.

Definition ver (name : string) : goerr := Sentinel "verifier" name.
Definition ErrInputObjectMissing := ver "ErrInputObjectMissing".
Definition ErrBatchLimit := ver "ErrBatchLimit".
Definition ErrDuplicateAction := ver "ErrDuplicateAction".
Definition ErrConflictingAction := ver "ErrConflictingAction".
Definition ver_ErrInvalidTimestamp := ver "ErrInvalidTimestamp".
Definition ErrDuplicateAttestation := ver "ErrDuplicateAttestation".
Definition ver_ErrInvalidAttestation := ver "ErrInvalidAttestation".
Definition MaxBatchSize : Z := 256.

(** The dynamic type of a [chain.Action]. *)
Inductive Action : Type :=
  | ActCreateObject (a : CreateObjectAction)
  | ActSendEvent (a : SendEventAction)
  | ActSetInputObject (a : SetInputObjectAction)
  | ActCreateRegion (a : CreateRegionAction)
  | ActUpdateRegion (a : UpdateRegionAction)
  | ActOther.

(** * Single actions *)

Section verifier.
Context {S : Type} `{!Mutable S}.
Context `{!Json (gomap string), !Json (gomap json), !Json CoordinationState}.
(** [rand.Read], for the session key of the channel. *)
Context (rnd : outcome string).

Definition VerifySystemState : go S unit :=
  inputID ← GetInputObject;
  fail_if (bool_decide (inputID = "")) ErrInputObjectMissing ;;
  obj ← GetObject inputID "";
  fail_if (match obj with None => true | Some _ => false end) ErrInputObjectMissing.

Definition VerifyObjectState (obj : gmap string string) : verdict :=
  check (match obj !! "code" with Some c => act_MaxCodeSize <? slen c | None => false end) act_ErrCodeTooLarge ;;
  check (match obj !! "storage" with Some s => act_MaxStorageSize <? slen s | None => false end) act_ErrStorageTooLarge.

(** [tees] is the region's list, whose type assertion panics when it is not one. *)
Definition verifyAttestation (att : TEEAttestation) (tees : option (list string)) : verdict :=
  match tees with
  | None => Panic "interface conversion"
  | Some tees => check (negb (existsb (λ t, bool_decide (t = EnclaveID att)) tees)) ver_ErrInvalidAttestation
  end.

(** A channel between the two enclaves, which gets the data of the first. *)
Definition VerifyAttestationPair (a : TEEAttestation * TEEAttestation) : verdict :=
  match EstablishSecure rnd (NewSecureChannel (EnclaveID a.1) (EnclaveID a.2)) with
  | (ch, Ok _) => (Send (Data a.1) ch).2
  | (_, o) => o
  end.

Definition verifyFunctionExists (obj : gomap string) (function : string) : verdict := Ok tt.

Definition verifyCreateObject (a : CreateObjectAction) : go S unit :=
  existing ← GetObject (CO_ID a) (CO_RegionID a);
  fail_if (match existing with Some _ => true | None => false end) ErrObjectExists ;;
  lift (VerifyObjectState {[ "code" := CO_Code a; "storage" := CO_Storage a ]}).

Definition verifyEvent (a : SendEventAction) : go S unit :=
  target ← GetObject (SEv_IDTo a) (SEv_RegionID a);
  fail_if (match target with None => true | Some _ => false end) ErrObjectNotFound ;;
  region ← GetRegion (SEv_RegionID a);
  fail_if (match region with None => true | Some _ => false end) act_ErrRegionNotFound ;;
  lift (VerifyAttestationPair (SEv_Attestations a)) ;;
  lift (verifyFunctionExists target (SEv_FunctionCall a)) ;;
  fail_if (act_MaxStorageSize <? slen (SEv_Parameters a)) act_ErrStorageTooLarge.

Definition verifySetInputObject (a : SetInputObjectAction) : go S unit :=
  obj ← GetObject (SI_ID a) (SI_RegionID a);
  fail_if (match obj with None => true | Some _ => false end) ErrObjectNotFound.

Definition verifyCreateRegion (a : CreateRegionAction) : go S unit :=
  region ← GetRegion (CR_RegionID a);
  fail_if (match region with Some _ => true | None => false end) ErrRegionExists ;;
  fail_if (existsb (λ t, slen t =? 0) (CR_TEEs a)) ErrInvalidTEE ;;
  lift (VerifyAttestationPair (CR_Attestations a)).

Definition verifyUpdateRegion (a : UpdateRegionAction) : go S unit :=
  region ← GetRegion (UR_RegionID a);
  fail_if (match region with None => true | Some _ => false end) act_ErrRegionNotFound ;;
  lift (VerifyAttestationPair (UR_Attestations a)).

Definition VerifyStateTransition (action : Action) : go S unit :=
  match action with
  | ActCreateObject a => verifyCreateObject a
  | ActSendEvent a => verifyEvent a
  | ActSetInputObject a => verifySetInputObject a
  | _ => fail (Errorf "unknown action type")
  end.

Definition verifyTimeProof (now : Time) (p : option VerifiedTimestamp) : verdict :=
  match p with
  | None => Err (Errorf "missing time proof")
  | Some p =>
      check (Z.of_nat (length (VT_Proofs p)) <? 2) (Errorf "insufficient time proofs") ;;
      check (5 * Second <? Since now (VT_Time p)) (Errorf "time proof too old")
  end.

Definition VerifyExecution (now : Time) (a : TEEAttestation * TEEAttestation) (p : option VerifiedTimestamp) : verdict :=
  match VerifyAttestationPair a with
  | Ok _ => wrap_verdict "time proof verification failed" (verifyTimeProof now p)
  | Err e => Err (Wrapf "attestation verification failed" e)
  | Panic w => Panic w
  | Hang w => Hang w
  end.

(** * Batches *)

Record modificationInfo : Type := mkMod { created : bool; teeUpdated : bool }.

Record BatchState : Type := mkBatch {
  regionMods : gmap string modificationInfo;
  objectMods : gmap string modificationInfo;
  eventQueue : gmap string (list Time);     (* the timestamps of the queued events *)
  attestationsSeen : gset string;
}.

Definition empty_batch : BatchState := mkBatch ∅ ∅ ∅ ∅.

Definition attID (att : TEEAttestation) : string := hex (EnclaveID att) +s+ ":" +s+ TimeString (Timestamp att).

(** One attestation of an event is marked as used. *)
Definition mark_used (att : TEEAttestation) (bv : BatchState) : outcome BatchState :=
  if bool_decide (attID att ∈ attestationsSeen bv) then Err ErrDuplicateAttestation
  else Ok (mkBatch (regionMods bv) (objectMods bv) (eventQueue bv) ({[attID att]} ∪ attestationsSeen bv)).

Definition queue_event (id : string) (t : Time) (bv : BatchState) : BatchState :=
  mkBatch (regionMods bv) (objectMods bv)
    (<[id := default [] (eventQueue bv !! id) ++ [t]]> (eventQueue bv)) (attestationsSeen bv).

Definition analyzeAction (act : Action) (bv : BatchState) : outcome BatchState :=
  match act with
  | ActCreateObject a =>
      if bool_decide (created <$> objectMods bv !! CO_ID a = Some true) then Err ErrDuplicateAction
      else Ok (mkBatch (regionMods bv) (<[CO_ID a := mkMod true false]> (objectMods bv))
                 (eventQueue bv) (attestationsSeen bv))
  | ActSendEvent a =>
      bv ← mark_used (SEv_Attestations a).1 bv;
      bv ← mark_used (SEv_Attestations a).2 bv;
      Ok (queue_event (SEv_IDTo a) (Timestamp (SEv_Attestations a).1) bv)
  | ActSetInputObject a =>
      if bool_decide (created <$> objectMods bv !! SI_ID a = Some false) then Err ErrConflictingAction
      else Ok bv
  | ActCreateRegion a =>
      if bool_decide (created <$> regionMods bv !! CR_RegionID a = Some true) then Err ErrDuplicateAction
      else Ok (mkBatch (<[CR_RegionID a := mkMod true false]> (regionMods bv)) (objectMods bv)
                 (eventQueue bv) (attestationsSeen bv))
  | ActUpdateRegion a =>
      if bool_decide (teeUpdated <$> regionMods bv !! UR_RegionID a = Some true) then Err ErrDuplicateAction
      else if bool_decide (created <$> regionMods bv !! UR_RegionID a = Some true) then Err ErrConflictingAction
      else Ok (mkBatch (<[UR_RegionID a := mkMod false true]> (regionMods bv)) (objectMods bv)
                 (eventQueue bv) (attestationsSeen bv))
  | ActOther => Ok bv
  end.

Fixpoint analyzeActions (acts : list Action) (bv : BatchState) : outcome BatchState :=
  match acts with
  | [] => Ok bv
  | act :: acts' => bv' ← analyzeAction act bv; analyzeActions acts' bv'
  end.

Definition verifyCreateInBatch (bv : BatchState) (a : CreateObjectAction) : verdict :=
  check (bool_decide (created <$> objectMods bv !! CO_ID a = Some true)) ErrDuplicateAction.

Definition verifyCreateRegionInBatch (bv : BatchState) (a : CreateRegionAction) : verdict :=
  check (bool_decide (created <$> regionMods bv !! CR_RegionID a = Some true)) ErrConflictingAction.

(** Nothing more is checked of the other actions in a batch. *)
Definition verifyEventInBatch (bv : BatchState) (a : SendEventAction) : verdict := Ok tt.
Definition verifySetInputInBatch (bv : BatchState) (a : SetInputObjectAction) : verdict := Ok tt.
Definition verifyUpdateRegionInBatch (bv : BatchState) (a : UpdateRegionAction) : verdict := Ok tt.

Definition verifyAction (bv : BatchState) (act : Action) : go S unit :=
  VerifyStateTransition act ;;
  match act with
  | ActCreateObject a => lift (verifyCreateInBatch bv a)
  | ActSendEvent a => lift (verifyEventInBatch bv a)
  | ActSetInputObject a => lift (verifySetInputInBatch bv a)
  | ActCreateRegion a => lift (verifyCreateRegionInBatch bv a)
  | ActUpdateRegion a => lift (verifyUpdateRegionInBatch bv a)
  | _ => mret tt
  end.

(** Are the timestamps in order, starting from [prev]? *)
Fixpoint in_order (prev : Time) (ts : list Time) : bool :=
  match ts with
  | [] => true
  | t :: ts' => negb (Before t prev) && in_order t ts'
  end.

Definition verifyBatchConstraints (bv : BatchState) : verdict :=
  check (negb (forallb (λ q : string * list Time, in_order zeroTime q.2) (map_to_list (eventQueue bv))))
    ver_ErrInvalidTimestamp.

Definition VerifyBatch (acts : list Action) : go S unit :=
  fail_if (MaxBatchSize <? Z.of_nat (length acts)) ErrBatchLimit ;;
  bv ← lift (analyzeActions acts empty_batch);
  for_each (verifyAction bv) acts ;;
  lift (verifyBatchConstraints bv).

Definition verifyTimestampsHelper (now : Time) (a : TEEAttestation * TEEAttestation) : verdict :=
  check (negb (TimeEqual (Timestamp a.1) (Timestamp a.2))) (Errorf "timestamp mismatch between attestations") ;;
  check (outside_window now (Timestamp a.1) (5 * Minute)) (Errorf "attestation timestamp outside acceptable range") ;;
  check (outside_window now (Timestamp a.2) (5 * Minute)) (Errorf "attestation timestamp outside acceptable range").

Definition verifyRegionHelper (a : TEEAttestation * TEEAttestation) : verdict :=
  check (slen (RegionProof a.1) =? 0) (Errorf "missing region proof in attestation") ;;
  check (slen (RegionProof a.2) =? 0) (Errorf "missing region proof in attestation").

(** The attestations of an execution result, with the text of their times;
    [parse] is [time.Parse(time.RFC3339, _)]. *)
Definition verifyComputeExecution (parse : string → outcome Time) (now : Time)
    (atts : list (TEEAttestation * string)) : verdict :=
  let conv (x : TEEAttestation * string) : outcome TEEAttestation :=
    match parse x.2 with
    | Ok t => Ok (mkAttestation (EnclaveID x.1) (Measurement x.1) t (Data x.1) (Signature x.1) (RegionProof x.1))
    | Err e => Err (Wrapf "invalid timestamp format" e)
    | Panic w => Panic w
    | Hang w => Hang w
    end in
  match atts with
  | [x; y] =>
      a ← conv x;
      b ← conv y;
      VerifyAttestationPair (a, b) ;;
      verifyTimestampsHelper now (a, b) ;;
      verifyRegionHelper (a, b)
  | _ => Err (Errorf "expected 2 attestations")
  end.
End verifier.

(** * Properties *)

(** The pair check of the verifier looks at nothing of the attestations: as
    long as a session key can be drawn it accepts every pair, and an execution is
    then judged by its time proof alone. *)
Theorem VerifyAttestationPair_accepts_all key a now p :
  VerifyAttestationPair (Ok key) a = Ok tt ∧
  (VerifyExecution (Ok key) now a p = Ok tt ↔ verifyTimeProof now p = Ok tt).
Proof.
  assert (VerifyAttestationPair (Ok key) a = Ok tt) as H by done.
  split; [done|]. unfold VerifyExecution. rewrite H. apply wrap_verdict_ok.
Qed.

(** ** Batches *)

Definition action_atts (act : Action) : list string :=
  match act with
  | ActSendEvent a => [attID (SEv_Attestations a).1; attID (SEv_Attestations a).2]
  | _ => []
  end.
Definition batch_atts (acts : list Action) : list string := acts ≫= action_atts.

(** The timestamps of the events for an object, in the order of the batch. *)
Definition event_times (id : string) (acts : list Action) : list Time :=
  omap (λ act, match act with
    | ActSendEvent a => if bool_decide (SEv_IDTo a = id) then Some (Timestamp (SEv_Attestations a).1) else None
    | _ => None end) acts.

Definition is_created (id : string) (bv : BatchState) : Prop := created <$> objectMods bv !! id = Some true.

Lemma mark_used_inv att bv bv' :
  mark_used att bv = Ok bv' →
  attID att ∉ attestationsSeen bv ∧ attestationsSeen bv' = {[attID att]} ∪ attestationsSeen bv ∧
  objectMods bv' = objectMods bv ∧ eventQueue bv' = eventQueue bv.
Proof. unfold mark_used. case_bool_decide; [done|]. by intros [= <-]. Qed.

(** The actions that leave the attestations, the queues and the objects alone. *)
Ltac no_atts :=
  split; [constructor|]; split; [set_solver|]; split; [set_solver|];
  split; [intros id; unfold event_times; simpl; by rewrite app_nil_r|]; split; [done|by intros].

(** One analysed action. *)
Lemma analyzeAction_inv act bv bv' :
  analyzeAction act bv = Ok bv' →
  NoDup (action_atts act) ∧ (∀ x, x ∈ action_atts act → x ∉ attestationsSeen bv) ∧
  attestationsSeen bv' = list_to_set (action_atts act) ∪ attestationsSeen bv ∧
  (∀ id, default [] (eventQueue bv' !! id) = default [] (eventQueue bv !! id) ++ event_times id [act]) ∧
  (∀ id, is_created id bv → is_created id bv') ∧
  (∀ a, act = ActCreateObject a → is_created (CO_ID a) bv').
Proof.
  assert (∀ X : gset string, X = list_to_set [] ∪ X) as HX by set_solver.
  unfold analyzeAction, is_created. destruct act as [a|a|a|a|a|]; simpl.
  - case_bool_decide; [done|]. intros [= <-]. simpl.
    split; [constructor|]. split; [set_solver|]. split; [set_solver|].
    split; [intros id; unfold event_times; simpl; by rewrite app_nil_r|]. split.
    + intros id Hid. destruct (decide (id = CO_ID a)) as [->|]; [by rewrite lookup_insert_eq|by rewrite lookup_insert_ne].
    + intros a' [= ->]. by rewrite lookup_insert_eq.
  - destruct (mark_used (SEv_Attestations a).1 bv) as [bv1| | |] eqn:E1; try done. simpl.
    destruct (mark_used (SEv_Attestations a).2 bv1) as [bv2| | |] eqn:E2; try done. simpl. intros [= <-].
    apply mark_used_inv in E1 as (H1 & S1 & O1 & Q1). apply mark_used_inv in E2 as (H2 & S2 & O2 & Q2).
    rewrite S1 in *. simpl. rewrite S2, O2, O1, Q2, Q1.
    split; [|split; [|split; [|split; [|split; [done|by intros]]]]].
    + apply NoDup_cons. split; [set_solver|apply NoDup_singleton].
    + set_solver.
    + set_solver.
    + intros id. unfold event_times. simpl. case_bool_decide as Hid; simpl.
      * subst id. by rewrite lookup_insert_eq.
      * rewrite lookup_insert_ne by done. by rewrite app_nil_r.
  - case_bool_decide; [done|]. intros [= <-]. no_atts.
  - case_bool_decide; [done|]. intros [= <-]. no_atts.
  - do 2 (case_bool_decide; [done|]). intros [= <-]. no_atts.
  - intros [= <-]. no_atts.
Qed.

Lemma event_times_cons id act acts : event_times id (act :: acts) = event_times id [act] ++ event_times id acts.
Proof. unfold event_times. destruct act as [a|a|a|a|a|]; try done. cbn [omap list_omap]. by case_bool_decide. Qed.

Lemma analyzeActions_inv acts bv bv' :
  analyzeActions acts bv = Ok bv' →
  NoDup (batch_atts acts) ∧ (∀ x, x ∈ batch_atts acts → x ∉ attestationsSeen bv) ∧
  (∀ id, default [] (eventQueue bv' !! id) = default [] (eventQueue bv !! id) ++ event_times id acts) ∧
  (∀ id, is_created id bv → is_created id bv') ∧
  (∀ a, ActCreateObject a ∈ acts → is_created (CO_ID a) bv').
Proof.
  revert bv. induction acts as [|act acts IH]; intros bv; cbn [analyzeActions].
  - intros [= <-]. split_and!; try done; [constructor|set_solver| |set_solver]. intros id. by rewrite app_nil_r.
  - destruct (analyzeAction act bv) as [bv1| | |] eqn:E1; try done. cbn [mbind outcome_bind]. intros H.
    apply analyzeAction_inv in E1 as (N1 & D1 & S1 & Q1 & C1 & A1).
    destruct (IH bv1 H) as (N2 & D2 & Q2 & C2 & A2). rewrite S1 in D2.
    change (batch_atts (act :: acts)) with (action_atts act ++ batch_atts acts). split_and!.
    + apply NoDup_app. split_and!; try done. intros x Hx1 Hx2. specialize (D2 x Hx2). set_solver.
    + intros x [Hx|Hx]%elem_of_app; [by apply D1|]. specialize (D2 x Hx). set_solver.
    + intros id. by rewrite Q2, Q1, (event_times_cons id act acts), app_assoc.
    + auto.
    + intros a [Ha|Ha]%elem_of_cons; [by apply C2, A1|by apply A2].
Qed.

Section batch.
Context {S : Type} `{!Mutable S}.
Context `{!Json (gomap string), !Json (gomap json), !Json CoordinationState}.
Context (rnd : outcome string).

(** An action the batch check can accept. *)
Definition batchable (act : Action) : Prop :=
  match act with ActSendEvent _ | ActSetInputObject _ => True | _ => False end.

Lemma verifyAction_batchable bv act (s s' : S) :
  (∀ a, act = ActCreateObject a → is_created (CO_ID a) bv) →
  verifyAction rnd bv act s = (s', Ok tt) → batchable act.
Proof.
  unfold verifyAction. intros HC H. apply bind_ok_inv in H as ([] & s1 & H1 & H2).
  destruct act as [a|a|a|a|a|]; try done. specialize (HC a eq_refl). unfold is_created in HC.
  unfold lift, verifyCreateInBatch, check in H2. rewrite HC, bool_decide_eq_true_2 in H2; done.
Qed.

(** C17: a batch that verifies has at most 256 actions, all of them events or
    choices of the input object; no attestation is used twice in it, and the
    events of each object are in the order of their times. *)
Theorem VerifyBatch_sound acts (s s' : S) :
  VerifyBatch rnd acts s = (s', Ok tt) →
  Z.of_nat (length acts) ≤ MaxBatchSize ∧ Forall batchable acts ∧ NoDup (batch_atts acts) ∧
  ∀ id, in_order zeroTime (event_times id acts) = true.
Proof.
  unfold VerifyBatch. intros H. apply bind_ok_inv in H as ([] & s0 & [Hlen ->]%fail_if_ok_inv & H).
  apply bind_ok_inv in H as (bv & s1 & Hb & H). unfold lift in Hb. injection Hb as <- Hb.
  apply bind_ok_inv in H as ([] & s2 & Hf & Hc). unfold lift in Hc. injection Hc as _ Hc.
  apply analyzeActions_inv in Hb as (HN & _ & HQ & _ & HC). split_and!; try done.
  - by apply Z.ltb_ge.
  - apply Forall_forall. intros act Hact.
    destruct (for_each_ok_each _ _ _ _ act Hf Hact) as (sa & sb & Hv).
    eapply verifyAction_batchable; [|exact Hv]. intros a ->. by apply HC.
  - intros id. assert (event_times id acts = default [] (eventQueue bv !! id)) as ->.
    { rewrite HQ. simpl. by rewrite lookup_empty. }
    destruct (eventQueue bv !! id) as [q|] eqn:Eq; [|done]. simpl.
    unfold verifyBatchConstraints, check in Hc. destruct (forallb _ _) eqn:Ef; [|done].
    rewrite forallb_forall in Ef. apply (Ef (id, q)). apply list_elem_of_In. by apply elem_of_map_to_list.
Qed.

(** A batch that creates an object or touches a region never verifies: the
    first pass records the creation, and the second takes its own record for a
    duplicate; region actions are unknown to the single-action check. *)
Theorem VerifyBatch_rejects acts (s : S) :
  Exists (λ act, ¬ batchable act) acts → is_ok (VerifyBatch rnd acts s).2 = false.
Proof.
  intros HE. destruct (VerifyBatch rnd acts s) as [s' [[]| | |]] eqn:E; try done. exfalso.
  unfold VerifyBatch in E. apply bind_ok_inv in E as ([] & s0 & [_ ->]%fail_if_ok_inv & E).
  apply bind_ok_inv in E as (bv & s1 & Hb & E). unfold lift in Hb. injection Hb as <- Hb.
  apply bind_ok_inv in E as ([] & s2 & Hf & _). apply analyzeActions_inv in Hb as (_ & _ & _ & _ & HC).
  apply Exists_exists in HE as (act & Hact & Hn). apply Hn.
  destruct (for_each_ok_each _ _ _ _ act Hf Hact) as (sa & sb & Hv).
  eapply verifyAction_batchable; [|exact Hv]. intros a ->. by apply HC.
Qed.
End batch.

(** * Witnesses *)

#[local] Existing Instances obj_Json obj_JsonLaws json_Json coord_Json.

Definition ver_att (id : string) (sec : Z) : TEEAttestation := mkAttestation id "m" (fromUnix sec) "d" "s" "".
Definition ver_event (sec : Z) : SendEventAction := mkSendEvent "obj" "f" "p" (ver_att "a" sec, ver_att "b" sec) "eu".
Definition ver_state : gmap string string :=
  {[ makeObjectKey "eu" "obj" := Marshal (Some ∅ : gomap string); RegionKey "eu" := Marshal (Some ∅ : gomap json) ]}.

Lemma VerifyBatch_sound_witness :
  VerifyBatch (Ok "k") [ActSendEvent (ver_event 1); ActSendEvent (ver_event 2)] ver_state = (ver_state, Ok tt) ∧
  in_order zeroTime (event_times "obj" [ActSendEvent (ver_event 1); ActSendEvent (ver_event 2)]) = true.
Proof.
  assert (VerifyBatch (Ok "k") [ActSendEvent (ver_event 1); ActSendEvent (ver_event 2)] ver_state = (ver_state, Ok tt))
    as H by (vm_compute; reflexivity).
  split; [exact H|]. apply (VerifyBatch_sound (Ok "k") _ ver_state ver_state H).
Defined.

Lemma VerifyBatch_rejects_witness :
  is_ok (VerifyBatch (Ok "k") [ActCreateObject (mkCreateObject "new" "c" "" "eu")] ver_state).2 = false.
Proof.
  apply (VerifyBatch_rejects (Ok "k")). constructor. intros H. exact H.
Defined.
