(* ===== verification/RegionModel.v ===== *)
(** [region.go]: the region record of the VM with its TEE pairs, and the
    operations on the pairs.  A pair is the same as another for [AddTEEPair] and
    [RemoveTEEPair] when both endpoints agree, and for the other operations when
    the ids agree. *)

From S2P Require Import Prelude GoTime Core.
From Stdlib Require Import ZArith Lia Ascii String.
From stdpp Require Import base tactics option list strings pretty gmap.

Local Open Scope Z_scope.

Record TEEPairConfig : Type := mkPairConfig {
  PC_ID : string;
  PC_SGXEndpoint : string;
  PC_SEVEndpoint : string;
  PC_Status : string;
}.

#[export] Instance TEEPairConfig_eq_dec : EqDecision TEEPairConfig.
Proof. solve_decision. Defined.

Record VMRegion : Type := mkVMRegion {
  VR_ID : string;
  VR_TEEPairs : list TEEPairConfig;
  VR_Status : string;
  VR_CreatedAt : Time;
  VR_LastUpdated : Time;
  VR_Attestations : TEEAttestation * TEEAttestation;
  VR_MaxObjects : Z;
  VR_MaxEvents : Z;
}.

Definition RegionStatusActive : string := "active".
Definition RegionStatusInactive : string := "inactive".
Definition RegionStatusError : string := "error".

Definition vm_ErrInvalidRegionID := Sentinel "vm" "ErrInvalidRegionID".
Definition vm_ErrInvalidTEE := Sentinel "vm" "ErrInvalidTEE".
Definition vm_ErrInvalidRegion := Sentinel "vm" "ErrInvalidRegion".

Definition set_pairs (ps : list TEEPairConfig) (r : VMRegion) : VMRegion :=
  mkVMRegion (VR_ID r) ps (VR_Status r) (VR_CreatedAt r) (VR_LastUpdated r) (VR_Attestations r)
    (VR_MaxObjects r) (VR_MaxEvents r).
Definition touched (now : Time) (st : string) (r : VMRegion) : VMRegion :=
  mkVMRegion (VR_ID r) (VR_TEEPairs r) st (VR_CreatedAt r) (UTC now) (VR_Attestations r)
    (VR_MaxObjects r) (VR_MaxEvents r).

Definition Region_Validate (r : VMRegion) : verdict :=
  check (bool_decide (VR_ID r = "")) vm_ErrInvalidRegionID ;;
  check (length (VR_TEEPairs r) =? 0)%nat vm_ErrInvalidTEE ;;
  check (bool_decide (VR_Status r = "")) vm_ErrInvalidRegion ;;
  check (IsZero (VR_CreatedAt r)) vm_ErrInvalidRegion.

Definition IsActive (r : VMRegion) : bool := bool_decide (VR_Status r = RegionStatusActive).
Definition CanExecute (r : VMRegion) : bool := IsActive r && (1 <=? length (VR_TEEPairs r))%nat.

Definition Region_GetTEEPair (r : VMRegion) : outcome TEEPairConfig :=
  match VR_TEEPairs r with p :: _ => Ok p | [] => Err vm_ErrInvalidTEE end.

Definition Region_UpdateStatus (now : Time) (status : string) (r : VMRegion) : VMRegion := touched now status r.

Definition same_endpoints (p q : TEEPairConfig) : Prop :=
  PC_SGXEndpoint p = PC_SGXEndpoint q ∧ PC_SEVEndpoint p = PC_SEVEndpoint q.
#[export] Instance same_endpoints_dec p q : Decision (same_endpoints p q).
Proof. unfold same_endpoints. apply _. Defined.

Definition AddTEEPair (pair : TEEPairConfig) (r : VMRegion) : VMRegion :=
  if existsb (λ e, bool_decide (same_endpoints e pair)) (VR_TEEPairs r) then r
  else set_pairs (VR_TEEPairs r ++ [pair]) r.

Definition RemoveTEEPair (pair : TEEPairConfig) (r : VMRegion) : VMRegion :=
  set_pairs (filter (λ e, ¬ same_endpoints e pair) (VR_TEEPairs r)) r.

Definition GetTEEPairByID (id : string) (r : VMRegion) : outcome TEEPairConfig :=
  match head (filter (λ p, PC_ID p = id) (VR_TEEPairs r)) with Some p => Ok p | None => Err vm_ErrInvalidTEE end.

Definition HasTEEPair (id : string) (r : VMRegion) : bool :=
  existsb (λ p, bool_decide (PC_ID p = id)) (VR_TEEPairs r).

(** The first pair with the id is replaced. *)
Fixpoint replace_pair (pair : TEEPairConfig) (ps : list TEEPairConfig) : option (list TEEPairConfig) :=
  match ps with
  | [] => None
  | p :: ps' => if bool_decide (PC_ID p = PC_ID pair) then Some (pair :: ps')
                else (λ l, p :: l) <$> replace_pair pair ps'
  end.

Definition UpdateTEEPair (now : Time) (pair : TEEPairConfig) : go VMRegion unit := λ r,
  match replace_pair pair (VR_TEEPairs r) with
  | Some ps => (touched now (VR_Status r) (set_pairs ps r), Ok tt)
  | None => (r, Err vm_ErrInvalidTEE)
  end.

(** * Properties *)

(** No two pairs share both endpoints. *)
Definition endpoints (p : TEEPairConfig) : string * string := (PC_SGXEndpoint p, PC_SEVEndpoint p).
Definition pairs_distinct (r : VMRegion) : Prop := NoDup (endpoints <$> VR_TEEPairs r).

Lemma same_endpoints_iff p q : same_endpoints p q ↔ endpoints p = endpoints q.
Proof. unfold same_endpoints, endpoints. split; [by intros [-> ->]|by intros [= -> ->]]. Qed.

Lemma existsb_endpoints pair ps :
  existsb (λ e, bool_decide (same_endpoints e pair)) ps = true ↔ endpoints pair ∈ endpoints <$> ps.
Proof.
  rewrite existsb_exists, list_elem_of_fmap. split.
  - intros (e & Hin & H%bool_decide_eq_true_1%same_endpoints_iff). exists e. split; [done|]. by apply list_elem_of_In.
  - intros (e & H & Hin). exists e. split; [by apply list_elem_of_In|].
    by apply bool_decide_eq_true_2, same_endpoints_iff.
Qed.

(** Adding and removing pairs keeps the endpoints of a region's pairs
    distinct; an added pair's endpoints are present, a removed one's are gone,
    and no other pair is touched. *)
Theorem pair_set_operations pair r :
  pairs_distinct r →
  pairs_distinct (AddTEEPair pair r) ∧ pairs_distinct (RemoveTEEPair pair r) ∧
  (∀ e, e ∈ endpoints <$> VR_TEEPairs (AddTEEPair pair r) ↔ e = endpoints pair ∨ e ∈ endpoints <$> VR_TEEPairs r) ∧
  (∀ p, p ∈ VR_TEEPairs (RemoveTEEPair pair r) ↔ p ∈ VR_TEEPairs r ∧ endpoints p ≠ endpoints pair).
Proof.
  unfold pairs_distinct. intros HD. split_and!.
  - unfold AddTEEPair. destruct (existsb _ _) eqn:E; [done|]. simpl. rewrite fmap_app. apply NoDup_app.
    split_and!; [done| |apply NoDup_singleton]. intros e He ->%list_elem_of_singleton.
    apply existsb_endpoints in He. congruence.
  - simpl. revert HD. induction (VR_TEEPairs r) as [|p ps IH]; simpl; [done|].
    rewrite NoDup_cons. intros [Hp HD]. rewrite filter_cons. case_decide; [|auto]. simpl. apply NoDup_cons.
    split; [|auto]. rewrite list_elem_of_fmap. intros (q & Hq & Hin%list_elem_of_filter). apply Hp.
    rewrite Hq. apply list_elem_of_fmap_2. apply Hin.
  - intros e. unfold AddTEEPair. destruct (existsb _ _) eqn:E.
    + apply existsb_endpoints in E. naive_solver.
    + simpl. rewrite fmap_app, elem_of_app. simpl. rewrite list_elem_of_singleton. tauto.
  - intros p. simpl. rewrite list_elem_of_filter, same_endpoints_iff. tauto.
Qed.

Lemma replace_pair_lookup pair ps ps' :
  replace_pair pair ps = Some ps' →
  ∃ i p, ps !! i = Some p ∧ PC_ID p = PC_ID pair ∧ ps' = <[i := pair]> ps ∧ ∀ j q, (j < i)%nat → ps !! j = Some q → PC_ID q ≠ PC_ID pair.
Proof.
  revert ps'. induction ps as [|p ps IH]; intros ps'; simpl; [done|]. case_bool_decide as E.
  - intros [= <-]. exists 0%nat, p. split_and!; try done. lia.
  - intros (l & Hl & ->)%fmap_Some_1. destruct (IH l Hl) as (i & q & Hq & Hid & -> & Hlt).
    exists (S i), q. split_and!; try done. intros [|j] q' Hj; simpl; [by intros [= <-]|]. intros. apply (Hlt j); [lia|done].
Qed.

Definition sample_region : VMRegion :=
  mkVMRegion "eu" [mkPairConfig "p1" "sgx1" "sev1" "active"] RegionStatusActive (fromUnix 1) (fromUnix 1)
    (mkAttestation "" "" zeroTime "" "" "", mkAttestation "" "" zeroTime "" "" "") 10 10.

Lemma pair_set_operations_witness :
  pairs_distinct (AddTEEPair (mkPairConfig "p2" "sgx2" "sev2" "active") sample_region).
Proof.
  apply (pair_set_operations (mkPairConfig "p2" "sgx2" "sev2" "active") sample_region).
  apply NoDup_singleton.
Defined.
