(* ===== verification/RangeState.v ===== *)
(** Package [coordination/state]: range proofs and their cache ([cache.go],
    [range_proof.go]), the Merkle store that produces them ([types.go]) and the
    coordinated state manager with its change sets and batches ([manager.go]).

    A byte slice whose nil-ness or capacity the code observes is a [slice]; the
    order in which a [range] visits a map is an argument ([MapRange]). *)

From S2P Require Import Prelude GoTime KV.
From Stdlib Require Import ZArith Lia Ascii String.
From stdpp Require Import base tactics option list strings pretty gmap sorting.

Local Open Scope Z_scope.

(** * Go slices and ranges over maps *)

(** A [[]byte]: nil, or its bytes with the bytes between its length and its
    capacity, which a reslice reaches. *)
Abbreviation slice := (option (string * string)).

Definition sbytes (b : slice) : string :=
  match b with Some (s, _) => s | None => "" end.

Definition whole (b : slice) : string :=
  match b with Some (s, spare) => s +s+ spare | None => "" end.

(** A slice of exactly these bytes. *)
Definition of_bytes (s : string) : slice := Some (s, "").

(** [b[:n]], bounded by the capacity. *)
Definition reslice (n : nat) (b : slice) : outcome string :=
  if (n <=? String.length (whole b))%nat then Ok (substring 0 n (whole b))
  else Panic "slice bounds out of range".

(** [for k, v := range m]: the [n]-th loop of a function visits every entry
    once, in an order the language leaves open. *)
Class MapRange : Type := {
  range_map : ∀ A, nat → gmap string A → list (string * A);
  range_map_perm : ∀ A n (m : gmap string A), range_map A n m ≡ₚ map_to_list m;
}.
Arguments range_map {_ _} _ _.

(** Two instances, to evaluate the definitions: one order and its reverse. *)
Definition canonical_MapRange : MapRange :=
  {| range_map A n m := map_to_list m; range_map_perm A n m := Permutation_refl _ |}.

Definition reversed_MapRange : MapRange :=
  {| range_map A n m := reverse (map_to_list m);
     range_map_perm A n m := reverse_Permutation (map_to_list m) |}.

Section ranges.
Context `{MR : MapRange}.

Lemma elem_of_range_map {A} n (m : gmap string A) k x :
  (k, x) ∈ range_map n m ↔ m !! k = Some x.
Proof. by rewrite range_map_perm, elem_of_map_to_list. Qed.

Lemma NoDup_range_map {A} n (m : gmap string A) : NoDup (range_map n m).*1.
Proof. rewrite range_map_perm. apply NoDup_fst_map_to_list. Qed.

Lemma elem_of_range_map_keys {A} n (m : gmap string A) k :
  k ∈ (range_map n m).*1 ↔ k ∈ dom m.
Proof. by rewrite range_map_perm, dom_alt, elem_of_list_to_set. Qed.

Lemma list_to_map_range_map {A} n (m : gmap string A) : list_to_map (range_map n m) = m.
Proof.
  rewrite <-(list_to_map_to_list m) at 2. apply list_to_map_proper, range_map_perm.
  apply NoDup_range_map.
Qed.

Lemma length_range_map {A} n (m : gmap string A) : length (range_map n m) = size m.
Proof. by rewrite range_map_perm, length_map_to_list. Qed.
End ranges.

(** * Range proofs *)

(** [database.BatchOp]. *)
Record BatchOp : Type := mkOp {
  op_Key : string;
  op_Value : string;
  op_Delete : bool;
}.

Record RangeProof (Pf : Type) : Type := mkRangeProof {
  StartKey : slice;
  EndKey : slice;
  Entries : gmap string string;
  Proof_ : Pf;
}.
Arguments mkRangeProof {_} _ _ _ _.
Arguments StartKey {_} _.
Arguments EndKey {_} _.
Arguments Entries {_} _.
Arguments Proof_ {_} _.

Definition IsInRange (key : string) (start end_ : slice) : bool :=
  String.leb (sbytes start) key &&
  match end_ with None => true | Some (e, _) => String.leb key e end.

Definition makeRangeKey (start end_ : slice) : string :=
  sbytes start +s+ "-" +s+ sbytes end_.

Definition defaultMaxKeyLen : Z := 512.

(** ** The cache *)

Record RangeCache (Pf : Type) : Type := mkRC {
  entries : gmap string (gmap string (RangeProof Pf));
  rc_size : Z;
}.
Arguments mkRC {_} _ _.
Arguments entries {_} _.
Arguments rc_size {_} _.

Section cache.
Context {Pf : Type} `{MR : MapRange}.
Implicit Types (c : RangeCache Pf) (proof : RangeProof Pf).

Definition NewRangeCache (maxSize : Z) : RangeCache Pf := mkRC ∅ maxSize.

Definition Cache_Get (start end_ : slice) (root : string) c : option (RangeProof Pf) :=
  match entries c !! root with
  | None => None
  | Some cache => cache !! makeRangeKey start end_
  end.

(** The scan of [evictLeastUsed]: the first root with the fewest entries. *)
Fixpoint least_used (l : list (string * gmap string (RangeProof Pf)))
    (leastRoot : string) (leastSize : Z) : string * Z :=
  match l with
  | [] => (leastRoot, leastSize)
  | (root, cache) :: l' =>
      let n := Z.of_nat (size cache) in
      if (leastSize =? -1) || (n <? leastSize) then least_used l' root n
      else least_used l' leastRoot leastSize
  end.

Definition evictLeastUsed c : RangeCache Pf :=
  let '(leastRoot, leastSize) := least_used (range_map 0 (entries c)) "" (-1) in
  if leastSize =? -1 then c else mkRC (delete leastRoot (entries c)) (rc_size c).

Definition Cache_Put proof (root : string) c : RangeCache Pf :=
  let cache := default ∅ (entries c !! root) in
  let key := makeRangeKey (StartKey proof) (EndKey proof) in
  let c' := mkRC (<[root := <[key := proof]> cache]> (entries c)) (rc_size c) in
  if rc_size c' <? Z.of_nat (size (entries c')) then evictLeastUsed c' else c'.
End cache.

(** * The Merkle store *)

(** merkledb: a database, its views, their proofs and their iterators.  An
    iterator is the entries it yields and the error it ends with. *)
Class RangeViews (M V Pf : Type) : Type := {
  rdb_NewView : list BatchOp → M → outcome V;
  rv_GetValue : string → V → outcome string;
  rv_GetProof : string → V → outcome Pf;
  rv_GetMerkleRoot : V → outcome string;
  rv_GetRangeProof : string → string → Z → V → outcome Pf;
  rv_iter : V → list (string * string);
  rv_iter_error : V → option goerr;
}.

Definition apply_op (m : gmap string string) (op : BatchOp) : gmap string string :=
  if op_Delete op then delete (op_Key op) m else <[op_Key op := op_Value op]> m.

(** What merkledb documents: a view is the database with the changes on top,
    its iterator yields the contents in key order. *)
Class RangeViewsLaws (M V Pf : Type) `{!RangeViews M V Pf} : Type := {
  db_contents : M → gmap string string;
  rv_contents : V → gmap string string;
  rdb_NewView_contents : ∀ ops db v,
    rdb_NewView ops db = Ok v → rv_contents v = foldl apply_op (db_contents db) ops;
  rv_iter_perm : ∀ v, rv_iter v ≡ₚ map_to_list (rv_contents v);
  rv_iter_sorted : ∀ v, StronglySorted (λ a b, String.leb a b = true) (rv_iter v).*1;
}.

Record MerkleStore (M V Pf : Type) : Type := mkMS {
  ms_db : M;
  ms_view : V;
  ms_cache : RangeCache Pf;
}.
Arguments mkMS {_ _ _} _ _ _.
Arguments ms_db {_ _ _} _.
Arguments ms_view {_ _ _} _.
Arguments ms_cache {_ _ _} _.

Section store.
Context {M V Pf : Type} `{!RangeViews M V Pf} `{MR : MapRange}.
Abbreviation MS := (MerkleStore M V Pf).

(** A nil interface has no methods to call. *)
Definition NewMerkleStore (db : option M) : outcome MS :=
  match db with
  | None => Panic "nil pointer dereference"
  | Some db =>
      view ← rdb_NewView [] db;
      mret (mkMS db view (NewRangeCache 1000))
  end.

Definition MS_Get (key : string) : go MS string :=
  v ← gets ms_view; lift (rv_GetValue key v).

Definition MS_GetProof (key : string) : go MS Pf :=
  v ← gets ms_view; lift (rv_GetProof key v).

Definition MS_GetRoot : go MS string :=
  v ← gets ms_view; lift (rv_GetMerkleRoot v).

(** The loop over the iterator: the entries, and whether it was run to its end. *)
Fixpoint collect_range (start end_ : slice) (l : list (string * string))
    (acc : gmap string string) : gmap string string * bool :=
  match l with
  | [] => (acc, true)
  | (key, value) :: l' =>
      if String.ltb key (sbytes start) then collect_range start end_ l' acc
      else match end_ with
           | Some (e, _) => if String.ltb e key then (acc, false)
                            else collect_range start end_ l' (<[key := value]> acc)
           | None => collect_range start end_ l' (<[key := value]> acc)
           end
  end.

Definition GetRangeProof (start end_ : slice) : go MS (RangeProof Pf) :=
  root ← MS_GetRoot;
  cached ← gets (λ s, Cache_Get start end_ root (ms_cache s));
  match cached with
  | Some proof => mret proof
  | None =>
      view ← gets ms_view;
      proof ← lift (rv_GetRangeProof (sbytes start) (sbytes end_) defaultMaxKeyLen view);
      let '(entries, exhausted) := collect_range start end_ (rv_iter view) ∅ in
      match (if exhausted then rv_iter_error view else None) with
      | Some e => fail e
      | None =>
          let rangeProof := mkRangeProof start end_ entries proof in
          modify (λ s, mkMS (ms_db s) (ms_view s) (Cache_Put rangeProof root (ms_cache s))) ;;
          mret rangeProof
      end
  end.

(** The new view is made of the database, not of the current view. *)
Definition MS_Commit (changes : list BatchOp) : go MS unit :=
  db ← gets ms_db;
  newView ← lift (rdb_NewView changes db);
  modify (λ s, mkMS (ms_db s) newView (NewRangeCache 1000)).
End store.

(** * The coordinated state manager *)

(** The [StateStore] interface of the manager. *)
Class StateStore (S Pf : Type) : Type := {
  ss_Get : string → S → outcome string;
  ss_GetProof : string → S → outcome Pf;
  ss_GetRoot : S → outcome string;
  ss_VerifyProof : string → string → Pf → S → outcome unit;
  ss_NewView : list BatchOp → go S unit;
}.

(** A store that applies the operations of a view in order. *)
Class StateStoreLaws (S Pf : Type) `{!StateStore S Pf} : Type := {
  ss_contents : S → gmap string string;
  ss_NewView_ok : ∀ ops s, (ss_NewView ops s).2 = Ok tt;
  ss_NewView_contents : ∀ ops s,
    ss_contents (ss_NewView ops s).1 = foldl apply_op (ss_contents s) ops;
}.

Record StateAccess : Type := mkAccess {
  ReadKeys : gmap string Time;
  WriteKeys : gmap string Time;
  LastAccess : Time;
}.

(** The syncer holds the manager's own store. *)
Record CoordStateManager (S : Type) : Type := mkCSM {
  csm_store : S;
  accessed : gmap string StateAccess;
  csm_height : Z;
  csm_root : string;
  syncTimeout : Z;
}.
Arguments mkCSM {_} _ _ _ _ _.
Arguments csm_store {_} _.
Arguments accessed {_} _.
Arguments csm_height {_} _.
Arguments csm_root {_} _.
Arguments syncTimeout {_} _.

(** [ids.Empty]. *)
Definition EmptyID : string := be_put 32 0.

Record StateChange : Type := mkStateChange {
  updates : gmap string string;
  deletions : gmap string unit;
}.

Record SyncRequest : Type := mkSync {
  sync_Root : string;
  sync_Keys : list string;
  sync_Workers : list string;
}.

Section manager.
Context {S Pf : Type} `{!StateStore S Pf} `{MR : MapRange}.
Abbreviation CSM := (CoordStateManager S).

Definition NewCoordStateManager (store : S) (timeout : Z) : CSM :=
  mkCSM store ∅ 0 EmptyID timeout.

(** [time.Now()] is read at each access; here one reading serves a call. *)
Definition track (now : Time) (key : string) (isWrite : bool)
    (m : gmap string StateAccess) : gmap string StateAccess :=
  let a := default (mkAccess ∅ ∅ zeroTime) (m !! key) in
  let a' := if isWrite then mkAccess (ReadKeys a) (<[key := now]> (WriteKeys a)) now
            else mkAccess (<[key := now]> (ReadKeys a)) (WriteKeys a) now in
  <[key := a']> m.

Definition trackAccess (now : Time) (key : string) (isWrite : bool) : go CSM unit :=
  modify (λ m, mkCSM (csm_store m) (track now key isWrite (accessed m))
                     (csm_height m) (csm_root m) (syncTimeout m)).

(** [if err := VerifyProof(...); err != nil { return ErrInvalidProof }]. *)
Definition ErrInvalidProof := Sentinel "state" "ErrInvalidProof".

Definition GetValue (now : Time) (key : string) : go CSM string :=
  trackAccess now key false ;;
  store ← gets csm_store;
  value ← lift (ss_Get key store);
  proof ← lift (ss_GetProof key store);
  checked ← try (lift (ss_VerifyProof key value proof store));
  match checked with
  | inl _ => mret value
  | inr _ => fail ErrInvalidProof
  end.

Definition Sync (req : SyncRequest) : go CSM unit :=
  for_each (λ key,
    store ← gets csm_store;
    value ← lift (ss_Get key store);
    proof ← lift (ss_GetProof key store);
    lift (ss_VerifyProof key value proof store)) (sync_Keys req).

Definition SyncState (workers keys : list string) : go CSM unit :=
  store ← gets csm_store;
  root ← lift (ss_GetRoot store);
  Sync (mkSync root keys workers).

Definition UpdateRoot (height : Z) (root : string) (m : CSM) : CSM :=
  mkCSM (csm_store m) (accessed m) height root (syncTimeout m).
Definition GetStateRoot (m : CSM) : string := csm_root m.
Definition GetHeight (m : CSM) : Z := csm_height m.
(** The copy is deep, so it is the value of the map at the call. *)
Definition GetAccessed (m : CSM) : gmap string StateAccess := accessed m.

Definition NewStateChange : StateChange := mkStateChange ∅ ∅.
Definition SC_Put (key value : string) (sc : StateChange) : StateChange :=
  mkStateChange (<[key := value]> (updates sc)) (deletions sc).
Definition SC_Delete (key : string) (sc : StateChange) : StateChange :=
  mkStateChange (updates sc) (<[key := tt]> (deletions sc)).

Definition on_store {A} (m : go S A) : go CSM A :=
  zoom csm_store (λ s c, mkCSM s (accessed c) (csm_height c) (csm_root c) (syncTimeout c)) m.

Definition CommitChanges (now : Time) (changes : StateChange) : go CSM unit :=
  let ups := range_map 0 (updates changes) in
  let dels := range_map 1 (deletions changes) in
  for_each (λ kv, trackAccess now kv.1 true) ups ;;
  for_each (λ kv, trackAccess now kv.1 true) dels ;;
  on_store (ss_NewView (((λ kv, mkOp kv.1 kv.2 false) <$> ups) ++
                        ((λ kv, mkOp kv.1 "" true) <$> dels))).

(** A [StateBatch] is its list of operations. *)
Abbreviation StateBatch := (list BatchOp).
Definition NewBatch : StateBatch := [].
Definition Batch_Put (key value : string) (b : StateBatch) : StateBatch := b ++ [mkOp key value false].
Definition Batch_Delete (key : string) (b : StateBatch) : StateBatch := b ++ [mkOp key "" true].
Definition Batch_Size (b : StateBatch) : Z := Z.of_nat (length b).

Definition CommitBatch (now : Time) (batch : StateBatch) : go CSM unit :=
  for_each (λ op, trackAccess now (op_Key op) true) batch ;;
  on_store (ss_NewView batch).
End manager.

(** * Theorems: the cache and the Merkle store *)

Lemma ltb_leb (a b : string) : String.ltb a b = negb (String.leb b a).
Proof.
  unfold String.ltb, String.leb. rewrite (String.compare_antisym b a).
  by destruct (String.compare a b).
Qed.

Lemma leb_trans (a b c : string) :
  String.leb a b = true → String.leb b c = true → String.leb a c = true.
Proof. rewrite <-!Is_true_true. apply (transitivity (R := String.le)). Qed.

Lemma leb_refl (a : string) : String.leb a a = true.
Proof. rewrite <-Is_true_true. reflexivity. Qed.

(** The part of the contents a range covers. *)
Definition range_entries (m : gmap string string) (start end_ : slice) : gmap string string :=
  filter (λ kv, IsInRange kv.1 start end_ = true) m.

Section cache_theory.
Context {Pf : Type} `{MR : MapRange}.
Implicit Types (c : RangeCache Pf) (p : RangeProof Pf).

Lemma least_used_in l r n :
  (n = -1 ∨ 0 ≤ n) →
  let res := least_used (Pf := Pf) l r n in
  res = (r, n) ∨ ∃ cache, (res.1, cache) ∈ l ∧ res.2 = Z.of_nat (size cache).
Proof.
  revert r n. induction l as [|[root cache] l IH]; intros r n Hn; [by left|]. cbn [least_used].
  destruct (_ || _).
  - right. destruct (IH root (Z.of_nat (size cache))) as [->|(c' & H & E)]; [lia| |];
      eexists; (split; [|done]); [left|right; done].
  - destruct (IH r n Hn) as [->|(c' & H & E)]; [by left|right]. exists c'. split; [by right|done].
Qed.

(** The eviction takes one root away from a cache that has any. *)
Lemma size_evictLeastUsed c :
  entries c ≠ ∅ → size (entries (evictLeastUsed c)) = pred (size (entries c)).
Proof.
  intros Hne. unfold evictLeastUsed.
  pose proof (least_used_in (range_map 0 (entries c)) "" (-1) (or_introl eq_refl)) as H.
  destruct (least_used _ _ _) as [r n] eqn:E. cbn [fst snd] in H.
  destruct H as [H|(cache & Hin & Hn)].
  - exfalso. injection H as -> ->. destruct (range_map 0 (entries c)) as [|[root cache] l] eqn:El.
    + apply Hne, map_to_list_empty_iff, Permutation_nil_r. rewrite <-El. symmetry. apply range_map_perm.
    + cbn in E. destruct (least_used_in l root (Z.of_nat (size cache))) as [H|(c' & H & E')]; [lia| |];
        rewrite E in *; simplify_eq/=; lia.
  - apply elem_of_range_map in Hin.
    rewrite (proj2 (Z.eqb_neq n (-1))) by lia. cbn [entries].
    by apply map_size_delete_Some.
Qed.

(** The number of roots in the cache never exceeds its size. *)
Lemma Cache_Put_bounded p root c :
  0 ≤ rc_size c → Z.of_nat (size (entries c)) ≤ rc_size c →
  Z.of_nat (size (entries (Cache_Put p root c))) ≤ rc_size (Cache_Put p root c).
Proof.
  intros H0 Hb. unfold Cache_Put. cbn [entries rc_size].
  destruct (_ <? _) eqn:Hl; [|by apply Z.ltb_ge in Hl].
  apply Z.ltb_lt in Hl. set (c' := mkRC _ _).
  assert (rc_size (evictLeastUsed c') = rc_size c) as ->.
  { unfold evictLeastUsed. destruct (least_used _ _ _). by destruct (_ =? -1). }
  rewrite size_evictLeastUsed by (apply insert_non_empty). cbn [c' entries] in *.
  rewrite map_size_insert in Hl |- *. destruct (entries c !! root); simpl in *; unfold id in *; lia.
Qed.

(** Below its size the cache only grows. *)
Lemma entries_Cache_Put p root c :
  Z.of_nat (size (entries c)) < rc_size c →
  Cache_Put p root c =
    mkRC (<[root := <[makeRangeKey (StartKey p) (EndKey p) := p]> (default ∅ (entries c !! root))]>
            (entries c)) (rc_size c).
Proof.
  intros Hb. unfold Cache_Put. cbn [entries rc_size].
  rewrite (proj2 (Z.ltb_ge _ _)); [done|]. rewrite map_size_insert.
  destruct (entries c !! root); simpl; unfold id; lia.
Qed.
End cache_theory.

Section store_theory.
Context {M V Pf : Type} `{!RangeViews M V Pf, !RangeViewsLaws M V Pf}.
Abbreviation MS := (MerkleStore M V Pf).
Implicit Types (s : MS) (p : RangeProof Pf).

Lemma filter_above (start end_ : slice) e spare (l : list (string * string)) :
  end_ = Some (e, spare) → Forall (λ kv, String.leb kv.1 e = false) l →
  filter (λ kv, IsInRange kv.1 start end_ = true) l = [].
Proof.
  intros -> H. induction H as [|[k v] l Hk Hl IH]; [done|].
  rewrite filter_cons_False; [done|]. unfold IsInRange. cbn [fst] in *. by rewrite Hk, andb_false_r.
Qed.

Lemma collect_range_filter (start end_ : slice) l acc :
  StronglySorted (λ a b, String.leb a b = true) l.*1 → NoDup l.*1 →
  (collect_range start end_ l acc).1 =
    list_to_map (filter (λ kv, IsInRange kv.1 start end_ = true) l) ∪ acc.
Proof.
  revert acc. induction l as [|[k v] l IH]; intros acc Hs Hd.
  { cbn. by rewrite (left_id_L ∅ (∪)). }
  cbn [fmap list_fmap fst] in Hs, Hd. apply StronglySorted_inv in Hs as [Hs Hk].
  apply NoDup_cons in Hd as [Hn Hd]. cbn [collect_range]. rewrite ltb_leb.
  destruct (String.leb (sbytes start) k) eqn:Es; cbn [negb].
  2:{ rewrite filter_cons_False by (unfold IsInRange; cbn; by rewrite Es). by apply IH. }
  assert (∀ m : gmap string string, IsInRange k start end_ = true →
            list_to_map (filter (λ kv, IsInRange kv.1 start end_ = true) l) ∪ <[k:=v]> m =
            list_to_map (filter (λ kv, IsInRange kv.1 start end_ = true) ((k, v) :: l)) ∪ m) as Hin.
  { intros m Hr. rewrite filter_cons_True by done. cbn [list_to_map foldr].
    rewrite <-insert_union_l, <-insert_union_r; [done|].
    apply not_elem_of_list_to_map. intros (kv & -> & Hkv)%list_elem_of_fmap.
    apply Hn, list_elem_of_fmap. exists kv. split; [done|]. by apply list_elem_of_filter in Hkv as []. }
  unfold IsInRange at 1 in Hin. cbn [fst] in Hin. rewrite Es in Hin. cbn [andb] in Hin.
  destruct end_ as [[e spare]|] eqn:Ee; [|rewrite IH by done; by apply Hin].
  rewrite ltb_leb. destruct (String.leb k e) eqn:Ek; cbn [negb fst]; [rewrite IH by done; by apply Hin|].
  rewrite (filter_above _ _ e spare) by
    (first [done | constructor; [done|]; clear IH Hin Hs Hn Hd;
       apply Forall_forall; intros kv Hkv; rewrite Forall_forall in Hk;
       destruct (String.leb kv.1 e) eqn:E; [|done]; rewrite <-Ek; symmetry;
       apply (leb_trans _ kv.1); [apply Hk; by apply list_elem_of_fmap_2|done] ]).
  cbn [list_to_map foldr]. by rewrite (left_id_L ∅ (∪)).
Qed.

Lemma rv_iter_NoDup (v : V) : NoDup (rv_iter v).*1.
Proof. rewrite rv_iter_perm. apply NoDup_fst_map_to_list. Qed.

Lemma collect_range_view (start end_ : slice) (v : V) :
  (collect_range start end_ (rv_iter v) ∅).1 = range_entries (rv_contents v) start end_.
Proof.
  rewrite collect_range_filter, (right_id_L ∅ (∪)) by (apply rv_iter_sorted || apply rv_iter_NoDup).
  unfold range_entries. rewrite map_filter_alt. apply list_to_map_proper.
  - eapply sublist_NoDup; [|apply fmap_sublist, sublist_filter]. apply rv_iter_NoDup.
  - by rewrite rv_iter_perm.
Qed.

(** ** The store over its lifetime

    [ms_step Q]: a range request that satisfies [Q], whatever its outcome and the
    orders of the ranges over maps, or a commit. *)
Inductive ms_step (Q : slice → slice → Prop) : relation MS :=
  | step_request (MR : MapRange) start end_ s :
      Q start end_ → ms_step Q s (GetRangeProof (MR := MR) start end_ s).1
  | step_commit changes s : ms_step Q s (MS_Commit changes s).1.

Definition ms_reachable (Q : slice → slice → Prop) (s : MS) : Prop :=
  ∃ db s0, NewMerkleStore (Some db) = Ok s0 ∧ rtc (ms_step Q) s0 s.

(** Every cached proof is filed under the current root and its own range, and
    holds that range of the current view. *)
Definition store_inv (Q : slice → slice → Prop) (s : MS) : Prop :=
  rc_size (ms_cache s) = 1000 ∧
  ∀ root cache, entries (ms_cache s) !! root = Some cache →
    rv_GetMerkleRoot (ms_view s) = Ok root ∧
    ∀ key p, cache !! key = Some p →
      key = makeRangeKey (StartKey p) (EndKey p) ∧ Q (StartKey p) (EndKey p) ∧
      Entries p = range_entries (rv_contents (ms_view s)) (StartKey p) (EndKey p).

Lemma store_inv_fresh Q (db : M) (v : V) : store_inv Q (mkMS db v (NewRangeCache 1000)).
Proof. split; [done|]. intros root cache H. unfold NewRangeCache in H. cbn [ms_cache entries] in H.
  by rewrite lookup_empty in H.
Qed.

(** A root identifies the view, so at most one is ever cached. *)
Lemma store_inv_one_root Q s : store_inv Q s → (size (entries (ms_cache s)) ≤ 1)%nat.
Proof.
  intros [_ H]. rewrite <-size_dom.
  destruct (decide (dom (entries (ms_cache s)) = ∅)) as [->|[r Hr]%set_choose_L]; [rewrite size_empty; lia|].
  rewrite <-(size_singleton (C := gset string) r). apply subseteq_size. intros r' Hr'.
  apply elem_of_dom in Hr as [c Hc], Hr' as [c' Hc'].
  apply H in Hc as [E _], Hc' as [E' _]. rewrite E in E'. injection E' as ->. set_solver.
Qed.

(** What a range request does to a store that satisfies the invariant. *)
Lemma GetRangeProof_run `{MR : MapRange} Q start end_ s s' o :
  store_inv Q s → GetRangeProof start end_ s = (s', o) →
  (s' = s ∧ ∀ p, o = Ok p → ∃ root, rv_GetMerkleRoot (ms_view s) = Ok root ∧
     Cache_Get start end_ root (ms_cache s) = Some p) ∨
  ∃ root pf, let p := mkRangeProof start end_ (range_entries (rv_contents (ms_view s)) start end_) pf in
    o = Ok p ∧ rv_GetMerkleRoot (ms_view s) = Ok root ∧
    s' = mkMS (ms_db s) (ms_view s)
           (mkRC (<[root := <[makeRangeKey start end_ := p]> (default ∅ (entries (ms_cache s) !! root))]>
                    (entries (ms_cache s))) 1000).
Proof.
  intros Hinv Hrun. pose proof (store_inv_one_root Q s Hinv) as H1. destruct Hinv as [Hsz _].
  unfold GetRangeProof, MS_GetRoot in Hrun. go_unfold.
  destruct (rv_GetMerkleRoot (ms_view s)) as [root| | |] eqn:Er; try (left; by simplify_eq).
  destruct (Cache_Get start end_ root (ms_cache s)) as [p|] eqn:Ec;
    [left; simplify_eq; split; [done|]; intros ? [= <-]; eauto|].
  destruct (rv_GetRangeProof _ _ _ _) as [pf| | |]; try (left; by simplify_eq).
  pose proof (collect_range_view start end_ (ms_view s)) as Hc.
  destruct (collect_range _ _ _ _) as [es ex]. cbn [fst] in Hc. subst es.
  destruct (if ex then _ else _); [left; by simplify_eq|right].
  simplify_eq. exists root, pf. rewrite entries_Cache_Put by lia. cbn [StartKey EndKey].
  by rewrite Hsz.
Qed.

Lemma store_inv_step Q s s' : ms_step Q s s' → store_inv Q s → store_inv Q s'.
Proof.
  intros [MR start end_ s0 HQ|changes s0] Hinv.
  - destruct (GetRangeProof start end_ s0) as [s1 o] eqn:E. cbn [fst].
    destruct (GetRangeProof_run Q start end_ s0 s1 o Hinv E) as [[-> _]|(root & pf & -> & Hr & ->)]; [done|].
    destruct Hinv as [Hsz H]. split; [done|]. cbn [ms_cache ms_view entries].
    intros r c [[<- <-]|[Hne Hc]]%lookup_insert_Some; [|by apply H]. split; [done|].
    intros key p [[<- <-]|[Hne Hk]]%lookup_insert_Some; [done|].
    destruct (entries (ms_cache s0) !! root) as [c|] eqn:Ec; simpl in Hk; [|by rewrite lookup_empty in Hk].
    by apply (H root c Ec).
  - unfold MS_Commit. go_unfold. destruct (rdb_NewView _ _); [|done..]. apply store_inv_fresh.
Qed.

Lemma reachable_inv Q s : ms_reachable Q s → store_inv Q s.
Proof.
  intros (db & s0 & H0 & H).
  assert (store_inv Q s0) as Hi.
  { unfold NewMerkleStore, mbind, outcome_bind in H0. destruct (rdb_NewView _ _); try done.
    injection H0 as <-. apply store_inv_fresh. }
  clear H0. induction H as [|x y z Hxy _ IH]; [done|]. by eapply IH, store_inv_step.
Qed.

(** A range that its cache key determines. *)
Definition plain_range (start end_ : slice) : Prop :=
  contains "-" (sbytes start) = false ∧ is_Some end_.

Lemma makeRangeKey_inj (s1 e1 s2 e2 : slice) :
  plain_range s1 e1 → plain_range s2 e2 → makeRangeKey s1 e1 = makeRangeKey s2 e2 →
  sbytes s1 = sbytes s2 ∧ sbytes e1 = sbytes e2.
Proof. intros [H1 _] [H2 _] H. by apply (sep_inj "-" _ _ _ _ H1 H2). Qed.

Lemma range_entries_bytes m (s1 e1 s2 e2 : slice) :
  sbytes s1 = sbytes s2 → sbytes e1 = sbytes e2 → is_Some e1 → is_Some e2 →
  range_entries m s1 e1 = range_entries m s2 e2.
Proof.
  intros Hs He [[b1 x1] ->] [[b2 x2] ->]. simpl in He. subst b2.
  unfold range_entries, IsInRange. by rewrite Hs.
Qed.

(** A request answers with the entries of some range of the current view, one
    that prints like the range asked for. *)
Lemma GetRangeProof_answer `{MR : MapRange} Q start end_ s s' p :
  store_inv Q s → Q start end_ → GetRangeProof start end_ s = (s', Ok p) →
  Entries p = range_entries (rv_contents (ms_view s)) (StartKey p) (EndKey p) ∧
  makeRangeKey (StartKey p) (EndKey p) = makeRangeKey start end_ ∧ Q (StartKey p) (EndKey p) ∧
  ms_view s' = ms_view s ∧ store_inv Q s'.
Proof.
  intros Hinv HQ Hrun.
  assert (store_inv Q s') as Hi'
    by (replace s' with (GetRangeProof start end_ s).1 by (by rewrite Hrun);
        eapply store_inv_step; [by apply step_request|done]).
  destruct (GetRangeProof_run _ _ _ _ _ _ Hinv Hrun) as [[-> Hc]|(root & pf & [= ->] & _ & ->)]; [|done].
  destruct (Hc p eq_refl) as (root & Hr & Hg). unfold Cache_Get in Hg.
  destruct (entries (ms_cache s) !! root) as [c|] eqn:E; [|done].
  destruct Hinv as [_ Hinv]. destruct (Hinv root c E) as [_ Hk]. by destruct (Hk _ _ Hg) as (Hkey & HQp & Hen).
Qed.

Lemma GetRangeProof_entries `{MR : MapRange} start end_ s s' p :
  store_inv plain_range s → plain_range start end_ →
  GetRangeProof start end_ s = (s', Ok p) →
  Entries p = range_entries (rv_contents (ms_view s)) start end_ ∧ ms_view s' = ms_view s ∧
  store_inv plain_range s'.
Proof.
  intros Hinv HQ Hrun.
  destruct (GetRangeProof_answer _ _ _ _ _ _ Hinv HQ Hrun) as (-> & Hkey & HQp & Hv & Hi).
  split; [|done]. destruct (makeRangeKey_inj _ _ _ _ HQp HQ Hkey) as [Hs He].
  apply range_entries_bytes; [done..|apply HQp|apply HQ].
Qed.

(** A request on a view whose reads do not fail is answered. *)
Lemma GetRangeProof_succeeds `{MR : MapRange} start end_ s :
  is_ok (rv_GetMerkleRoot (ms_view s)) = true →
  is_ok (rv_GetRangeProof (sbytes start) (sbytes end_) defaultMaxKeyLen (ms_view s)) = true →
  rv_iter_error (ms_view s) = None →
  ∃ s' p, GetRangeProof start end_ s = (s', Ok p).
Proof using Type.
  intros H1 H2 H3. unfold GetRangeProof, MS_GetRoot. go_unfold.
  destruct (rv_GetMerkleRoot _) as [root| | |]; try done.
  destruct (Cache_Get _ _ _ _); [eauto|].
  destruct (rv_GetRangeProof _ _ _ _); try done.
  destruct (collect_range _ _ _ _) as [es []]; rewrite ?H3; eauto.
Qed.

(** C12: whatever requests and commits came before, a range proof holds exactly
    the entries of the current view in the range asked for, provided the ranges
    requested have a start without a hyphen and an end that is not nil. *)
Theorem GetRangeProof_exact `{MR : MapRange} start end_ s s' p :
  ms_reachable plain_range s → plain_range start end_ →
  GetRangeProof start end_ s = (s', Ok p) →
  ∀ k, Entries p !! k = (if IsInRange k start end_ then rv_contents (ms_view s) !! k else None).
Proof.
  intros Hr HQ Hrun k.
  destruct (GetRangeProof_entries start end_ s s' p (reachable_inv _ _ Hr) HQ Hrun) as [-> _].
  unfold range_entries. rewrite map_lookup_filter.
  destruct (rv_contents (ms_view s) !! k) as [v|] eqn:E; [|by destruct (IsInRange _ _ _)]. simpl.
  destruct (IsInRange k start end_); [by rewrite option_guard_True|by rewrite option_guard_False].
Qed.

(** The cache answers by the printed range only: after a request that
    succeeded, every request whose printed range is the same gets that same proof,
    also when it asks for other keys (a hyphen in a key moves the border between
    start and end, a nil end prints as an empty one). *)
Theorem GetRangeProof_same_key `{MR : MapRange} (s1 e1 s2 e2 : slice) s s' p :
  ms_reachable (λ _ _, True) s → GetRangeProof s1 e1 s = (s', Ok p) →
  makeRangeKey s1 e1 = makeRangeKey s2 e2 →
  GetRangeProof s2 e2 s' = (s', Ok p).
Proof.
  intros Hr Hrun Hk.
  assert (∃ root, rv_GetMerkleRoot (ms_view s') = Ok root ∧ Cache_Get s1 e1 root (ms_cache s') = Some p)
    as (root & Er & Ec).
  { destruct (GetRangeProof_run _ _ _ _ _ _ (reachable_inv _ _ Hr) Hrun)
      as [[-> Hc]|(root & pf & [= ->] & Er & ->)]; [by apply Hc|].
    exists root. split; [done|]. unfold Cache_Get. cbn [ms_cache entries].
    by rewrite !lookup_insert_eq. }
  unfold GetRangeProof, MS_GetRoot. go_unfold. rewrite Er.
  unfold Cache_Get in *. rewrite <-Hk. by rewrite Ec.
Qed.

(** The limit of the cache is never reached: it counts roots, of which there is
    at most one, so no proof is dropped before the next commit, however many
    ranges are requested. *)
Theorem range_cache_never_evicts `{MR : MapRange} start end_ s s' o :
  ms_reachable (λ _ _, True) s → GetRangeProof start end_ s = (s', o) →
  (size (entries (ms_cache s')) ≤ 1)%nat ∧
  ∀ root a b p, Cache_Get a b root (ms_cache s) = Some p →
    is_Some (Cache_Get a b root (ms_cache s')).
Proof.
  intros Hr Hrun. pose proof (reachable_inv _ _ Hr) as Hi. split.
  - replace s' with (GetRangeProof start end_ s).1 by (by rewrite Hrun).
    eapply (store_inv_one_root (λ _ _, True)), store_inv_step; [by apply step_request|done].
  - intros root a b p. destruct (GetRangeProof_run _ _ _ _ _ _ Hi Hrun)
      as [[-> _]|(r & pf & _ & _ & ->)]; [eauto|].
    unfold Cache_Get. cbn [ms_cache entries]. destruct (decide (r = root)) as [->|Hne].
    + rewrite lookup_insert_eq. destruct (entries (ms_cache s) !! root) as [c|]; [|done]. simpl.
      intros Hc. rewrite lookup_insert. case_decide; eauto.
    + rewrite lookup_insert_ne by done. destruct (entries (ms_cache s) !! root); eauto.
Qed.

(** A commit shows the changes over the database and forgets the changes of
    earlier commits, which never reach the database. *)
Theorem MS_Commit_forgets ch1 ch2 s s1 s2 :
  MS_Commit ch1 s = (s1, Ok tt) → MS_Commit ch2 s1 = (s2, Ok tt) →
  ms_db s2 = ms_db s ∧
  rv_contents (ms_view s2) = foldl apply_op (db_contents (ms_db s)) ch2 ∧
  entries (ms_cache s2) = ∅.
Proof.
  unfold MS_Commit. go_unfold. intros H1 H2.
  destruct (rdb_NewView ch1 _) eqn:E1; simplify_eq/=.
  destruct (rdb_NewView ch2 _) eqn:E2; simplify_eq/=. by rewrite (rdb_NewView_contents _ _ _ E2).
Qed.
End store_theory.

(** * Theorems: the coordinated state manager *)

(** The last operation of a batch on a key. *)
Definition last_op (k : string) (ops : list BatchOp) : option BatchOp :=
  last (filter (λ op, op_Key op = k) ops).

(** What a list of operations leaves under a key: the effect of the last one. *)
Lemma foldl_apply_op_lookup ops m k :
  foldl apply_op m ops !! k =
    match last_op k ops with
    | Some op => if op_Delete op then None else Some (op_Value op)
    | None => m !! k
    end.
Proof.
  induction ops as [|op ops IH] using rev_ind; [done|].
  unfold last_op. rewrite foldl_app, filter_app. cbn [foldl]. unfold apply_op at 1.
  destruct (decide (op_Key op = k)) as [<-|Hne].
  - rewrite filter_cons_True, filter_nil, last_snoc by done.
    destruct (op_Delete op); [by rewrite lookup_delete_eq|by rewrite lookup_insert_eq].
  - rewrite filter_cons_False, filter_nil, (right_id_L [] (++)) by done.
    fold (last_op k ops). rewrite <-IH.
    destruct (op_Delete op); [by rewrite lookup_delete_ne|by rewrite lookup_insert_ne].
Qed.

Lemma foldl_apply_puts (l : list (string * string)) m :
  NoDup l.*1 → foldl apply_op m ((λ kv, mkOp kv.1 kv.2 false) <$> l) = list_to_map l ∪ m.
Proof.
  revert m. induction l as [|[k v] l IH]; intros m Hd; cbn [fmap list_fmap foldl list_to_map foldr].
  { by rewrite (left_id_L ∅ (∪)). }
  cbn [fmap list_fmap fst] in Hd. apply NoDup_cons in Hd as [Hn Hd].
  unfold apply_op at 2. cbn [op_Delete op_Key op_Value fst snd].
  rewrite IH by done. cbn [foldr]. rewrite <-insert_union_l, <-insert_union_r; [done|].
  by apply not_elem_of_list_to_map.
Qed.

Lemma foldl_apply_dels {A} (l : list (string * A)) m k :
  foldl apply_op m ((λ kv, mkOp kv.1 "" true) <$> l) !! k =
    if bool_decide (k ∈ l.*1) then None else m !! k.
Proof.
  revert m. induction l as [|[k' v] l IH]; intros m; cbn [fmap list_fmap foldl fst]; [done|].
  rewrite IH. unfold apply_op. cbn [op_Delete op_Key].
  destruct (decide (k = k')) as [->|Hne].
  - rewrite lookup_delete_eq. by rewrite (bool_decide_true (k' ∈ k' :: _)) by left; case_bool_decide.
  - rewrite lookup_delete_ne by done. repeat case_bool_decide; set_solver.
Qed.

Section manager_theory.
Context {S Pf : Type} `{!StateStore S Pf, !StateStoreLaws S Pf} `{MR : MapRange}.
Abbreviation CSM := (CoordStateManager S).
Implicit Types (m : CSM).

Definition set_accessed (a : gmap string StateAccess) m : CSM :=
  mkCSM (csm_store m) a (csm_height m) (csm_root m) (syncTimeout m).

Lemma for_each_trackAccess {A} now (f : A → string) (l : list A) m :
  for_each (λ x, trackAccess now (f x) true) l m =
    (set_accessed (foldl (λ a x, track now (f x) true a) (accessed m) l) m, Ok tt).
Proof using Type.
  revert m. induction l as [|x l IH]; intros m; cbn [for_each foldl]; [by destruct m|].
  rewrite (bind_ok (trackAccess now (f x) true) _ m _ tt eq_refl), IH. done.
Qed.

(** The keys of a list of writes are recorded, the others are left alone. *)
Definition records_writes (now : Time) (ks : list string) (a a' : gmap string StateAccess) : Prop :=
  (∀ k, k ∈ ks → ∃ acc, a' !! k = Some acc ∧ WriteKeys acc !! k = Some now ∧ LastAccess acc = now) ∧
  (∀ k, k ∉ ks → a' !! k = a !! k).

Lemma foldl_track_records {A} now (f : A → string) (l : list A) a :
  records_writes now (f <$> l) a (foldl (λ a x, track now (f x) true a) a l).
Proof using Type.
  induction l as [|x l IH] using rev_ind; [split; [|done]; intros k H; by apply not_elem_of_nil in H|].
  rewrite foldl_app, fmap_app. cbn [foldl fmap list_fmap]. destruct IH as [IH1 IH2].
  split; intros k Hk; unfold track at 1; destruct (decide (k = f x)) as [->|Hne].
  - rewrite lookup_insert_eq. eexists; split_and!; [done| |done]. cbn. by rewrite lookup_insert_eq.
  - rewrite lookup_insert_ne by done. apply IH1. set_solver.
  - set_solver.
  - rewrite lookup_insert_ne by done. apply IH2. set_solver.
Qed.

Lemma on_store_NewView ops m :
  ∃ s', on_store (ss_NewView ops) m =
          (mkCSM s' (accessed m) (csm_height m) (csm_root m) (syncTimeout m), Ok tt) ∧
        ss_contents s' = foldl apply_op (ss_contents (csm_store m)) ops.
Proof.
  unfold on_store, zoom. pose proof (ss_NewView_ok ops (csm_store m)) as H1.
  pose proof (ss_NewView_contents ops (csm_store m)) as H2.
  destruct (ss_NewView ops (csm_store m)) as [s' o]. simpl in *. subst o. by exists s'.
Qed.

(** Committing a change set writes its updates and removes its deletions in
    one view; a key that is in both is removed, whichever was asked for last, and
    the order of the maps does not matter.  Every key written is recorded. *)
Theorem CommitChanges_spec now sc m :
  ∃ m', CommitChanges now sc m = (m', Ok tt) ∧
    (∀ k, ss_contents (csm_store m') !! k =
            if bool_decide (k ∈ dom (deletions sc)) then None
            else match updates sc !! k with
                 | Some v => Some v
                 | None => ss_contents (csm_store m) !! k
                 end) ∧
    (∀ k, k ∈ dom (updates sc) ∪ dom (deletions sc) →
       ∃ a, accessed m' !! k = Some a ∧ WriteKeys a !! k = Some now ∧ LastAccess a = now) ∧
    (∀ k, k ∉ dom (updates sc) ∪ dom (deletions sc) → accessed m' !! k = accessed m !! k).
Proof.
  unfold CommitChanges. cbv zeta.
  set (ups := range_map 0 (updates sc)). set (dels := range_map 1 (deletions sc)).
  rewrite (bind_ok _ _ _ _ _ (for_each_trackAccess now fst ups m)).
  rewrite (bind_ok _ _ _ _ _ (for_each_trackAccess now fst dels _)).
  edestruct on_store_NewView as (s' & -> & Hc). eexists. split; [done|].
  cbn [csm_store accessed set_accessed] in *.
  destruct (foldl_track_records now fst ups (accessed m)) as [U1 U2].
  edestruct (foldl_track_records now fst dels) as [D1 D2].
  split_and!; intros k.
  - rewrite Hc, foldl_app, foldl_apply_dels, foldl_apply_puts by apply NoDup_range_map.
    unfold ups, dels. rewrite list_to_map_range_map, lookup_union.
    rewrite (bool_decide_ext _ _ (elem_of_range_map_keys 1 (deletions sc) k)).
    case_bool_decide; [done|].
    by destruct (updates sc !! k), (ss_contents (csm_store m) !! k).
  - rewrite elem_of_union, <-(elem_of_range_map_keys 0), <-(elem_of_range_map_keys 1).
    intros Hk. destruct (decide (k ∈ dels.*1)) as [Hd|Hd]; [by apply D1|].
    rewrite D2 by done. apply U1. by destruct Hk.
  - rewrite not_elem_of_union, <-(elem_of_range_map_keys 0), <-(elem_of_range_map_keys 1).
    intros [Hk1 Hk2]. by rewrite D2, U2.
Qed.

(** Committing a batch applies its operations in the order they were added:
    the last one on a key decides, and every key named is recorded as written. *)
Theorem CommitBatch_spec now (batch : list BatchOp) m :
  ∃ m', CommitBatch now batch m = (m', Ok tt) ∧
    (∀ k, ss_contents (csm_store m') !! k =
            match last_op k batch with
            | Some op => if op_Delete op then None else Some (op_Value op)
            | None => ss_contents (csm_store m) !! k
            end) ∧
    records_writes now (op_Key <$> batch) (accessed m) (accessed m').
Proof.
  unfold CommitBatch. rewrite (bind_ok _ _ _ _ _ (for_each_trackAccess now op_Key batch m)).
  edestruct on_store_NewView as (s' & -> & Hc). eexists. split; [done|].
  cbn [csm_store accessed set_accessed] in *. split; [|apply foldl_track_records].
  intros k. rewrite Hc. apply foldl_apply_op_lookup.
Qed.

(** A value is returned only when its proof verified against it, the read is
    recorded on every outcome, and a failed verification is [ErrInvalidProof]. *)
Theorem GetValue_verified now key m m' o :
  GetValue now key m = (m', o) →
  csm_store m' = csm_store m ∧
  (∃ a, accessed m' !! key = Some a ∧ ReadKeys a !! key = Some now ∧ LastAccess a = now) ∧
  (∀ v, o = Ok v → ss_Get key (csm_store m) = Ok v ∧
     ∃ pf, ss_GetProof key (csm_store m) = Ok pf ∧ ss_VerifyProof key v pf (csm_store m) = Ok tt) ∧
  (∀ v pf e, ss_Get key (csm_store m) = Ok v → ss_GetProof key (csm_store m) = Ok pf →
     ss_VerifyProof key v pf (csm_store m) = Err e → o = Err ErrInvalidProof).
Proof using Type.
  unfold GetValue. go_unfold. unfold trackAccess. go_unfold. intros Hrun.
  assert (csm_store m' = csm_store m ∧ accessed m' = track now key false (accessed m)) as [H1 H2].
  { revert Hrun. cbn [csm_store].
    destruct (ss_Get _ _); [destruct (ss_GetProof _ _); [destruct (ss_VerifyProof _ _ _ _)|..]|..];
      by intros [= <- _]. }
  cbn [csm_store] in Hrun. split_and!; [done| | |].
  - rewrite H2. unfold track. rewrite lookup_insert_eq. eexists. split_and!; [done| |done].
    cbn. by rewrite lookup_insert_eq.
  - intros v ->. destruct (ss_Get _ _); [destruct (ss_GetProof _ _); [destruct (ss_VerifyProof _ _ _ _) eqn:E|..]|..];
      simplify_eq. destruct a1. eauto.
  - intros v pf e E1 E2 E3. rewrite E1, E2, E3 in Hrun. by simplify_eq.
Qed.
End manager_theory.

(** * Instances and witnesses *)

Definition key_le : relation (string * string) := λ a b, String.le a.1 b.1.

#[export] Instance key_le_dec a b : Decision (key_le a b).
Proof. unfold key_le, String.le. apply _. Defined.
#[export] Instance key_le_total : Total key_le.
Proof. intros a b. apply (total String.le). Qed.
#[export] Instance key_le_trans : Transitive key_le.
Proof. intros a b c. apply (transitivity (R := String.le)). Qed.

Definition sorted_entries (m : gmap string string) : list (string * string) :=
  merge_sort key_le (map_to_list m).

Lemma sorted_entries_sorted m :
  StronglySorted (λ a b, String.leb a b = true) (sorted_entries m).*1.
Proof.
  pose proof (StronglySorted_merge_sort key_le (map_to_list m)) as H.
  fold (sorted_entries m) in H. induction H as [|a l _ IH Hf]; simpl; constructor; [done|].
  apply Forall_fmap. eapply Forall_impl; [exact Hf|]. intros b Hb. by apply Is_true_true.
Qed.

(** A Merkle database as a finite map; its root is the code of its contents. *)
Definition map_RangeViews : RangeViews (gmap string string) (gmap string string) unit := {|
  rdb_NewView ops m := Ok (foldl apply_op m ops);
  rv_GetValue k v := match v !! k with Some x => Ok x | None => Err ErrNotFound end;
  rv_GetProof k v := Ok tt;
  rv_GetMerkleRoot v := Ok (bits_to_string (encode (map_to_list v)));
  rv_GetRangeProof a b n v := Ok tt;
  rv_iter := sorted_entries;
  rv_iter_error v := None;
|}.

Definition map_RangeViewsLaws :
  @RangeViewsLaws (gmap string string) (gmap string string) unit map_RangeViews.
Proof.
  refine {| db_contents m := m; rv_contents v := v |}.
  - intros ops db v H. by injection H as <-.
  - intros v. apply merge_sort_Permutation.
  - apply sorted_entries_sorted.
Defined.

Definition map_StateStore : StateStore (gmap string string) unit := {|
  ss_Get k m := match m !! k with Some x => Ok x | None => Err ErrNotFound end;
  ss_GetProof k m := Ok tt;
  ss_GetRoot m := Ok "root";
  ss_VerifyProof k v pf m := if bool_decide (m !! k = Some v) then Ok tt else Err ErrNotFound;
  ss_NewView ops := modify (λ m, foldl apply_op m ops);
|}.

Definition map_StateStoreLaws : @StateStoreLaws (gmap string string) unit map_StateStore.
Proof. refine (@Build_StateStoreLaws _ _ map_StateStore (λ m, m) _ _); done. Defined.

#[local] Existing Instances canonical_MapRange map_RangeViews map_RangeViewsLaws.
#[local] Existing Instances map_StateStore map_StateStoreLaws.

Abbreviation mapMS := (MerkleStore (gmap string string) (gmap string string) unit).

Definition sample_db : gmap string string :=
  {["a" := "1"; "a-b" := "2"; "b" := "3"; "c" := "4"]}.
Definition sample_store : mapMS := mkMS sample_db sample_db (NewRangeCache 1000).

Lemma sample_store_reachable Q : ms_reachable Q sample_store.
Proof. exists sample_db, sample_store. split; [reflexivity|apply rtc_refl]. Qed.

(** What a request on the sample store answers under a key. *)
Definition answer (r : mapMS * outcome (RangeProof unit)) (k : string) : option (option string) :=
  match r.2 with Ok p => Some (Entries p !! k) | _ => None end.

Lemma answer_run (r : mapMS * outcome (RangeProof unit)) k x :
  answer r k = Some x → ∃ s' p, r = (s', Ok p) ∧ Entries p !! k = x.
Proof. destruct r as [s' [p| | |]]; intros H; try done. injection H as <-. by exists s', p. Qed.

Lemma GetRangeProof_exact_witness :
  ∃ s' p, GetRangeProof (of_bytes "a") (of_bytes "b") sample_store = (s', Ok p) ∧
    Entries p !! "a-b" = Some "2" ∧ Entries p !! "c" = None.
Proof.
  destruct (answer_run (GetRangeProof (of_bytes "a") (of_bytes "b") sample_store) "a" (Some "1"))
    as (s' & p & E & _); [vm_compute; reflexivity|].
  pose proof (GetRangeProof_exact (of_bytes "a") (of_bytes "b") sample_store s' p
                (sample_store_reachable _) ltac:(by split; [|eexists]) E) as H.
  exists s', p. split; [exact E|]. split.
  - etransitivity; [apply H|]. vm_compute. reflexivity.
  - etransitivity; [apply H|]. vm_compute. reflexivity.
Defined.

(** A request for the keys from "a" to "b-c" after one from "a-b" to "c" is
    answered with the latter's entries, without "a" and with "c". *)
Lemma GetRangeProof_same_key_witness :
  ∃ s' p, GetRangeProof (of_bytes "a-b") (of_bytes "c") sample_store = (s', Ok p) ∧
    GetRangeProof (of_bytes "a") (of_bytes "b-c") s' = (s', Ok p) ∧ Entries p !! "a" = None.
Proof.
  destruct (answer_run (GetRangeProof (of_bytes "a-b") (of_bytes "c") sample_store) "a" None)
    as (s' & p & E & H); [vm_compute; reflexivity|].
  exists s', p. split; [exact E|]. split; [|exact H].
  exact (GetRangeProof_same_key (of_bytes "a-b") (of_bytes "c") (of_bytes "a") (of_bytes "b-c")
           sample_store s' p (sample_store_reachable _) E eq_refl).
Defined.

Lemma range_cache_never_evicts_witness :
  (size (entries (ms_cache (GetRangeProof (of_bytes "a") (of_bytes "b") sample_store).1)) ≤ 1)%nat.
Proof.
  apply (range_cache_never_evicts (of_bytes "a") (of_bytes "b") sample_store _ _
           (sample_store_reachable _) (surjective_pairing _)).
Defined.

Lemma map_MS_Commit ops (s : mapMS) :
  MS_Commit ops s = (mkMS (ms_db s) (foldl apply_op (ms_db s) ops) (NewRangeCache 1000), Ok tt).
Proof. reflexivity. Qed.

Lemma MS_Commit_forgets_witness :
  ∃ s1 s2 : mapMS, MS_Commit [mkOp "x" "1" false] sample_store = (s1, Ok tt) ∧
    MS_Commit [mkOp "y" "2" false] s1 = (s2, Ok tt) ∧
    rv_contents (ms_view s2) = foldl apply_op sample_db [mkOp "y" "2" false].
Proof.
  eexists _, _. split; [apply map_MS_Commit|]. split; [apply map_MS_Commit|].
  destruct (MS_Commit_forgets [mkOp "x" "1" false] [mkOp "y" "2" false] sample_store _ _
              (map_MS_Commit _ _) (map_MS_Commit _ _)) as (_ & H & _).
  exact H.
Defined.

Lemma GetValue_verified_witness :
  let r := GetValue zeroTime "a" (NewCoordStateManager sample_db 0) in
  r.2 = Ok "1" ∧ csm_store r.1 = sample_db.
Proof.
  intros r. split; [vm_compute; reflexivity|].
  destruct (GetValue_verified zeroTime "a" (NewCoordStateManager sample_db 0) r.1 r.2
              (surjective_pairing r)) as [H _].
  exact H.
Defined.

(** A key deleted and then put in the same change set ends up deleted; in a batch
    it ends up written. *)
Lemma CommitChanges_spec_witness :
  let sc := SC_Put "a" "9" (SC_Delete "a" NewStateChange) in
  let r := CommitChanges zeroTime sc (NewCoordStateManager sample_db 0) in
  r.2 = Ok tt ∧ ss_contents (csm_store r.1) !! "a" = None.
Proof.
  intros sc r. destruct (CommitChanges_spec zeroTime sc (NewCoordStateManager sample_db 0)) as (m' & E & H & _).
  subst r. rewrite E. split; [reflexivity|]. etransitivity; [apply H|]. vm_compute. reflexivity.
Defined.

Lemma CommitBatch_spec_witness :
  let b := Batch_Put "a" "9" (Batch_Delete "a" NewBatch) in
  let r := CommitBatch zeroTime b (NewCoordStateManager sample_db 0) in
  r.2 = Ok tt ∧ ss_contents (csm_store r.1) !! "a" = Some "9".
Proof.
  intros b r. destruct (CommitBatch_spec zeroTime b (NewCoordStateManager sample_db 0)) as (m' & E & H & _).
  subst r. rewrite E. split; [reflexivity|]. etransitivity; [apply H|]. vm_compute. reflexivity.
Defined.
