(* ===== verification/Database.v ===== *)
(** The database of avalanchego and the repository's wrappers over it
    ([storage/wrapper.go], the database wrapper and the remaining methods of
    [storage/state_manager.go]).

    [Database] and [Batches] are the interfaces of the library, [DatabaseLaws] and
    [BatchLaws] what it documents: a finite map, iteration in key order, batches whose
    operations are applied in order when they are written.  The theorems show that the
    wrappers keep these promises under the other interfaces the program uses: the
    wrapped database is a [state.Mutable] and a [coordination.BaseStorage]. *)

From S2P Require Import Prelude GoTime KV Core Channel Worker Coordinator Storage Transfer StateManager RangeState.
From Stdlib Require Import ZArith Lia Ascii String Sorted.
From stdpp Require Import base tactics option list strings pretty gmap sorting.

Local Open Scope Z_scope.

(** * The library *)

Class Database (D : Type) : Type := {
  db_Has : string → D → outcome bool;
  db_Get : string → D → outcome string;
  db_Put : string → string → go D unit;
  db_Delete : string → go D unit;
  db_Close : go D unit;
  (* the entries an iterator from a start key and with a prefix visits, and the error
     it ends with *)
  db_Iterate : string → string → D → list (string * string) * option goerr;
  (* methods a database may have *)
  db_Compacter : option (string → string → go D unit);
  db_HealthChecker : option (D → outcome string);
}.

(** The order of keys: that of their bytes. *)
Definition key_before (a b : string * string) : Prop := String.ltb a.1 b.1 = true.

Class DatabaseLaws (D : Type) `{!Database D} : Type := {
  db_map : D → gmap string string;
  db_Has_map : ∀ k d, db_Has k d = Ok (bool_decide (is_Some (db_map d !! k)));
  db_Get_map : ∀ k d, db_Get k d = match db_map d !! k with Some v => Ok v | None => Err ErrNotFound end;
  db_Put_run : ∀ k v d, ∃ d', db_Put k v d = (d', Ok tt) ∧ db_map d' = <[k := v]> (db_map d);
  db_Delete_run : ∀ k d, ∃ d', db_Delete k d = (d', Ok tt) ∧ db_map d' = delete k (db_map d);
  db_Iterate_entries : ∀ start prefix d k v, (k, v) ∈ (db_Iterate start prefix d).1 ↔
    db_map d !! k = Some v ∧ HasPrefix k prefix = true ∧ String.leb start k = true;
  db_Iterate_sorted : ∀ start prefix d, StronglySorted key_before (db_Iterate start prefix d).1;
  db_Iterate_ok : ∀ start prefix d, (db_Iterate start prefix d).2 = None;
}.

(** The operations of a batch, in order. *)
Inductive batch_op : Type := OpPut (key value : string) | OpDelete (key : string).

Definition op_key (o : batch_op) : string := match o with OpPut k _ | OpDelete k => k end.
Definition op_value (o : batch_op) : option string := match o with OpPut _ v => Some v | OpDelete _ => None end.

(** What a batch makes of a map. *)
Definition batch_step (m : gmap string string) (o : batch_op) : gmap string string :=
  match o with OpPut k v => <[k := v]> m | OpDelete k => delete k m end.
Definition batch_apply (ops : list batch_op) (m : gmap string string) : gmap string string := foldl batch_step m ops.

Class Batches (Bt D : Type) : Type := {
  bt_New : D → Bt;
  bt_Put : string → string → go Bt unit;
  bt_Delete : string → go Bt unit;
  bt_Size : Bt → Z;
  bt_Write : Bt → go D unit;
  bt_Reset : Bt → Bt;
  bt_Replay : ∀ W, (string → string → go W unit) → (string → go W unit) → Bt → go W unit;
}.
Arguments bt_Replay {_ _ _} _ _ _ _.

(** One operation on a writer that puts and deletes. *)
Definition replay_op {W} (put : string → string → go W unit) (del : string → go W unit) (o : batch_op) : go W unit :=
  match o with OpPut k v => put k v | OpDelete k => del k end.

Class BatchLaws (Bt D : Type) `{!Database D, !DatabaseLaws D, !Batches Bt D} : Type := {
  bt_ops : Bt → list batch_op;
  bt_New_ops : ∀ d, bt_ops (bt_New d) = [];
  bt_Put_run : ∀ k v b, ∃ b', bt_Put (D := D) k v b = (b', Ok tt) ∧ bt_ops b' = bt_ops b ++ [OpPut k v];
  bt_Delete_run : ∀ k b, ∃ b', bt_Delete (D := D) k b = (b', Ok tt) ∧ bt_ops b' = bt_ops b ++ [OpDelete k];
  bt_Write_run : ∀ b (d : D), ∃ d', bt_Write b d = (d', Ok tt) ∧ db_map d' = batch_apply (bt_ops b) (db_map d);
  bt_Reset_ops : ∀ b, bt_ops (bt_Reset (D := D) b) = [];
  bt_Replay_ops : ∀ W put del b, bt_Replay (D := D) W put del b = for_each (replay_op put del) (bt_ops b);
}.

(** * The wrappers *)

Section wrappers.
Context {D : Type} `{!Database D}.

(** [StorageWrapper] and [DatabaseWrapper] pass every call on. *)
Definition SW_Put (key value : string) : go D unit := db_Put key value.
Definition SW_Get (key : string) (d : D) : outcome string := db_Get key d.
Definition SW_Delete (key : string) : go D unit := db_Delete key.
Definition SW_Has (key : string) (d : D) : outcome bool := db_Has key d.
Definition SW_Close : go D unit := db_Close.
Definition SW_NewIterator (d : D) := db_Iterate "" "" d.
Definition SW_NewIteratorWithStart (start : string) (d : D) := db_Iterate start "" d.
Definition SW_NewIteratorWithPrefix (prefix : string) (d : D) := db_Iterate "" prefix d.
Definition SW_NewIteratorWithStartAndPrefix (start prefix : string) (d : D) := db_Iterate start prefix d.

(** The same under a context, which is done when it has an error. *)
Definition SW_PutWithContext (ctx : option goerr) (key value : string) : go D unit :=
  match ctx with Some e => fail e | None => db_Put key value end.
Definition SW_GetWithContext (ctx : option goerr) (key : string) (d : D) : outcome string :=
  match ctx with Some e => Err e | None => db_Get key d end.
Definition SW_DeleteWithContext (ctx : option goerr) (key : string) : go D unit :=
  match ctx with Some e => fail e | None => db_Delete key end.

(** The loop of [GetByPrefix]: [ctx n] is the context's error when the [n]-th entry is
    read. *)
Fixpoint collect_values (ctx : nat → option goerr) (n : nat) (entries : list (string * string)) :
    outcome (list string) :=
  match entries with
  | [] => Ok []
  | (_, v) :: rest =>
      match ctx n with
      | Some e => Err e
      | None => vs ← collect_values ctx (S n) rest; Ok (v :: vs)
      end
  end.
Definition SW_GetByPrefix (ctx : nat → option goerr) (prefix : string) (d : D) : outcome (list string) :=
  let '(entries, err) := db_Iterate "" prefix d in
  results ← collect_values ctx 0 entries;
  match err with Some e => Err e | None => Ok results end.

(** [nil] when the database lacks the method. *)
Definition SW_Compact (start limit : string) : go D unit :=
  match db_Compacter with Some compact => compact start limit | None => mret tt end.
Definition SW_HealthCheck (d : D) : outcome (option string) :=
  match db_HealthChecker with Some check => r ← check d; Ok (Some r) | None => Ok None end.

Definition DW_GetValue (key : string) (d : D) : outcome string := db_Get key d.
Definition DW_Insert (key value : string) : go D unit := db_Put key value.
Definition DW_Remove (key : string) : go D unit := db_Delete key.
Definition DW_Has (key : string) (d : D) : outcome bool := db_Has key d.
Definition DW_Get (key : string) (d : D) : outcome string := db_Get key d.
Definition DW_Put (key value : string) : go D unit := db_Put key value.
Definition DW_Delete (key : string) : go D unit := db_Delete key.
Definition DW_Close : go D unit := db_Close.
Definition DW_NewIterator (d : D) := db_Iterate "" "" d.
Definition DW_NewIteratorWithPrefix (prefix : string) (d : D) := db_Iterate "" prefix d.
Definition DW_NewIteratorWithStart (start : string) (d : D) := db_Iterate start "" d.
Definition DW_NewIteratorWithStartAndPrefix (start prefix : string) (d : D) := db_Iterate start prefix d.
Definition DW_Compact (start limit : string) : go D unit :=
  match db_Compacter with Some compact => compact start limit | None => mret tt end.
Definition DW_HealthCheck (d : D) : outcome (option string) :=
  match db_HealthChecker with Some check => r ← check d; Ok (Some r) | None => Ok None end.

(** The database wrapper as a [state.Mutable]. *)
Definition DatabaseWrapper (nil_empty : bool) : Mutable D := {|
  mu_GetValue := DW_GetValue;
  mu_Insert := DW_Insert;
  mu_Remove := DW_Remove;
  empty_is_nil := nil_empty;
|}.

(** The storage wrapper, with a context that is not done, as a
    [coordination.BaseStorage]. *)
Definition StorageWrapper_BaseStore : BaseStore D := {|
  bs_Put := SW_PutWithContext None;
  bs_Get := SW_GetWithContext None;
  bs_Delete := SW_DeleteWithContext None;
  bs_GetByPrefix := SW_GetByPrefix (λ _, None);
|}.
End wrappers.

(** [StorageBatch]. *)
Section batch.
Context {Bt D : Type} `{!Batches Bt D}.
Definition SB_Put (key value : string) : go Bt unit := bt_Put (D := D) key value.
Definition SB_Delete (key : string) : go Bt unit := bt_Delete (D := D) key.
Definition SB_Size (b : Bt) : Z := bt_Size (D := D) b.
Definition SB_Write (b : Bt) : go D unit := bt_Write b.
Definition SB_Reset (b : Bt) : Bt := bt_Reset (D := D) b.
Definition SB_Replay {W} (put : string → string → go W unit) (del : string → go W unit) (b : Bt) : go W unit :=
  bt_Replay (D := D) W put del b.
End batch.

(** * Properties *)

(** ** Batches up to their effect *)

(** Two batches are equivalent when they have the same effect on every map. *)
Definition ops_equiv (a b : list batch_op) : Prop := ∀ m, batch_apply a m = batch_apply b m.
Infix "≃" := ops_equiv (at level 70).

#[export] Instance ops_equiv_equivalence : Equivalence ops_equiv.
Proof. split; [by intros a m|intros a b H m; by rewrite H|intros a b c H1 H2 m; by rewrite H1]. Qed.

Lemma batch_apply_app a b m : batch_apply (a ++ b) m = batch_apply b (batch_apply a m).
Proof. apply foldl_app. Qed.

#[export] Instance ops_app_proper : Proper (ops_equiv ==> ops_equiv ==> ops_equiv) (++).
Proof. intros a a' Ha b b' Hb m. by rewrite !batch_apply_app, Ha, Hb. Qed.

(** The last operation of a batch on a key. *)
Definition last_op (k : string) (ops : list batch_op) : option batch_op := last (filter (λ o, op_key o = k) ops).

Lemma last_op_app k a b :
  last_op k (a ++ b) = match last_op k b with Some o => Some o | None => last_op k a end.
Proof. unfold last_op. rewrite filter_app, last_app. by destruct (last _). Qed.

Lemma batch_step_lookup o m k : batch_step m o !! k = if decide (op_key o = k) then op_value o else m !! k.
Proof.
  destruct o as [k' v|k']; simpl; [rewrite lookup_insert|rewrite lookup_delete]; by repeat case_decide.
Qed.

Lemma batch_apply_lookup ops m k :
  batch_apply ops m !! k = match last_op k ops with Some o => op_value o | None => m !! k end.
Proof.
  revert m. induction ops as [|o ops IH] using rev_ind; intros m; [done|].
  rewrite batch_apply_app, last_op_app. change (batch_apply [o] ?x) with (batch_step x o).
  rewrite batch_step_lookup, IH. unfold last_op at 2. rewrite filter_cons, filter_nil.
  by destruct (decide (op_key o = k)).
Qed.

(** Equivalent batches are those with the same last operations; an operation hides
    the earlier ones on its key. *)
Lemma ops_equiv_last a b : (∀ k, op_value <$> last_op k a = op_value <$> last_op k b) → a ≃ b.
Proof.
  intros H m. apply map_eq. intros k. rewrite !batch_apply_lookup. specialize (H k).
  by destruct (last_op k a), (last_op k b); simplify_eq/=.
Qed.

Lemma ops_overwrite o1 o2 a : op_key o1 = op_key o2 → a ++ [o1; o2] ≃ a ++ [o2].
Proof.
  intros Hk. apply ops_app_proper; [done|]. intros m. apply map_eq. intros k. rewrite !batch_apply_lookup.
  unfold last_op. rewrite !filter_cons, filter_nil. rewrite Hk. by case_decide.
Qed.

Section laws.
Context {D Bt : Type} `{!Database D, !DatabaseLaws D, !Batches Bt D, !BatchLaws Bt D}.
Implicit Types (d : D) (b : Bt).

(** Operations performed one by one through the wrapper. *)
Lemma run_ops_direct ops d :
  ∃ d', for_each (replay_op SW_Put SW_Delete) ops d = (d', Ok tt) ∧ db_map d' = batch_apply ops (db_map d).
Proof.
  revert d. induction ops as [|o ops IH]; intros d; [by exists d|]. cbn [for_each].
  assert (∃ d1, replay_op SW_Put SW_Delete o d = (d1, Ok tt) ∧ db_map d1 = batch_step (db_map d) o) as (d1 & E1 & H1).
  { destruct o as [k v|k]; [apply db_Put_run|apply db_Delete_run]. }
  rewrite (bind_ok _ _ _ _ _ E1). destruct (IH d1) as (d' & E & H). exists d'. split; [done|].
  rewrite H, H1. done.
Qed.

(** The same operations put into a batch. *)
Lemma fill_batch ops b :
  ∃ b', for_each (replay_op (SB_Put (D := D)) (SB_Delete (D := D))) ops b = (b', Ok tt) ∧ bt_ops b' = bt_ops b ++ ops.
Proof using Type*.
  revert b. induction ops as [|o ops IH]; intros b; [exists b; by rewrite app_nil_r|]. cbn [for_each].
  assert (∃ b1, replay_op (SB_Put (D := D)) (SB_Delete (D := D)) o b = (b1, Ok tt) ∧ bt_ops b1 = bt_ops b ++ [o])
    as (b1 & E1 & H1).
  { destruct o as [k v|k]; [apply bt_Put_run|apply bt_Delete_run]. }
  rewrite (bind_ok _ _ _ _ _ E1). destruct (IH b1) as (b' & E & H). exists b'. split; [done|].
  rewrite H, H1. by rewrite <-app_assoc.
Qed.

(** Operations put into a batch that is then written leave the database as the
    same operations performed one by one, and so does replaying the batch: under every
    key the effect of the last operation on it, elsewhere what was there. *)
Theorem StorageBatch_spec ops d :
  ∃ b d1 d2 d3,
    for_each (replay_op (SB_Put (D := D)) (SB_Delete (D := D))) ops (bt_New d) = (b, Ok tt) ∧
    SB_Write b d = (d1, Ok tt) ∧
    for_each (replay_op SW_Put SW_Delete) ops d = (d2, Ok tt) ∧
    SB_Replay (D := D) SW_Put SW_Delete b d = (d3, Ok tt) ∧
    db_map d1 = db_map d2 ∧ db_map d1 = db_map d3 ∧
    ∀ k, db_map d1 !! k = match last_op k ops with Some o => op_value o | None => db_map d !! k end.
Proof using Type*.
  destruct (fill_batch ops (bt_New d)) as (b & Eb & Hb). rewrite bt_New_ops, app_nil_l in Hb.
  destruct (bt_Write_run b d) as (d1 & E1 & H1). destruct (run_ops_direct ops d) as (d2 & E2 & H2).
  exists b, d1, d2, d2. unfold SB_Replay. rewrite bt_Replay_ops, Hb.
  split; [exact Eb|]. split; [exact E1|]. split; [exact E2|]. split; [exact E2|].
  rewrite H1, H2, Hb. split; [done|]. split; [done|]. intros k. apply batch_apply_lookup.
Qed.

(** ** Refinements *)

(** A database, wrapped, is the [state.Mutable] the state layer is proved against,
    with the same contents. *)
Theorem DatabaseWrapper_refines_Mutable nil_empty :
  ∃ L : @KVLaws D (DatabaseWrapper nil_empty), ∀ d, @contents D _ L d = db_map d.
Proof.
  unshelve eexists.
  - refine (@Build_KVLaws D (DatabaseWrapper nil_empty) db_map _ _ _ _ _); simpl.
    + apply db_Get_map.
    + intros k v d. unfold DW_Insert. by destruct (db_Put_run k v d) as (d' & -> & _).
    + intros k v d. unfold DW_Insert. by destruct (db_Put_run k v d) as (d' & -> & H).
    + intros k d. unfold DW_Remove. by destruct (db_Delete_run k d) as (d' & -> & _).
    + intros k d. unfold DW_Remove. by destruct (db_Delete_run k d) as (d' & -> & H).
  - done.
Qed.

Lemma StorageWrapper_refines_BaseStorage :
  ∃ L : @BaseStoreLaws D StorageWrapper_BaseStore ErrNotFound, ∀ d, @bs_contents D _ _ L d = db_map d.
Proof.
  unshelve eexists.
  - refine (@Build_BaseStoreLaws D StorageWrapper_BaseStore ErrNotFound db_map _ _ _ _ _); simpl.
    + apply db_Get_map.
    + intros k v d. unfold SW_PutWithContext. by destruct (db_Put_run k v d) as (d' & -> & _).
    + intros k v d. unfold SW_PutWithContext. by destruct (db_Put_run k v d) as (d' & -> & H).
    + intros k d. unfold SW_DeleteWithContext. by destruct (db_Delete_run k d) as (d' & -> & _).
    + intros k d. unfold SW_DeleteWithContext. by destruct (db_Delete_run k d) as (d' & -> & H).
  - done.
Qed.

Lemma collect_values_live ctx n entries : (∀ i, ctx i = None) → collect_values ctx n entries = Ok entries.*2.
Proof.
  intros Hc. revert n. induction entries as [|[k v] l IH]; intros n; [done|]. simpl. by rewrite Hc, IH.
Qed.

(** A prefix query under a live context returns the values of exactly the keys with
    the prefix, in key order; under a context that is done it fails as soon as there is
    an entry. *)
Lemma SW_GetByPrefix_spec prefix d :
  (∃ entries, SW_GetByPrefix (λ _, None) prefix d = Ok entries.*2 ∧ StronglySorted key_before entries ∧
     ∀ k v, (k, v) ∈ entries ↔ db_map d !! k = Some v ∧ HasPrefix k prefix = true) ∧
  ∀ e, SW_GetByPrefix (λ _, Some e) prefix d = Err e ∨
    SW_GetByPrefix (λ _, Some e) prefix d = Ok [] ∧ ∀ k v, db_map d !! k = Some v → HasPrefix k prefix = false.
Proof.
  unfold SW_GetByPrefix. pose proof (db_Iterate_ok "" prefix d) as He.
  pose proof (db_Iterate_sorted "" prefix d) as Hs. pose proof (db_Iterate_entries "" prefix d) as Hi.
  destruct (db_Iterate "" prefix d) as [entries err]. simpl in *. subst err. split.
  - exists entries. rewrite collect_values_live by done. split; [done|]. split; [done|].
    intros k v. rewrite Hi. split; [naive_solver|]. intros [H1 H2]. split; [done|]. split; [done|].
    unfold String.leb. by destruct k.
  - intros e. destruct entries as [|[k v] l]; [right|by left]. split; [done|]. intros k v Hk.
    apply not_true_iff_false. intros Hp. destruct (Hi k v) as [_ H]. apply (not_elem_of_nil (k, v)), H.
    split; [done|]. split; [done|]. unfold String.leb. by destruct k.
Qed.
End laws.

(** * Witnesses *)

(** A database as a finite map, whose iterators sort its entries. *)
#[local] Instance map_Database : Database (gmap string string) := {|
  db_Has k m := Ok (bool_decide (is_Some (m !! k)));
  db_Get k m := match m !! k with Some v => Ok v | None => Err ErrNotFound end;
  db_Put k v := modify (λ m, <[k := v]> m);
  db_Delete k := modify (λ m, delete k m);
  db_Close := mret tt;
  db_Iterate start prefix m :=
    (filter (λ kv, HasPrefix kv.1 prefix = true ∧ String.leb start kv.1 = true) (sorted_entries m), None);
  db_Compacter := None;
  db_HealthChecker := None;
|}.

Lemma sorted_entries_strict m : StronglySorted key_before (sorted_entries m).
Proof.
  assert (NoDup (sorted_entries m).*1) as Hn.
  { unfold sorted_entries. rewrite merge_sort_Permutation. apply NoDup_fst_map_to_list. }
  pose proof (StronglySorted_merge_sort key_le (map_to_list m)) as H. fold (sorted_entries m) in H.
  induction H as [|a l _ IH Hf]; [constructor|]. apply NoDup_cons in Hn as [Ha Hn]. constructor; [by apply IH|].
  rewrite Forall_forall in *. intros b Hb. unfold key_before. rewrite ltb_leb. apply negb_true_iff, not_true_iff_false.
  intros Hle. apply Ha. assert (a.1 = b.1) as ->; [|by apply list_elem_of_fmap_2].
  apply String.leb_antisym; [|done]. apply Is_true_true, (Hf b Hb).
Qed.

Lemma StronglySorted_filter_list {A} (R : relation A) P `{!∀ x, Decision (P x)} (l : list A) :
  StronglySorted R l → StronglySorted R (filter P l).
Proof.
  induction 1 as [|a l _ IH Hf]; [constructor|]. rewrite filter_cons. case_decide; [|done].
  constructor; [done|]. rewrite Forall_forall in *. intros x [_ Hx]%list_elem_of_filter. auto.
Qed.

#[local] Instance map_DatabaseLaws : DatabaseLaws (gmap string string).
Proof.
  refine {| db_map m := m |}; [done|done|by eexists|by eexists| | |done].
  - intros start prefix m k v. simpl. rewrite list_elem_of_filter. unfold sorted_entries.
    rewrite merge_sort_Permutation, elem_of_map_to_list. naive_solver.
  - intros. apply StronglySorted_filter_list, sorted_entries_strict.
Defined.

#[local] Instance list_Batches : Batches (list batch_op) (gmap string string) := {|
  bt_New _ := [];
  bt_Put k v := modify (λ l, l ++ [OpPut k v]);
  bt_Delete k := modify (λ l, l ++ [OpDelete k]);
  bt_Size l := Z.of_nat (length l);
  bt_Write l := modify (batch_apply l);
  bt_Reset _ := [];
  bt_Replay W put del l := for_each (replay_op put del) l;
|}.

#[local] Instance list_BatchLaws : BatchLaws (list batch_op) (gmap string string).
Proof. refine {| bt_ops l := l |}; by repeat eexists. Defined.

Lemma StorageBatch_spec_witness :
  ∃ b d1, for_each (replay_op (SB_Put (D := gmap string string)) (SB_Delete (D := gmap string string)))
      [OpPut "a" "1"; OpPut "b" "2"; OpDelete "a"] [] = (b, Ok tt) ∧
    SB_Write b ({[ "c" := "3" ]} : gmap string string) = (d1, Ok tt) ∧ d1 !! "a" = None ∧ d1 !! "b" = Some "2".
Proof.
  destruct (StorageBatch_spec (Bt := list batch_op) [OpPut "a" "1"; OpPut "b" "2"; OpDelete "a"]
    ({[ "c" := "3" ]} : gmap string string)) as (b & d1 & d2 & d3 & Eb & E1 & _ & _ & _ & _ & H).
  exists b, d1. split; [exact Eb|]. split; [exact E1|]. split; [exact (H "a")|exact (H "b")].
Defined.

Lemma DatabaseWrapper_refines_Mutable_witness :
  ∃ L : @KVLaws (gmap string string) (DatabaseWrapper true), ∀ d, @contents _ _ L d = d.
Proof. exact (DatabaseWrapper_refines_Mutable (D := gmap string string) true). Defined.
