(* ===== verification/StateStores.v ===== *)
(** [storage/state_manager.go], the adapters between the stores of a region and the
    interfaces their callers see, the state manager's iterator, its chain keys, and the
    proofs of region configurations ([storage/region_state_store.go],
    [storage/region_store.go]). *)

From S2P Require Import Prelude GoTime KV Core Channel Worker Coordinator Storage Transfer StateManager StateManagerFacts.
From S2P Require Import RangeState Database.
From Stdlib Require Import ZArith Lia Ascii String.
From stdpp Require Import base tactics option list strings pretty gmap.

Local Open Scope Z_scope.

Section adapters.
Context {S D M : Type} `{!Mutable S, !Mutable M, !MerkleDB M, !BaseStore D}.
Context `{!Json channel_alias, !Json worker_alias, !Json Coordinator.Region, !Json Message}.
Abbreviation SM := (StateManager S D M).

(** [RegionalStoreAdapter]: the cached store of a region. *)
Definition Adapter_GetValue (r key : string) : go SM string := on_region_store r (MerkleStore_Get key).
Definition Adapter_Insert (now : Time) (r key value : string) : go SM unit :=
  on_region_store r (MerkleStore_Insert now key value).
Definition Adapter_Remove (r key : string) : go SM unit := on_region_store r (MerkleStore_Delete key).
Definition Adapter_Get (r key : string) : go SM string := on_region_store r (MerkleStore_Get key).
Definition Adapter_Delete (r key : string) : go SM unit := on_region_store r (MerkleStore_Delete key).
Definition Adapter_GetProof (r key : string) : go SM string := on_region_store r (MerkleStore_GetProof key).
Definition Adapter_VerifyProof (r : string) : go SM unit := on_region_store r VerifyProof.
Definition Adapter_GetRegionID (r : string) : go SM string := on_region_store r (gets (λ s, ms_regionID (st_ms s))).
Definition Adapter_GetRoot (r : string) : go SM string := on_region_store r GetRoot.

(** [MutableWrapper] passes everything to the adapter it wraps. *)
Definition Wrapper_GetValue (r key : string) : go SM string := Adapter_GetValue r key.
Definition Wrapper_Insert (now : Time) (r key value : string) : go SM unit := Adapter_Insert now r key value.
Definition Wrapper_Remove (r key : string) : go SM unit := Adapter_Remove r key.
Definition Wrapper_Get (r key : string) : go SM string := Adapter_Get r key.
Definition Wrapper_Delete (r key : string) : go SM unit := Adapter_Delete r key.
Definition Wrapper_GetProof (r key : string) : go SM string := Adapter_GetProof r key.
Definition Wrapper_VerifyProof (r : string) : go SM unit := Adapter_VerifyProof r.
Definition Wrapper_GetRegionID (r : string) : go SM string := Adapter_GetRegionID r.
Definition Wrapper_GetRoot (r : string) : go SM string := Adapter_GetRoot r.

(** The method of a returned store, by its dynamic type. *)
Definition store_GetProof (st : RegionalStore) (key : string) : go SM string :=
  match st with RegionalStoreAdapter r => Adapter_GetProof r key | MutableWrapper r => Wrapper_GetProof r key end.

(** Chain state. *)
Definition SM_SetInputObject (id : string) : go S unit := SetInputObject id.
Definition SM_HeightKey : string := heightKey.
Definition SM_TimestampKey : string := timestampKey.
Definition SM_FeeKey : string := feeKey.
Definition SM_GetCoordinator (s : SM) : Coordinator D := sm_coord s.

(** [Iterator]: a regional prefix is looked for in the region's own database, unless
    that cannot be made; anything else in the state manager's [db]. *)
Definition SM_Iterator `{!PrefixIter D, !PrefixIter M} (ctx : option goerr) (prefix : string) : go SM RegionIterator :=
  let plain := gets (λ s : SM, NewRegionIterator ctx (iter_prefix prefix (store (sm_coord s))) prefix) in
  match IsRegionalKey prefix with
  | None => plain
  | Some regionID =>
      r ← try (RSM_GetRegionalStore regionID);
      match r with
      | inr _ => plain
      | inl _ =>
          gets (λ s, NewRegionIterator ctx
            (match sm_regional s !! regionID with Some (_, db) => iter_prefix prefix db | None => [] end) prefix)
      end
  end.

(** [RegionStateStore.GetRegionProof]. *)
Definition GetRegionProof (regionID : string) : go SM string :=
  st ← wrap "failed to get regional store" (GetRegionalStore regionID);
  wrap "failed to get proof" (store_GetProof st (makeRegionKey "config" regionID "")).

(** * Properties *)

(** A wrapper is its adapter, whatever the mutable state it was given. *)
Lemma store_methods (st : RegionalStore) now key value :
  store_GetValue (S := S) (D := D) (M := M) st key = Adapter_GetValue (store_region st) key ∧
  store_Insert (S := S) (D := D) (M := M) now st key value = Adapter_Insert now (store_region st) key value ∧
  store_Remove (S := S) (D := D) (M := M) st key = Adapter_Remove (store_region st) key ∧
  store_GetProof st key = Adapter_GetProof (store_region st) key.
Proof using Type. by destruct st. Qed.

(** A region proof is made for a key of the region's own Merkle tree; the
    configuration is stored under a key of the backing store. *)
Lemma GetRegionProof_key r ms (s : SM) :
  sm_regionStores s !! r = Some ms → ms_regionID ms = r →
  (GetRegionProof r s).2 = (wrap "failed to get proof"
    (lift (mdb_GetProof (makeRegionalKey r (makeRegionKey "config" r "")) (sm_merkle s))) s).2 ∧
  makeRegionalKey r (makeRegionKey "config" r "") ≠ makeRegionKey "config" r "".
Proof using Type.
  intros Hs Hr. split; [|by intros H].
  assert (GetRegionalStore r s = (s, Ok (MutableWrapper r))) as E.
  { unfold GetRegionalStore, getRegionalStoreInternal. unfold mbind, go_bind, gets. by rewrite Hs. }
  unfold GetRegionProof. rewrite (bind_ok _ _ s s (MutableWrapper r)) by (unfold wrap; by rewrite E).
  unfold wrap, store_GetProof, Wrapper_GetProof, Adapter_GetProof, on_region_store. rewrite Hs.
  unfold MerkleStore_GetProof, mbind, go_bind, gets, on_mdb, zoom. simpl. rewrite Hr.
  unfold lift. by destruct (mdb_GetProof _ _).
Qed.

(** The keys the chain keeps its own records under are not those of any object, event,
    region, coordination record or account of the state. *)
Lemma chain_keys_apart `{!ChainLib} k :
  k ∈ [SM_HeightKey; SM_TimestampKey; SM_FeeKey] →
  (∀ a, k ≠ BalanceKey a) ∧ (∀ r id, k ≠ makeObjectKey r id) ∧ (∀ r t id, k ≠ makeEventKey r t id) ∧
  (∀ r id, k ≠ makeStateKey r id) ∧ (∀ id, k ≠ RegionKey id) ∧ k ≠ InputObjectKey ∧
  ∀ r x id, k ≠ makeRegionalKey r (makeRegionKey r x id).
Proof using Type.
  rewrite !elem_of_cons, elem_of_nil.
  intros [->|[->|[->|[]]]]; unfold makeObjectKey, makeEventKey, makeStateKey, makeKey;
    (split_and!; [done|intros r ?; by destruct (bool_decide (r = ""))|
      intros r ? ?; by destruct (bool_decide (r = ""))|intros r ?; by destruct (bool_decide (r = ""))|done..]).
Qed.

(** A loop over the state manager's iterator visits the database's entries for the
    prefix and ends. *)
Lemma SM_Iterator_visits `{!PrefixIter D, !PrefixIter M} prefix (s : SM) :
  IsRegionalKey prefix = None →
  Forall (λ kv, HasPrefix kv.1 prefix = true) (iter_prefix prefix (store (sm_coord s))) →
  ∃ it, SM_Iterator None prefix s = (s, Ok it) ∧
    ∀ n, (length (iter_prefix prefix (store (sm_coord s))) < n)%nat →
      (drain n it).1 = iter_prefix prefix (store (sm_coord s)).
Proof using Type.
  intros Hp Hall. eexists. split; [unfold SM_Iterator; by rewrite Hp|]. intros n Hn.
  destruct (drain_prefixed n prefix None _ Hall Hn) as [cur' E]. unfold NewRegionIterator. by rewrite E.
Qed.
End adapters.
