(* ===== verification/XRegion.v ===== *)
(** Package [coordination/xregion]: cross-region intents and their validation
    ([types.go]), the coordinator that serves range proofs and the processor that
    confirms an intent with several regions at once ([coordinator.go]). *)

From S2P Require Import Prelude GoTime KV RangeState.
From Stdlib Require Import ZArith Lia Ascii String.
From stdpp Require Import base tactics option list strings pretty gmap sorting.

Local Open Scope Z_scope.

(** * Intents *)

Record TimeWindow : Type := mkWindow {
  tw_Start : Time;
  tw_Duration : Z;
}.

Definition TimeWindow_End (w : TimeWindow) : Time := GoTime.Add (tw_Start w) (tw_Duration w).

Inductive IntentStatus : Type :=
  | IntentStatusPending
  | IntentStatusConfirmed
  | IntentStatusExecuting
  | IntentStatusCommitted
  | IntentStatusAborted
  | IntentStatusFailed.

(** [StateOperation] is an [int], which a decoded change takes from the wire. *)
Definition StateOpSet : Z := 0.
Definition StateOpDelete : Z := 1.
Definition StateOpTransferOut : Z := 2.
Definition StateOpTransferIn : Z := 3.
Definition StateOpLock : Z := 4.
Definition StateOpUnlock : Z := 5.

Record StateChange : Type := mkChange {
  ch_Key : slice;
  ch_Value : string;
  ch_Operation : Z;
  ch_Source : string;
  ch_Target : string;
}.

Record CrossRegionIntent : Type := mkIntent {
  in_ID : string;
  in_SourceRegion : string;
  in_TargetRegions : list string;
  in_TimeWindow : TimeWindow;
  in_Status : IntentStatus;
  in_CreatedAt : Time;
  in_Signatures : gomap string;
  in_StateChanges : gomap (list StateChange);
  in_Dependencies : gomap (list string);
  in_Data : string;
}.

(** What a range over a Go map visits; the nil map is empty. *)
Definition gm {V} (m : gomap V) : gmap string V := default ∅ m.

Definition NewCrossRegionIntent (now : Time) (id sourceRegion : string)
    (targetRegions : list string) : CrossRegionIntent :=
  mkIntent id sourceRegion targetRegions (mkWindow zeroTime 0) IntentStatusPending now
           (Some ∅) (Some ∅) (Some ∅) "".

Definition set_StateChanges (m : gomap (list StateChange)) (i : CrossRegionIntent) : CrossRegionIntent :=
  mkIntent (in_ID i) (in_SourceRegion i) (in_TargetRegions i) (in_TimeWindow i) (in_Status i)
           (in_CreatedAt i) (in_Signatures i) m (in_Dependencies i) (in_Data i).
Definition set_Dependencies (m : gomap (list string)) (i : CrossRegionIntent) : CrossRegionIntent :=
  mkIntent (in_ID i) (in_SourceRegion i) (in_TargetRegions i) (in_TimeWindow i) (in_Status i)
           (in_CreatedAt i) (in_Signatures i) (in_StateChanges i) m (in_Data i).

Definition GetStateChanges (regionID : string) (i : CrossRegionIntent) : list StateChange :=
  default [] (map_lookup (in_StateChanges i) regionID).

Definition GetDependencies (regionID : string) (i : CrossRegionIntent) : list string :=
  default [] (map_lookup (in_Dependencies i) regionID).

Definition AddStateChange (regionID : string) (change : StateChange) (i : CrossRegionIntent) :
    CrossRegionIntent :=
  set_StateChanges (Some (<[regionID := GetStateChanges regionID i ++ [change]]> (gm (in_StateChanges i)))) i.

Definition AddDependency (regionID dependsOn : string) (i : CrossRegionIntent) : CrossRegionIntent :=
  let deps := gm (in_Dependencies i) in
  if bool_decide (dependsOn ∈ GetDependencies regionID i) then set_Dependencies (Some deps) i
  else set_Dependencies (Some (<[regionID := GetDependencies regionID i ++ [dependsOn]]> deps)) i.

(** ** Validation *)

Record transfer : Type := mkTransferRec {
  t_source : string;
  t_target : string;
  t_key : string;
}.

(** The body of the loop; the state is the map of transfers seen so far. *)
Definition validate_change (region : string) (change : StateChange) : go (gmap string transfer) unit :=
  let key := sbytes (ch_Key change) in
  if ch_Operation change =? StateOpTransferOut then
    fail_if (bool_decide (ch_Target change = ""))
            (Errorf ("transfer out from " +s+ region +s+ " missing target region")) ;;
    modify (<[key := mkTransferRec region (ch_Target change) key]>)
  else if ch_Operation change =? StateOpTransferIn then
    fail_if (bool_decide (ch_Source change = ""))
            (Errorf ("transfer in to " +s+ region +s+ " missing source region")) ;;
    t ← gets (lookup key);
    match t with
    | None => fail (Errorf ("transfer in to " +s+ region +s+ " has no matching transfer out"))
    | Some t =>
        fail_if (negb (bool_decide (t_target t = region)))
                (Errorf ("transfer target mismatch: expected " +s+ t_target t +s+ ", got " +s+ region))
    end
  else mret tt.

Definition ValidateStateChanges `{MapRange} (i : CrossRegionIntent) : outcome unit :=
  (for_each (λ rc, for_each (validate_change rc.1) rc.2) (range_map 0 (gm (in_StateChanges i))) ∅).2.

(** * The coordinator *)

Record RangeRequest : Type := mkRangeRequest {
  rq_StartKey : slice;
  rq_EndKey : slice;
  rq_RegionID : string;
  rq_TimeWindow : TimeWindow;
  rq_Signature : string;
}.

Record RangeResponse (Pf : Type) : Type := mkRangeResponse {
  rp_Proof : RangeProof Pf;
  rp_RegionID : string;
  rp_TimeWindow : TimeWindow;
  rp_Signature : string;
}.
Arguments mkRangeResponse {_} _ _ _ _.
Arguments rp_Proof {_} _.
Arguments rp_RegionID {_} _.
Arguments rp_TimeWindow {_} _.
Arguments rp_Signature {_} _.

(** The signer and the transport are not used. *)
Record Coordinator (M V Pf : Type) : Type := mkCoordinator {
  co_regionID : string;
  co_state : MerkleStore M V Pf;
}.
Arguments mkCoordinator {_ _ _} _ _.
Arguments co_regionID {_ _ _} _.
Arguments co_state {_ _ _} _.

(** The package variables: whether [initOnce] ran, and the coordinator. *)
Record Globals (M V Pf : Type) : Type := mkGlobals {
  initDone : bool;
  globalCoordinator : option (Coordinator M V Pf);
}.
Arguments mkGlobals {_ _ _} _ _.
Arguments initDone {_ _ _} _.
Arguments globalCoordinator {_ _ _} _.

(** A placeholder in the source: any non-empty signature verifies. *)
Definition VerifySignature (regionID intentID signature : string) : outcome unit :=
  if slen signature =? 0 then Err (Errorf "empty signature") else Ok tt.

Definition Sign (data : string) : outcome string := Ok (String "001"%char EmptyString).

Definition ConfirmIntent (intentID region signature : string) : outcome unit :=
  match VerifySignature region intentID signature with
  | Err e => Err (Wrapf ("invalid signature from region " +s+ region) e)
  | r => r
  end.

Section coordinator.
Context {M V Pf : Type} `{!RangeViews M V Pf} `{MR : MapRange}.
Abbreviation Co := (Coordinator M V Pf).

(** [initOnce.Do] marks itself done also when its function panics. *)
Definition GetCoordinator : go (Globals M V Pf) (option Co) :=
  ran ← gets initDone;
  (if ran : bool then mret tt
   else
     modify (λ g, mkGlobals true (globalCoordinator g)) ;;
     r ← try (lift (NewMerkleStore (M := M) (V := V) (Pf := Pf) None));
     match r with
     | inr _ => gopanic "failed to initialize coordinator"
     | inl store => modify (λ g, mkGlobals (initDone g) (Some (mkCoordinator "default" store)))
     end) ;;
  gets globalCoordinator.

Definition NewCoordinator (regionID : string) (state : MerkleStore M V Pf) : Co :=
  mkCoordinator regionID state.

Definition on_state {A} (m : go (MerkleStore M V Pf) A) : go Co A :=
  zoom co_state (λ s c, mkCoordinator (co_regionID c) s) m.

Definition RequestRangeProof (req : RangeRequest) : go Co (RangeResponse Pf) :=
  proof ← wrap "failed to get range proof" (on_state (GetRangeProof (rq_StartKey req) (rq_EndKey req)));
  mret (mkRangeResponse proof (rq_RegionID req) (rq_TimeWindow req) "").

Definition verifyRequestSignature (req : RangeRequest) : outcome unit := Ok tt.
Definition signResponse (resp : RangeResponse Pf) : outcome string := Ok "".

Definition HandleRangeRequest (req : RangeRequest) : go Co (RangeResponse Pf) :=
  wrap "invalid request signature" (lift (verifyRequestSignature req)) ;;
  proof ← wrap "failed to get range proof" (on_state (GetRangeProof (rq_StartKey req) (rq_EndKey req)));
  region ← gets co_regionID;
  let resp := mkRangeResponse proof region (rq_TimeWindow req) "" in
  sig ← wrap "failed to sign response" (lift (signResponse resp));
  mret (mkRangeResponse proof region (rq_TimeWindow req) sig).

(** * The region processor *)

Record RegionProcessor : Type := mkProcessor {
  maxConcurrent : Z;
  rp_coordinator : Co;
}.

Definition NewRegionProcessor (maxConcurrent : Z) (coordinator : option Co) : outcome RegionProcessor :=
  if maxConcurrent <=? 0 then Err (Errorf "maxConcurrent must be positive")
  else match coordinator with
       | None => Err (Errorf "coordinator cannot be nil")
       | Some c => Ok (mkProcessor maxConcurrent c)
       end.
End coordinator.

(** The context of a call: nil, live, or already cancelled. *)
Inductive Context : Type := CtxNil | CtxLive | CtxDone.

Definition ErrCanceled := Sentinel "context" "Canceled".

(** The outcome of [ProcessRegions] when nothing cancels it on the way, its
    goroutines taken in the order they are started; [pr_step] below is the
    concurrent program. *)
Fixpoint confirm_all (intent : string) (regions : list string) (signature : string) : outcome unit :=
  match regions with
  | [] => Ok tt
  | region :: rest =>
      match ConfirmIntent intent region signature with
      | Err e => Err (Wrapf ("region " +s+ region +s+ " failed") e)
      | _ => confirm_all intent rest signature
      end
  end.

Definition ProcessRegions (ctx : Context) (intent : string) (regions : list string)
    (signature : string) : outcome unit :=
  match ctx with
  | CtxNil => Err (Errorf "context cannot be nil")
  | CtxLive => confirm_all intent regions signature
  | CtxDone => if bool_decide (regions = []) then Ok tt
               else Err (Wrapf "failed to acquire semaphore" ErrCanceled)
  end.

(** ** Its concurrent execution *)

Inductive phase : Type := Looping | Waiting | Returned (o : outcome unit).

(** The loop's regions still to start, the goroutines that hold a permit of the
    semaphore, those whose function has returned an error the group has not seen yet,
    the regions confirmed, the first error of the group, and whether the group's context
    is cancelled. *)
Record PR : Type := mkPR {
  pr_todo : list string;
  pr_running : list string;
  pr_ended : list goerr;
  pr_confirmed : list string;
  pr_failure : option goerr;
  pr_ctxDone : bool;
  pr_phase : phase;
}.

Definition first_error (f : option goerr) (e : goerr) : option goerr :=
  match f with Some _ => f | None => Some e end.

Definition group_result (f : option goerr) : outcome unit :=
  match f with Some e => Err e | None => Ok tt end.

(** One step of the loop, of a goroutine, or of whoever holds the caller's
    context (when [cancellable]).  [Acquire] on a cancelled context fails, or
    succeeds if a permit is free.  A goroutine whose function returns gives its permit
    back first (the deferred [Release]); only then does the group take its error and
    cancel the context. *)
Inductive pr_step (max : Z) (cancellable : bool) (intent signature : string) : relation PR :=
  | pr_acquire r todo run ended conf f d :
      Z.of_nat (length run) < max →
      pr_step max cancellable intent signature (mkPR (r :: todo) run ended conf f d Looping)
              (mkPR todo (run ++ [r]) ended conf f d Looping)
  | pr_acquire_fails r todo run ended conf f :
      pr_step max cancellable intent signature (mkPR (r :: todo) run ended conf f true Looping)
              (mkPR (r :: todo) run ended conf f true
                 (Returned (Err (Wrapf "failed to acquire semaphore" ErrCanceled))))
  | pr_wait run ended conf f d :
      pr_step max cancellable intent signature (mkPR [] run ended conf f d Looping)
              (mkPR [] run ended conf f d Waiting)
  | pr_return todo conf f d :
      pr_step max cancellable intent signature (mkPR todo [] [] conf f d Waiting)
              (mkPR todo [] [] conf f d (Returned (group_result f)))
  | pr_confirm r todo run1 run2 ended conf f ph :
      ConfirmIntent intent r signature = Ok tt →
      pr_step max cancellable intent signature (mkPR todo (run1 ++ r :: run2) ended conf f false ph)
              (mkPR todo (run1 ++ run2) ended (conf ++ [r]) f false ph)
  | pr_reject r todo run1 run2 ended conf f ph e :
      ConfirmIntent intent r signature = Err e →
      pr_step max cancellable intent signature (mkPR todo (run1 ++ r :: run2) ended conf f false ph)
              (mkPR todo (run1 ++ run2) (ended ++ [Wrapf ("region " +s+ r +s+ " failed") e]) conf f false ph)
  | pr_canceled r todo run1 run2 ended conf f ph :
      pr_step max cancellable intent signature (mkPR todo (run1 ++ r :: run2) ended conf f true ph)
              (mkPR todo (run1 ++ run2) (ended ++ [ErrCanceled]) conf f true ph)
  | pr_report e todo run ended1 ended2 conf f d ph :
      pr_step max cancellable intent signature (mkPR todo run (ended1 ++ e :: ended2) conf f d ph)
              (mkPR todo run (ended1 ++ ended2) conf (first_error f e) true ph)
  | pr_cancel todo run ended conf f ph :
      cancellable = true →
      pr_step max cancellable intent signature (mkPR todo run ended conf f false ph)
              (mkPR todo run ended conf f true ph).

Definition pr_init (regions : list string) : PR := mkPR regions [] [] [] None false Looping.

(** * Theorems: validation *)

(** The change is one the intent makes in the region. *)
Definition changes_in (i : CrossRegionIntent) (region : string) (c : StateChange) : Prop :=
  ∃ cs, gm (in_StateChanges i) !! region = Some cs ∧ c ∈ cs.

(** Every recorded transfer comes from a transfer-out of the intent. *)
Definition transfers_from (i : CrossRegionIntent) (ts : gmap string transfer) : Prop :=
  ∀ key t, ts !! key = Some t →
    ∃ c, changes_in i (t_source t) c ∧ ch_Operation c = StateOpTransferOut ∧
         sbytes (ch_Key c) = key ∧ ch_Target c = t_target t.

(** What a change that passed satisfies. *)
Definition change_ok (i : CrossRegionIntent) (region : string) (c : StateChange) : Prop :=
  (ch_Operation c = StateOpTransferOut → ch_Target c ≠ "") ∧
  (ch_Operation c = StateOpTransferIn → ch_Source c ≠ "" ∧
     ∃ source c', changes_in i source c' ∧ ch_Operation c' = StateOpTransferOut ∧
       sbytes (ch_Key c') = sbytes (ch_Key c) ∧ ch_Target c' = region).

Lemma validate_change_ok i region c ts ts' :
  changes_in i region c → transfers_from i ts →
  validate_change region c ts = (ts', Ok tt) → transfers_from i ts' ∧ change_ok i region c.
Proof.
  intros Hc Hts. unfold validate_change, change_ok.
  destruct (Z.eqb_spec (ch_Operation c) StateOpTransferOut) as [Eo|No].
  { go_unfold. case_bool_decide; intros [= <-]. split; [|split; [done|by rewrite Eo]].
    intros key t [[<- <-]|[Hne Hl]]%lookup_insert_Some; [|by apply Hts]. exists c. by cbn. }
  destruct (Z.eqb_spec (ch_Operation c) StateOpTransferIn) as [Ei|Ni]; [|intros [= <-]; naive_solver].
  go_unfold. case_bool_decide; [done|].
  destruct (ts !! sbytes (ch_Key c)) as [t|] eqn:Et; [|done].
  case_bool_decide as Ht; cbn [negb]; intros [= <-]. split; [done|]. split; [done|]. intros _.
  split; [done|]. destruct (Hts _ _ Et) as (c' & H1 & H2 & H3 & H4).
  exists (t_source t), c'. by rewrite H4.
Qed.

Section validation.
Context `{MR : MapRange}.

Lemma ValidateStateChanges_ok i :
  ValidateStateChanges i = Ok tt → ∀ region c, changes_in i region c → change_ok i region c.
Proof.
  unfold ValidateStateChanges. intros H region c (cs & Hcs & Hc).
  destruct (for_each _ _ ∅) as [ts o] eqn:E. simpl in H. subst o.
  assert (∀ rc s1 s2, rc ∈ range_map 0 (gm (in_StateChanges i)) →
            for_each (validate_change rc.1) rc.2 s1 = (s2, Ok tt) → transfers_from i s1 →
            transfers_from i s2 ∧ ∀ c, c ∈ rc.2 → change_ok i rc.1 c) as Hin.
  { intros [r l] s1 s2 Hr%elem_of_range_map Hrun Hs1. cbn [fst snd] in *.
    assert (∀ c, c ∈ l → changes_in i r c) as Hl by (intros c' ?; by exists l).
    destruct (for_each_ok_inv (transfers_from i) (validate_change r) l s1 s2) as [H1 H2]; [|done..|].
    { intros c' t1 t2 Hc' Hv Ht1. by eapply validate_change_ok; eauto. }
    split; [done|]. intros c' Hc'. destruct (H2 c' Hc') as (t1 & t2 & Ht1 & Hv).
    by eapply validate_change_ok; eauto. }
  destruct (for_each_ok_inv (transfers_from i) _ _ _ _ (λ x s1 s2 Hx Hv Hs, proj1 (Hin x s1 s2 Hx Hv Hs)) E)
    as [_ Hall]; [by intros ? ? ?%lookup_empty_Some|].
  assert ((region, cs) ∈ range_map 0 (gm (in_StateChanges i))) as Hr by (by apply elem_of_range_map).
  destruct (Hall _ Hr) as (s1 & s2 & Hs1 & Hv). by apply (Hin (region, cs) s1 s2).
Qed.

(** An intent whose changes validate names a target for every transfer out of
    a region, and has for every transfer into a region a source and a transfer out
    of the same key whose target is that region. *)
Theorem ValidateStateChanges_sound i region c :
  ValidateStateChanges i = Ok tt → changes_in i region c →
  (ch_Operation c = StateOpTransferOut → ch_Target c ≠ "") ∧
  (ch_Operation c = StateOpTransferIn → ch_Source c ≠ "" ∧
     ∃ source c', changes_in i source c' ∧ ch_Operation c' = StateOpTransferOut ∧
       sbytes (ch_Key c') = sbytes (ch_Key c) ∧ ch_Target c' = region).
Proof. intros H Hc. exact (ValidateStateChanges_ok i H region c Hc). Qed.
End validation.

(** A range order that visits one key first. *)
Definition first_list {A} (k : string) (m : gmap string A) : list (string * A) :=
  match m !! k with
  | Some x => (k, x) :: map_to_list (delete k m)
  | None => map_to_list m
  end.

Lemma first_list_perm {A} k (m : gmap string A) : first_list k m ≡ₚ map_to_list m.
Proof. unfold first_list. destruct (m !! k) eqn:E; [by apply map_to_list_delete|done]. Qed.

Definition first_MapRange (k : string) : MapRange :=
  {| range_map A n m := first_list k m; range_map_perm A n m := first_list_perm k m |}.

(** The intent of one transfer of a key between two regions. *)
Definition transfer_intent (now : Time) (id r1 r2 : string) (key : slice) (value : string) :
    CrossRegionIntent :=
  AddStateChange r2 (mkChange key value StateOpTransferIn r1 r2)
    (AddStateChange r1 (mkChange key value StateOpTransferOut r1 r2)
       (NewCrossRegionIntent now id r1 [r2])).

Lemma transfer_intent_changes now id r1 r2 key value :
  r1 ≠ r2 →
  gm (in_StateChanges (transfer_intent now id r1 r2 key value)) =
    {[r1 := [mkChange key value StateOpTransferOut r1 r2];
      r2 := [mkChange key value StateOpTransferIn r1 r2]]}.
Proof.
  intros Hne. unfold transfer_intent, AddStateChange, GetStateChanges. cbn.
  rewrite lookup_empty, lookup_insert_ne, lookup_empty by done. cbn.
  rewrite insert_insert_ne by done. by rewrite insert_empty.
Qed.

Lemma first_list_pair {A} r1 r2 (x y : A) :
  r1 ≠ r2 →
  first_list r1 ({[r1 := x; r2 := y]} : gmap string A) = [(r1, x); (r2, y)] ∧
  first_list r2 ({[r1 := x; r2 := y]} : gmap string A) = [(r2, y); (r1, x)].
Proof.
  intros Hne. unfold first_list. rewrite lookup_insert_eq, lookup_insert_ne, lookup_singleton_eq by done.
  rewrite delete_insert_id by (by apply lookup_singleton_ne).
  rewrite delete_insert_ne, delete_singleton_eq by done. cbn.
  by rewrite map_to_list_singleton, insert_empty, map_to_list_singleton.
Qed.

(** Whether a plain transfer between two regions validates depends on the order
    in which the map of changes is visited: it passes when the source comes first
    and is refused when the target does. *)
Theorem ValidateStateChanges_order now id r1 r2 key value :
  r1 ≠ r2 → r1 ≠ "" → r2 ≠ "" →
  let i := transfer_intent now id r1 r2 key value in
  ValidateStateChanges (H := first_MapRange r1) i = Ok tt ∧
  ValidateStateChanges (H := first_MapRange r2) i =
    Err (Errorf ("transfer in to " +s+ r2 +s+ " has no matching transfer out")).
Proof.
  intros Hne H1 H2 i. unfold ValidateStateChanges, i.
  rewrite transfer_intent_changes by done. cbn [range_map first_MapRange].
  edestruct @first_list_pair as [E1 E2]; [exact Hne|]. rewrite E1, E2. cbn [for_each].
  unfold validate_change. cbn. split.
  - go_unfold. rewrite (bool_decide_eq_false_2 (r2 = "")), (bool_decide_eq_false_2 (r1 = "")) by done.
    cbn. rewrite lookup_insert_eq. cbn. by rewrite bool_decide_eq_true_2.
  - go_unfold. rewrite (bool_decide_eq_false_2 (r1 = "")) by done. by rewrite lookup_empty.
Qed.

(** * Theorems: the region processor *)

Section processor.
Context (max : Z) (cancellable : bool) (intent signature : string).
Abbreviation step := (pr_step max cancellable intent signature).

(** What is left to do; every step makes it smaller. *)
Definition pr_measure (p : PR) : nat :=
  3 * length (pr_todo p) + 2 * length (pr_running p) + length (pr_ended p) + (if pr_ctxDone p then 0 else 1) +
  match pr_phase p with Looping => 2 | Waiting => 1 | Returned _ => 0 end.

Lemma pr_step_measure p p' : step p p' → (pr_measure p' < pr_measure p)%nat.
Proof. destruct 1; unfold pr_measure; cbn; rewrite ?length_app; cbn; repeat case_match; lia. Qed.

Lemma pr_steps_bounded n p p' : nsteps step n p p' → (n + pr_measure p' ≤ pr_measure p)%nat.
Proof. induction 1 as [|n x y z H _ IH]; [lia|]. apply pr_step_measure in H. lia. Qed.

(** The permits in use, and what is known of the regions. *)
Definition pr_inv (regions : list string) (p : PR) : Prop :=
  Z.of_nat (length (pr_running p)) ≤ max ∧
  (pr_phase p = Waiting → pr_todo p = []) ∧
  (pr_failure p = None → pr_ended p = [] → pr_confirmed p ++ pr_running p ++ pr_todo p ≡ₚ regions) ∧
  match pr_phase p with
  | Returned (Ok _) => pr_todo p = [] ∧ pr_running p = [] ∧ pr_ended p = [] ∧ pr_failure p = None
  | Returned (Err _) => regions ≠ [] ∧ (cancellable = false → signature = "")
  | Returned _ => False
  | _ => True
  end ∧
  (cancellable = false →
     (pr_ctxDone p = true → is_Some (pr_failure p)) ∧
     (is_Some (pr_failure p) ∨ pr_ended p ≠ [] → signature = "")) ∧
  (signature = "" → pr_confirmed p = []) ∧
  (regions = [] → pr_todo p = [] ∧ pr_running p = [] ∧ pr_ended p = [] ∧ pr_failure p = None).

Lemma ConfirmIntent_cases r :
  (signature ≠ "" ∧ ConfirmIntent intent r signature = Ok tt) ∨
  (signature = "" ∧ ∃ e, ConfirmIntent intent r signature = Err e).
Proof.
  unfold ConfirmIntent, VerifySignature, slen. destruct signature; [right|left]; split; try done. eauto.
Qed.

Lemma first_error_Some f e : is_Some (first_error f e).
Proof. destruct f; eauto. Qed.

Lemma pr_inv_init regions : 0 < max → pr_inv regions (pr_init regions).
Proof. intros. split_and!; cbn; try done; [lia|]. intros _. split; [done|]. intros [[? ?]|?]; done. Qed.

(** A goroutine is running, or has an error to report, so the call has not succeeded and
    there are regions. *)
Lemma pr_busy regions p :
  pr_inv regions p → pr_running p ≠ [] ∨ pr_ended p ≠ [] → regions ≠ [] ∧ (∀ u, pr_phase p ≠ Returned (Ok u)).
Proof.
  intros (_ & _ & _ & H4 & _ & _ & H7) Hb. split; [intros E; destruct (H7 E) as (_ & ? & ? & _); tauto|].
  intros u E. rewrite E in H4. tauto.
Qed.

Lemma snoc_nonempty {A} (l1 l2 : list A) x : l1 ++ x :: l2 ≠ [].
Proof. by destruct l1. Qed.

Lemma pr_inv_acquire regions r todo run ended conf f d :
  Z.of_nat (length run) < max →
  pr_inv regions (mkPR (r :: todo) run ended conf f d Looping) → pr_inv regions (mkPR todo (run ++ [r]) ended conf f d Looping).
Proof.
  intros Hlt (H1 & H2 & H3 & H4 & H5 & H6 & H7). unfold pr_inv in *; cbn in *.
  split_and!; try done; [rewrite length_app; simpl; lia| |].
  - intros Hf He. rewrite <-H3 by done. by rewrite <-(assoc_L (++)).
  - intros E. by destruct (H7 E).
Qed.

(** A goroutine whose function returned: confirmed, or with an error the context or an
    empty signature accounts for. *)
Lemma pr_inv_end regions r todo run1 run2 ended ended' conf conf' f d ph :
  (ended' = ended ∧ conf' = conf ++ [r] ∧ signature ≠ "") ∨
  (∃ e, ended' = ended ++ [e] ∧ conf' = conf ∧ (d = true ∨ signature = "")) →
  pr_inv regions (mkPR todo (run1 ++ r :: run2) ended conf f d ph) →
  pr_inv regions (mkPR todo (run1 ++ run2) ended' conf' f d ph).
Proof.
  intros Hend Hi. destruct (pr_busy _ _ Hi (or_introl (snoc_nonempty _ _ _))) as [Hne Hph].
  destruct Hi as (H1 & H2 & H3 & H4 & H5 & H6 & _). unfold pr_inv; cbn in *. rewrite length_app in *. cbn in *.
  split_and!; try done; [lia| | | |].
  - intros Hf He. destruct Hend as [(-> & -> & _)|(e & -> & _)]; [|by destruct ended]. rewrite <-H3 by done. solve_Permutation.
  - destruct ph as [| |[u|e| |]]; try done. by destruct (Hph u).
  - intros Hn. destruct (H5 Hn) as [H5a H5b]. split; [done|]. intros Hse.
    destruct Hend as [(-> & _)|(e & -> & _ & [->|?])]; [auto|apply H5b; left; auto|done].
  - intros Hs. destruct Hend as [(_ & _ & ?)|(_ & _ & -> & _)]; [done|auto].
Qed.

Lemma pr_inv_report regions e todo run ended1 ended2 conf f d ph :
  pr_inv regions (mkPR todo run (ended1 ++ e :: ended2) conf f d ph) →
  pr_inv regions (mkPR todo run (ended1 ++ ended2) conf (first_error f e) true ph).
Proof.
  intros Hi. destruct (pr_busy _ _ Hi (or_intror (snoc_nonempty _ _ _))) as [Hne Hph].
  destruct Hi as (H1 & H2 & _ & H4 & H5 & H6 & _). unfold pr_inv; cbn in *.
  pose proof (first_error_Some f e) as Hs. split_and!; try done.
  - intros Hf. by destruct f.
  - destruct ph as [| |[u|e'| |]]; try done. by destruct (Hph u).
  - intros Hn. split; [done|]. intros _. apply (H5 Hn). right. apply snoc_nonempty.
Qed.

Lemma pr_inv_step regions p p' : step p p' → pr_inv regions p → pr_inv regions p'.
Proof.
  destruct 1 as [r todo run ended conf f d Hlt|r todo run ended conf f|run ended conf f d|todo conf f d
    |r todo run1 run2 ended conf f ph Hc|r todo run1 run2 ended conf f ph e Hc|r todo run1 run2 ended conf f ph
    |e todo run ended1 ended2 conf f d ph|todo run ended conf f ph Hcan]; intros Hi.
  - by apply pr_inv_acquire with (r := r).
  - destruct Hi as (H1 & H2 & H3 & H4 & H5 & H6 & H7). unfold pr_inv; cbn in *.
    split_and!; try done; [intros E; by destruct (H7 E)|]. intros Hn. destruct (H5 Hn) as [H5a H5b]. auto.
  - destruct Hi as (H1 & H2 & H3 & H4 & H5 & H6 & H7). unfold pr_inv; cbn in *. split_and!; done.
  - destruct Hi as (H1 & H2 & H3 & H4 & H5 & H6 & H7). unfold pr_inv; cbn in *.
    split_and!; try done. rewrite H2 in * by done. destruct f as [e|]; [|done]. split.
    + intros E. by destruct (H7 E) as (_ & _ & _ & ?).
    + intros Hn. destruct (H5 Hn) as [_ H5b]. apply H5b. left. eauto.
  - eapply pr_inv_end; [|exact Hi]. left. split_and!; [done..|].
    destruct (ConfirmIntent_cases r) as [[? _]|[_ [e He]]]; [done|congruence].
  - eapply pr_inv_end; [|exact Hi]. right. eexists. split_and!; [done..|]. right.
    destruct (ConfirmIntent_cases r) as [[_ He]|[? _]]; [congruence|done].
  - eapply pr_inv_end; [|exact Hi]. right. eexists. split_and!; [done..|]. by left.
  - by eapply pr_inv_report.
  - destruct Hi as (H1 & H2 & H3 & H4 & H5 & H6 & H7). unfold pr_inv; cbn in *. split_and!; try done. by rewrite Hcan.
Qed.

Lemma pr_inv_steps regions n p :
  0 < max → nsteps step n (pr_init regions) p → pr_inv regions p.
Proof.
  intros Hm. generalize (pr_inv_init regions Hm). generalize (pr_init regions). intros p0 H0 H.
  induction H as [|n x y z H _ IH]; [done|]. by eapply IH, pr_inv_step.
Qed.

(** A program that has not returned can always take a step. *)
Lemma pr_progress regions p :
  0 < max → pr_inv regions p → (∃ o, pr_phase p = Returned o) ∨ ∃ p', step p p'.
Proof.
  intros Hm (_ & H2 & _). destruct p as [todo run ended conf f d ph]; cbn in *.
  destruct ph as [| |o]; [| |eauto]; right.
  all: destruct run as [|r run].
  2,4: destruct d; [eexists; apply (pr_canceled _ _ _ _ r todo [] run)|];
    destruct (ConfirmIntent_cases r) as [[_ Hc]|[_ [e Hc]]];
    [eexists; by apply (pr_confirm _ _ _ _ r todo [] run)|eexists; by eapply (pr_reject _ _ _ _ r todo [] run)].
  - destruct todo as [|r todo]; [eexists; apply pr_wait|eexists; by apply pr_acquire].
  - destruct ended as [|e ended]; eexists; [apply pr_return|apply (pr_report _ _ _ _ e todo [] [] ended)].
Qed.

Lemma confirm_all_ok regions :
  is_ok (confirm_all intent regions signature) = bool_decide (signature ≠ "" ∨ regions = []).
Proof.
  induction regions as [|r rest IH]; [by rewrite bool_decide_eq_true_2 by (by right)|]. cbn.
  destruct (ConfirmIntent_cases r) as [[Hs ->]|[Hs [e ->]]].
  - rewrite IH, !bool_decide_eq_true_2 by (by left). done.
  - cbn. by rewrite bool_decide_eq_false_2 by (intros [?|?]; done).
Qed.
End processor.

(** C11: confirming an intent with several regions at once: every run ends after at
    most [3 n + 3] steps for [n] regions, never stuck before it has returned; no
    more goroutines than permits run at any time; success means that every region
    was confirmed, and unless the caller's context is cancelled the verdict is that
    of the sequential definition, whatever the interleaving. *)
Theorem ProcessRegions_concurrent max cancellable intent signature regions n p :
  0 < max → nsteps (pr_step max cancellable intent signature) n (pr_init regions) p →
  (n ≤ 3 * length regions + 3)%nat ∧
  Z.of_nat (length (pr_running p)) ≤ max ∧
  ((∀ p', ¬ pr_step max cancellable intent signature p p') → ∃ o, pr_phase p = Returned o) ∧
  (pr_phase p = Returned (Ok tt) → pr_confirmed p ≡ₚ regions) ∧
  (cancellable = false → ∀ o, pr_phase p = Returned o →
     is_ok o = is_ok (ProcessRegions CtxLive intent regions signature)).
Proof.
  intros Hm Hn. pose proof (pr_steps_bounded _ _ _ _ _ _ _ Hn) as Hb.
  pose proof (pr_inv_steps _ _ _ _ regions n p Hm Hn) as Hi.
  pose proof (pr_progress max cancellable intent signature regions p Hm Hi) as Hp.
  destruct Hi as (H1 & H2 & H3 & H4 & H5 & H6 & H7).
  split_and!; [unfold pr_measure at 2 in Hb; cbn in Hb; lia|done| | |].
  - intros Hs. destruct Hp as [?|[p' Hp]]; [done|]. by destruct (Hs p').
  - intros E. rewrite E in H4. destruct H4 as (E1 & E2 & E3 & E4).
    rewrite <-H3, E1, E2 by done. by rewrite !(right_id_L [] (++)).
  - intros Hc o E. rewrite E in H4. cbn. rewrite confirm_all_ok.
    destruct o as [[]|e| |]; cbn; try done; symmetry.
    + destruct H4 as (E1 & E2 & E3 & E4). apply bool_decide_eq_true_2.
      destruct (decide (signature = "")) as [Es|]; [right|by left].
      specialize (H3 E4 E3). rewrite E1, E2, H6 in H3 by done. by apply Permutation_nil_l in H3.
    + destruct H4 as [Hne Hs]. apply bool_decide_eq_false_2. specialize (Hs Hc). by intros [?|?].
Qed.

(** * Witnesses *)

Definition sample_intent : CrossRegionIntent :=
  transfer_intent zeroTime "intent-1" "eu" "us" (of_bytes "account1") "5".

Lemma ValidateStateChanges_sound_witness :
  ch_Target (mkChange (of_bytes "account1") "5" StateOpTransferOut "eu" "us") ≠ "".
Proof.
  apply (ValidateStateChanges_sound (MR := first_MapRange "eu") sample_intent "eu"
           (mkChange (of_bytes "account1") "5" StateOpTransferOut "eu" "us")).
  - vm_compute. reflexivity.
  - exists [mkChange (of_bytes "account1") "5" StateOpTransferOut "eu" "us"].
    split; [vm_compute; reflexivity|left].
  - reflexivity.
Defined.

Lemma ValidateStateChanges_order_witness :
  ValidateStateChanges (H := first_MapRange "eu") sample_intent = Ok tt ∧
  ValidateStateChanges (H := first_MapRange "us") sample_intent =
    Err (Errorf "transfer in to us has no matching transfer out").
Proof.
  destruct (ValidateStateChanges_order zeroTime "intent-1" "eu" "us" (of_bytes "account1") "5")
    as [H1 H2]; [discriminate..|].
  split; [exact H1|exact H2].
Defined.

(** Two regions, one permit: the second starts when the first is done. *)
Lemma ProcessRegions_concurrent_witness :
  ∃ p, nsteps (pr_step 1 false "intent-1" "sig") 6 (pr_init ["eu"; "us"]) p ∧
       pr_confirmed p ≡ₚ ["eu"; "us"].
Proof.
  assert (nsteps (pr_step 1 false "intent-1" "sig") 6 (pr_init ["eu"; "us"])
            (mkPR [] [] [] ["eu"; "us"] None false (Returned (Ok tt)))) as H.
  { eapply nsteps_l; [by apply (pr_acquire _ _ _ _ "eu" ["us"] [])|].
    eapply nsteps_l; [by apply (pr_confirm _ _ _ _ "eu" ["us"] [] [])|].
    eapply nsteps_l; [by apply (pr_acquire _ _ _ _ "us" [] [])|].
    eapply nsteps_l; [by apply (pr_confirm _ _ _ _ "us" [] [] [])|].
    eapply nsteps_l; [apply pr_wait|].
    eapply nsteps_l; [apply (pr_return _ _ _ _ [])|apply nsteps_O]. }
  eexists. split; [exact H|].
  apply (ProcessRegions_concurrent 1 false "intent-1" "sig" ["eu"; "us"] 6 _ ltac:(lia) H).
  reflexivity.
Defined.
