(* ===== verification/CrossRegion.v ===== *)
(** [actions/cross_region.go]: the action that applies an intent to several
    regions, its checks, the ranges it asks proofs for and its declared keys (its
    wire format is in [CrossRegionWire.v]).

    The state of [CrossRegion_Execute] is the [state.Mutable] it is given and the
    package variables of [coordination/xregion], where the coordinator lives. *)

From S2P Require Import Prelude GoTime KV Transfer RangeState XRegion.
From Stdlib Require Import ZArith Lia Ascii String.
From stdpp Require Import base tactics option list strings pretty gmap sorting.

Local Open Scope Z_scope.

Definition ErrNilIntent := Sentinel "actions" "ErrNilIntent".
Definition ErrInvalidTimeWindow := Sentinel "actions" "ErrInvalidTimeWindow".
Definition ErrEmptyStateChanges := Sentinel "actions" "ErrEmptyStateChanges".
Definition ErrInvalidStateChanges := Sentinel "actions" "ErrInvalidStateChanges".
Definition ErrInvalidSignature := Sentinel "actions" "ErrInvalidSignature".
Definition ErrMissingSignature := Sentinel "actions" "ErrMissingSignature".

(** The action ids are consecutive. *)
Definition CrossRegionID : Z := 17.
Definition CrossRegionResultID : Z := 18.

Record CrossRegionAction : Type := mkCrossRegion {
  Intent : option CrossRegionIntent;
}.

Record CrossRegionResult : Type := mkCrossRegionResult {
  Success : bool;
}.

Definition CrossRegion_GetTypeID (a : CrossRegionAction) : Z := CrossRegionID.
Definition CrossRegionResult_GetTypeID (r : CrossRegionResult) : Z := CrossRegionResultID.

(** [a.Intent.f]: a nil intent is a nil pointer dereference. *)
Definition deref (a : CrossRegionAction) : outcome CrossRegionIntent :=
  match Intent a with Some i => Ok i | None => Panic "nil pointer dereference" end.

(** [sort.Slice] by key: some order of the elements in which the keys do not
    decrease; equal keys may come in any order. *)
Class SortSlice : Type := {
  sort_by_key : list StateChange → list StateChange;
  sort_by_key_perm : ∀ l, sort_by_key l ≡ₚ l;
  sort_by_key_sorted : ∀ l,
    StronglySorted (λ a b, String.leb (sbytes (ch_Key a)) (sbytes (ch_Key b)) = true) (sort_by_key l);
}.

(** * The ranges to prove *)

Fixpoint group_loop (changes : list StateChange) (cur : slice * slice) (ranges : list (slice * slice)) :
    outcome (list (slice * slice)) :=
  match changes with
  | [] => Ok (ranges ++ [cur])
  | c :: rest =>
      a ← reslice 8 (ch_Key c);
      b ← reslice 8 cur.2;
      if bool_decide (a = b) then group_loop rest (cur.1, ch_Key c) ranges
      else group_loop rest (ch_Key c, ch_Key c) (ranges ++ [cur])
  end.

Section action.
Context {M V Pf S : Type} `{!RangeViews M V Pf, !Mutable S} `{MR : MapRange} `{SS : SortSlice}.
Abbreviation Gl := (Globals M V Pf).

(** The ranges, and the changes, which are sorted in place. *)
Definition groupChangesByPrefix (changes : list StateChange) :
    outcome (list (slice * slice) * list StateChange) :=
  match sort_by_key changes with
  | [] => Ok ([], [])
  | c :: rest =>
      ranges ← group_loop rest (ch_Key c, ch_Key c) [];
      Ok (ranges, c :: rest)
  end.

Fixpoint required_ranges (now : Time) (l : list (string * list StateChange))
    (m : gmap string (list StateChange)) : outcome (list RangeRequest * gmap string (list StateChange)) :=
  match l with
  | [] => Ok ([], m)
  | (regionID, changes) :: l' =>
      if bool_decide (changes = []) then required_ranges now l' m
      else
        '(keyRanges, changes') ← groupChangesByPrefix changes;
        '(ranges, m') ← required_ranges now l' (<[regionID := changes']> m);
        Ok (((λ r, mkRangeRequest r.1 r.2 regionID (mkWindow now (5 * Minute)) "") <$> keyRanges) ++ ranges, m')
  end.

Definition getRequiredRanges (now : Time) (i : CrossRegionIntent) :
    outcome (list RangeRequest * CrossRegionIntent) :=
  '(ranges, m) ← required_ranges now (range_map 2 (gm (in_StateChanges i))) (gm (in_StateChanges i));
  Ok (ranges, set_StateChanges (const m <$> in_StateChanges i) i).

(** * Validation *)

(** [VerifySignature] does not touch its receiver, so a nil coordinator does. *)
Definition verifySignatures (i : CrossRegionIntent) : go Gl unit :=
  fail_if (bool_decide (map_lookup (in_Signatures i) (in_SourceRegion i) = None))
          (Wrapf "missing source region signature" ErrMissingSignature) ;;
  for_each (λ region,
    fail_if (bool_decide (map_lookup (in_Signatures i) region = None))
            (Wrapf "missing target region signature" ErrMissingSignature)) (in_TargetRegions i) ;;
  for_each (λ rs,
    GetCoordinator ;;
    checked ← try (lift (VerifySignature rs.1 (in_ID i) rs.2));
    match checked with
    | inl _ => mret tt
    | inr _ => fail (Wrapf "verify" ErrInvalidSignature)
    end) (range_map 1 (gm (in_Signatures i))).

Definition ValidateBasic (a : CrossRegionAction) : go Gl unit :=
  match Intent a with
  | None => fail ErrNilIntent
  | Some i =>
      fail_if (tw_Duration (in_TimeWindow i) <=? 0) ErrInvalidTimeWindow ;;
      fail_if (bool_decide (size (gm (in_StateChanges i)) = 0%nat)) ErrEmptyStateChanges ;;
      checked ← try (lift (ValidateStateChanges i));
      match checked with
      | inr _ => fail (Wrapf "validate" ErrInvalidStateChanges)
      | inl _ => verifySignatures i
      end
  end.

(** * Execution *)

Record World : Type := mkWorld {
  w_globals : Gl;
  w_mu : S;
}.

Definition on_globals {A} (m : go Gl A) : go World A :=
  zoom w_globals (λ g w, mkWorld g (w_mu w)) m.
Definition on_mu {A} (m : go S A) : go World A :=
  zoom w_mu (λ s w, mkWorld (w_globals w) s) m.

(** A call on the coordinator the package variable points to. *)
Definition on_coordinator {A} (m : go (Coordinator M V Pf) A) : go Gl A := λ g,
  match globalCoordinator g with
  | None => (g, Panic "nil pointer dereference")
  | Some c => let '(c', o) := m c in (mkGlobals (initDone g) (Some c'), o)
  end.

Fixpoint request_proofs (ranges : list RangeRequest) (proofs : gmap string (RangeResponse Pf)) :
    go Gl (gmap string (RangeResponse Pf)) :=
  match ranges with
  | [] => mret proofs
  | rng :: rest =>
      resp ← wrap "failed to get range proof" (on_coordinator (RequestRangeProof rng));
      request_proofs rest (<[rq_RegionID rng := resp]> proofs)
  end.

(** Every key changed in the region is an entry of its proof. *)
Definition check_covered (proofs : gmap string (RangeResponse Pf))
    (rc : string * list StateChange) : go World unit :=
  if bool_decide (rc.2 = []) then mret tt
  else match proofs !! rc.1 with
       | None => fail (Errorf ("missing proof for region " +s+ rc.1))
       | Some proof =>
           for_each (λ change,
             fail_if (bool_decide (Entries (rp_Proof proof) !! sbytes (ch_Key change) = None))
                     (Errorf ("state change not covered by proof for region " +s+ rc.1))) rc.2
       end.

Definition apply_change (change : StateChange) : go S unit :=
  let key := sbytes (ch_Key change) in
  if ch_Operation change =? StateOpSet then
    wrap "failed to set state" (mu_Insert key (ch_Value change))
  else if ch_Operation change =? StateOpTransferOut then
    wrap "failed to remove state" (mu_Remove key)
  else mret tt.

Definition nonempty_regions (l : list (string * list StateChange)) : list string :=
  (filter (λ rc, rc.2 ≠ []) l).*1.

Definition CrossRegion_Execute (ctx : Context) (now : Time) (a : CrossRegionAction) :
    go World CrossRegionResult :=
  on_globals (ValidateBasic a) ;;
  coordinator ← on_globals GetCoordinator;
  wrap "failed to create region processor" (lift (NewRegionProcessor 4 coordinator)) ;;
  i0 ← lift (deref a);
  '(ranges, i) ← lift (getRequiredRanges now i0);
  proofs ← on_globals (request_proofs ranges ∅);
  let regions := nonempty_regions (range_map 3 (gm (in_StateChanges i))) in
  signature ← wrap "failed to sign intent" (lift (Sign (in_ID i)));
  wrap "failed to process regions" (lift (ProcessRegions ctx (in_ID i) regions signature)) ;;
  for_each (check_covered proofs) (range_map 4 (gm (in_StateChanges i))) ;;
  for_each (λ rc, for_each (λ change, on_mu (apply_change change)) rc.2)
           (range_map 5 (gm (in_StateChanges i))) ;;
  mret (mkCrossRegionResult true).

(** * Declared keys, cost and validity *)

Definition declare_key (keys : gmap string perm) (change : StateChange) : gmap string perm :=
  if (ch_Operation change =? StateOpSet) || (ch_Operation change =? StateOpTransferOut)
  then <[sbytes (ch_Key change) := PWrite]> keys else keys.

Definition CrossRegion_StateKeys (a : CrossRegionAction) (actor : string) : outcome (gmap string perm) :=
  i ← deref a;
  Ok (foldl (λ keys rc, foldl declare_key keys rc.2) ∅ (range_map 0 (gm (in_StateChanges i)))).

Definition CrossRegion_ComputeUnits (a : CrossRegionAction) : outcome Z :=
  i ← deref a;
  let totalChanges := foldl (λ n rc, u64_add n (Z.of_nat (length rc.2))) 0 (range_map 0 (gm (in_StateChanges i))) in
  Ok (u64_add 1000 (u64 (100 * totalChanges))).

Definition CrossRegion_ValidRange (now : Time) (a : CrossRegionAction) : Z * Z :=
  match Intent a with
  | None => (Unix now, Unix (GoTime.Add now (5 * Minute)))
  | Some i => (Unix (tw_Start (in_TimeWindow i)), Unix (TimeWindow_End (in_TimeWindow i)))
  end.
End action.

Arguments World : clear implicits.
Arguments mkWorld {_ _ _ _} _ _.
Arguments w_globals {_ _ _ _} _.
Arguments w_mu {_ _ _ _} _.

(** * Theorems *)

Section theory.
Context {M V Pf S : Type} `{!RangeViews M V Pf, !RangeViewsLaws M V Pf, !Mutable S}.
Context `{MR : MapRange} `{SS : SortSlice}.
Abbreviation Gl := (Globals M V Pf).
Abbreviation W := (World M V Pf S).
Implicit Types (g : Gl) (w : W) (i : CrossRegionIntent) (a : CrossRegionAction).

(** ** The coordinator *)

Definition same_coordinator : relation Gl := λ g g', globalCoordinator g' = globalCoordinator g.

#[local] Instance same_coordinator_preorder : PreOrder same_coordinator.
Proof. split; [done|]. intros ??? H1 H2. unfold same_coordinator in *. congruence. Qed.

Lemma GetCoordinator_same : preserves same_coordinator (GetCoordinator (M := M) (V := V) (Pf := Pf)).
Proof using Type. intros [[] c]; done. Qed.

Lemma GetCoordinator_value g g' c :
  GetCoordinator g = (g', Ok c) → g' = g ∧ c = globalCoordinator g.
Proof using Type. destruct g as [[] c0]; unfold GetCoordinator; go_unfold; cbn; intros H; by simplify_eq. Qed.

#[local] Hint Resolve GetCoordinator_same : pres_db.

Lemma ValidateBasic_same a : preserves same_coordinator (ValidateBasic (M := M) (V := V) (Pf := Pf) a).
Proof using Type. unfold ValidateBasic, verifySignatures. solve_preserves idtac. Qed.

(** The coordinator of the package is made from a nil database, which panics, and
    is never made again: from the program's initial variables, and after any
    number of attempts, no cross-region action succeeds or changes the state. *)
Theorem CrossRegion_never_succeeds ctx now a w :
  globalCoordinator (w_globals w) = None →
  let '(w', o) := CrossRegion_Execute ctx now a w in
  is_ok o = false ∧ w_mu w' = w_mu w ∧ globalCoordinator (w_globals w') = None.
Proof using Type.
  intros Hn. unfold CrossRegion_Execute, on_globals, zoom, mbind, go_bind at 1.
  pose proof (ValidateBasic_same a (w_globals w)) as H1.
  destruct (ValidateBasic a (w_globals w)) as [g1 o1]. unfold same_coordinator in H1. cbn in H1.
  rewrite Hn in H1. destruct o1; cbn; try done.
  destruct g1 as [d c]. cbn in H1. subst c. by destruct d.
Qed.

(** ** The ranges *)

Lemma sort_by_key_nil : sort_by_key [] = [].
Proof using Type. apply Permutation_nil_r, sort_by_key_perm. Qed.

Lemma groupChangesByPrefix_sorted cs rs cs' :
  groupChangesByPrefix cs = Ok (rs, cs') → cs' = sort_by_key cs.
Proof using Type.
  unfold groupChangesByPrefix. destruct (sort_by_key cs) as [|c rest]; [by intros [= _ <-]|].
  unfold mbind, outcome_bind. destruct (group_loop _ _ _); [by intros [= _ <-]|done..].
Qed.

Definition region_request (now : Time) (r : string) (rng : slice * slice) : RangeRequest :=
  mkRangeRequest rng.1 rng.2 r (mkWindow now (5 * Minute)) "".

Lemma filter_requests now r r' (rs : list (slice * slice)) :
  filter (λ q, rq_RegionID q = r) (region_request now r' <$> rs) =
    if bool_decide (r' = r) then region_request now r' <$> rs else [].
Proof using Type.
  induction rs as [|x rs IH]; [by case_bool_decide|]. cbn [fmap list_fmap].
  rewrite filter_cons. cbn [rq_RegionID region_request]. rewrite IH.
  case_decide; case_bool_decide; done.
Qed.

(** The loop sorts the changes of every region it visits and asks, for each, for
    the ranges of its groups. *)
Lemma required_ranges_spec now l m ranges m' :
  NoDup l.*1 → (∀ r cs, (r, cs) ∈ l → m !! r = Some cs) →
  required_ranges now l m = Ok (ranges, m') →
  (∀ r, m' !! r = if bool_decide (r ∈ l.*1) then sort_by_key <$> m !! r else m !! r) ∧
  (∀ r cs, (r, cs) ∈ l → ∃ rs, groupChangesByPrefix cs = Ok (rs, sort_by_key cs) ∧
     filter (λ q, rq_RegionID q = r) ranges = region_request now r <$> rs) ∧
  (∀ r, r ∉ l.*1 → filter (λ q, rq_RegionID q = r) ranges = []).
Proof using Type.
  revert m ranges. induction l as [|[r0 cs0] l IH]; intros m ranges Hd Hl H; cbn [required_ranges] in H.
  { injection H as <- <-. split_and!; [done| |done]. intros r cs Hx. by apply not_elem_of_nil in Hx. }
  cbn [fmap list_fmap fst] in *. apply NoDup_cons in Hd as [Hn Hd].
  assert (m !! r0 = Some cs0) as Hm0 by (apply Hl; left).
  assert (∃ rs0 m1 ranges1, groupChangesByPrefix cs0 = Ok (rs0, sort_by_key cs0) ∧
            required_ranges now l m1 = Ok (ranges1, m') ∧
            ranges = (region_request now r0 <$> rs0) ++ ranges1 ∧
            m1 = <[r0 := sort_by_key cs0]> m) as (rs0 & m1 & ranges1 & Hg & H1 & -> & Hm1).
  { case_bool_decide as E0.
    - subst cs0. exists [], m, ranges. unfold groupChangesByPrefix. rewrite sort_by_key_nil.
      split_and!; try done. by rewrite insert_id.
    - unfold mbind, outcome_bind in H. destruct (groupChangesByPrefix cs0) as [[rs0 cs1]| | |] eqn:Eg; try done.
      pose proof (groupChangesByPrefix_sorted _ _ _ Eg) as ->.
      destruct (required_ranges now l _) as [[ranges1 m2]| | |] eqn:Er; try done.
      injection H as <- <-. eexists rs0, _, ranges1. split_and!; done. }
  destruct (IH m1 ranges1) as (H2 & H3 & H4); [done| |done|].
  { intros r cs Hr. rewrite Hm1, lookup_insert_ne; [apply Hl; by right|].
    intros <-. apply Hn. by apply (list_elem_of_fmap_2 fst _ _ Hr). }
  split_and!.
  - intros r. rewrite H2, Hm1. destruct (decide (r = r0)) as [->|Hne].
    + rewrite lookup_insert_eq, Hm0. rewrite bool_decide_eq_false_2 by done.
      by rewrite bool_decide_eq_true_2 by left.
    + rewrite lookup_insert_ne by done.
      rewrite (bool_decide_ext (r ∈ r0 :: l.*1) (r ∈ l.*1)) by (rewrite elem_of_cons; naive_solver). done.
  - intros r cs [Heq|Hr]%elem_of_cons.
    + injection Heq as -> ->. exists rs0. split; [done|].
      rewrite filter_app, filter_requests, bool_decide_eq_true_2, H4 by done. by rewrite (right_id_L [] (++)).
    + assert (r0 ≠ r) as Hne by (intros <-; apply Hn; by apply (list_elem_of_fmap_2 fst _ _ Hr)).
      destruct (H3 r cs Hr) as (rs & ? & E). exists rs. split; [done|].
      by rewrite filter_app, filter_requests, bool_decide_eq_false_2.
  - intros r Hr. rewrite filter_app, filter_requests, H4 by set_solver.
    rewrite bool_decide_eq_false_2 by set_solver. done.
Qed.

Lemma getRequiredRanges_spec now i ranges i' :
  getRequiredRanges now i = Ok (ranges, i') →
  gm (in_StateChanges i') = sort_by_key <$> gm (in_StateChanges i) ∧ in_ID i' = in_ID i ∧
  ∀ r cs, gm (in_StateChanges i) !! r = Some cs →
    ∃ rs, groupChangesByPrefix cs = Ok (rs, sort_by_key cs) ∧
      filter (λ q, rq_RegionID q = r) ranges = region_request now r <$> rs.
Proof using Type.
  unfold getRequiredRanges, mbind, outcome_bind. intros H.
  destruct (required_ranges _ _ _) as [[rs m]| | |] eqn:E; try done. injection H as <- <-.
  destruct (required_ranges_spec _ _ _ _ _ (NoDup_range_map 2 _)
              (λ r cs, proj1 (elem_of_range_map 2 _ r cs)) E) as (H1 & H2 & _).
  split_and!; [|done|].
  - apply map_eq. intros r. rewrite lookup_fmap. specialize (H1 r).
    rewrite (bool_decide_ext _ _ (elem_of_range_map_keys 2 (gm (in_StateChanges i)) r)) in H1.
    cbn [in_StateChanges set_StateChanges].
    destruct (in_StateChanges i) as [m0|]; [|reflexivity].
    change (m !! r = sort_by_key <$> m0 !! r).
    etransitivity; [exact H1|]. case_bool_decide as Hd; [reflexivity|].
    apply not_elem_of_dom in Hd. change (m0 !! r = None) in Hd.
    change (m0 !! r = sort_by_key <$> m0 !! r). by rewrite Hd.
  - intros r cs Hr. by apply H2, elem_of_range_map.
Qed.

Lemma required_ranges_origin now i ranges i' q :
  getRequiredRanges now i = Ok (ranges, i') → q ∈ ranges →
  ∃ cs rs, gm (in_StateChanges i) !! rq_RegionID q = Some cs ∧
    groupChangesByPrefix cs = Ok (rs, sort_by_key cs) ∧ (rq_StartKey q, rq_EndKey q) ∈ rs.
Proof using Type.
  unfold getRequiredRanges, mbind, outcome_bind. intros H Hq.
  destruct (required_ranges _ _ _) as [[rs m]| | |] eqn:E; try done. injection H as <- <-.
  destruct (required_ranges_spec _ _ _ _ _ (NoDup_range_map 2 _)
              (λ r cs, proj1 (elem_of_range_map 2 _ r cs)) E) as (_ & H2 & H3).
  assert (q ∈ filter (λ q', rq_RegionID q' = rq_RegionID q) rs) as Hf by (by apply list_elem_of_filter).
  destruct (gm (in_StateChanges i) !! rq_RegionID q) as [cs|] eqn:Er.
  - destruct (H2 _ cs ltac:(by apply elem_of_range_map)) as (rs' & Hg & Hfil). rewrite Hfil in Hf.
    apply list_elem_of_fmap in Hf as ([st en] & -> & Hin). by exists cs, rs'.
  - rewrite H3 in Hf by (rewrite elem_of_range_map_keys; by apply not_elem_of_dom).
    by apply not_elem_of_nil in Hf.
Qed.

(** The groups: their ends are keys of the changes, and the last one starts at the
    first key, all prefixes being the same, or at a key whose prefix is not that of
    the key before it. *)
Lemma group_loop_keys (P : slice → Prop) rest cur acc ranges :
  group_loop rest cur acc = Ok ranges →
  (∀ c, c ∈ rest → P (ch_Key c)) → P cur.1 → P cur.2 → Forall (λ r, P r.1 ∧ P r.2) acc →
  Forall (λ r, P r.1 ∧ P r.2) ranges.
Proof using Type.
  revert cur acc. induction rest as [|c rest IH]; intros cur acc H Hr H1 H2 Ha; cbn [group_loop] in H.
  { injection H as <-. apply Forall_app. by rewrite Forall_singleton. }
  unfold mbind, outcome_bind in H. destruct (reslice 8 (ch_Key c)); try done.
  destruct (reslice 8 cur.2); try done. assert (P (ch_Key c)) by (apply Hr; left).
  case_bool_decide; eapply (IH _ _ H); cbn; try done; try (intros; apply Hr; by right).
  apply Forall_app. by rewrite Forall_singleton.
Qed.

Lemma group_loop_last rest cp st acc ranges :
  group_loop rest (st, ch_Key cp) acc = Ok ranges →
  (∃ en, ranges = acc ++ [(st, en)] ∧ ∀ c, c ∈ rest → reslice 8 (ch_Key c) = reslice 8 (ch_Key cp)) ∨
  (∃ l1 c1 c2 l2 rs en, cp :: rest = l1 ++ c1 :: c2 :: l2 ∧ ranges = rs ++ [(ch_Key c2, en)] ∧
     reslice 8 (ch_Key c2) ≠ reslice 8 (ch_Key c1)).
Proof using Type.
  revert cp st acc. induction rest as [|c rest IH]; intros cp st acc H; cbn [group_loop] in H.
  { injection H as <-. left. exists (ch_Key cp). split; [done|]. intros c Hc. by apply not_elem_of_nil in Hc. }
  unfold mbind, outcome_bind in H. cbn [fst snd] in H.
  destruct (reslice 8 (ch_Key c)) as [x| | |] eqn:E1; try done.
  destruct (reslice 8 (ch_Key cp)) as [y| | |] eqn:E2; try done.
  case_bool_decide as Exy; destruct (IH _ _ _ H) as [(en & -> & Hall)|(l1 & c1 & c2 & l2 & rs & en & -> & -> & Hne)].
  - left. exists en. split; [done|]. subst y. intros c' [->|Hc]%elem_of_cons; [done|]. by rewrite Hall, E1.
  - right. by exists (cp :: l1), c1, c2, l2, rs, en.
  - right. exists [], cp, c, rest, (acc ++ [(st, ch_Key cp)]), en. split_and!; [done..|].
    rewrite E1, E2. congruence.
  - right. by exists (cp :: l1), c1, c2, l2, rs, en.
Qed.

(** The changes of the sorted intent are those of the intent. *)
Lemma changes_in_sorted now i ranges i' :
  getRequiredRanges now i = Ok (ranges, i') →
  ∀ region c, changes_in i' region c ↔ changes_in i region c.
Proof using Type.
  intros H region c. destruct (getRequiredRanges_spec _ _ _ _ H) as (Hm & _).
  unfold changes_in. rewrite Hm. setoid_rewrite lookup_fmap_Some. split.
  - intros (cs' & (cs & <- & Hcs) & Hc). exists cs. split; [done|].
    by rewrite <-(sort_by_key_perm cs).
  - intros (cs & Hcs & Hc). exists (sort_by_key cs). split; [eauto|]. by rewrite sort_by_key_perm.
Qed.

(** ** The writes *)

Definition writes (c : StateChange) : Prop :=
  ch_Operation c = StateOpSet ∨ ch_Operation c = StateOpTransferOut.

(** What the change leaves under its key. *)
Definition effect (c : StateChange) : option string :=
  if ch_Operation c =? StateOpSet then Some (ch_Value c) else None.

#[local] Instance writes_dec c : Decision (writes c).
Proof. unfold writes. apply _. Defined.

Lemma writes_orb c :
  ((ch_Operation c =? StateOpSet) || (ch_Operation c =? StateOpTransferOut) = true) ↔ writes c.
Proof using Type. by rewrite orb_true_iff, !Z.eqb_eq. Qed.

Lemma dom_declare_keys cs (keys : gmap string perm) k :
  k ∈ dom (foldl declare_key keys cs) ↔
  k ∈ dom keys ∨ ∃ c, c ∈ cs ∧ writes c ∧ sbytes (ch_Key c) = k.
Proof using Type.
  revert keys. induction cs as [|c cs IH]; intros keys; cbn [foldl]; [set_solver|].
  rewrite IH. unfold declare_key at 1. destruct (_ || _) eqn:E.
  - apply writes_orb in E. rewrite dom_insert_L. set_solver.
  - assert (¬ writes c) by (rewrite <-writes_orb; congruence). set_solver.
Qed.

Lemma dom_declare_regions l (keys : gmap string perm) k :
  k ∈ dom (foldl (λ keys rc, foldl declare_key keys rc.2) keys l) ↔
  k ∈ dom keys ∨ ∃ (rc : string * list StateChange) c, rc ∈ l ∧ c ∈ rc.2 ∧ writes c ∧ sbytes (ch_Key c) = k.
Proof using Type.
  revert keys. induction l as [|rc l IH]; intros keys; cbn [foldl]; [set_solver|].
  rewrite IH, dom_declare_keys. set_solver.
Qed.

Lemma CrossRegion_StateKeys_dom a i actor keys k :
  Intent a = Some i → CrossRegion_StateKeys a actor = Ok keys →
  k ∈ dom keys ↔ ∃ region c, changes_in i region c ∧ writes c ∧ sbytes (ch_Key c) = k.
Proof using Type.
  unfold CrossRegion_StateKeys, deref, mbind, outcome_bind. intros -> [= <-].
  rewrite dom_declare_regions, dom_empty_L. unfold changes_in. split.
  - intros [?|([r cs] & c & Hr%elem_of_range_map & Hc & Hw & Hk)]; [set_solver|]. eauto 10.
  - intros (r & c & (cs & Hr & Hc) & Hw & Hk). right. exists (r, cs), c. by rewrite elem_of_range_map.
Qed.

(** The state after a list of changes. *)
Definition apply_effect (m : gmap string string) (c : StateChange) : gmap string string :=
  if ch_Operation c =? StateOpSet then <[sbytes (ch_Key c) := ch_Value c]> m
  else if ch_Operation c =? StateOpTransferOut then delete (sbytes (ch_Key c)) m else m.

(** The last writing change on a key decides what is under it. *)
Lemma apply_effects_lookup cs m k :
  (∃ c, c ∈ cs ∧ writes c ∧ sbytes (ch_Key c) = k ∧ foldl apply_effect m cs !! k = effect c) ∨
  ((∀ c, c ∈ cs → writes c → sbytes (ch_Key c) ≠ k) ∧ foldl apply_effect m cs !! k = m !! k).
Proof using Type.
  induction cs as [|c cs IH] using rev_ind; [right; split; [set_solver|done]|].
  rewrite foldl_app. cbn [foldl]. unfold apply_effect at 1 3.
  destruct (decide (writes c ∧ sbytes (ch_Key c) = k)) as [[Hw Hk]|Hn].
  - left. exists c. split; [set_solver|]. split_and!; [done..|]. unfold effect.
    destruct (Z.eqb_spec (ch_Operation c) StateOpSet) as [E|E]; [by rewrite Hk, lookup_insert_eq|].
    destruct Hw as [?| ->]; [done|]. rewrite Z.eqb_refl, Hk. by rewrite lookup_delete_eq.
  - assert ((if ch_Operation c =? StateOpSet then <[sbytes (ch_Key c):=ch_Value c]> (foldl apply_effect m cs)
             else if ch_Operation c =? StateOpTransferOut then delete (sbytes (ch_Key c)) (foldl apply_effect m cs)
             else foldl apply_effect m cs) !! k = foldl apply_effect m cs !! k) as ->.
    { destruct (Z.eqb_spec (ch_Operation c) StateOpSet) as [E|E].
      - apply lookup_insert_ne. intros Hk. apply Hn. split; [by left|done].
      - destruct (Z.eqb_spec (ch_Operation c) StateOpTransferOut) as [E'|E']; [|done].
        apply lookup_delete_ne. intros Hk. apply Hn. split; [by right|done]. }
    destruct IH as [(c' & ? & ?)|[H1 H2]]; [left; exists c'; set_solver|right; set_solver].
Qed.

Section writes_theory.
Context `{!KVLaws S}.

(** Calls that leave a key of the state alone. *)
Definition keeps (k : string) : relation W := λ w w',
  contents (w_mu w') !! k = contents (w_mu w) !! k.

#[local] Instance keeps_preorder k : PreOrder (keeps k).
Proof. split; [done|]. intros ??? H1 H2. unfold keeps in *. congruence. Qed.

Lemma keeps_on_globals {A} k (m : go Gl A) : preserves (keeps k) (on_globals (S := S) m).
Proof using Type. intros w. unfold on_globals, zoom. by destruct (m (w_globals w)). Qed.

Lemma apply_change_run c s :
  ∃ s', apply_change c s = (s', Ok tt) ∧ contents s' = apply_effect (contents s) c.
Proof using Type*.
  unfold apply_change, apply_effect. destruct (_ =? StateOpSet).
  - destruct (mu_Insert_run (sbytes (ch_Key c)) (ch_Value c) s) as (s' & E & H).
    exists s'. unfold wrap. by rewrite E.
  - destruct (_ =? StateOpTransferOut); [|by exists s].
    destruct (mu_Remove_run (sbytes (ch_Key c)) s) as (s' & E & H).
    exists s'. unfold wrap. by rewrite E.
Qed.

Lemma keeps_apply_change k c :
  (writes c → sbytes (ch_Key c) ≠ k) →
  preserves (keeps k) (on_mu (M := M) (V := V) (Pf := Pf) (apply_change c)).
Proof using Type*.
  intros Hk w. unfold on_mu, zoom, keeps. destruct (apply_change_run c (w_mu w)) as (s' & E & H).
  rewrite E. cbn [fst w_mu]. rewrite H.
  destruct (apply_effects_lookup [c] (contents (w_mu w)) k) as [(c' & Hc & Hw & Hk' & _)|[_ ?]]; [|done].
  apply list_elem_of_singleton in Hc as ->. by destruct (Hk Hw).
Qed.

(** C10: a cross-region action writes only the keys it declares, on every outcome. *)
Theorem CrossRegion_within_StateKeys ctx now a actor keys w k :
  CrossRegion_StateKeys a actor = Ok keys → k ∉ dom keys →
  contents (w_mu (CrossRegion_Execute ctx now a w).1) !! k = contents (w_mu w) !! k.
Proof using Type*.
  intros Hkeys Hk. destruct (Intent a) as [i|] eqn:Ei;
    [|unfold CrossRegion_StateKeys, deref in Hkeys; by rewrite Ei in Hkeys].
  rewrite (CrossRegion_StateKeys_dom a i actor keys k Ei Hkeys) in Hk.
  change (keeps k w (CrossRegion_Execute ctx now a w).1). revert w.
  change (preserves (keeps k) (CrossRegion_Execute ctx now a)). unfold CrossRegion_Execute.
  apply preserves_bind; [apply _|apply keeps_on_globals|intros _].
  apply preserves_bind; [apply _|apply keeps_on_globals|intros c].
  apply preserves_bind; [apply _|solve_preserves idtac|intros _].
  apply preserves_lift_bind; [apply _|]. unfold deref. rewrite Ei. intros ? [= <-].
  apply preserves_lift_bind; [apply _|]. intros [ranges i'] Hr.
  apply preserves_bind; [apply _|apply keeps_on_globals|intros proofs].
  apply preserves_bind; [apply _|solve_preserves idtac|intros sig].
  apply preserves_bind; [apply _|solve_preserves idtac|intros _].
  apply preserves_bind; [apply _|unfold check_covered; solve_preserves idtac|intros _].
  apply preserves_bind; [apply _| |intros _; solve_preserves idtac].
  apply preserves_for_each_mem; [apply _|]. intros [r cs] Hrc%elem_of_range_map.
  apply preserves_for_each_mem; [apply _|]. intros c' Hc'. apply keeps_apply_change.
  intros Hw Hk'. apply Hk. exists r, c'. split; [|done].
  apply (changes_in_sorted _ _ _ _ Hr). by exists cs.
Qed.

Lemma apply_changes_run cs w :
  ∃ w', for_each (λ change, on_mu (apply_change change)) cs w = (w', Ok tt) ∧
    w_globals w' = w_globals w ∧ contents (w_mu w') = foldl apply_effect (contents (w_mu w)) cs.
Proof using Type*.
  revert w. induction cs as [|c cs IH]; intros w; cbn [for_each foldl]; [by exists w|].
  destruct (apply_change_run c (w_mu w)) as (s' & E & H).
  rewrite (bind_ok (on_mu (apply_change c)) _ w (mkWorld (w_globals w) s') tt)
    by (unfold on_mu, zoom; by rewrite E).
  destruct (IH (mkWorld (w_globals w) s')) as (w' & -> & Hg & Hm). exists w'. split; [done|].
  cbn in *. by rewrite Hm, H.
Qed.

Lemma apply_regions_run (l : list (string * list StateChange)) w :
  ∃ w', for_each (λ rc, for_each (λ change, on_mu (apply_change change)) rc.2) l w = (w', Ok tt) ∧
    w_globals w' = w_globals w ∧
    contents (w_mu w') = foldl apply_effect (contents (w_mu w)) (concat l.*2).
Proof using Type*.
  revert w. induction l as [|rc l IH]; intros w; cbn [for_each fmap list_fmap concat]; [by exists w|].
  destruct (apply_changes_run rc.2 w) as (w1 & E & Hg & Hm).
  rewrite (bind_ok _ _ _ _ _ E). destruct (IH w1) as (w2 & -> & Hg2 & Hm2). exists w2.
  split; [done|]. split; [congruence|]. rewrite foldl_app. by rewrite <-Hm.
Qed.

(** ** What a success implies *)

(** The required regions signed, and no signature is empty. *)
Definition signed i : Prop :=
  (∀ region, region = in_SourceRegion i ∨ region ∈ in_TargetRegions i →
     is_Some (gm (in_Signatures i) !! region)) ∧
  (∀ region sig, gm (in_Signatures i) !! region = Some sig → sig ≠ "").

Lemma bool_decide_not_None {A} (o : option A) `{!Decision (o = None)} :
  bool_decide (o = None) = false → is_Some o.
Proof using Type. destruct o; [done|]. by rewrite bool_decide_eq_true_2. Qed.

Lemma gm_lookup {A} (m : gomap A) k : gm m !! k = map_lookup m k.
Proof using Type. by destruct m. Qed.

Lemma verifySignatures_ok i g g' : verifySignatures i g = (g', Ok tt) → signed i.
Proof using Type.
  unfold verifySignatures. intros H. go_inv. split.
  - intros region Hr. rewrite gm_lookup. destruct Hr as [->|Hr].
    + by eapply bool_decide_not_None.
    + destruct (for_each_ok_each _ _ _ _ region ltac:(eassumption) Hr) as (s1 & s2 & Hf).
      apply fail_if_ok_inv in Hf as [Hf _]. by eapply bool_decide_not_None.
  - intros region sig Hs%(elem_of_range_map 1).
    destruct (for_each_ok_each _ _ _ _ (region, sig) ltac:(eassumption) Hs) as (s1 & s2 & Hf).
    apply bind_ok_inv in Hf as (c & s3 & _ & Hf). intros ->. done.
Qed.

Lemma ValidateBasic_ok a g g' :
  ValidateBasic a g = (g', Ok tt) →
  ∃ i, Intent a = Some i ∧ 0 < tw_Duration (in_TimeWindow i) ∧ ValidateStateChanges i = Ok tt ∧ signed i.
Proof using Type.
  unfold ValidateBasic. destruct (Intent a) as [i|]; [|done]. intros H. go_inv.
  exists i. unfold try, lift in *. destruct (ValidateStateChanges i) as [[]| | |]; simplify_eq.
  split_and!; [done|by apply Z.leb_gt|done|by eapply verifySignatures_ok].
Qed.

(** The answers to the requests: the last one of each region. *)
Lemma request_proofs_ok Q ranges proofs g g' proofs' co :
  Forall (λ q, Q (rq_StartKey q) (rq_EndKey q)) ranges →
  globalCoordinator g = Some co → store_inv Q (co_state co) →
  request_proofs ranges proofs g = (g', Ok proofs') →
  ∀ r resp, proofs' !! r = Some resp →
    match last (filter (λ q, rq_RegionID q = r) ranges) with
    | None => proofs !! r = Some resp
    | Some q => let p := rp_Proof resp in
        Entries p = range_entries (rv_contents (ms_view (co_state co))) (StartKey p) (EndKey p) ∧
        makeRangeKey (StartKey p) (EndKey p) = makeRangeKey (rq_StartKey q) (rq_EndKey q) ∧
        Q (StartKey p) (EndKey p)
    end.
Proof using Type*.
  revert proofs g co. induction ranges as [|q ranges IH]; intros proofs g co HQ Hco Hinv Hrun r resp Hr.
  { injection Hrun as <- <-. done. }
  apply Forall_cons in HQ as [HQ HQs]. cbn [request_proofs] in Hrun.
  apply bind_ok_inv in Hrun as (resp0 & g1 & H1 & H2). apply wrap_ok_inv in H1.
  unfold on_coordinator in H1. rewrite Hco in H1.
  destruct (RequestRangeProof q co) as [co1 o] eqn:E. injection H1 as <- ->.
  unfold RequestRangeProof in E. apply bind_ok_inv in E as (p & co2 & E & E').
  injection E' as <- <-. apply wrap_ok_inv, zoom_ok_inv in E as (s' & E & ->).
  destruct (GetRangeProof_answer Q _ _ _ _ _ Hinv HQ E) as (A1 & A2 & A3 & A4 & A5).
  specialize (IH _ (mkGlobals (initDone g) (Some (mkCoordinator (co_regionID co) s')))
                _ HQs eq_refl A5 H2 r resp Hr). cbn [co_state] in IH. rewrite A4 in IH.
  rewrite filter_cons. revert IH. case_decide as Hq; intros IH; cbn [rq_RegionID] in *; revert IH.
  - destruct (filter (λ q, rq_RegionID q = r) ranges) as [|q' l]; 
      [|rewrite last_cons_cons; destruct (last (q' :: l)) eqn:El; [done|by apply last_None in El]].
    intros IH. cbn [last] in IH |- *. subst r. rewrite lookup_insert_eq in IH. by injection IH as <-.
  - destruct (last _); [done|]. intros IH. by rewrite lookup_insert_ne in IH.
Qed.

(** A checked region's keys are all in its proof. *)
Lemma check_covered_ok proofs r cs w w' c :
  check_covered proofs (r, cs) w = (w', Ok tt) → c ∈ cs →
  ∃ proof, proofs !! r = Some proof ∧ is_Some (Entries (rp_Proof proof) !! sbytes (ch_Key c)).
Proof using Type.
  unfold check_covered. cbn [fst snd]. intros H Hc. case_bool_decide as E; [subst; by apply not_elem_of_nil in Hc|].
  destruct (proofs !! r) as [proof|]; [|done]. exists proof. split; [done|].
  destruct (for_each_ok_each _ _ _ _ c H Hc) as (s1 & s2 & Hf). apply fail_if_ok_inv in Hf as [Hf _].
  by eapply bool_decide_not_None.
Qed.

Lemma check_covered_state proofs l w w' :
  for_each (check_covered proofs) l w = (w', Ok tt) → w' = w.
Proof using Type.
  intros H. refine (for_each_ok_invariant (λ x, x = w) _ l w w' _ H eq_refl). clear H.
  intros rc w1 w2 H ->. unfold check_covered in H. case_bool_decide; [by injection H|].
  destruct (proofs !! rc.1); [|done].
  refine (for_each_ok_invariant (λ x, x = w) _ rc.2 w w2 _ H eq_refl).
  by intros c w3 w4 [_ ->]%fail_if_ok_inv.
Qed.

(** The successful calls a successful execution is made of. *)
Lemma CrossRegion_Execute_inv ctx now a w w' res co :
  globalCoordinator (w_globals w) = Some co →
  CrossRegion_Execute ctx now a w = (w', Ok res) →
  ∃ i ranges i' g1 g2 proofs,
    Intent a = Some i ∧ 0 < tw_Duration (in_TimeWindow i) ∧ ValidateStateChanges i = Ok tt ∧ signed i ∧
    getRequiredRanges now i = Ok (ranges, i') ∧
    globalCoordinator g1 = Some co ∧ request_proofs ranges ∅ g1 = (g2, Ok proofs) ∧
    (∀ r cs c, gm (in_StateChanges i') !! r = Some cs → c ∈ cs →
       ∃ proof, proofs !! r = Some proof ∧ is_Some (Entries (rp_Proof proof) !! sbytes (ch_Key c))) ∧
    contents (w_mu w') = foldl apply_effect (contents (w_mu w))
                           (concat (range_map 5 (gm (in_StateChanges i'))).*2).
Proof using Type*.
  intros Hco Hrun. unfold CrossRegion_Execute, on_globals in Hrun.
  apply bind_ok_inv in Hrun as ([] & w1 & H1 & Hrun). apply zoom_ok_inv in H1 as (g1 & H1 & ->).
  apply bind_ok_inv in Hrun as (c & w2 & H2 & Hrun). apply zoom_ok_inv in H2 as (g2 & H2 & ->).
  apply GetCoordinator_value in H2 as [-> ->]. cbn [w_globals w_mu] in Hrun.
  apply bind_ok_inv in Hrun as (pr & w3 & H3 & Hrun).
  apply wrap_ok_inv, lift_ok_inv in H3 as [-> _].
  apply bind_ok_inv in Hrun as (i & w4 & H4 & Hrun). apply lift_ok_inv in H4 as [-> H4].
  apply bind_ok_inv in Hrun as ([ranges i'] & w5 & H5 & Hrun). apply lift_ok_inv in H5 as [-> H5].
  apply bind_ok_inv in Hrun as (proofs & w6 & H6 & Hrun). apply zoom_ok_inv in H6 as (g3 & H6 & ->).
  apply bind_ok_inv in Hrun as (sig & w7 & H7 & Hrun). apply wrap_ok_inv, lift_ok_inv in H7 as [-> _].
  apply bind_ok_inv in Hrun as ([] & w8 & H8 & Hrun). apply wrap_ok_inv, lift_ok_inv in H8 as [-> _].
  apply bind_ok_inv in Hrun as ([] & w9 & H9 & Hrun).
  pose proof (check_covered_state _ _ _ _ H9) as ->.
  apply bind_ok_inv in Hrun as ([] & w10 & H10 & Hrun). injection Hrun as -> _.
  pose proof (ValidateBasic_same a (w_globals w)) as Hs. rewrite H1 in Hs. unfold same_coordinator in Hs.
  destruct (ValidateBasic_ok _ _ _ H1) as (i0 & E & Hd & Hv & Hsig).
  unfold deref in H4. rewrite E in H4. injection H4 as <-.
  exists i0, ranges, i', g1, g3, proofs. cbn [fst w_globals w_mu] in *.
  split_and!; try done; [by rewrite Hs| |].
  - intros r cs c Hr Hc.
    destruct (for_each_ok_each _ _ _ _ (r, cs) H9) as (s1 & s2 & Hf); [by apply elem_of_range_map|].
    exact (check_covered_ok _ _ _ _ _ _ Hf Hc).
  - edestruct apply_regions_run as (w11 & E' & _ & Hm). rewrite H10 in E'. injection E' as <-. exact Hm.
Qed.

(** The effect of an intent on a state: under every key that of one of its changes, or what
    was there when it has none. *)
Definition applied (i : CrossRegionIntent) (m m' : gmap string string) : Prop :=
  ∀ k,
    (∃ region c, changes_in i region c ∧ writes c ∧ sbytes (ch_Key c) = k ∧ m' !! k = effect c) ∨
    ((∀ region c, changes_in i region c → writes c → sbytes (ch_Key c) ≠ k) ∧ m' !! k = m !! k).

Lemma effects_applied now i ranges i' n (m : gmap string string) :
  getRequiredRanges now i = Ok (ranges, i') →
  applied i m (foldl apply_effect m (concat (range_map n (gm (in_StateChanges i'))).*2)).
Proof using Type.
  intros Hg k. pose proof (changes_in_sorted _ _ _ _ Hg) as Hch.
  assert (∀ c, c ∈ concat (range_map n (gm (in_StateChanges i'))).*2 ↔ ∃ region, changes_in i region c) as Hin.
  { intros c. setoid_rewrite <-Hch. rewrite list_elem_of_In, in_concat.
    setoid_rewrite <-list_elem_of_In. unfold changes_in. split.
    - intros (cs & ([r ?] & -> & Hr'%elem_of_range_map)%list_elem_of_fmap & Hc). eauto.
    - intros (r & cs & Hr' & Hc). exists cs. split; [|done]. apply list_elem_of_fmap.
      exists (r, cs). by rewrite elem_of_range_map. }
  destruct (apply_effects_lookup (concat (range_map n (gm (in_StateChanges i'))).*2) m k)
    as [(c & Hc & Hw & Hk & He)|[Hn He]]; [left|right].
  - apply Hin in Hc as [r Hc]. eauto 10.
  - split; [|done]. intros r c Hc. apply Hn, Hin. eauto.
Qed.

(** C8: a cross-region action that succeeds had a positive time window and the
    signatures of its source and of all its targets, touches only keys the
    coordinator's Merkle state holds, and leaves under every key the effect of one
    of its changes on it (a set's value, nothing after a transfer out), or what was
    there when it has none. *)
Theorem CrossRegion_Execute_sound ctx now a w w' res co :
  globalCoordinator (w_globals w) = Some co → ms_reachable (λ _ _, True) (co_state co) →
  CrossRegion_Execute ctx now a w = (w', Ok res) →
  ∃ i, Intent a = Some i ∧ 0 < tw_Duration (in_TimeWindow i) ∧ signed i ∧
    (∀ region c, changes_in i region c →
       is_Some (rv_contents (ms_view (co_state co)) !! sbytes (ch_Key c))) ∧
    (∀ k,
       (∃ region c, changes_in i region c ∧ writes c ∧ sbytes (ch_Key c) = k ∧
          contents (w_mu w') !! k = effect c) ∨
       ((∀ region c, changes_in i region c → writes c → sbytes (ch_Key c) ≠ k) ∧
          contents (w_mu w') !! k = contents (w_mu w) !! k)).
Proof using Type*.
  intros Hco Hr Hrun.
  destruct (CrossRegion_Execute_inv _ _ _ _ _ _ _ Hco Hrun)
    as (i & ranges & i' & g1 & g2 & proofs & E & Hd & _ & Hsig & Hg & Hco1 & Hp & Hcov & Hm).
  pose proof (changes_in_sorted _ _ _ _ Hg) as Hch. exists i. split_and!; try done.
  - intros region c (cs & Hcs & Hc)%Hch.
    destruct (Hcov _ _ _ Hcs Hc) as (proof & Hpr & Hen).
    pose proof (request_proofs_ok _ _ _ _ _ _ _ (Forall_true _ _ (λ _, I)) Hco1 (reachable_inv _ _ Hr) Hp
                  region proof Hpr) as Hreq.
    destruct (last _); [|by rewrite lookup_empty in Hreq]. destruct Hreq as [Hreq _].
    rewrite Hreq in Hen. destruct Hen as [v Hen]. apply map_lookup_filter_Some in Hen as [Hen _]. eauto.
  - rewrite Hm. by apply (effects_applied now i ranges i').
Qed.

(** ** One prefix per region *)

(** A key that its cached range determines and whose prefix is its own. *)
Definition long_plain_key (k : slice) : Prop :=
  contains "-" (sbytes k) = false ∧ (8 ≤ String.length (sbytes k))%nat.

Lemma substring_app n s s' : (n ≤ String.length s)%nat → substring 0 n (s +s+ s') = substring 0 n s.
Proof using Type.
  revert n. induction s as [|x s IH]; intros [|n] Hn; simpl in *; try lia; try done.
  - by destruct s'.
  - f_equal. apply IH. lia.
Qed.

Lemma reslice_long k :
  (8 ≤ String.length (sbytes k))%nat → reslice 8 k = Ok (substring 0 8 (sbytes k)).
Proof using Type.
  intros H. unfold reslice. destruct k as [[s spare]|]; simpl in H; [|lia]. cbn [whole sbytes].
  rewrite length_app_str, (proj2 (Nat.leb_le _ _)) by lia. by rewrite substring_app.
Qed.

Lemma long_plain_range st en : long_plain_key st → long_plain_key en → plain_range st en.
Proof using Type. intros [H1 _] [_ H2]. split; [done|]. destruct en; [eauto|]. simpl in H2. lia. Qed.

Lemma groupChangesByPrefix_keys (P : slice → Prop) cs rs cs' :
  groupChangesByPrefix cs = Ok (rs, cs') → (∀ c, c ∈ cs → P (ch_Key c)) → Forall (λ r, P r.1 ∧ P r.2) rs.
Proof using Type.
  unfold groupChangesByPrefix. intros H HP. pose proof (sort_by_key_perm cs) as Hperm.
  destruct (sort_by_key cs) as [|c rest]; [by injection H as <- _|].
  unfold mbind, outcome_bind in H. destruct (group_loop _ _ _) eqn:E; try done. injection H as <- <-.
  assert (∀ c', c' ∈ c :: rest → P (ch_Key c')) as HP' by (intros c'; rewrite Hperm; apply HP).
  eapply (group_loop_keys P _ _ _ _ E); cbn; [|apply HP'; left..|done]. intros c' Hc'. apply HP'. by right.
Qed.

Lemma required_ranges_plain now i ranges i' :
  getRequiredRanges now i = Ok (ranges, i') →
  (∀ r c, changes_in i r c → long_plain_key (ch_Key c)) →
  Forall (λ q, plain_range (rq_StartKey q) (rq_EndKey q)) ranges.
Proof using Type.
  intros Hg Hkeys. apply Forall_forall. intros q Hq.
  destruct (required_ranges_origin _ _ _ _ _ Hg Hq) as (cs & rs & Hcs & Hrs & Hin).
  pose proof (groupChangesByPrefix_keys long_plain_key _ _ _ Hrs) as HP.
  rewrite Forall_forall in HP. destruct (HP (λ c Hc, Hkeys _ c (ex_intro _ cs (conj Hcs Hc))) _ Hin).
  by apply long_plain_range.
Qed.

(** When every key is above the start of the last range there is only one range. *)
Lemma groups_one_prefix cs rs st en c1 c2 :
  groupChangesByPrefix cs = Ok (rs, sort_by_key cs) → last rs = Some (st, en) →
  (∀ c, c ∈ cs → (8 ≤ String.length (sbytes (ch_Key c)))%nat) →
  (∀ c, c ∈ cs → String.leb (sbytes st) (sbytes (ch_Key c)) = true) →
  c1 ∈ cs → c2 ∈ cs → substring 0 8 (sbytes (ch_Key c1)) = substring 0 8 (sbytes (ch_Key c2)).
Proof using Type.
  intros Hg Hl Hlen Hst Hc1 Hc2. pose proof (sort_by_key_perm cs) as Hperm.
  pose proof (sort_by_key_sorted cs) as Hs. unfold groupChangesByPrefix in Hg.
  setoid_rewrite <-Hperm in Hlen. setoid_rewrite <-Hperm in Hst.
  rewrite <-Hperm in Hc1, Hc2. clear Hperm. destruct (sort_by_key cs) as [|c0 rest]; [by apply not_elem_of_nil in Hc1|].
  unfold mbind, outcome_bind in Hg. destruct (group_loop _ _ _) eqn:E; try done. injection Hg as ->.
  apply group_loop_last in E as [(en' & -> & Hall)|(l1 & d1 & d2 & l2 & rs' & en' & E & -> & Hne)].
  - assert (∀ c, c ∈ c0 :: rest → reslice 8 (ch_Key c) = reslice 8 (ch_Key c0)) as Hall'
      by (intros c [->|Hc]%elem_of_cons; auto).
    pose proof (Hall' _ Hc1) as H1. rewrite <-(Hall' _ Hc2) in H1.
    rewrite !reslice_long in H1 by auto. by injection H1.
  - destruct Hne. rewrite last_snoc in Hl. injection Hl as <- <-. rewrite E in *.
    assert (sbytes (ch_Key d2) = sbytes (ch_Key d1)) as Heq.
    { apply String.leb_antisym; [apply Hst; set_solver|].
      apply StronglySorted_app_1_r, StronglySorted_inv in Hs as [_ Hs].
      by apply Forall_cons in Hs as [Hs _]. }
    rewrite !reslice_long by (apply Hlen; set_solver). by rewrite Heq.
Qed.

(** A region's changes pass only when all their keys share their first eight
    bytes: an intent with keys of two prefixes in one region cannot succeed,
    because the proof of the last range replaces those of the others. *)
Theorem CrossRegion_one_prefix ctx now a w w' res co i region c1 c2 :
  globalCoordinator (w_globals w) = Some co → ms_reachable plain_range (co_state co) →
  Intent a = Some i → (∀ r c, changes_in i r c → long_plain_key (ch_Key c)) →
  CrossRegion_Execute ctx now a w = (w', Ok res) →
  changes_in i region c1 → changes_in i region c2 →
  substring 0 8 (sbytes (ch_Key c1)) = substring 0 8 (sbytes (ch_Key c2)).
Proof using Type*.
  intros Hco Hr Hi Hkeys Hrun (cs & Hcs & Hc1) (cs2 & Hcs2 & Hc2). rewrite Hcs in Hcs2. injection Hcs2 as <-.
  destruct (CrossRegion_Execute_inv _ _ _ _ _ _ _ Hco Hrun)
    as (i0 & ranges & i' & g1 & g2 & proofs & E & _ & _ & _ & Hg & Hco1 & Hp & Hcov & _).
  rewrite Hi in E. injection E as <-.
  destruct (getRequiredRanges_spec _ _ _ _ Hg) as (Hm & _ & Hgr).
  destruct (Hgr region cs Hcs) as (rs & Hrs & Hfil).
  pose proof (required_ranges_plain _ _ _ _ Hg Hkeys) as HQ.
  assert (∀ c, c ∈ cs → ∃ st en, last rs = Some (st, en) ∧
            String.leb (sbytes st) (sbytes (ch_Key c)) = true) as Hlast.
  { intros c Hc. destruct (Hcov region (sort_by_key cs) c) as (proof & Hpr & Hen);
      [by rewrite Hm, lookup_fmap, Hcs|by rewrite sort_by_key_perm|].
    pose proof (request_proofs_ok _ _ _ _ _ _ _ HQ Hco1 (reachable_inv _ _ Hr) Hp region proof Hpr) as Hreq.
    rewrite Hfil, fmap_last in Hreq. destruct (last rs) as [[st en]|] eqn:El; cbn in Hreq; [|by rewrite lookup_empty in Hreq].
    destruct Hreq as (Hent & Hkey & Hpl). exists st, en. split; [done|].
    assert (plain_range st en) as Hpl'.
    { rewrite Forall_forall in HQ. apply (HQ (region_request now region (st, en))).
      assert (region_request now region (st, en) ∈ filter (λ q, rq_RegionID q = region) ranges) as Hf
        by (rewrite Hfil; apply list_elem_of_fmap_2; by apply last_Some_elem_of).
      by apply list_elem_of_filter in Hf as []. }
    destruct (makeRangeKey_inj _ _ _ _ Hpl Hpl' Hkey) as [Hs _]. rewrite <-Hs.
    rewrite Hent in Hen. destruct Hen as [v Hen]. apply map_lookup_filter_Some in Hen as [_ Hen].
    unfold IsInRange in Hen. by apply andb_true_iff in Hen as [Hen _]. }
  destruct (Hlast c1 Hc1) as (st & en & El & _).
  apply (groups_one_prefix cs rs st en c1 c2); try done.
  - intros c Hc. apply (Hkeys region). by exists cs.
  - intros c Hc. destruct (Hlast c Hc) as (st' & en' & El' & Hle). by simplify_eq.
Qed.

(** ** When it succeeds *)













End writes_theory.
End theory.

(** * Instances and witnesses *)

Definition change_le : relation StateChange :=
  λ a b, String.le (sbytes (ch_Key a)) (sbytes (ch_Key b)).

#[export] Instance change_le_dec a b : Decision (change_le a b).
Proof. unfold change_le, String.le. apply _. Defined.
#[export] Instance change_le_total : Total change_le.
Proof. intros a b. apply (total String.le). Qed.
#[export] Instance change_le_trans : Transitive change_le.
Proof. intros a b c. apply (transitivity (R := String.le)). Qed.

Definition merge_SortSlice : SortSlice.
Proof.
  refine {| sort_by_key := merge_sort change_le |}.
  - apply merge_sort_Permutation.
  - intros l. pose proof (StronglySorted_merge_sort change_le l) as H.
    induction H as [|x l' _ IH Hf]; constructor; [done|].
    eapply Forall_impl; [exact Hf|]. intros y Hy. by apply Is_true_true.
Defined.

#[local] Existing Instances map_RangeViews map_RangeViewsLaws merge_SortSlice.
#[local] Instance eu_first : MapRange := first_MapRange "eu".

Definition account1 : slice := of_bytes "accounts/1".
Definition xdb : gmap string string := {["accounts/1" := "5"; "accounts/2" := "7"; "accounts/3" := "8"]}.
Definition xstore : mapMS := mkMS xdb xdb (NewRangeCache 1000).
Definition xco := NewCoordinator "default" xstore.
Definition xworld : World (gmap string string) (gmap string string) unit (gmap string string) :=
  mkWorld (mkGlobals true (Some xco)) xdb.

Definition out1 : StateChange := mkChange account1 "5" StateOpTransferOut "eu" "us".
Definition set2 : StateChange := mkChange (of_bytes "accounts/2") "9" StateOpSet "" "".
Definition in1 : StateChange := mkChange account1 "5" StateOpTransferIn "eu" "us".

Definition xintent : CrossRegionIntent :=
  mkIntent "intent-1" "eu" ["us"] (mkWindow zeroTime (5 * Minute)) IntentStatusPending zeroTime
           (Some {["eu" := "s1"; "us" := "s2"]}) (Some {["eu" := [set2; out1]; "us" := [in1]]}) None "".
Definition xaction : CrossRegionAction := mkCrossRegion (Some xintent).

Lemma xstore_reachable Q : ms_reachable Q xstore.
Proof. exists xdb, xstore. split; [reflexivity|apply rtc_refl]. Qed.

Lemma xintent_changes r c : changes_in xintent r c → (r = "eu" ∧ (c = set2 ∨ c = out1)) ∨ (r = "us" ∧ c = in1).
Proof.
  intros (cs & H & Hc). unfold xintent, gm in H. cbn [in_StateChanges] in H. unfold default, id in H.
  apply lookup_insert_Some in H as [[<- <-]|[_ H]]; [left|right].
  - split; [done|]. apply elem_of_cons in Hc as [->|Hc]; [by left|].
    right. by apply list_elem_of_singleton in Hc.
  - apply lookup_singleton_Some in H as [<- <-]. split; [done|]. by apply list_elem_of_singleton in Hc.
Qed.

Lemma xrun : ∃ w', CrossRegion_Execute CtxLive zeroTime xaction xworld = (w', Ok (mkCrossRegionResult true)).
Proof.
  assert ((CrossRegion_Execute CtxLive zeroTime xaction xworld).2 = Ok (mkCrossRegionResult true)) as H
    by (vm_compute; reflexivity).
  exists (CrossRegion_Execute CtxLive zeroTime xaction xworld).1. rewrite <-H. apply surjective_pairing.
Qed.

(** The program's start: the package variables are zero. *)
Definition initial_world : World (gmap string string) (gmap string string) unit (gmap string string) :=
  mkWorld (mkGlobals false None) xdb.

Lemma CrossRegion_never_succeeds_witness :
  globalCoordinator (w_globals initial_world) = None ∧
  is_ok (CrossRegion_Execute CtxLive zeroTime xaction initial_world).2 = false.
Proof.
  split; [reflexivity|].
  pose proof (CrossRegion_never_succeeds CtxLive zeroTime xaction initial_world eq_refl) as H.
  destruct (CrossRegion_Execute CtxLive zeroTime xaction initial_world) as [w' o]. exact (proj1 H).
Defined.

Lemma CrossRegion_within_StateKeys_witness :
  contents (w_mu (CrossRegion_Execute CtxLive zeroTime xaction xworld).1) !! "accounts/3" =
  contents (w_mu xworld) !! "accounts/3".
Proof.
  assert (∃ keys, CrossRegion_StateKeys xaction "actor" = Ok keys) as [keys E] by (eexists; reflexivity).
  apply (CrossRegion_within_StateKeys CtxLive zeroTime xaction "actor" keys xworld "accounts/3" E).
  rewrite (CrossRegion_StateKeys_dom xaction xintent "actor" keys "accounts/3" eq_refl E).
  intros (r & c & Hc & _ & Hk). apply xintent_changes in Hc as [[_ [-> | ->]]|[_ ->]]; discriminate.
Defined.

Lemma CrossRegion_Execute_sound_witness :
  ∃ w', CrossRegion_Execute CtxLive zeroTime xaction xworld = (w', Ok (mkCrossRegionResult true)) ∧ signed xintent.
Proof.
  destruct xrun as (w' & E). exists w'. split; [exact E|].
  destruct (CrossRegion_Execute_sound CtxLive zeroTime xaction xworld w' (mkCrossRegionResult true) xco eq_refl (xstore_reachable _) E)
    as (i & Hi & _ & Hs & _).
  injection Hi as <-. exact Hs.
Defined.

Lemma CrossRegion_one_prefix_witness :
  substring 0 8 (sbytes (ch_Key out1)) = substring 0 8 (sbytes (ch_Key set2)).
Proof.
  destruct xrun as (w' & E).
  apply (CrossRegion_one_prefix CtxLive zeroTime xaction xworld w' (mkCrossRegionResult true) xco xintent "eu" out1 set2
           eq_refl (xstore_reachable _) eq_refl);
    [|exact E| |].
  - intros r c Hc. apply xintent_changes in Hc as [[_ [-> | ->]]|[_ ->]]; (split; [reflexivity|simpl; lia]).
  - exists [set2; out1]. split; [reflexivity|right; left].
  - exists [set2; out1]. split; [reflexivity|left].
Defined.

