(* ===== verification/CrossRegionWire.v ===== *)
(** The wire format of the cross-region action ([Marshal] and [Unmarshal] of
    [actions/cross_region.go]): what is written, and that none of it is read back. *)

From S2P Require Import Prelude GoTime KV RangeState XRegion CrossRegion.
From Stdlib Require Import ZArith Lia Ascii String.
From stdpp Require Import base tactics option list strings pretty gmap sorting.

Local Open Scope Z_scope.

(** * Wire format *)

(** The methods of hypersdk's [codec.Packer] the action uses.  A slice that is
    unpacked points into the buffer, so its capacity is part of it. *)
Class WirePacker (P : Type) : Type := {
  wp_PackString : string → P → P;
  wp_PackBytes : string → P → P;
  wp_PackInt : Z → P → P;
  wp_PackInt64 : Z → P → P;
  wp_UnpackString : bool → P → P * string;
  wp_UnpackBytes : Z → bool → P → P * slice;
  wp_UnpackInt : bool → P → P * Z;
  wp_UnpackInt64 : bool → P → P * Z;
  wp_Err : P → option goerr;
}.

Inductive wfield : Type := WBytes (s : string) | WInt (x : Z) | WInt64 (x : Z).

(** What the action relies on: [wire] are the fields written, in order; a read that gives
    no error started without one, gives bytes within the limit (which any limit but a
    negative one sets: zero does not mean unbounded), and gives no zero or empty value
    where the field is required. *)
Class WirePackerLaws (P : Type) `{!WirePacker P} : Type := {
  wire : P → list wfield;
  PackString_wire : ∀ s p, wp_Err (wp_PackString s p) = None →
    wp_Err p = None ∧ wire (wp_PackString s p) = wire p ++ [WBytes s];
  PackBytes_wire : ∀ s p, wp_Err (wp_PackBytes s p) = None →
    wp_Err p = None ∧ wire (wp_PackBytes s p) = wire p ++ [WBytes s];
  PackInt_wire : ∀ x p, 0 ≤ x < 2 ^ 32 → wp_Err (wp_PackInt x p) = None →
    wp_Err p = None ∧ wire (wp_PackInt x p) = wire p ++ [WInt x];
  PackInt64_wire : ∀ x p, - 2 ^ 63 ≤ x < 2 ^ 63 → wp_Err (wp_PackInt64 x p) = None →
    wp_Err p = None ∧ wire (wp_PackInt64 x p) = wire p ++ [WInt64 x];
  UnpackBytes_read : ∀ n r p, wp_Err (wp_UnpackBytes n r p).1 = None →
    wp_Err p = None ∧ (0 ≤ n → slen (sbytes (wp_UnpackBytes n r p).2) ≤ n) ∧
    (r = true → slen (sbytes (wp_UnpackBytes n r p).2) ≠ 0);
  UnpackInt_read : ∀ r p, wp_Err (wp_UnpackInt r p).1 = None →
    wp_Err p = None ∧ 0 ≤ (wp_UnpackInt r p).2 < 2 ^ 32 ∧ (r = true → (wp_UnpackInt r p).2 ≠ 0);
  UnpackString_read : ∀ r p, wp_Err (wp_UnpackString r p).1 = None → wp_Err p = None;
  UnpackInt64_read : ∀ r p, wp_Err (wp_UnpackInt64 r p).1 = None → wp_Err p = None;
}.

(** [uint32(x)]. *)
Definition u32 (x : Z) : Z := x mod 2 ^ 32.

(** A reader: the packer after, and the value read. *)
Definition rd (P A : Type) : Type := P → P * A.
#[export] Instance rd_ret {P} : MRet (rd P) := λ _ a p, (p, a).
#[export] Instance rd_bind {P} : MBind (rd P) := λ _ _ f m p, let '(p', a) := m p in f a p'.

(** [for i := uint32(0); i < n; i++] collecting what each turn reads. *)
Fixpoint rd_times {P A} (n : nat) (m : rd P A) : rd P (list A) :=
  match n with
  | O => mret []
  | S n' => x ← m; xs ← rd_times n' m; mret (x :: xs)
  end.

Section wire_format.
Context {P : Type} `{!WirePacker P} `{MR : MapRange}.

Definition pack_change (p : P) (c : StateChange) : P :=
  let p := wp_PackBytes (sbytes (ch_Key c)) p in
  let p := wp_PackBytes (ch_Value c) p in
  let p := wp_PackInt (u32 (ch_Operation c)) p in
  let p := wp_PackString (ch_Source c) p in
  wp_PackString (ch_Target c) p.

Definition pack_region (p : P) (rc : string * list StateChange) : P :=
  let p := wp_PackString rc.1 p in
  let p := wp_PackInt (u32 (Z.of_nat (length rc.2))) p in
  foldl pack_change p rc.2.

Definition pack_signature (p : P) (rs : string * string) : P :=
  wp_PackBytes rs.2 (wp_PackString rs.1 p).

(** The packer after, and the error returned. *)
Definition CrossRegion_Marshal (a : CrossRegionAction) (p : P) : P * outcome unit :=
  match Intent a with
  | None => (p, Err ErrNilIntent)
  | Some i =>
      let p := wp_PackString (in_ID i) p in
      let p := wp_PackString (in_SourceRegion i) p in
      let p := wp_PackInt (u32 (Z.of_nat (length (in_TargetRegions i)))) p in
      let p := foldl (λ p region, wp_PackString region p) p (in_TargetRegions i) in
      let p := wp_PackInt64 (int64 (tw_Duration (in_TimeWindow i))) p in
      let p := wp_PackInt (u32 (Z.of_nat (size (gm (in_StateChanges i))))) p in
      let p := foldl pack_region p (range_map 0 (gm (in_StateChanges i))) in
      let p := wp_PackInt (u32 (Z.of_nat (size (gm (in_Signatures i))))) p in
      let p := foldl pack_signature p (range_map 1 (gm (in_Signatures i))) in
      (p, match wp_Err p with Some e => Err e | None => Ok tt end)
  end.

Definition unpack_change : rd P StateChange :=
  key ← wp_UnpackBytes 0 true;
  value ← wp_UnpackBytes 0 true;
  op ← wp_UnpackInt true;
  source ← wp_UnpackString true;
  target ← wp_UnpackString true;
  mret (mkChange key (sbytes value) op source target).

Definition unpack_region : rd P (string * list StateChange) :=
  regionID ← wp_UnpackString true;
  numChanges ← wp_UnpackInt true;
  changes ← rd_times (Z.to_nat numChanges) unpack_change;
  mret (regionID, changes).

Definition unpack_signature : rd P (string * string) :=
  regionID ← wp_UnpackString true;
  sig ← wp_UnpackBytes 0 true;
  mret (regionID, sbytes sig).

(** A map filled by assignments in order: the last one of a key stays. *)
Definition assign_all {A} (l : list (string * A)) : gmap string A :=
  foldl (λ m kv, <[kv.1 := kv.2]> m) ∅ l.

Definition unpack_intent (now : Time) : rd P CrossRegionIntent :=
  id ← wp_UnpackString true;
  source ← wp_UnpackString true;
  targetCount ← wp_UnpackInt true;
  targets ← rd_times (Z.to_nat targetCount) (wp_UnpackString true);
  duration ← wp_UnpackInt64 true;
  numRegionChanges ← wp_UnpackInt true;
  regions ← rd_times (Z.to_nat numRegionChanges) unpack_region;
  numSigs ← wp_UnpackInt true;
  sigs ← rd_times (Z.to_nat numSigs) unpack_signature;
  mret (mkIntent id source targets (mkWindow now duration) IntentStatusPending zeroTime
          (Some (assign_all sigs)) (Some (assign_all regions)) None "").

Definition CrossRegion_Unmarshal (now : Time) (p : P) : P * outcome CrossRegionAction :=
  let '(p, i) := unpack_intent now p in
  (p, match wp_Err p with Some e => Err e | None => Ok (mkCrossRegion (Some i)) end).
End wire_format.

(** * What is written, and what is read *)

Definition fields_change (c : StateChange) : list wfield :=
  [WBytes (sbytes (ch_Key c)); WBytes (ch_Value c); WInt (ch_Operation c);
   WBytes (ch_Source c); WBytes (ch_Target c)].
Definition fields_region (rc : string * list StateChange) : list wfield :=
  [WBytes rc.1; WInt (Z.of_nat (length rc.2))] ++ concat (fields_change <$> rc.2).
Definition fields_signature (rs : string * string) : list wfield := [WBytes rs.1; WBytes rs.2].

(** The counts, operations and duration are in the range of their fields. *)
Definition fits (i : CrossRegionIntent) : Prop :=
  Z.of_nat (length (in_TargetRegions i)) < 2 ^ 32 ∧
  - 2 ^ 63 ≤ tw_Duration (in_TimeWindow i) < 2 ^ 63 ∧
  Z.of_nat (size (gm (in_StateChanges i))) < 2 ^ 32 ∧
  Z.of_nat (size (gm (in_Signatures i))) < 2 ^ 32 ∧
  (∀ r cs, gm (in_StateChanges i) !! r = Some cs → Z.of_nat (length cs) < 2 ^ 32) ∧
  (∀ r c, changes_in i r c → 0 ≤ ch_Operation c < 2 ^ 32).

Section one_way.
Context {P : Type} `{!WirePacker P, !WirePackerLaws P}.

(** A writer that adds these fields when it ends without error. *)
Definition encodes (f : P → P) (fs : list wfield) : Prop :=
  ∀ p, wp_Err (f p) = None → wp_Err p = None ∧ wire (f p) = wire p ++ fs.

Lemma encodes_comp f g fs gs : encodes f fs → encodes g gs → encodes (λ p, g (f p)) (fs ++ gs).
Proof.
  intros Hf Hg p H. destruct (Hg _ H) as [H1 H2]. destruct (Hf _ H1) as [H3 H4].
  split; [done|]. by rewrite H2, H4, (assoc_L (++)).
Qed.

Lemma encodes_foldl {A} (f : P → A → P) (fs : A → list wfield) xs :
  (∀ x, x ∈ xs → encodes (λ p, f p x) (fs x)) → encodes (λ p, foldl f p xs) (concat (fs <$> xs)).
Proof using Type.
  induction xs as [|x xs IH]; intros H; cbn [foldl fmap list_fmap concat].
  - intros p Hp. by rewrite (right_id_L [] (++)).
  - apply (encodes_comp (λ p, f p x) (λ p, foldl f p xs)); [apply H; left|]. apply IH. intros y Hy. apply H. by right.
Qed.

Lemma encodes_string s : encodes (wp_PackString s) [WBytes s].
Proof. intros p. apply PackString_wire. Qed.
Lemma encodes_bytes s : encodes (wp_PackBytes s) [WBytes s].
Proof. intros p. apply PackBytes_wire. Qed.
Lemma encodes_int x : 0 ≤ x < 2 ^ 32 → encodes (wp_PackInt (u32 x)) [WInt x].
Proof. intros Hx p. unfold u32. rewrite Z.mod_small by done. by apply PackInt_wire. Qed.
Lemma encodes_int64 x : - 2 ^ 63 ≤ x < 2 ^ 63 → encodes (wp_PackInt64 (int64 x)) [WInt64 x].
Proof. intros Hx p. rewrite int64_small by done. by apply PackInt64_wire. Qed.

(** Peels the writes off a packer without error, the last one first. *)
Ltac peel_writes :=
  repeat match goal with
  | H : wp_Err (wp_PackString ?s ?p) = None |- _ => destruct (encodes_string s p H) as [? ->]; clear H
  | H : wp_Err (wp_PackBytes ?s ?p) = None |- _ => destruct (encodes_bytes s p H) as [? ->]; clear H
  | H : wp_Err (wp_PackInt (u32 ?x) ?p) = None |- _ =>
      destruct (encodes_int x ltac:(first [assumption|lia]) p H) as [? ->]; clear H
  | H : wp_Err (wp_PackInt64 (int64 ?x) ?p) = None |- _ =>
      destruct (encodes_int64 x ltac:(first [assumption|lia]) p H) as [? ->]; clear H
  end.

Lemma encodes_change c : 0 ≤ ch_Operation c < 2 ^ 32 → encodes (λ p, pack_change p c) (fields_change c).
Proof.
  intros Hc p H. unfold pack_change in *. cbv beta zeta in *. peel_writes. split; [done|]. by rewrite <-!(assoc_L (++)).
Qed.

Lemma encodes_region rc :
  Z.of_nat (length rc.2) < 2 ^ 32 → (∀ c, c ∈ rc.2 → 0 ≤ ch_Operation c < 2 ^ 32) →
  encodes (λ p, pack_region p rc) (fields_region rc).
Proof.
  intros Hl Hc p H. unfold pack_region in *. cbv beta zeta in *.
  destruct (encodes_foldl pack_change fields_change rc.2 (λ c Hin, encodes_change c (Hc c Hin)) _ H) as [? ->].
  clear H. peel_writes. split; [done|]. unfold fields_region. by rewrite <-!(assoc_L (++)).
Qed.

Lemma encodes_signature rs : encodes (λ p, pack_signature p rs) (fields_signature rs).
Proof. intros p H. unfold pack_signature in *. cbv beta zeta in *. peel_writes. split; [done|]. by rewrite <-!(assoc_L (++)). Qed.

(** ** The whole intent *)

Context `{MR : MapRange}.

Definition fields_intent (i : CrossRegionIntent) : list wfield :=
  [WBytes (in_ID i); WBytes (in_SourceRegion i); WInt (Z.of_nat (length (in_TargetRegions i)))] ++
  concat ((λ r, [WBytes r]) <$> in_TargetRegions i) ++
  [WInt64 (tw_Duration (in_TimeWindow i)); WInt (Z.of_nat (size (gm (in_StateChanges i))))] ++
  concat (fields_region <$> range_map 0 (gm (in_StateChanges i))) ++
  [WInt (Z.of_nat (size (gm (in_Signatures i))))] ++
  concat (fields_signature <$> range_map 1 (gm (in_Signatures i))).

Lemma Marshal_wire a i p p' :
  Intent a = Some i → fits i → CrossRegion_Marshal a p = (p', Ok tt) →
  wp_Err p' = None ∧ wire p' = wire p ++ fields_intent i.
Proof.
  intros Hi (F1 & F2 & F3 & F4 & F5 & F6). unfold CrossRegion_Marshal. rewrite Hi. cbv zeta.
  intros [= <- H]. split; [by destruct (wp_Err _)|].
  destruct (wp_Err _) eqn:E; [done|]. clear H.
  edestruct (encodes_foldl pack_signature fields_signature) as [E1 ->];
    [intros; apply encodes_signature|exact E|]. clear E.
  peel_writes.
  edestruct (encodes_foldl pack_region fields_region (range_map 0 (gm (in_StateChanges i)))) as [E2 ->];
    [intros [r cs] Hr%elem_of_range_map; apply encodes_region;
       [by eapply F5|intros c Hc; apply (F6 r); by exists cs]|eassumption|].
  peel_writes.
  edestruct (encodes_foldl (λ p region, wp_PackString region p) (λ r, [WBytes r])) as [E3 ->];
    [intros; apply encodes_string|eassumption|].
  peel_writes. unfold fields_intent. by rewrite <-!(assoc_L (++)).
Qed.

(** ** Reading *)

(** A reader that gives an error on whatever it is given. *)
Definition sticky {A} (m : rd P A) : Prop := ∀ p, wp_Err (m p).1 = None → wp_Err p = None.
Definition fails {A} (m : rd P A) : Prop := ∀ p, wp_Err (m p).1 ≠ None.

Lemma sticky_ret {A} (x : A) : sticky (mret x).
Proof using Type. by intros p. Qed.
Lemma sticky_bind {A B} (m : rd P A) (f : A → rd P B) : sticky m → (∀ x, sticky (f x)) → sticky (m ≫= f).
Proof using Type.
  intros Hm Hf p. unfold mbind, rd_bind. specialize (Hm p). destruct (m p) as [p' x]. intros H%Hf. auto.
Qed.
Lemma sticky_times {A} n (m : rd P A) : sticky m → sticky (rd_times n m).
Proof using Type.
  intros H. induction n as [|n IH]; cbn [rd_times]; [apply sticky_ret|].
  apply sticky_bind; [done|intros x]. apply sticky_bind; [done|intros; apply sticky_ret].
Qed.
Lemma sticky_string r : sticky (wp_UnpackString r).
Proof. intros p. apply UnpackString_read. Qed.
Lemma sticky_bytes n r : sticky (wp_UnpackBytes n r).
Proof. intros p H. apply (UnpackBytes_read n r p H). Qed.
Lemma sticky_int r : sticky (wp_UnpackInt r).
Proof. intros p H. apply (UnpackInt_read r p H). Qed.
Lemma sticky_int64 r : sticky (wp_UnpackInt64 r).
Proof. intros p. apply UnpackInt64_read. Qed.
Lemma sticky_fails {A} (m : rd P A) : fails m → sticky m.
Proof using Type. intros Hm p H. by destruct (Hm p). Qed.

Create HintDb wire_db discriminated.
#[local] Hint Resolve sticky_ret sticky_bind sticky_times sticky_string sticky_bytes sticky_int sticky_int64 sticky_fails : wire_db.

(** A failing read before readers that keep an error, and one after any read. *)
Lemma fails_first {A B} (m : rd P A) (f : A → rd P B) : fails m → (∀ x, sticky (f x)) → fails (m ≫= f).
Proof using Type. intros Hm Hf p H. apply (Hm p). unfold mbind, rd_bind in H. destruct (m p) as [p' x]. by apply Hf in H. Qed.
Lemma fails_then {A B} (m : rd P A) (f : A → rd P B) : (∀ x, fails (f x)) → fails (m ≫= f).
Proof using Type. intros Hf p. unfold mbind, rd_bind. destruct (m p) as [p' x]. apply Hf. Qed.

(** A count that is required is not zero, so the loop it bounds is entered. *)
Lemma fails_counted {A B} (m : rd P A) (f : list A → rd P B) :
  fails m → (∀ xs, sticky (f xs)) → fails (n ← wp_UnpackInt true; xs ← rd_times (Z.to_nat n) m; f xs).
Proof.
  intros Hm Hf p H. unfold mbind at 1, rd_bind at 1 in H. pose proof (UnpackInt_read true p) as Hr.
  destruct (wp_UnpackInt true p) as [p' n]. cbn [fst snd] in Hr.
  assert (sticky (xs ← rd_times (Z.to_nat n) m; f xs)) as Hs by eauto with wire_db.
  destruct (Hr (Hs p' H)) as (_ & Hn & Hz). specialize (Hz eq_refl).
  destruct (Z.to_nat n) as [|k] eqn:Ek; [lia|]. cbn [rd_times] in H. revert H.
  apply (fails_first (x ← m; xs ← rd_times k m; mret (x :: xs)) f); [|done]. apply fails_first; auto with wire_db.
Qed.

(** Required bytes with a limit of zero are over the limit or empty. *)
Lemma fails_bytes : fails (wp_UnpackBytes 0 true).
Proof.
  intros p H. destruct (UnpackBytes_read 0 true p H) as (_ & Hl & Hz). specialize (Hl ltac:(lia)). specialize (Hz eq_refl).
  unfold slen in *. lia.
Qed.

Lemma fails_change : fails unpack_change.
Proof. apply fails_first; [apply fails_bytes|]. intros; auto 20 with wire_db. Qed.
Lemma fails_region : fails unpack_region.
Proof. apply fails_then. intros r. apply fails_counted; [apply fails_change|]. intros; auto with wire_db. Qed.
Lemma fails_intent now : fails (unpack_intent now).
Proof.
  assert (sticky unpack_signature) as Hs by (unfold unpack_signature; auto 10 with wire_db).
  do 5 (apply fails_then; intros ?). apply fails_counted; [apply fails_region|]. intros; auto 20 with wire_db.
Qed.

(** C13: the cross-region action can be written and never read: an intent whose counts
    fit is written field by field in the order of the decoder, and no bytes at all, those
    or others, decode to an action.  A change is required, with a key of at least one
    byte, which is read with a limit of zero bytes. *)
Theorem CrossRegion_never_decodes now a i p p' :
  Intent a = Some i → fits i → CrossRegion_Marshal a p = (p', Ok tt) →
  wire p' = wire p ++ fields_intent i ∧ ∀ q, is_err (CrossRegion_Unmarshal now q).2 = true.
Proof.
  intros Hi Hf Hm. split; [by apply (Marshal_wire a i p p')|]. intros q. unfold CrossRegion_Unmarshal.
  pose proof (fails_intent now q) as Hq. destruct (unpack_intent now q) as [q' i']. simpl in *. by destruct (wp_Err q').
Qed.
End one_way.

(** * Instance and witness *)

(** A packer as the list of its fields and its first error. *)
Abbreviation FieldPacker := (list wfield * option goerr)%type.

Definition ErrFieldNotPopulated := Sentinel "codec" "ErrFieldNotPopulated".

Definition next_field {A} (zero : A) (read : wfield → option A) (p : FieldPacker) : FieldPacker * A :=
  match p with
  | (f :: l, None) =>
      match read f with
      | Some x => ((l, None), x)
      | None => ((l, Some ErrFieldNotPopulated), zero)
      end
  | ([], None) => (([], Some (Errorf "insufficient length")), zero)
  | (l, Some e) => ((l, Some e), zero)
  end.

Definition read_bytes (limit : Z) (required : bool) (f : wfield) : option slice :=
  match f with
  | WBytes s => if ((0 <=? limit) && (limit <? slen s)) || (required && (slen s =? 0)) then None else Some (of_bytes s)
  | _ => None
  end.
Definition read_int (required : bool) (f : wfield) : option Z :=
  match f with WInt x => if required && (u32 x =? 0) then None else Some (u32 x) | _ => None end.

#[local] Instance list_WirePacker : WirePacker FieldPacker := {
  wp_PackString s p := (p.1 ++ [WBytes s], p.2);
  wp_PackBytes s p := (p.1 ++ [WBytes s], p.2);
  wp_PackInt x p := (p.1 ++ [WInt (u32 x)], p.2);
  wp_PackInt64 x p := (p.1 ++ [WInt64 x], p.2);
  wp_UnpackString r := next_field "" (λ f, sbytes <$> read_bytes (-1) r f);
  wp_UnpackBytes n r := next_field None (read_bytes n r);
  wp_UnpackInt r := next_field 0 (read_int r);
  wp_UnpackInt64 r := next_field 0 (λ f, match f with WInt64 x => if r && (x =? 0) then None else Some x | _ => None end);
  wp_Err p := p.2;
}.

Lemma next_field_read {A} (zero : A) read (p : FieldPacker) :
  (next_field zero read p).1.2 = None → p.2 = None ∧ ∃ f, read f = Some (next_field zero read p).2.
Proof.
  destruct p as [[|f l] [e|]]; simpl; try done. destruct (read f) as [x|] eqn:E; [|done]. intros _. split; [done|]. by exists f.
Qed.

#[local] Instance list_WirePackerLaws : WirePackerLaws FieldPacker.
Proof.
  refine {| wire p := p.1 |}; try (intros s p H; by split).
  - intros x p Hx H. split; [done|]. simpl. unfold u32. by rewrite Z.mod_small.
  - intros n r p [Hp [f Hf]]%next_field_read. split; [done|]. change (wp_UnpackBytes n r p) with (next_field None (read_bytes n r) p).
    destruct f as [s|x|x]; try done. unfold read_bytes at 1 in Hf.
    destruct ((0 <=? n) && (n <? slen s)) eqn:E1; [done|]. destruct (r && (slen s =? 0)) eqn:E2; [done|]. injection Hf as <-.
    change (sbytes (of_bytes s)) with s. split.
    + intros Hn. rewrite (proj2 (Z.leb_le 0 n) Hn) in E1. simpl in E1. by apply Z.ltb_ge.
    + intros ->. simpl in E2. by apply Z.eqb_neq.
  - intros r p [Hp [f Hf]]%next_field_read. split; [done|]. change (wp_UnpackInt r p) with (next_field 0 (read_int r) p).
    destruct f as [s|x|x]; try done. unfold read_int at 1 in Hf. destruct (r && (u32 x =? 0)) eqn:E; [done|]. injection Hf as <-.
    split; [unfold u32; apply Z.mod_pos_bound; lia|]. intros ->. simpl in E. by apply Z.eqb_neq.
  - intros r p [Hp _]%next_field_read. done.
  - intros r p [Hp _]%next_field_read. done.
Defined.

#[local] Existing Instance canonical_MapRange.

Definition wire_intent : CrossRegionIntent :=
  mkIntent "intent-1" "eu" ["us"] (mkWindow zeroTime (5 * Minute)) IntentStatusPending zeroTime
           (Some {["eu" := "s1"; "us" := "s2"]}) (Some {["eu" := [out1]; "us" := [in1]]}) None "".

Lemma fits_small i :
  (length (in_TargetRegions i) ≤ 10)%nat → tw_Duration (in_TimeWindow i) = 5 * Minute →
  (size (gm (in_StateChanges i)) ≤ 10)%nat → (size (gm (in_Signatures i)) ≤ 10)%nat →
  (∀ r cs, gm (in_StateChanges i) !! r = Some cs →
     (length cs ≤ 10)%nat ∧ Forall (λ c, 0 ≤ ch_Operation c ≤ 5) cs) → fits i.
Proof.
  intros H1 H2 H3 H4 H5. unfold fits. rewrite H2. change (5 * Minute) with 300000000000.
  split_and!; try lia.
  - intros r cs Hr. destruct (H5 r cs Hr). lia.
  - intros r c (cs & Hr & Hc). destruct (H5 r cs Hr) as [_ HF]. rewrite Forall_forall in HF.
    specialize (HF c Hc). lia.
Qed.

Lemma two_regions_small (cs1 cs2 : list StateChange) r cs :
  ({["eu" := cs1; "us" := cs2]} : gmap string (list StateChange)) !! r = Some cs → cs = cs1 ∨ cs = cs2.
Proof. intros [[_ <-]|[_ [_ <-]%lookup_singleton_Some]]%lookup_insert_Some; auto. Qed.

Lemma wire_intent_fits : fits wire_intent.
Proof.
  apply fits_small; [simpl; lia|reflexivity|vm_compute; lia|vm_compute; lia|].
  intros r cs [-> | ->]%two_regions_small;
    (split; [simpl; lia|]); apply Forall_singleton; vm_compute; by split.
Qed.

(** A packer after an action was written to an empty one. *)
Definition written (i : CrossRegionIntent) : FieldPacker :=
  (CrossRegion_Marshal (mkCrossRegion (Some i)) ([], None)).1.

Lemma written_ok i :
  wp_Err (written i) = None →
  CrossRegion_Marshal (mkCrossRegion (Some i)) ([], None) = (written i, Ok tt).
Proof. unfold written, CrossRegion_Marshal. cbn [Intent fst]. by intros ->. Qed.

(** A transfer is written and not read back. *)
Lemma CrossRegion_never_decodes_witness :
  length (written wire_intent).1 ≠ 0%nat ∧ is_err (CrossRegion_Unmarshal zeroTime (written wire_intent)).2 = true.
Proof.
  destruct (CrossRegion_never_decodes zeroTime (mkCrossRegion (Some wire_intent)) wire_intent ([], None)
    (written wire_intent) eq_refl wire_intent_fits (written_ok wire_intent ltac:(vm_compute; reflexivity))) as [Hw Hd].
  split; [|apply Hd]. intros H. change (wire (written wire_intent)) with (written wire_intent).1 in Hw. rewrite Hw in H. discriminate H.
Defined.
