(* ===== verification/VMRegistry.v ===== *)
(** What the VM tells the chain about its types ([vm/vm.go], [consts/consts.go] and
    the small methods of the actions): the type ids, the parsers the package
    registers at start-up, the cost and validity of the actions, decoding from bytes,
    and the block callbacks of the VM.

    hypersdk's [codec.TypeParser] is the class [TypeParser]; a type is registered under
    the id its [GetTypeID] returns. *)

From S2P Require Import Prelude GoTime KV Core Storage Transfer Actions XRegion CrossRegion Database.
From Stdlib Require Import ZArith Lia Ascii String.
From stdpp Require Import base tactics option list strings pretty gmap.

Local Open Scope Z_scope.

(** * Type ids *)

Definition ContractVerificationID : Z := 1.
Definition ContractVerificationResultID : Z := 2.
Definition CreateObjectResultID : Z := 8.
Definition SetInputObjectResultID : Z := 9.
Definition SendEventResultID : Z := 10.
Definition CreateRegionResultID : Z := 11.
Definition UpdateRegionResultID : Z := 12.
Definition ExecutionResultID : Z := 13.
Definition AttestationReportID : Z := 14.
Definition UpdateValidEnclavesResultID : Z := 16.

(** The [iota] block, in order. *)
Definition type_ids : list Z :=
  [TransferID; ContractVerificationID; ContractVerificationResultID; CreateObjectID; SetInputObjectID; SendEventID;
   CreateRegionID; UpdateRegionID; CreateObjectResultID; SetInputObjectResultID; SendEventResultID; CreateRegionResultID;
   UpdateRegionResultID; ExecutionResultID; AttestationReportID; UpdateValidEnclavesID; UpdateValidEnclavesResultID;
   CrossRegionID; CrossRegionResultID].

(** [codec.Typed]. *)
Class Typed (A : Type) : Type := GetTypeID : A → Z.

#[export] Instance Transfer_Typed : Typed Transfer := Transfer_GetTypeID.
#[export] Instance CrossRegion_Typed : Typed CrossRegionAction := CrossRegion_GetTypeID.
#[export] Instance CrossRegionResult_Typed : Typed CrossRegionResult := CrossRegionResult_GetTypeID.
Definition CreateObject_GetTypeID (a : CreateObjectAction) : Z := CreateObjectID.
Definition SendEvent_GetTypeID (a : SendEventAction) : Z := SendEventID.
Definition SetInputObject_GetTypeID (a : SetInputObjectAction) : Z := SetInputObjectID.
Definition CreateRegion_GetTypeID (a : CreateRegionAction) : Z := CreateRegionID.
Definition UpdateRegion_GetTypeID (a : UpdateRegionAction) : Z := UpdateRegionID.
Definition UpdateValidEnclaves_GetTypeID (a : UpdateValidEnclavesAction) : Z := UpdateValidEnclavesID.
Definition CreateObjectResult_GetTypeID (r : CreateObjectResult) : Z := CreateObjectResultID.
Definition SendEventResult_GetTypeID (r : SendEventResult) : Z := SendEventResultID.
Definition SetInputObjectResult_GetTypeID (r : SetInputObjectResult) : Z := SetInputObjectResultID.
Definition UpdateValidEnclavesResult_GetTypeID (r : UpdateValidEnclavesResult) : Z := UpdateValidEnclavesResultID.
(** The result of a transfer has the id of the transfer. *)
Definition TransferResult_GetTypeID (r : TransferResult) : Z := TransferID.
(** The two results of the region actions have the same fields and are one record. *)
Definition CreateRegionResult_GetTypeID (r : RegionResult) : Z := CreateRegionResultID.
Definition UpdateRegionResult_GetTypeID (r : RegionResult) : Z := UpdateRegionResultID.

#[export] Instance CreateObject_Typed : Typed CreateObjectAction := CreateObject_GetTypeID.
#[export] Instance SendEvent_Typed : Typed SendEventAction := SendEvent_GetTypeID.
#[export] Instance SetInputObject_Typed : Typed SetInputObjectAction := SetInputObject_GetTypeID.
#[export] Instance CreateRegion_Typed : Typed CreateRegionAction := CreateRegion_GetTypeID.
#[export] Instance UpdateRegion_Typed : Typed UpdateRegionAction := UpdateRegion_GetTypeID.
#[export] Instance UpdateValidEnclaves_Typed : Typed UpdateValidEnclavesAction := UpdateValidEnclaves_GetTypeID.
#[export] Instance CreateObjectResult_Typed : Typed CreateObjectResult := CreateObjectResult_GetTypeID.
#[export] Instance SendEventResult_Typed : Typed SendEventResult := SendEventResult_GetTypeID.
#[export] Instance SetInputObjectResult_Typed : Typed SetInputObjectResult := SetInputObjectResult_GetTypeID.
#[export] Instance UpdateValidEnclavesResult_Typed : Typed UpdateValidEnclavesResult := UpdateValidEnclavesResult_GetTypeID.

(** The actions of the package. *)
Inductive Action : Type :=
  | ATransfer (a : Transfer)
  | ACreateObject (a : CreateObjectAction)
  | ASendEvent (a : SendEventAction)
  | ASetInputObject (a : SetInputObjectAction)
  | ACreateRegion (a : CreateRegionAction)
  | AUpdateRegion (a : UpdateRegionAction)
  | AUpdateValidEnclaves (a : UpdateValidEnclavesAction)
  | ACrossRegion (a : CrossRegionAction).

#[export] Instance Action_Typed : Typed Action := λ a,
  match a with
  | ATransfer a => GetTypeID a
  | ACreateObject a => GetTypeID a
  | ASendEvent a => GetTypeID a
  | ASetInputObject a => GetTypeID a
  | ACreateRegion a => GetTypeID a
  | AUpdateRegion a => GetTypeID a
  | AUpdateValidEnclaves a => GetTypeID a
  | ACrossRegion a => GetTypeID a
  end.

(** ** Cost and validity of the actions *)

Definition SetInputObject_ComputeUnits (a : SetInputObjectAction) : Z := 1.
Definition CreateRegion_ComputeUnits (a : CreateRegionAction) : Z := 1.
Definition UpdateRegion_ComputeUnits (a : UpdateRegionAction) : Z := 1.

(** No bounds. *)
Definition CreateObject_ValidRange (a : CreateObjectAction) : Z * Z := (-1, -1).
Definition SendEvent_ValidRange (a : SendEventAction) : Z * Z := (-1, -1).
Definition SetInputObject_ValidRange (a : SetInputObjectAction) : Z * Z := (-1, -1).
Definition CreateRegion_ValidRange (a : CreateRegionAction) : Z * Z := (-1, -1).
Definition UpdateRegion_ValidRange (a : UpdateRegionAction) : Z * Z := (-1, -1).

(** ** Decoding from bytes

    [NewReader] is [codec.NewReader(data, len(data))]. *)
Section decode.
Context {P : Type} `{!Packer P} (NewReader : string → P).

Definition UnmarshalCreateObject (data : string) : outcome CreateObjectAction := parsed (CreateObject_Unmarshal (NewReader data)).
Definition UnmarshalSendEvent (data : string) : outcome SendEventAction := parsed (SendEvent_Unmarshal (NewReader data)).
Definition UnmarshalSetInputObject (data : string) : outcome SetInputObjectAction :=
  parsed (SetInputObject_Unmarshal (NewReader data)).
End decode.

(** ** Helpers of the actions on the state manager they receive *)
Section helpers.
Context {W : Type} `{!VMState W, !Json act_EnclaveInfo}.

Definition getObjectState (ok : bool) (id regionID : string) : go W ObjectState :=
  assert_manager ok ;;
  obj ← vm_GetObject id regionID;
  match obj with
  | None => fail ErrObjectNotFound
  | Some o => mret o
  end.
Definition setObjectState (ok : bool) (now : Time) (id : string) (state : ObjectState) : go W unit :=
  assert_manager ok ;; vm_SetObject now id state.

Definition marshalEnclaveInfo (info : act_EnclaveInfo) : string := Marshal info.
Definition unmarshalEnclaveInfo (data : string) : outcome act_EnclaveInfo := Unmarshal data.
End helpers.

(** * The parsers *)

Class TypeParser (P : Type) : Type := {
  NewTypeParser : P;
  Register : Z → go P unit;
  registered : P → gset Z;
}.

(** A parser holds at most 256 types, each under its own id. *)
Class TypeParserLaws (P : Type) `{!TypeParser P} : Prop := {
  NewTypeParser_empty : registered NewTypeParser = ∅;
  Register_new : ∀ id p, id ∉ registered p → (size (registered p) < 256)%nat →
    ∃ p', Register id p = (p', Ok tt) ∧ registered p' = {[id]} ∪ registered p;
  Register_duplicate : ∀ id p, id ∈ registered p → ∃ e, Register id p = (p, Err e);
}.

(** The ids of hypersdk's three kinds of signature. *)
Class AuthIDs : Type := { ED25519ID : Z; SECP256R1ID : Z; BLSID : Z }.

(** The package variables. *)
Record Parsers (P : Type) : Type := mkParsers { ActionParser : P; AuthParser : P; OutputParser : P }.
Arguments mkParsers {_} _ _ _.
Arguments ActionParser {_} _.
Arguments AuthParser {_} _.
Arguments OutputParser {_} _.

Section init.
Context {P : Type} `{!TypeParser P, AI : !AuthIDs}.

Definition RegisterAction {A} `{!Typed A} (a : A) : go (Parsers P) unit :=
  zoom ActionParser (λ p s, mkParsers p (AuthParser s) (OutputParser s)) (Register (GetTypeID a)).
Definition RegisterOutput {A} `{!Typed A} (a : A) : go (Parsers P) unit :=
  zoom OutputParser (λ p s, mkParsers (ActionParser s) (AuthParser s) p) (Register (GetTypeID a)).
Definition RegisterAuth (id : Z) : go (Parsers P) unit :=
  zoom AuthParser (λ p s, mkParsers (ActionParser s) p (OutputParser s)) (Register id).

(** [errs.Add] of the results of calls, all of them made: the first error is kept. *)
Fixpoint errs_Add (calls : list (go (Parsers P) unit)) : go (Parsers P) (option goerr) :=
  match calls with
  | [] => mret None
  | call :: rest =>
      r ← try call;
      err ← errs_Add rest;
      mret (match r with inr e => Some e | inl _ => err end)
  end.

Definition zeroEnclave : act_EnclaveInfo := mkActEnclave "" zeroTime zeroTime "" "".

Definition vm_init : outcome (Parsers P) :=
  match errs_Add
    [RegisterAction (mkCreateObject "" "" "" "");
     RegisterAction (mkSendEvent "" "" "" (zeroAttestation, zeroAttestation) "");
     RegisterAction (mkSetInput "" "");
     RegisterAuth ED25519ID; RegisterAuth SECP256R1ID; RegisterAuth BLSID;
     RegisterOutput (mkCreateObjectResult "" "");
     RegisterOutput (mkSendEventResult false "" "" "" "" "");
     RegisterOutput (mkSetInputResult "" false "");
     RegisterAction (mkUpdateEnclaves "" zeroEnclave "");
     RegisterOutput (mkEnclavesResult "" "" false)]
    (mkParsers NewTypeParser NewTypeParser NewTypeParser) with
  | (ps, Ok None) => Ok ps
  | (_, Ok (Some _)) => Panic "errs.Err"
  | (_, Err e) => Err e
  | (_, Panic w) => Panic w
  | (_, Hang w) => Hang w
  end.
End init.

(** * The callbacks of the chain ([vm/vm.go]) *)

Section callbacks.
Context {D : Type} `{!Database D}.
(** [ids.ToID]. *)
Context (ToID : string → outcome string).

Definition EmptyID : string := string_of_list_ascii (replicate 32 Ascii.zero).

Definition BuildBlock : outcome string := Err (Errorf "not implemented: BuildBlock").
Definition GetBlock (id : string) : outcome string := Err (Errorf "not implemented: GetBlock").
Definition ParseBlock (bytes : string) : outcome string := Err (Errorf "not implemented: ParseBlock").
Definition LastAccepted : outcome string := Ok EmptyID.
Definition SetState (state : Z) : verdict := Ok tt.
Definition SetPreference (id : string) : verdict := Ok tt.
Definition StateSync : verdict := Ok tt.
Definition Connected (nodeID version : string) : verdict := Ok tt.
Definition Disconnected (nodeID : string) : verdict := Ok tt.
Definition AppRequest (nodeID : string) (requestID : Z) (deadline : Time) (request : string) : verdict := Ok tt.
Definition AppResponse (nodeID : string) (requestID : Z) (response : string) : verdict := Ok tt.
Definition AppRequestFailed (nodeID : string) (requestID : Z) (err : goerr) : verdict := Ok tt.
Definition AppGossip (nodeID msg : string) : verdict := Ok tt.
Definition Version : outcome string := Ok "0.0.1".
Definition HealthCheck : outcome (gmap string bool) := Ok {["healthy" := true]}.
Definition CreateStaticHandlers : outcome (gmap string unit) := Ok ∅.

Definition height_key (height : N) : string := "height-" +s+ pretty height.

Definition GetBlockIDAtHeight (ctx : option goerr) (height : N) (db : D) : outcome string :=
  match ctx with
  | Some e => Err e
  | None =>
      match db_Get (height_key height) db with
      | Ok blockIDBytes => ToID blockIDBytes
      | Err e => if bool_decide (e = ErrNotFound) then Err ErrNotFound else Err e
      | Panic w => Panic w
      | Hang w => Hang w
      end
  end.

(** [init] of [consts]: the name of the VM, padded. *)
Definition Name : string := "morpheusvm".
Definition padded_name : string := Name +s+ string_of_list_ascii (replicate (32 - String.length Name) Ascii.zero).
Definition consts_init : outcome string :=
  match ToID padded_name with Ok id => Ok id | Err e => Panic "init" | o => o end.
End callbacks.

(** * Properties *)

Lemma type_ids_distinct : NoDup type_ids.
Proof. by apply (bool_decide_unpack (NoDup type_ids)). Qed.

Lemma height_key_inj h h' : height_key h = height_key h' → h = h'.
Proof. unfold height_key. intros H. apply (app_inj_l_str "height-") in H. by apply (inj pretty) in H. Qed.

(** What the action stores of an enclave is read back, when JSON represents it. *)
Lemma unmarshal_marshalEnclaveInfo `{!Json act_EnclaveInfo, !JsonLaws act_EnclaveInfo} info :
  encodable info = true → unmarshalEnclaveInfo (marshalEnclaveInfo info) = Ok info.
Proof. apply Unmarshal_Marshal. Qed.

(** The id of the VM is its padded name, when the library accepts 32 bytes. *)
Lemma consts_init_ok (ToID : string → outcome string) :
  (∀ b, String.length b = 32%nat → ToID b = Ok b) → consts_init ToID = Ok padded_name.
Proof. intros H. unfold consts_init. by rewrite H. Qed.

Section registry.
Context {P : Type} `{!TypeParser P, !TypeParserLaws P, AI : !AuthIDs}.

Lemma size_list_to_set_le (l : list Z) : (size (list_to_set l : gset Z) ≤ length l)%nat.
Proof.
  induction l as [|x l IH]; [done|]. rewrite list_to_set_cons, size_union_alt, size_singleton. simpl.
  apply le_n_S. etrans; [|exact IH]. apply subseteq_size. set_solver.
Qed.

(** What the parsers hold, in the order it was registered last. *)
Definition holds (s : Parsers P) (act aut out : list Z) : Prop :=
  registered (ActionParser s) = list_to_set act ∧ registered (AuthParser s) = list_to_set aut ∧
  registered (OutputParser s) = list_to_set out.

Lemma Register_list id (p : P) l :
  registered p = list_to_set l → id ∉ l → (length l < 256)%nat →
  ∃ p', Register id p = (p', Ok tt) ∧ registered p' = list_to_set (id :: l).
Proof using Type*.
  intros Hp Hid Hl. destruct (Register_new id p) as (p' & E & Hp').
  - by rewrite Hp, elem_of_list_to_set.
  - rewrite Hp. pose proof (size_list_to_set_le l). lia.
  - exists p'. split; [done|]. by rewrite Hp', Hp.
Qed.

(** A call whose id is new to its parser registers it, and the rest is made. *)
Lemma errs_Add_action {A} `{!Typed A} (a : A) rest s act aut out :
  holds s act aut out → GetTypeID a ∉ act → (length act < 256)%nat →
  ∃ s', errs_Add (RegisterAction a :: rest) s = errs_Add rest s' ∧ holds s' (GetTypeID a :: act) aut out.
Proof using Type*.
  intros (Ha & Hu & Ho) Hid Hl. destruct (Register_list (GetTypeID a) _ _ Ha Hid Hl) as (p' & E & Hp').
  exists (mkParsers p' (AuthParser s) (OutputParser s)). split; [|split; [exact Hp'|done]]. cbn [errs_Add]. unfold mbind at 1, go_bind at 1, try, RegisterAction, zoom.
  rewrite E. unfold mbind, go_bind. simpl. by destruct (errs_Add rest _) as [? [[]| | |]].
Qed.
Lemma errs_Add_output {A} `{!Typed A} (a : A) rest s act aut out :
  holds s act aut out → GetTypeID a ∉ out → (length out < 256)%nat →
  ∃ s', errs_Add (RegisterOutput a :: rest) s = errs_Add rest s' ∧ holds s' act aut (GetTypeID a :: out).
Proof using Type*.
  intros (Ha & Hu & Ho) Hid Hl. destruct (Register_list (GetTypeID a) _ _ Ho Hid Hl) as (p' & E & Hp').
  exists (mkParsers (ActionParser s) (AuthParser s) p'). split; [|split; [done|split; [done|exact Hp']]]. cbn [errs_Add].
  unfold mbind at 1, go_bind at 1, try, RegisterOutput, zoom.
  rewrite E. unfold mbind, go_bind. simpl. by destruct (errs_Add rest _) as [? [[]| | |]].
Qed.
Lemma errs_Add_auth id rest s act aut out :
  holds s act aut out → id ∉ aut → (length aut < 256)%nat →
  ∃ s', errs_Add (RegisterAuth id :: rest) s = errs_Add rest s' ∧ holds s' act (id :: aut) out.
Proof using Type*.
  intros (Ha & Hu & Ho) Hid Hl. destruct (Register_list id _ _ Hu Hid Hl) as (p' & E & Hp').
  exists (mkParsers (ActionParser s) p' (OutputParser s)). split; [|split; [done|split; [exact Hp'|done]]]. cbn [errs_Add].
  unfold mbind at 1, go_bind at 1, try, RegisterAuth, zoom.
  rewrite E. unfold mbind, go_bind. simpl. by destruct (errs_Add rest _) as [? [[]| | |]].
Qed.

(** Makes the next registration of the goal. *)
Ltac register_next :=
  match goal with
  | H : holds ?s ?act ?aut ?out |- context [errs_Add (@RegisterAction _ _ _ _ ?a :: ?rest) ?s] =>
      destruct (errs_Add_action a rest s act aut out H) as (? & -> & ?); [by apply (bool_decide_unpack _)..|]; clear H
  | H : holds ?s ?act ?aut ?out |- context [errs_Add (@RegisterOutput _ _ _ _ ?a :: ?rest) ?s] =>
      destruct (errs_Add_output a rest s act aut out H) as (? & -> & ?); [by apply (bool_decide_unpack _)..|]; clear H
  | H : holds ?s ?act ?aut ?out |- context [errs_Add (RegisterAuth ?id :: ?rest) ?s] =>
      destruct (errs_Add_auth id rest s act aut out H) as (? & -> & ?);
        [first [assumption|by apply (bool_decide_unpack _)]|by apply (bool_decide_unpack _)|]; clear H
  end.

(** C35: the start-up of the package registers its parsers without panicking when the
    library's signature kinds have different ids, and an action can then be parsed
    exactly when it creates an object, sends an event, sets the input object or updates
    the enclaves: transfers, region actions and cross-region actions cannot. *)
Theorem vm_init_registers :
  NoDup [ED25519ID; SECP256R1ID; BLSID] →
  ∃ ps : Parsers P, vm_init = Ok ps ∧
    registered (AuthParser ps) = {[ED25519ID; SECP256R1ID; BLSID]} ∧
    registered (OutputParser ps) = {[CreateObjectResultID; SendEventResultID; SetInputObjectResultID; UpdateValidEnclavesResultID]} ∧
    ∀ a : Action, GetTypeID a ∈ registered (ActionParser ps) ↔
      match a with
      | ACreateObject _ | ASendEvent _ | ASetInputObject _ | AUpdateValidEnclaves _ => True
      | ATransfer _ | ACreateRegion _ | AUpdateRegion _ | ACrossRegion _ => False
      end.
Proof using Type*.
  intros Hnd. unfold vm_init.
  assert (holds (mkParsers NewTypeParser NewTypeParser NewTypeParser) [] [] []) as H0
    by (unfold holds; simpl; by rewrite NewTypeParser_empty).
  assert (SECP256R1ID ∉ [ED25519ID] ∧ BLSID ∉ [SECP256R1ID; ED25519ID]) as [Hu1 Hu2].
  { rewrite !NoDup_cons, !elem_of_cons, elem_of_nil in Hnd. rewrite !elem_of_cons, elem_of_nil. naive_solver. }
  repeat register_next. match goal with H : holds ?s _ _ _ |- _ => destruct H as (Ha & Hu & Ho); rename s into ps end.
  exists ps. split; [done|]. split; [rewrite Hu; set_solver|]. split; [rewrite Ho; set_solver|].
  intros a. rewrite Ha, elem_of_list_to_set. destruct a; split; try done; intros Hin;
    first [by apply (bool_decide_unpack _)|exfalso; revert Hin; by apply (bool_decide_unpack (_ ∉ _))].
Qed.
End registry.

(** * Witness *)

#[export] Instance set_TypeParser : TypeParser (gset Z) := {|
  NewTypeParser := ∅;
  Register id p :=
    if bool_decide (id ∈ p) then (p, Err (Errorf "duplicate item"))
    else if bool_decide (256 ≤ size p)%nat then (p, Err (Errorf "too many items"))
    else ({[id]} ∪ p, Ok tt);
  registered p := p;
|}.
#[export] Instance set_TypeParserLaws : TypeParserLaws (gset Z).
Proof.
  split; [done| |].
  - intros id p Hid Hsz. simpl. rewrite bool_decide_eq_false_2 by done. rewrite bool_decide_eq_false_2 by (simpl in Hsz; lia).
    eauto.
  - intros id p Hid. simpl. rewrite bool_decide_eq_true_2 by done. eauto.
Qed.
Definition sample_auth : AuthIDs := {| ED25519ID := 0; SECP256R1ID := 1; BLSID := 2 |}.

Lemma vm_init_registers_witness :
  ∃ ps : Parsers (gset Z), vm_init (AI := sample_auth) = Ok ps ∧
    TransferID ∉ registered (ActionParser ps) ∧ SendEventID ∈ registered (ActionParser ps).
Proof.
  destruct (vm_init_registers (P := gset Z) (AI := sample_auth)) as (ps & E & _ & _ & H).
  - by apply (bool_decide_unpack (NoDup [0; 1; 2])).
  - exists ps. split; [exact E|]. split.
    + intros Hin. by apply (H (ATransfer (mkTransfer "" 1 ""))).
    + by apply (H (ASendEvent (mkSendEvent "" "" "" (zeroAttestation, zeroAttestation) ""))).
Defined.
