(* ===== verification/RegionConfig.v ===== *)
(** Package [regions], the data: pair metrics and states ([regions/types.go]),
    region and pair configurations with their validators ([regions/config.go]),
    health records ([regions/health.go]).

    The metrics of a pair are followed over a history of tasks: the counters are
    exact, the rates are those of the last failure and the last success only, and
    the status is decided by them. *)

From S2P Require Import Prelude GoTime Float64 Core.
From Stdlib Require Import ZArith Lia Ascii String.
From stdpp Require Import base tactics option list strings pretty gmap.

Local Open Scope Z_scope.

(** [fmt]'s [%v] of a [float64] and of a [time.Duration], which only the texts of
    error messages use. *)
Class FmtV : Type := {
  fmt_float : float64 → string;
  fmt_duration : Z → string;
}.

Definition Hour : Z := 60 * Minute.

#[export] Instance float64_eq_dec : EqDecision float64.
Proof. unfold float64. solve_decision. Defined.

(** * Data *)

Record TEEPairState : Type := mkTPS {
  ps_Status : string;
  ps_LastHealthy : Time;
  ps_ActiveTasks : Z;
  ps_ErrorCount : Z;
  ps_LoadFactor : float64;
  ps_SuccessRate : float64;
  ps_AverageLatency : Z;
}.

Record TEEPairMetrics : Type := mkTPM {
  pm_SuccessRate : float64;
  pm_AverageLatency : Z;
  pm_ErrorRate : float64;
  pm_TasksProcessed : Z;
  pm_LastHealthy : Time;
  pm_LoadFactor : float64;
  pm_ExecutionTime : Z;
  pm_PairID : string;
  pm_SGXEndpoint : string;
  pm_SEVEndpoint : string;
  pm_LastHealthCheck : Time;
  pm_ConsecutiveErrors : Z;
  pm_Status : string;
  pm_CPUUsage : float64;
  pm_MemoryUsage : float64;
  pm_NetworkLatency : float64;
  pm_LastAttestation : Time;
  pm_AttestationFailures : Z;
  pm_PendingTasks : Z;
  pm_FailedTasks : Z;
  pm_AverageTaskTime : Z;
}.

#[export] Instance TEEPairState_eq_dec : EqDecision TEEPairState.
Proof. solve_decision. Defined.
#[export] Instance TEEPairMetrics_eq_dec : EqDecision TEEPairMetrics.
Proof. solve_decision. Defined.

(** [TEEPairState{}] and [TEEPairMetrics{}]. *)
Definition zeroTPS : TEEPairState := mkTPS "" zeroTime 0 0 f_zero f_zero 0.
Definition zeroTPM : TEEPairMetrics :=
  mkTPM f_zero 0 f_zero 0 zeroTime f_zero 0 "" "" "" zeroTime 0 "" f_zero f_zero f_zero zeroTime 0 0 0 0.

Record Thresholds : Type := mkThresholds {
  th_MinSuccessRate : float64;
  th_MaxErrorRate : float64;
  th_MaxLatency : Z;
  th_MaxLoadFactor : float64;
}.
Record HealthCheck : Type := mkHealthCheck {
  hk_Interval : Z;
  hk_MaxFailures : Z;
  hk_MinHealthy : Z;
}.
Record ResourceLimits : Type := mkResourceLimits {
  rl_MaxCPUUsage : float64;
  rl_MaxMemoryUsage : float64;
  rl_MaxTaskQueue : Z;
}.
Record AttestationSettings : Type := mkAttestationSettings {
  as_RequireRenewal : bool;
  as_RenewalPeriod : Z;
  as_MaxAge : Z;
}.

Record TEEPairConfig : Type := mkTEEPairConfig {
  pc_ID : string;
  pc_SGXEndpoint : string;
  pc_SEVEndpoint : string;
  pc_Capacity : Z;
  pc_Priority : Z;
  pc_Thresholds : Thresholds;
  pc_HealthCheck : HealthCheck;
  pc_ResourceLimits : ResourceLimits;
  pc_Attestation : AttestationSettings;
}.

Record GeoLocation : Type := mkGeo {
  Latitude : float64;
  Longitude : float64;
  DataCenter : string;
  Country : string;
  GeoRegion : string;
}.

Record LoadBalancerConfig : Type := mkLB {
  lb_MaxLoadFactor : float64;
  lb_MaxLatencyMs : float64;
  lb_MaxErrorRate : float64;
  lb_MinActiveWorkers : Z;
  lb_MaxPendingTasks : Z;
  lb_HealthCheckWindow : Z;
  lb_GeoPreference : bool;
  lb_MaxDistance : float64;
}.

Record TEEPair : Type := mkTEEPair {
  tp_ID : string;
  tp_SGXID : string;
  tp_SEVID : string;
  tp_SGXEndpoint : string;
  tp_SEVEndpoint : string;
  tp_Status : string;
}.

Record RegionConfig : Type := mkRegionConfig {
  rc_ID : string;
  rc_TEEPairs : list TEEPair;
  rc_MaxObjects : Z;
  rc_MaxEvents : Z;
  rc_LoadBalancer : LoadBalancerConfig;
  rc_Location : GeoLocation;
}.

Record HealthStatus : Type := mkHealth {
  hs_Status : string;
  hs_LastCheck : Time;
  hs_ErrorCount : Z;
  hs_SuccessRate : float64;
  hs_LoadFactor : float64;
  hs_AverageLatency : Z;
}.

#[export] Instance TEEPair_eq_dec : EqDecision TEEPair.
Proof. solve_decision. Defined.
#[export] Instance GeoLocation_eq_dec : EqDecision GeoLocation.
Proof. solve_decision. Defined.
#[export] Instance LoadBalancerConfig_eq_dec : EqDecision LoadBalancerConfig.
Proof. solve_decision. Defined.
#[export] Instance RegionConfig_eq_dec : EqDecision RegionConfig.
Proof. solve_decision. Defined.

Definition TEEPairStatusActive : string := "active".
Definition TEEPairStatusDegraded : string := "degraded".
Definition TEEPairStatusFailed : string := "failed".

Definition ErrInvalidConfig := Sentinel "regions" "ErrInvalidConfig".
Definition ErrInvalidTEEPair := Sentinel "regions" "ErrInvalidTEEPair".
Definition ErrDuplicateTEEPair := Sentinel "regions" "ErrDuplicateTEEPair".
Definition ErrIDRequired := Sentinel "regions" "ErrIDRequired".
Definition ErrInvalidLimits := Sentinel "regions" "ErrInvalidLimits".
Definition ErrConfigNotFound := Sentinel "regions" "ErrConfigNotFound".
Definition ErrInvalidLocation := Sentinel "regions" "ErrInvalidLocation".
Definition ErrInvalidDistance := Sentinel "regions" "ErrInvalidDistance".

(** * Pair metrics *)

Definition TPS_Clone (s : TEEPairState) : TEEPairState :=
  mkTPS (ps_Status s) (ps_LastHealthy s) (ps_ActiveTasks s) (ps_ErrorCount s)
    (ps_LoadFactor s) (ps_SuccessRate s) (ps_AverageLatency s).

(** The literal of [Clone] has no [ExecutionTime]. *)
Definition TPM_Clone (m : TEEPairMetrics) : TEEPairMetrics :=
  mkTPM (pm_SuccessRate m) (pm_AverageLatency m) (pm_ErrorRate m) (pm_TasksProcessed m)
    (pm_LastHealthy m) (pm_LoadFactor m) 0 (pm_PairID m) (pm_SGXEndpoint m) (pm_SEVEndpoint m)
    (pm_LastHealthCheck m) (pm_ConsecutiveErrors m) (pm_Status m) (pm_CPUUsage m)
    (pm_MemoryUsage m) (pm_NetworkLatency m) (pm_LastAttestation m) (pm_AttestationFailures m)
    (pm_PendingTasks m) (pm_FailedTasks m) (pm_AverageTaskTime m).

Definition TPM_IsHealthy (config : TEEPairConfig) (m : TEEPairMetrics) : bool :=
  bool_decide (pm_Status m = TEEPairStatusActive) &&
  f_le (th_MinSuccessRate (pc_Thresholds config)) (pm_SuccessRate m) &&
  f_le (pm_ErrorRate m) (th_MaxErrorRate (pc_Thresholds config)) &&
  (pm_AverageLatency m <=? th_MaxLatency (pc_Thresholds config)) &&
  (pm_ConsecutiveErrors m =? 0).

(** The status the metrics call for. *)
Definition status_of (consecutive : Z) (errorRate successRate : float64) : string :=
  if 3 <=? consecutive then TEEPairStatusFailed
  else if f_lt (f_lit 1 1) errorRate || f_lt successRate (f_lit 9 1) then TEEPairStatusDegraded
  else TEEPairStatusActive.

Definition updateStatus (m : TEEPairMetrics) : TEEPairMetrics :=
  mkTPM (pm_SuccessRate m) (pm_AverageLatency m) (pm_ErrorRate m) (pm_TasksProcessed m)
    (pm_LastHealthy m) (pm_LoadFactor m) (pm_ExecutionTime m) (pm_PairID m) (pm_SGXEndpoint m)
    (pm_SEVEndpoint m) (pm_LastHealthCheck m) (pm_ConsecutiveErrors m)
    (status_of (pm_ConsecutiveErrors m) (pm_ErrorRate m) (pm_SuccessRate m))
    (pm_CPUUsage m) (pm_MemoryUsage m) (pm_NetworkLatency m) (pm_LastAttestation m)
    (pm_AttestationFailures m) (pm_PendingTasks m) (pm_FailedTasks m) (pm_AverageTaskTime m).

(** [float64(a) / float64(b)] of two [uint64]s. *)
Definition rate (a b : Z) : float64 := f_div (f_of_Z a) (f_of_Z b).

(** The counters are [uint64]s and wrap; [(avg + d) / 2] is on [int64]s and
    truncates toward zero. *)
Definition TPM_UpdateMetrics (now : Time) (success : bool) (duration : Z) (m : TEEPairMetrics) :
    TEEPairMetrics :=
  let processed := u64_add (pm_TasksProcessed m) 1 in
  let failed := if success then pm_FailedTasks m else u64_add (pm_FailedTasks m) 1 in
  let avg := if pm_AverageTaskTime m =? 0 then duration
             else Z.quot (int64 (pm_AverageTaskTime m + duration)) 2 in
  updateStatus
    (mkTPM (if success then rate (u64_sub processed failed) processed else pm_SuccessRate m)
       (pm_AverageLatency m)
       (if success then pm_ErrorRate m else rate failed processed)
       processed
       (if success then now else pm_LastHealthy m)
       (pm_LoadFactor m) (pm_ExecutionTime m) (pm_PairID m) (pm_SGXEndpoint m) (pm_SEVEndpoint m)
       (pm_LastHealthCheck m)
       (if success then 0 else u64_add (pm_ConsecutiveErrors m) 1)
       (pm_Status m) (pm_CPUUsage m) (pm_MemoryUsage m) (pm_NetworkLatency m)
       (pm_LastAttestation m) (pm_AttestationFailures m) (pm_PendingTasks m) failed avg).

Definition ResetMetrics (m : TEEPairMetrics) : TEEPairMetrics :=
  mkTPM f_one (pm_AverageLatency m) f_zero 0
    (pm_LastHealthy m) (pm_LoadFactor m) (pm_ExecutionTime m) (pm_PairID m) (pm_SGXEndpoint m)
    (pm_SEVEndpoint m) (pm_LastHealthCheck m) 0 TEEPairStatusActive (pm_CPUUsage m)
    (pm_MemoryUsage m) (pm_NetworkLatency m) (pm_LastAttestation m) (pm_AttestationFailures m)
    0 0 0.

(** * Pair configurations *)

Definition NewTEEPairConfig (id sgxEndpoint sevEndpoint : string) : TEEPairConfig :=
  mkTEEPairConfig id sgxEndpoint sevEndpoint 100 1
    (mkThresholds (f_lit 95 2) (f_lit 5 2) (5 * Second) (f_lit 8 1))
    (mkHealthCheck (30 * Second) 3 1)
    (mkResourceLimits (f_lit 8 1) (f_lit 8 1) 1000)
    (mkAttestationSettings true (1 * Hour) (24 * Hour)).

(** The literal leaves [ResourceLimits] and [Attestation] zero. *)
Definition DefaultTEEPairConfig : TEEPairConfig :=
  mkTEEPairConfig "default" "localhost:50051" "localhost:50052" 100 1
    (mkThresholds (f_lit 95 2) (f_lit 5 2) (5 * Second) (f_lit 8 1))
    (mkHealthCheck (30 * Second) 3 1)
    (mkResourceLimits f_zero f_zero 0)
    (mkAttestationSettings false 0 0).

Section validators.
Context `{!FmtV}.

Definition TEEPairConfig_Validate (c : TEEPairConfig) : verdict :=
  let th := pc_Thresholds c in
  let rl := pc_ResourceLimits c in
  let at_ := pc_Attestation c in
  check (bool_decide (pc_ID c = "")) (Errorf "ID is required") ;;
  check (bool_decide (pc_SGXEndpoint c = "")) (Errorf "SGX endpoint is required") ;;
  check (bool_decide (pc_SEVEndpoint c = "")) (Errorf "SEV endpoint is required") ;;
  check (pc_Capacity c <=? 0) (Errorf "capacity must be greater than 0") ;;
  check (f_le (th_MinSuccessRate th) f_zero || f_lt f_one (th_MinSuccessRate th))
    (Errorf ("invalid min success rate: " +s+ fmt_float (th_MinSuccessRate th))) ;;
  check (f_lt (th_MaxErrorRate th) f_zero || f_le f_one (th_MaxErrorRate th))
    (Errorf ("invalid max error rate: " +s+ fmt_float (th_MaxErrorRate th))) ;;
  check (th_MaxLatency th <=? 0)
    (Errorf ("invalid max latency: " +s+ fmt_duration (th_MaxLatency th))) ;;
  check (hk_Interval (pc_HealthCheck c) <=? 0)
    (Errorf ("invalid health check interval: " +s+ fmt_duration (hk_Interval (pc_HealthCheck c)))) ;;
  check (f_le (rl_MaxCPUUsage rl) f_zero || f_lt f_one (rl_MaxCPUUsage rl))
    (Errorf ("invalid max CPU usage: " +s+ fmt_float (rl_MaxCPUUsage rl))) ;;
  check (f_le (rl_MaxMemoryUsage rl) f_zero || f_lt f_one (rl_MaxMemoryUsage rl))
    (Errorf ("invalid max memory usage: " +s+ fmt_float (rl_MaxMemoryUsage rl))) ;;
  if as_RequireRenewal at_ then
    check (as_RenewalPeriod at_ <=? 0)
      (Errorf ("invalid renewal period: " +s+ fmt_duration (as_RenewalPeriod at_))) ;;
    check (as_MaxAge at_ <=? as_RenewalPeriod at_)
      (Errorf "max age must be greater than renewal period")
  else Ok tt.
End validators.

Definition IsAtCapacity (c : TEEPairConfig) (currentTasks : Z) : bool :=
  pc_Capacity c <=? currentTasks.

(** [int] subtraction wraps. *)
Definition GetEffectivePriority (c : TEEPairConfig) (loadFactor : float64) : Z :=
  if f_lt (th_MaxLoadFactor (pc_Thresholds c)) loadFactor then int64 (pc_Priority c - 1)
  else pc_Priority c.

(** * Region configurations *)

Definition validateLocation (c : RegionConfig) : verdict :=
  let loc := rc_Location c in
  check (f_lt (Latitude loc) (f_of_Z (-90)) || f_lt (f_of_Z 90) (Latitude loc))
    (Wrapf "invalid latitude" ErrInvalidLocation) ;;
  check (f_lt (Longitude loc) (f_of_Z (-180)) || f_lt (f_of_Z 180) (Longitude loc))
    (Wrapf "invalid longitude" ErrInvalidLocation) ;;
  check (bool_decide (DataCenter loc = "")) (Wrapf "missing datacenter" ErrInvalidLocation) ;;
  check (bool_decide (GeoRegion loc = "")) (Wrapf "missing region name" ErrInvalidLocation).

Definition validateLoadBalancerConfig (c : RegionConfig) : verdict :=
  let lb := rc_LoadBalancer c in
  check (f_le (lb_MaxLoadFactor lb) f_zero || f_lt f_one (lb_MaxLoadFactor lb))
    (Wrapf "invalid load factor" ErrInvalidConfig) ;;
  check (f_le (lb_MaxLatencyMs lb) f_zero) (Wrapf "invalid max latency" ErrInvalidConfig) ;;
  check (f_lt (lb_MaxErrorRate lb) f_zero || f_lt f_one (lb_MaxErrorRate lb))
    (Wrapf "invalid error rate" ErrInvalidConfig) ;;
  check (lb_MinActiveWorkers lb <? 1) (Wrapf "invalid min workers" ErrInvalidConfig) ;;
  check (lb_MaxPendingTasks lb <? 1) (Wrapf "invalid max pending tasks" ErrInvalidConfig) ;;
  check (lb_HealthCheckWindow lb <=? 0) (Wrapf "invalid health check window" ErrInvalidConfig) ;;
  check (lb_GeoPreference lb && f_le (lb_MaxDistance lb) f_zero)
    (Wrapf "invalid max distance" ErrInvalidDistance).

(** [fmt.Sprintf("%x:%x", pair.SGXID, pair.SEVID)]. *)
Definition pair_key (p : TEEPair) : string := hex (tp_SGXID p) +s+ ":" +s+ hex (tp_SEVID p).

(** The loop over the pairs from index [i], with the keys seen so far. *)
Fixpoint validate_pairs (i : nat) (seen : gset string) (pairs : list TEEPair) : verdict :=
  match pairs with
  | [] => Ok tt
  | p :: rest =>
      check (slen (tp_SGXID p) =? 0)
        (Wrapf ("missing SGX ID in pair " +s+ pretty i) ErrInvalidTEEPair) ;;
      check (slen (tp_SEVID p) =? 0)
        (Wrapf ("missing SEV ID in pair " +s+ pretty i) ErrInvalidTEEPair) ;;
      check (bool_decide (pair_key p ∈ seen))
        (Wrapf ("pair " +s+ pretty i) ErrDuplicateTEEPair) ;;
      validate_pairs (S i) ({[pair_key p]} ∪ seen) rest
  end.

(** What follows the first [return nil] of the source is never reached. *)
Definition RegionConfig_Validate (c : RegionConfig) : verdict :=
  check (bool_decide (rc_ID c = "")) ErrIDRequired ;;
  check (bool_decide (rc_TEEPairs c = []))
    (Wrapf "at least one TEE pair required" ErrInvalidConfig) ;;
  validate_pairs 0 ∅ (rc_TEEPairs c) ;;
  check ((rc_MaxObjects c <=? 0) || (rc_MaxEvents c <=? 0)) ErrInvalidLimits ;;
  validateLoadBalancerConfig c ;;
  validateLocation c.

(** * Theorems: metrics over a history of tasks *)

(** A task that ended: when, whether it succeeded, how long it took. *)
Record TaskResult : Type := mkTask { tk_now : Time; tk_ok : bool; tk_duration : Z }.

(** The metrics after a history, latest task first, from a reset. *)
Definition run_tasks (m0 : TEEPairMetrics) (h : list TaskResult) : TEEPairMetrics :=
  foldr (λ t m, TPM_UpdateMetrics (tk_now t) (tk_ok t) (tk_duration t) m) (ResetMetrics m0) h.

(** What the history says: the failures, the failures since the last success,
    the share of failures when the last failure ended, the share of successes
    when the last success ended. *)
Fixpoint failures (h : list TaskResult) : Z :=
  match h with [] => 0 | t :: h' => (if tk_ok t then 0 else 1) + failures h' end.
Fixpoint trailing_failures (h : list TaskResult) : Z :=
  match h with [] => 0 | t :: h' => if tk_ok t then 0 else 1 + trailing_failures h' end.
Fixpoint error_rate (h : list TaskResult) : float64 :=
  match h with
  | [] => f_zero
  | t :: h' => if tk_ok t then error_rate h' else rate (failures h) (Z.of_nat (length h))
  end.
Fixpoint success_rate (h : list TaskResult) : float64 :=
  match h with
  | [] => f_one
  | t :: h' => if tk_ok t then rate (Z.of_nat (length h) - failures h) (Z.of_nat (length h))
               else success_rate h'
  end.

Lemma failures_bound h : 0 ≤ trailing_failures h ≤ failures h ∧ failures h ≤ Z.of_nat (length h).
Proof. induction h as [|[? [] ?] h IH]; simpl in *; lia. Qed.

Lemma u64_in x : 0 ≤ x < 2 ^ 64 → u64 x = x.
Proof. apply Z.mod_small. Qed.

(** The counters and rates of the metrics are those of the history, as long as
    the 64-bit counter does not wrap. *)
Lemma run_tasks_counters m0 h :
  Z.of_nat (length h) < 2 ^ 64 →
  let m := run_tasks m0 h in
  pm_TasksProcessed m = Z.of_nat (length h) ∧
  pm_FailedTasks m = failures h ∧
  pm_ConsecutiveErrors m = trailing_failures h ∧
  pm_ErrorRate m = error_rate h ∧
  pm_SuccessRate m = success_rate h.
Proof.
  intros Hlen. induction h as [|t h IH]; [done|]. cbn [length] in *.
  destruct IH as (HT & HF & HC & HE & HS); [lia|]. pose proof (failures_bound h) as Hb.
  cbn [run_tasks foldr]. fold (run_tasks m0 h).
  unfold TPM_UpdateMetrics, updateStatus, u64_add, u64_sub. simpl.
  rewrite HT, HF, HC, HE, HS. destruct (tk_ok t); simpl; rewrite ?Z.add_0_l.
  - rewrite (u64_in (Z.of_nat (length h) + 1)) by lia. rewrite u64_in by lia.
    replace (Z.of_nat (length h) + 1) with (Z.of_nat (S (length h))) by lia.
    split_and!; try done; lia.
  - rewrite !u64_in by lia.
    replace (Z.of_nat (length h) + 1) with (Z.of_nat (S (length h))) by lia.
    replace (failures h + 1) with (1 + failures h) by lia.
    split_and!; try done; lia.
Qed.

Lemma run_tasks_status m0 t h :
  let m := run_tasks m0 (t :: h) in
  pm_Status m = status_of (pm_ConsecutiveErrors m) (pm_ErrorRate m) (pm_SuccessRate m).
Proof. done. Qed.

(** The metrics of a pair, followed over any history of fewer than 2^64 tasks
    from a reset: the task and failure counters are exact, [ConsecutiveErrors]
    counts the failures since the last success, the error rate is that of the
    last failure and the success rate that of the last success, and after at
    least one task the status is failed exactly after three failures in a row. *)
Theorem UpdateMetrics_history m0 h :
  Z.of_nat (length h) < 2 ^ 64 →
  let m := run_tasks m0 h in
  pm_TasksProcessed m = Z.of_nat (length h) ∧
  pm_FailedTasks m = failures h ∧
  pm_ConsecutiveErrors m = trailing_failures h ∧
  pm_ErrorRate m = error_rate h ∧
  pm_SuccessRate m = success_rate h ∧
  (pm_Status m = TEEPairStatusFailed ↔ 3 ≤ trailing_failures h) ∧
  (pm_Status m = TEEPairStatusActive ↔
     trailing_failures h < 3 ∧ f_lt (f_lit 1 1) (error_rate h) = false ∧
     f_lt (success_rate h) (f_lit 9 1) = false).
Proof.
  intros Hlen m. destruct (run_tasks_counters m0 h Hlen) as (HT & HF & HC & HE & HS).
  fold m in HT, HF, HC, HE, HS. split_and!; [done..| |].
  all: destruct h as [|t h']; [by split; [|vm_compute; naive_solver]|].
  all: unfold m; rewrite run_tasks_status; fold m; rewrite HC, HE, HS; unfold status_of.
  all: destruct (Z.leb_spec 3 (trailing_failures (t :: h'))); [split; [done|by intros; lia || done]|].
  all: destruct (f_lt (f_lit 1 1) _), (f_lt _ (f_lit 9 1)); simpl; naive_solver lia.
Qed.

Definition sample_tasks : list TaskResult :=
  [mkTask zeroTime true 30; mkTask zeroTime false 10; mkTask zeroTime true 20].

Lemma UpdateMetrics_history_witness :
  pm_FailedTasks (run_tasks zeroTPM sample_tasks) = 1.
Proof. apply (UpdateMetrics_history zeroTPM sample_tasks). vm_compute. reflexivity. Defined.

(** A success does not lower the error rate, so a pair whose very first task
    failed is never active again: after any number of successes its error rate
    is still 1 and its status degraded. *)
Theorem first_failure_degrades_for_good m0 failed (n : nat) successes :
  tk_ok failed = false → Forall (λ t, tk_ok t = true) successes →
  length successes = n → Z.of_nat n + 1 < 2 ^ 64 →
  let m := run_tasks m0 (successes ++ [failed]) in
  pm_ErrorRate m = f_one ∧ pm_Status m = TEEPairStatusDegraded.
Proof.
  intros Hf Hs Hn Hlt.
  assert (error_rate (successes ++ [failed]) = f_one ∧
          trailing_failures (successes ++ [failed]) ≤ 1) as [HE HT].
  { clear Hn. induction Hs as [|t l Ht _ IH]; simpl; [rewrite Hf|rewrite Ht; split; [apply IH|lia]].
    split; [by vm_compute|lia]. }
  destruct (run_tasks_counters m0 (successes ++ [failed])) as (_ & _ & HC & HE' & _).
  { rewrite length_app, Hn. simpl. lia. }
  split; [by rewrite HE'|].
  assert (∃ t h, successes ++ [failed] = t :: h) as (t & h & E) by (destruct successes; simpl; eauto).
  rewrite E in *. rewrite run_tasks_status, HC, HE', HE. unfold status_of.
  destruct (Z.leb_spec 3 (trailing_failures (t :: h))); [lia|].
  replace (f_lt (f_lit 1 1) f_one) with true by by vm_compute. done.
Qed.

Lemma first_failure_degrades_for_good_witness :
  pm_Status (run_tasks zeroTPM (replicate 5 (mkTask zeroTime true 1) ++ [mkTask zeroTime false 1])) =
  TEEPairStatusDegraded.
Proof.
  apply (first_failure_degrades_for_good zeroTPM (mkTask zeroTime false 1) 5);
    [done|by repeat constructor|done|vm_compute; reflexivity].
Defined.

(** A clone is the same state; a clone of metrics has lost the execution time. *)
Lemma TPS_Clone_same s : TPS_Clone s = s.
Proof. by destruct s. Qed.

Lemma TPM_Clone_same m : TPM_Clone m = m ↔ pm_ExecutionTime m = 0.
Proof. destruct m. unfold TPM_Clone. simpl. split; [by intros [= ->]|by intros ->]. Qed.

(** * Theorems: configurations *)

Lemma hex_digit_colon n : (n < 16)%N → hex_digit n ≠ ":"%char.
Proof.
  intros H. assert (∃ k : nat, n = N.of_nat k ∧ (k < 16)%nat) as (k & -> & Hk).
  { exists (N.to_nat n). lia. }
  do 16 (destruct k as [|k]; [done|]). lia.
Qed.

Lemma hex_no_colon s : contains ":" (hex s) = false.
Proof.
  induction s as [|a s IH]; [done|]. cbn [hex contains]. pose proof (N_ascii_bounded a).
  rewrite !bool_decide_eq_false_2, IH; [done|apply hex_digit_colon..].
  - by apply N.mod_lt.
  - apply N.Div0.div_lt_upper_bound. lia.
Qed.

(** Two pairs have the same key exactly when they have the same enclaves. *)
Lemma pair_key_inj p q :
  pair_key p = pair_key q ↔ (tp_SGXID p, tp_SEVID p) = (tp_SGXID q, tp_SEVID q).
Proof.
  unfold pair_key. split; [|by intros [= -> ->]]. intros H.
  apply (sep_inj ":"%char) in H as [->%hex_inj ->%hex_inj]; auto using hex_no_colon.
Qed.

Definition enclaves (p : TEEPair) : string * string := (tp_SGXID p, tp_SEVID p).

(** A pair with both enclaves. *)
Definition complete_pair (p : TEEPair) : Prop := tp_SGXID p ≠ "" ∧ tp_SEVID p ≠ "".

Lemma slen_zero s : (slen s =? 0) = false ↔ s ≠ "".
Proof. unfold slen. rewrite Z.eqb_neq. by destruct s. Qed.

Lemma validate_pairs_spec i seen pairs :
  validate_pairs i seen pairs = Ok tt ↔
  Forall complete_pair pairs ∧ NoDup (pair_key <$> pairs) ∧
  Forall (λ p, pair_key p ∉ seen) pairs.
Proof.
  revert i seen. induction pairs as [|p pairs IH]; intros i seen; cbn [validate_pairs fmap list_fmap].
  { split; [|done]. by repeat constructor. }
  rewrite !check_ok, IH, !slen_zero, bool_decide_eq_false, !Forall_cons, NoDup_cons.
  unfold complete_pair at 2. split.
  - intros (? & ? & Hseen & Hall & Hnd & Hfresh).
    split_and!; try done.
    + intros (q & E & Hq)%list_elem_of_fmap. eapply Forall_forall in Hfresh; [|exact Hq].
      set_solver.
    + eapply Forall_impl; [exact Hfresh|]. set_solver.
  - intros (([? ?] & Hall) & (Hnin & Hnd) & Hseen & Hfresh). split_and!; try done.
    apply Forall_forall. intros q Hq. eapply Forall_forall in Hfresh; [|exact Hq].
    intros [E%elem_of_singleton|?]%elem_of_union; [|done]. apply Hnin. rewrite <-E.
    by apply list_elem_of_fmap_2.
Qed.

Lemma NoDup_pair_key pairs : NoDup (pair_key <$> pairs) ↔ NoDup (enclaves <$> pairs).
Proof.
  induction pairs as [|p pairs IH]; cbn; [split; constructor|].
  rewrite !NoDup_cons, IH, !list_elem_of_fmap. setoid_rewrite pair_key_inj. done.
Qed.

(** A float test of the validators refuses a number outside the interval and lets
    a NaN through. *)
Definition nan_or (x : float64) (P : Prop) : Prop := f_is_nan x = true ∨ P.

Lemma outside_spec a b c x :
  f_is_nan a = false → f_is_nan b = false →
  orb (if c : bool then f_le x a else f_lt x a) (f_lt b x) = false ↔
  nan_or x ((if c then f_lt a x else f_le a x) = true ∧ f_le x b = true).
Proof.
  intros Ha Hb. unfold nan_or. rewrite orb_false_iff.
  destruct (f_is_nan x) eqn:Hx.
  - split; [by left|]. intros _. destruct x; try done. by destruct c, b.
  - split; intros H; [right|destruct H as [|H]; [done|]].
    + destruct H as [H1 H2]. split; [|by apply f_not_lt_le].
      destruct c; [|by apply f_not_lt_le].
      destruct (f_lt a x) eqn:E; [done|]. by rewrite (f_not_lt_le a x) in H1.
    + destruct H as [H1 H2]. split.
      * destruct c; [destruct (f_le x a) eqn:E|destruct (f_lt x a) eqn:E]; try done.
        -- pose proof (f_lt_le_trans _ _ _ H1 E) as H. by rewrite f_lt_irrefl in H.
        -- pose proof (f_lt_le_trans _ _ _ E H1) as H. by rewrite f_lt_irrefl in H.
      * destruct (f_lt b x) eqn:E; [|done].
        pose proof (f_lt_le_trans _ _ _ E H2) as H. by rewrite f_lt_irrefl in H.
Qed.

Lemma below_spec a x :
  f_is_nan a = false → f_le x a = false ↔ nan_or x (f_lt a x = true).
Proof.
  intros Ha. unfold nan_or. destruct (f_is_nan x) eqn:Hx.
  { split; [by left|]. intros _. by destruct x. }
  split; intros H; [right|destruct H as [|H]; [done|]].
  - destruct (f_lt a x) eqn:E; [done|]. by rewrite (f_not_lt_le a x) in H.
  - destruct (f_le x a) eqn:E; [|done]. pose proof (f_lt_le_trans _ _ _ H E) as H'.
    by rewrite f_lt_irrefl in H'.
Qed.

Definition valid_lb (lb : LoadBalancerConfig) : Prop :=
  nan_or (lb_MaxLoadFactor lb)
    (f_lt f_zero (lb_MaxLoadFactor lb) = true ∧ f_le (lb_MaxLoadFactor lb) f_one = true) ∧
  nan_or (lb_MaxLatencyMs lb) (f_lt f_zero (lb_MaxLatencyMs lb) = true) ∧
  nan_or (lb_MaxErrorRate lb)
    (f_le f_zero (lb_MaxErrorRate lb) = true ∧ f_le (lb_MaxErrorRate lb) f_one = true) ∧
  1 ≤ lb_MinActiveWorkers lb ∧ 1 ≤ lb_MaxPendingTasks lb ∧ 0 < lb_HealthCheckWindow lb ∧
  (lb_GeoPreference lb = true → nan_or (lb_MaxDistance lb) (f_lt f_zero (lb_MaxDistance lb) = true)).

Definition valid_location (loc : GeoLocation) : Prop :=
  nan_or (Latitude loc)
    (f_le (f_of_Z (-90)) (Latitude loc) = true ∧ f_le (Latitude loc) (f_of_Z 90) = true) ∧
  nan_or (Longitude loc)
    (f_le (f_of_Z (-180)) (Longitude loc) = true ∧ f_le (Longitude loc) (f_of_Z 180) = true) ∧
  DataCenter loc ≠ "" ∧ GeoRegion loc ≠ "".

Lemma check_last b e : check b e = Ok tt ↔ b = false.
Proof. by destruct b. Qed.

Lemma validateLoadBalancerConfig_spec c :
  validateLoadBalancerConfig c = Ok tt ↔ valid_lb (rc_LoadBalancer c).
Proof.
  unfold validateLoadBalancerConfig, valid_lb. cbv zeta.
  rewrite !check_ok, check_last.
  rewrite (outside_spec f_zero f_one true), (outside_spec f_zero f_one false), !(below_spec f_zero)
    by by vm_compute.
  rewrite !Z.ltb_ge, Z.leb_gt.
  assert (lb_GeoPreference (rc_LoadBalancer c) && f_le (lb_MaxDistance (rc_LoadBalancer c)) f_zero = false ↔
    (lb_GeoPreference (rc_LoadBalancer c) = true →
     nan_or (lb_MaxDistance (rc_LoadBalancer c)) (f_lt f_zero (lb_MaxDistance (rc_LoadBalancer c)) = true)))
    as ->; [|done].
  rewrite <-(below_spec f_zero) by by vm_compute. destruct (lb_GeoPreference _); simpl; [|done].
  split; [done|]. intros H. by apply H.
Qed.

Lemma validateLocation_spec c :
  validateLocation c = Ok tt ↔ valid_location (rc_Location c).
Proof.
  unfold validateLocation, valid_location. cbv zeta.
  rewrite !check_ok, check_last, !(outside_spec _ _ false) by by vm_compute.
  by rewrite !bool_decide_eq_false.
Qed.

(** The declarative reading of a valid region configuration. *)
Definition valid_config (c : RegionConfig) : Prop :=
  rc_ID c ≠ "" ∧ rc_TEEPairs c ≠ [] ∧
  Forall complete_pair (rc_TEEPairs c) ∧ NoDup (enclaves <$> rc_TEEPairs c) ∧
  0 < rc_MaxObjects c ∧ 0 < rc_MaxEvents c ∧
  valid_lb (rc_LoadBalancer c) ∧ valid_location (rc_Location c).

Lemma verdict_bind_ok (v w : verdict) : (v ;; w) = Ok tt ↔ v = Ok tt ∧ w = Ok tt.
Proof. destruct v as [[]| | |]; simpl; naive_solver. Qed.

(** A validator returns: nil or an error. *)
Definition returns (v : verdict) : Prop := v = Ok tt ∨ ∃ e, v = Err e.

Lemma returns_check b e : returns (check b e).
Proof. destruct b; [right; eauto|by left]. Qed.
Lemma returns_bind (v w : verdict) : returns v → returns w → returns (v ;; w).
Proof. by intros [-> |[e ->]] ?; [|right; exists e]. Qed.

Lemma validate_pairs_returns i seen pairs : returns (validate_pairs i seen pairs).
Proof.
  revert i seen. induction pairs as [|p l IH]; intros i seen; cbn [validate_pairs]; [by left|].
  repeat (apply returns_bind; [apply returns_check|]). apply IH.
Qed.

Lemma RegionConfig_Validate_returns c : returns (RegionConfig_Validate c).
Proof.
  repeat first [apply returns_check | apply validate_pairs_returns | apply returns_bind].
Qed.

Lemma RegionConfig_Validate_ok c : RegionConfig_Validate c = Ok tt ↔ valid_config c.
Proof.
  unfold RegionConfig_Validate, valid_config.
  rewrite !verdict_bind_ok, !check_last, validate_pairs_spec, NoDup_pair_key,
    validateLoadBalancerConfig_spec, validateLocation_spec, !bool_decide_eq_false, orb_false_iff, !Z.leb_gt.
  assert (Forall (λ p, pair_key p ∉ (∅ : gset string)) (rc_TEEPairs c)).
  { apply Forall_forall. set_solver. }
  naive_solver.
Qed.

(** [Validate] accepts exactly the region configurations with an id, at least
    one pair, both enclaves in every pair, no two pairs with the same enclaves (its
    hex keys identify pairs), positive limits, a load balancer section and a
    location in range; a NaN passes every float test. *)
Theorem RegionConfig_Validate_spec c : RegionConfig_Validate c = Ok tt ↔ valid_config c.
Proof. apply RegionConfig_Validate_ok. Qed.

Section pair_config.
Context `{!FmtV}.

(** The configuration [NewTEEPairConfig] builds passes its own validator when the
    id and the endpoints are given; the package's default configuration does not,
    since it leaves the resource limits zero. *)
Lemma NewTEEPairConfig_valid id sgx sev :
  TEEPairConfig_Validate (NewTEEPairConfig id sgx sev) = Ok tt ↔ id ≠ "" ∧ sgx ≠ "" ∧ sev ≠ "".
Proof.
  unfold TEEPairConfig_Validate, NewTEEPairConfig. cbv zeta. simpl pc_ID. simpl pc_SGXEndpoint.
  simpl pc_SEVEndpoint. rewrite 3!check_ok, !bool_decide_eq_false.
  split; [intros (? & ? & ? & _); done|]. intros (? & ? & ?). split_and!; [done..|by vm_compute].
Qed.

Lemma DefaultTEEPairConfig_invalid :
  TEEPairConfig_Validate DefaultTEEPairConfig =
  Err (Errorf ("invalid max CPU usage: " +s+ fmt_float f_zero)).
Proof. done. Qed.
End pair_config.
