(* ===== verification/Balancer.v ===== *)
(** Package [regions], the balancer ([regions/balancer.go]): which region and
    which pair of enclaves a task goes to.

    [RegionMetrics] are held by pointer and a nil one can be stored, so the table
    holds options; everything else is a value, since the operations lock the
    balancer and copy what they store.  The order of a range over the regions is
    a parameter.  The score is computed without fused multiply-add. *)

From S2P Require Import Prelude GoTime Float64 KV Core RangeState RegionConfig.
From Stdlib Require Import ZArith Lia Ascii String SpecFloat.
From stdpp Require Import base tactics option list strings pretty gmap.

Local Open Scope Z_scope.

(** * Data *)

Record BalancedRegion : Type := mkBR {
  br_ID : string;
  br_WorkerIDs : list string;
  br_IsHealthy : bool;
  br_LastUpdated : Time;
  br_Location : option GeoLocation;
  br_TEEPairs : list (string * string);
}.

Record TEEMetrics : Type := mkTM {
  tm_EnclaveID : string;
  tm_Type : string;
  tm_LoadFactor : float64;
  tm_SuccessRate : float64;
  tm_LastAttested : Time;
}.

Record RegionMetrics : Type := mkRM {
  rm_LoadFactor : float64;
  rm_LatencyMs : float64;
  rm_ErrorRate : float64;
  rm_ActiveWorkers : Z;
  rm_PendingTasks : Z;
  rm_LastHealthCheck : Time;
  rm_NetworkLatency : gomap float64;
  rm_TEEMetrics : gomap (option TEEMetrics);
}.

Record BalancerConfig : Type := mkBC {
  bc_MaxLoadFactor : float64;
  bc_MaxLatencyMs : float64;
  bc_MaxErrorRate : float64;
  bc_MinSuccessRate : float64;
  bc_MinActiveWorkers : Z;
  bc_MaxPendingTasks : Z;
  bc_HealthCheckWindow : Z;
  bc_GeoPreference : bool;
  bc_MaxDistance : float64;
}.

Record RegionBalancer : Type := mkRB {
  rb_regions : gmap string BalancedRegion;
  rb_metrics : gmap string (option RegionMetrics);
  rb_pairMetrics : gmap string (list TEEPairMetrics);
  rb_thresholds : BalancerConfig;
}.

Definition ErrNoHealthyRegions := Sentinel "regions" "ErrNoHealthyRegions".

Definition DefaultBalancerConfig : BalancerConfig :=
  mkBC (f_lit 8 1) (f_of_Z 1000) (f_lit 1 1) (f_lit 95 2) 2 1000 (5 * Minute) true (f_of_Z 5000).

(** A nil configuration is replaced by the same defaults. *)
Definition NewRegionBalancer (config : option BalancerConfig) : RegionBalancer :=
  mkRB ∅ ∅ ∅
    match config with
    | Some c => c
    | None => mkBC (f_lit 8 1) (f_of_Z 1000) (f_lit 1 1) (f_lit 95 2) 2 1000 (5 * Minute) true (f_of_Z 5000)
    end.

(** * Regions *)

Definition nil_deref : string := "nil pointer dereference".

(** A region whose metrics are nil but present is dereferenced. *)
Definition isRegionHealthy (now : Time) (b : RegionBalancer) (regionID : string)
    (region : BalancedRegion) : outcome bool :=
  if negb (br_IsHealthy region) then Ok false
  else match rb_metrics b !! regionID with
       | None => Ok false
       | Some None => Panic nil_deref
       | Some (Some m) =>
           Ok (negb (bc_HealthCheckWindow (rb_thresholds b) <? Since now (rm_LastHealthCheck m)))
       end.

Definition isRegionWithinThresholds (b : RegionBalancer) (m : RegionMetrics) : bool :=
  let th := rb_thresholds b in
  f_le (rm_LoadFactor m) (bc_MaxLoadFactor th) &&
  f_le (rm_LatencyMs m) (bc_MaxLatencyMs th) &&
  f_le (rm_ErrorRate m) (bc_MaxErrorRate th) &&
  (bc_MinActiveWorkers th <=? rm_ActiveWorkers m) &&
  (rm_PendingTasks m <=? bc_MaxPendingTasks th).

(** [b.metrics[id]]: nil when absent. *)
Definition metrics_of (b : RegionBalancer) (id : string) : option RegionMetrics :=
  match rb_metrics b !! id with Some m => m | None => None end.

(** A placeholder in the source: every distance is zero. *)
Definition calculateDistance (l1 l2 : option GeoLocation) : float64 := f_zero.

Definition calculateRegionScore (m : RegionMetrics) (distance : float64) (th : BalancerConfig) : float64 :=
  let loadScore := f_sub f_one (rm_LoadFactor m) in
  let latencyScore := f_sub f_one (f_div (rm_LatencyMs m) (bc_MaxLatencyMs th)) in
  let distanceScore := f_sub f_one (f_div distance (bc_MaxDistance th)) in
  f_add (f_add (f_mul loadScore (f_lit 4 1)) (f_mul latencyScore (f_lit 3 1)))
    (f_mul distanceScore (f_lit 3 1)).

(** The state of a selection loop: the region chosen so far and its load or score. *)
Abbreviation pick := (string * float64)%type.

(** The guards both loops share: a healthy region whose metrics are within the
    thresholds; [None] is [continue]. *)
Definition eligible_metrics (now : Time) (b : RegionBalancer) (id : string) (region : BalancedRegion) :
    go pick (option RegionMetrics) :=
  healthy ← lift (isRegionHealthy now b id region);
  if negb healthy then mret None
  else match metrics_of b id with
       | None => mret None
       | Some m => mret (if isRegionWithinThresholds b m then Some m else None)
       end.

Definition by_load (now : Time) (b : RegionBalancer) (e : string * BalancedRegion) : go pick unit :=
  let '(id, region) := e in
  mm ← eligible_metrics now b id region;
  match mm with
  | None => mret tt
  | Some m => modify (λ '(sel, low), if f_lt (rm_LoadFactor m) low then (id, rm_LoadFactor m) else (sel, low))
  end.

Definition by_score (now : Time) (b : RegionBalancer) (loc : GeoLocation) (e : string * BalancedRegion) :
    go pick unit :=
  let '(id, region) := e in
  mm ← eligible_metrics now b id region;
  match mm with
  | None => mret tt
  | Some m =>
      let distance := calculateDistance (Some loc) (br_Location region) in
      if f_lt (bc_MaxDistance (rb_thresholds b)) distance then mret tt
      else
        let score := calculateRegionScore m distance (rb_thresholds b) in
        modify (λ '(sel, best), if f_lt best score then (id, score) else (sel, best))
  end.

(** The loop run from its initial choice, and the test on what it chose. *)
Definition selected (r : pick * outcome unit) : outcome string :=
  match r with
  | ((sel, _), Ok _) => if bool_decide (sel = "") then Err ErrNoHealthyRegions else Ok sel
  | (_, Err e) => Err e
  | (_, Panic w) => Panic w
  | (_, Hang w) => Hang w
  end.

Section select.
Context `{MR : MapRange}.

Definition selectRegionByLoad (now : Time) (b : RegionBalancer) : outcome string :=
  selected (for_each (by_load now b) (range_map 0 (rb_regions b)) ("", f_one)).

Definition SelectRegionWithLocation (now : Time) (loc : option GeoLocation) (b : RegionBalancer) :
    outcome string :=
  match loc with
  | None => selectRegionByLoad now b
  | Some l =>
      if negb (bc_GeoPreference (rb_thresholds b)) then selectRegionByLoad now b
      else selected (for_each (by_score now b l) (range_map 0 (rb_regions b)) ("", f_minus_one))
  end.
End select.

Definition RB_UpdateMetrics (regionID : string) (m : option RegionMetrics) (b : RegionBalancer) : RegionBalancer :=
  mkRB (rb_regions b) (<[regionID := m]> (rb_metrics b)) (rb_pairMetrics b) (rb_thresholds b).

(** A nil region has no id to read. *)
Definition RB_AddRegion (region : option BalancedRegion) : go RegionBalancer unit :=
  match region with
  | None => gopanic nil_deref
  | Some r => modify (λ b, mkRB (<[br_ID r := r]> (rb_regions b)) (rb_metrics b) (rb_pairMetrics b) (rb_thresholds b))
  end.

Definition RB_RemoveRegion (regionID : string) (b : RegionBalancer) : RegionBalancer :=
  mkRB (delete regionID (rb_regions b)) (delete regionID (rb_metrics b)) (rb_pairMetrics b) (rb_thresholds b).

Definition RB_GetRegionHealth (now : Time) (regionID : string) (b : RegionBalancer) : outcome bool :=
  match rb_regions b !! regionID with
  | None => Err (Errorf "region not found")
  | Some region => isRegionHealthy now b regionID region
  end.

(** A copy of the table. *)
Definition GetAllRegionMetrics (b : RegionBalancer) : gmap string (option RegionMetrics) := rb_metrics b.

(** * Pairs *)

(** [rb.pairMetrics[regionID]]: nil, which is empty, when absent. *)
Definition pairs_of (b : RegionBalancer) (regionID : string) : list TEEPairMetrics :=
  match rb_pairMetrics b !! regionID with Some l => l | None => [] end.

Definition with_pairs (regionID : string) (l : list TEEPairMetrics) (b : RegionBalancer) : RegionBalancer :=
  mkRB (rb_regions b) (rb_metrics b) (<[regionID := l]> (rb_pairMetrics b)) (rb_thresholds b).

Definition pair_fresh (now : Time) (th : BalancerConfig) (m : TEEPairMetrics) : bool :=
  Since now (pm_LastHealthy m) <? bc_HealthCheckWindow th.

Definition GetHealthyPairs (now : Time) (regionID : string) (b : RegionBalancer) : list string :=
  let th := rb_thresholds b in
  pm_PairID <$> List.filter (λ m,
    pair_fresh now th m && f_lt (pm_LoadFactor m) (bc_MaxLoadFactor th) &&
    f_lt (bc_MinSuccessRate th) (pm_SuccessRate m)) (pairs_of b regionID).

(** [nil] when the region is absent. *)
Definition RB_GetRegionMetrics (regionID : string) (b : RegionBalancer) : option (list TEEPairMetrics) :=
  rb_pairMetrics b !! regionID.

(** The pair built from metrics: the enclave ids stay nil. *)
Definition selected_pair (m : TEEPairMetrics) : TEEPair :=
  mkTEEPair (pm_PairID m) "" "" (pm_SGXEndpoint m) (pm_SEVEndpoint m) "active".

(** The loop over the pairs with the choice and the least load so far. *)
Definition optimal_step (now : Time) (th : BalancerConfig) (acc : option TEEPair * float64)
    (m : TEEPairMetrics) : option TEEPair * float64 :=
  let '(sel, minLoad) := acc in
  if f_lt (pm_LoadFactor m) minLoad && f_lt (bc_MinSuccessRate th) (pm_SuccessRate m) && pair_fresh now th m
  then (Some (selected_pair m), pm_LoadFactor m)
  else (sel, minLoad).

Definition SelectOptimalPair (now : Time) (regionID : string) (b : RegionBalancer) : outcome TEEPair :=
  let pairs := pairs_of b regionID in
  match pairs with
  | [] => Err (Errorf ("no TEE pairs available for region " +s+ regionID))
  | _ =>
      match (fold_left (optimal_step now (rb_thresholds b)) pairs (None, MaxFloat64)).1 with
      | None => Err (Errorf ("no healthy TEE pairs available for region " +s+ regionID))
      | Some p => Ok p
      end
  end.

(** [d.Milliseconds()] truncates toward zero. *)
Definition Milliseconds (d : Z) : Z := Z.quot d Millisecond.

Definition calculateLoadFactor (m : TEEPairMetrics) : float64 :=
  if pm_ExecutionTime m =? 0 then f_zero
  else
    let loadFactor := f_div (f_of_Z (Milliseconds (pm_ExecutionTime m))) (f_of_Z 1000) in
    if f_lt f_one loadFactor then f_one else loadFactor.

Definition calculateSuccessRate (m : TEEPairMetrics) : float64 :=
  if pm_TasksProcessed m =? 0 then f_one
  else rate (u64_sub (pm_TasksProcessed m) (pm_FailedTasks m)) (pm_TasksProcessed m).

(** The first pair with the id, replaced by a function of it. *)
Fixpoint update_first (pairID : string) (f : TEEPairMetrics → TEEPairMetrics) (l : list TEEPairMetrics) :
    option (list TEEPairMetrics) :=
  match l with
  | [] => None
  | m :: l' =>
      if bool_decide (pm_PairID m = pairID) then Some (f m :: l')
      else match update_first pairID f l' with
           | Some l'' => Some (m :: l'')
           | None => None
           end
  end.

(** An absent region gets an empty list before a nil [metrics] is dereferenced. *)
Definition UpdatePairMetrics (regionID pairID : string) (metrics : option TEEPairMetrics) :
    go RegionBalancer unit :=
  modify (λ b, with_pairs regionID (pairs_of b regionID) b) ;;
  match metrics with
  | None => gopanic nil_deref
  | Some m =>
      modify (λ b,
        match update_first pairID (λ _, m) (pairs_of b regionID) with
        | Some l => with_pairs regionID l b
        | None => with_pairs regionID (pairs_of b regionID ++ [m]) b
        end)
  end.

(** One pair at a tick of the collector. *)
Definition collect_pair (now : Time) (m : TEEPairMetrics) : TEEPairMetrics :=
  mkTPM (calculateSuccessRate m) (pm_AverageLatency m) (pm_ErrorRate m) (pm_TasksProcessed m)
    (pm_LastHealthy m) (calculateLoadFactor m) (pm_ExecutionTime m) (pm_PairID m) (pm_SGXEndpoint m)
    (pm_SEVEndpoint m) now (pm_ConsecutiveErrors m) (pm_Status m) (pm_CPUUsage m)
    (pm_MemoryUsage m) (pm_NetworkLatency m) (pm_LastAttestation m) (pm_AttestationFailures m)
    (pm_PendingTasks m) (pm_FailedTasks m) (pm_AverageTaskTime m).

(** A tick of [CollectMetrics]: every pair of every region, in any order. *)
Definition CollectMetrics_tick (now : Time) (b : RegionBalancer) : RegionBalancer :=
  mkRB (rb_regions b) (rb_metrics b) (fmap (map (collect_pair now)) (rb_pairMetrics b)) (rb_thresholds b).

Definition UpdateSpecificPairMetrics (regionID pairID : string) (updateFn : TEEPairMetrics → TEEPairMetrics) :
    go RegionBalancer unit := λ b,
  match rb_pairMetrics b !! regionID with
  | None => (b, Err (Errorf ("region " +s+ regionID +s+ " not found")))
  | Some pairs =>
      match update_first pairID updateFn pairs with
      | Some l => (with_pairs regionID l b, Ok tt)
      | None => (b, Err (Errorf ("pair " +s+ pairID +s+ " not found in region " +s+ regionID)))
      end
  end.

(** * Theorems: selection loops

    The three loops keep the best candidate so far; what they end with depends
    only on [better] being a strict order. *)

Section best.
Context {A B : Type} (key : A → option float64) (out : A → B) (better : float64 → float64 → bool).
Context (better_irrefl : ∀ x, better x x = false)
        (better_trans : ∀ x y z, better x y = true → better y z = true → better x z = true).

Definition best_step (acc : B * float64) (x : A) : B * float64 :=
  match key x with
  | Some k => if better k acc.2 then (out x, k) else acc
  | None => acc
  end.

(** Either no candidate beats the initial value, which stays, or the result is a
    candidate that none beats. *)
Definition best_result (l : list A) (init r : B * float64) : Prop :=
  (r = init ∧ ∀ x k, x ∈ l → key x = Some k → better k init.2 = false) ∨
  ∃ x k, x ∈ l ∧ key x = Some k ∧ r = (out x, k) ∧ better k init.2 = true ∧
    ∀ x' k', x' ∈ l → key x' = Some k' → better k' k = false.

Lemma best_spec l init : best_result l init (fold_left best_step l init).
Proof using better_irrefl better_trans.
  induction l as [|x l IH] using rev_ind; [left; split; [done|]; intros ? ? H; by apply not_elem_of_nil in H|].
  rewrite fold_left_app. cbn [fold_left]. unfold best_step at 1. unfold best_result in *.
  destruct (key x) as [k|] eqn:Hk.
  - destruct IH as [[-> IH]|(y & ky & Hy & Hky & -> & Hby & IH)]; cbn [snd].
    + destruct (better k init.2) eqn:Hb.
      * right. exists x, k. split_and!; [set_solver|done..|].
        intros x' k' [Hx'| ->%list_elem_of_singleton]%elem_of_app Hk'; [|simplify_eq; apply better_irrefl].
        destruct (better k' k) eqn:E; [|done]. by rewrite <-(IH x' k' Hx' Hk'), (better_trans k' k).
      * left. split; [done|].
        intros x' k' [Hx'| ->%list_elem_of_singleton]%elem_of_app Hk'; [by eapply IH|by simplify_eq].
    + destruct (better k ky) eqn:Hb; right.
      * exists x, k. split_and!; [set_solver|done|done|by eapply better_trans|].
        intros x' k' [Hx'| ->%list_elem_of_singleton]%elem_of_app Hk'; [|simplify_eq; apply better_irrefl].
        destruct (better k' k) eqn:E; [|done]. by rewrite <-(IH x' k' Hx' Hk'), (better_trans k' k).
      * exists y, ky. split_and!; [set_solver|done..|].
        intros x' k' [Hx'| ->%list_elem_of_singleton]%elem_of_app Hk'; [by eapply IH|by simplify_eq].
  - destruct IH as [[-> IH]|(y & ky & Hy & Hky & -> & Hby & IH)]; [left|right; exists y, ky];
      (split_and!; try done; try set_solver).
    all: intros x' k' [Hx'| ->%list_elem_of_singleton]%elem_of_app Hk'; [by eapply IH|by simplify_eq].
Qed.
End best.

(** A loop whose bodies never fail is a fold. *)
Lemma for_each_fold {S A} (f : A → go S unit) (g : S → A → S) xs s :
  (∀ x s', x ∈ xs → f x s' = (g s' x, Ok tt)) → for_each f xs s = (fold_left g xs s, Ok tt).
Proof.
  revert s. induction xs as [|x xs IH]; intros s H; [done|]. cbn [for_each fold_left].
  rewrite (bind_ok _ _ _ _ _ (H x s ltac:(left))). apply IH. intros y s' Hy. apply H. by right.
Qed.

(** ** Pairs *)

(** A pair that may be selected: recently healthy, successful enough, with a load
    that is a number below the largest one. *)
Definition usable (now : Time) (th : BalancerConfig) (m : TEEPairMetrics) : Prop :=
  pair_fresh now th m = true ∧ f_lt (bc_MinSuccessRate th) (pm_SuccessRate m) = true ∧
  f_lt (pm_LoadFactor m) MaxFloat64 = true.

Definition usable_load (now : Time) (th : BalancerConfig) (m : TEEPairMetrics) : option float64 :=
  if f_lt (bc_MinSuccessRate th) (pm_SuccessRate m) && pair_fresh now th m then Some (pm_LoadFactor m) else None.

Lemma optimal_step_best now th acc m :
  optimal_step now th acc m = best_step (usable_load now th) (λ m, Some (selected_pair m)) f_lt acc m.
Proof.
  destruct acc as [sel low]. unfold optimal_step, best_step, usable_load. rewrite <-andb_assoc, andb_comm. simpl.
  destruct (f_lt (bc_MinSuccessRate th) _ && pair_fresh now th m); simpl; [|done].
  by destruct (f_lt (pm_LoadFactor m) low).
Qed.

(** C20: [SelectOptimalPair] answers with a pair of the region that is recently
    healthy and successful enough and whose load no other such pair undercuts; it
    fails, with an error, exactly when the region has no such pair. *)
Theorem SelectOptimalPair_least_loaded now regionID b :
  let th := rb_thresholds b in
  match SelectOptimalPair now regionID b with
  | Ok p => ∃ m, m ∈ pairs_of b regionID ∧ usable now th m ∧ p = selected_pair m ∧
      ∀ m', m' ∈ pairs_of b regionID → usable now th m' → f_lt (pm_LoadFactor m') (pm_LoadFactor m) = false
  | Err e => ∀ m, m ∈ pairs_of b regionID → ¬ usable now th m
  | _ => False
  end.
Proof.
  intros th. unfold SelectOptimalPair. fold th.
  destruct (pairs_of b regionID) as [|m0 l] eqn:El; [intros m Hm; by apply not_elem_of_nil in Hm|].
  rewrite <-El. clear El m0 l. set (l := pairs_of b regionID).
  assert (∀ acc, fold_left (optimal_step now th) l acc =
    fold_left (best_step (usable_load now th) (λ m, Some (selected_pair m)) f_lt) l acc) as ->.
  { induction l as [|m l IH]; intros acc; [done|]. cbn [fold_left]. by rewrite optimal_step_best. }
  assert (∀ m, usable now th m ↔ ∃ k, usable_load now th m = Some k ∧ f_lt k MaxFloat64 = true ∧ k = pm_LoadFactor m) as Hu.
  { intros m. unfold usable, usable_load. destruct (f_lt (bc_MinSuccessRate th) _), (pair_fresh now th m);
      simpl; naive_solver. }
  destruct (best_spec (usable_load now th) (λ m, Some (selected_pair m)) f_lt f_lt_irrefl f_lt_trans
    l (None, MaxFloat64)) as [[-> Hn]|(m & k & Hm & Hk & -> & Hlt & Hbest)]; cbn [fst].
  - intros m Hm (k & Hk & Hlt & _)%Hu. pose proof (Hn m k Hm Hk). simpl in *. congruence.
  - exists m. assert (k = pm_LoadFactor m) as Ek.
    { unfold usable_load in Hk. by destruct (_ && _); simplify_eq. }
    split_and!; [done|apply Hu; eauto|done|].
    intros m' Hm' (k' & Hk' & _ & ->)%Hu. rewrite <-Ek. by eapply Hbest.
Qed.

(** ** Regions *)

(** No region has metrics that are present but nil, which [UpdateMetrics] can
    store. *)
Definition metrics_present (b : RegionBalancer) : Prop := ∀ id, rb_metrics b !! id ≠ Some None.

(** A region a task may be sent to, with its metrics. *)
Definition eligible (now : Time) (b : RegionBalancer) (id : string) (region : BalancedRegion)
    (m : RegionMetrics) : Prop :=
  rb_regions b !! id = Some region ∧ br_IsHealthy region = true ∧
  rb_metrics b !! id = Some (Some m) ∧
  Since now (rm_LastHealthCheck m) ≤ bc_HealthCheckWindow (rb_thresholds b) ∧
  isRegionWithinThresholds b m = true.

(** The guards of a loop body, as a value. *)
Definition eligible_opt (now : Time) (b : RegionBalancer) (e : string * BalancedRegion) : option RegionMetrics :=
  if br_IsHealthy e.2 then
    match rb_metrics b !! e.1 with
    | Some (Some m) =>
        if negb (bc_HealthCheckWindow (rb_thresholds b) <? Since now (rm_LastHealthCheck m)) &&
           isRegionWithinThresholds b m
        then Some m else None
    | _ => None
    end
  else None.

Lemma eligible_metrics_run now b id region s :
  metrics_present b →
  eligible_metrics now b id region s = (s, Ok (eligible_opt now b (id, region))).
Proof.
  intros Hp. unfold eligible_metrics, eligible_opt, isRegionHealthy, metrics_of. simpl. specialize (Hp id).
  go_unfold. destruct (br_IsHealthy region); simpl; [|done].
  destruct (rb_metrics b !! id) as [[m|]|]; [|done|done].
  destruct (bc_HealthCheckWindow _ <? _); simpl; [done|]. by destruct (isRegionWithinThresholds b m).
Qed.

Lemma eligible_opt_spec `{MR : MapRange} now b id region m n :
  (id, region) ∈ range_map n (rb_regions b) ∧ eligible_opt now b (id, region) = Some m ↔
  eligible now b id region m.
Proof.
  rewrite elem_of_range_map. unfold eligible, eligible_opt. simpl.
  destruct (br_IsHealthy region); [|naive_solver].
  destruct (rb_metrics b !! id) as [[m'|]|]; [|naive_solver..].
  destruct (Z.ltb_spec (bc_HealthCheckWindow (rb_thresholds b)) (Since now (rm_LastHealthCheck m'))); simpl.
  - split; [naive_solver|]. intros (? & _ & [= ->] & ? & _). lia.
  - destruct (isRegionWithinThresholds b m') eqn:E; split.
    + intros [? [= ->]]. done.
    + intros (? & _ & [= ->] & _). done.
    + naive_solver.
    + intros (_ & _ & [= ->] & _ & ?). congruence.
Qed.

Section selection.
Context `{MR : MapRange} (now : Time) (b : RegionBalancer).
Context (Hpresent : metrics_present b) (Hnamed : rb_regions b !! "" = None).

(** What a selection loop over the regions returns, for a key of the metrics. *)
Lemma region_loop_spec (f : string * BalancedRegion → go pick unit) (key : RegionMetrics → option float64)
    better init :
  (∀ x, better x x = false) → (∀ x y z, better x y = true → better y z = true → better x z = true) →
  (∀ e s, f e s = (best_step (λ e, eligible_opt now b e ≫= key) fst better s e, Ok tt)) →
  match selected (for_each f (range_map 0 (rb_regions b)) ("", init)) with
  | Ok id => ∃ region m k, eligible now b id region m ∧ key m = Some k ∧ better k init = true ∧
      ∀ id' region' m' k', eligible now b id' region' m' → key m' = Some k' → better k' k = false
  | Err e => e = ErrNoHealthyRegions ∧
      ∀ id region m k, eligible now b id region m → key m = Some k → better k init = false
  | _ => False
  end.
Proof using Hnamed.
  intros Hirr Htr Hf.
  rewrite (for_each_fold f (best_step (λ e, eligible_opt now b e ≫= key) fst better)) by (intros; apply Hf).
  destruct (best_spec (λ e, eligible_opt now b e ≫= key) fst better Hirr Htr
    (range_map 0 (rb_regions b)) ("", init)) as [[-> Hn]|([id region] & k & Hin & Hk & -> & Hlt & Hbest)];
    cbn [selected fst snd] in *.
  - split; [done|]. intros id region m k [Hin He]%(eligible_opt_spec _ _ _ _ _ 0) Hk.
    apply (Hn (id, region)); [done|]. rewrite He. done.
  - apply bind_Some in Hk as (m & He & Hk).
    rewrite bool_decide_eq_false_2 by (intros ->; apply elem_of_range_map in Hin; congruence).
    exists region, m, k. split_and!; [by apply (eligible_opt_spec _ _ _ _ _ 0)|done..|].
    intros id' region' m' k' [Hin' He']%(eligible_opt_spec _ _ _ _ _ 0) Hk'.
    apply (Hbest (id', region')); [done|]. rewrite He'. done.
Qed.

Lemma by_load_step e s :
  by_load now b e s =
  (best_step (λ e, eligible_opt now b e ≫= λ m, Some (rm_LoadFactor m)) fst f_lt s e, Ok tt).
Proof using Hpresent.
  destruct e as [id region], s as [sel low]. unfold by_load.
  rewrite (bind_ok _ _ _ _ _ (eligible_metrics_run now b id region _ Hpresent)). unfold best_step. cbv beta.
  destruct (eligible_opt now b (id, region)); [|done]. simpl. go_unfold. by destruct (f_lt _ low).
Qed.

(** The score of a region for a requested location; [None] beyond the distance. *)
Definition region_score (m : RegionMetrics) : option float64 :=
  if f_lt (bc_MaxDistance (rb_thresholds b)) f_zero then None
  else Some (calculateRegionScore m f_zero (rb_thresholds b)).

Lemma by_score_step loc e s :
  by_score now b loc e s =
  (best_step (λ e, eligible_opt now b e ≫= region_score) fst (λ x y, f_lt y x) s e, Ok tt).
Proof using Hpresent.
  destruct e as [id region], s as [sel best]. unfold by_score.
  rewrite (bind_ok _ _ _ _ _ (eligible_metrics_run now b id region _ Hpresent)). unfold best_step. cbv beta.
  destruct (eligible_opt now b (id, region)) as [m|]; [|done].
  unfold region_score, calculateDistance. unfold mbind at 1, option_bind.
  destruct (f_lt (bc_MaxDistance (rb_thresholds b)) f_zero); [done|]. go_unfold. by destruct (f_lt best _).
Qed.

Lemma selectRegionByLoad_spec :
  match selectRegionByLoad now b with
  | Ok id => ∃ region m, eligible now b id region m ∧ f_lt (rm_LoadFactor m) f_one = true ∧
      ∀ id' region' m', eligible now b id' region' m' → f_lt (rm_LoadFactor m') (rm_LoadFactor m) = false
  | Err e => e = ErrNoHealthyRegions ∧
      ∀ id region m, eligible now b id region m → f_lt (rm_LoadFactor m) f_one = false
  | _ => False
  end.
Proof using Hnamed Hpresent.
  pose proof (region_loop_spec (by_load now b) (λ m, Some (rm_LoadFactor m)) f_lt f_one
    f_lt_irrefl f_lt_trans by_load_step) as H.
  unfold selectRegionByLoad. destruct (selected _); naive_solver.
Qed.

Lemma SelectRegionWithLocation_score loc :
  bc_GeoPreference (rb_thresholds b) = true →
  match SelectRegionWithLocation now (Some loc) b with
  | Ok id => ∃ region m k, eligible now b id region m ∧ region_score m = Some k ∧ f_lt f_minus_one k = true ∧
      ∀ id' region' m' k', eligible now b id' region' m' → region_score m' = Some k' → f_lt k k' = false
  | Err e => e = ErrNoHealthyRegions ∧
      ∀ id region m k, eligible now b id region m → region_score m = Some k → f_lt f_minus_one k = false
  | _ => False
  end.
Proof using Hnamed Hpresent.
  intros Hg. unfold SelectRegionWithLocation. rewrite Hg. simpl.
  apply (region_loop_spec (by_score now b loc) region_score (λ x y, f_lt y x) f_minus_one).
  - apply f_lt_irrefl.
  - intros x y z H1 H2. by apply (f_lt_trans z y x).
  - apply by_score_step.
Qed.
End selection.

(** Does the call use the location? *)
Definition uses_location (loc : option GeoLocation) (b : RegionBalancer) : bool :=
  match loc with Some _ => bc_GeoPreference (rb_thresholds b) | None => false end.

(** C21: whatever the order in which the regions are visited, the region selected is
    registered, marked healthy, checked within the window and within every
    threshold.  Without a location it carries a load below 1 that no eligible region
    undercuts; with one, no eligible region has a better score.  The only error
    is [ErrNoHealthyRegions], and without a location it means that no eligible
    region has a load below 1. *)
Theorem SelectRegion_best `{MR : MapRange} now loc b :
  metrics_present b → rb_regions b !! "" = None →
  match SelectRegionWithLocation now loc b with
  | Ok id => ∃ region m, eligible now b id region m ∧
      ∀ id' region' m', eligible now b id' region' m' →
        if uses_location loc b
        then f_lt (calculateRegionScore m f_zero (rb_thresholds b))
                  (calculateRegionScore m' f_zero (rb_thresholds b)) = false
        else f_lt (rm_LoadFactor m) f_one = true ∧ f_lt (rm_LoadFactor m') (rm_LoadFactor m) = false
  | Err e => e = ErrNoHealthyRegions ∧
      (uses_location loc b = false →
       ∀ id region m, eligible now b id region m → f_lt (rm_LoadFactor m) f_one = false)
  | _ => False
  end.
Proof.
  intros Hp Hn. pose proof (selectRegionByLoad_spec now b Hp Hn) as Hl.
  destruct loc as [loc|]; simpl; [destruct (bc_GeoPreference (rb_thresholds b)) eqn:Hg|]; simpl.
  - pose proof (SelectRegionWithLocation_score now b Hp Hn loc Hg) as Hs. simpl in Hs. rewrite Hg in Hs.
    simpl in Hs. destruct (selected _); [|naive_solver..]. destruct Hs as (region & m & k & He & Hk & _ & Hbest).
    exists region, m. split; [done|]. intros id' region' m' He'. unfold region_score in *.
    destruct (f_lt (bc_MaxDistance _) f_zero); [done|]. simplify_eq. eauto.
  - destruct (selectRegionByLoad now b); naive_solver.
  - destruct (selectRegionByLoad now b); naive_solver.
Qed.

(** Two regions, the second less loaded. *)
Definition sample_metrics (load : float64) (now : Time) : RegionMetrics :=
  mkRM load (f_of_Z 20) f_zero 3 0 now None None.
Definition sample_balancer (now : Time) : RegionBalancer :=
  mkRB (<["eu" := mkBR "eu" [] true now None []]> (<["us" := mkBR "us" [] true now None []]> ∅))
       (<["eu" := Some (sample_metrics (f_lit 5 1) now)]> (<["us" := Some (sample_metrics (f_lit 2 1) now)]> ∅))
       ∅ DefaultBalancerConfig.

Example sample_selection :
  SelectRegionWithLocation (MR := canonical_MapRange) (fromUnix 1700000000) None (sample_balancer (fromUnix 1700000000)) = Ok "us" ∧
  SelectRegionWithLocation (MR := reversed_MapRange) (fromUnix 1700000000)
    (Some (mkGeo f_zero f_zero "dc" "" "r")) (sample_balancer (fromUnix 1700000000)) = Ok "us".
Proof. by vm_compute. Qed.

Lemma SelectRegion_best_witness :
  let now := fromUnix 1700000000 in
  ∃ region m, eligible now (sample_balancer now) "us" region m.
Proof.
  intros now.
  pose proof (SelectRegion_best (MR := canonical_MapRange) now None (sample_balancer now)) as H.
  assert (SelectRegionWithLocation (MR := canonical_MapRange) now None (sample_balancer now) = Ok "us") as E
    by by vm_compute.
  rewrite E in H. destruct H as (region & m & He & _); [| |eauto].
  - intros id. unfold sample_balancer. simpl. rewrite !lookup_insert. repeat case_decide; done.
  - by vm_compute.
Defined.

(** A balancer that prefers near regions but whose [MaxDistance] is zero never
    selects a region for a location: every score is 0/0, which compares with
    nothing. *)
Theorem zero_MaxDistance_selects_none `{MR : MapRange} now loc b s :
  metrics_present b → rb_regions b !! "" = None →
  bc_GeoPreference (rb_thresholds b) = true → bc_MaxDistance (rb_thresholds b) = S754_zero s →
  SelectRegionWithLocation now (Some loc) b = Err ErrNoHealthyRegions.
Proof.
  intros Hp Hn Hg Hd. pose proof (SelectRegionWithLocation_score now b Hp Hn loc Hg) as H.
  destruct (SelectRegionWithLocation now (Some loc) b) as [id|e| |]; [|destruct H as [-> _]; done|done..].
  exfalso. destruct H as (region & m & k & _ & Hk & Hlt & _). unfold region_score in Hk.
  destruct (f_lt (bc_MaxDistance _) f_zero); [done|]. injection Hk as <-.
  apply f_lt_numbers in Hlt as [_ Hnum]. unfold calculateRegionScore in Hnum. rewrite Hd in Hnum.
  assert (∀ x, f_add x S754_nan = S754_nan) as Hadd by by intros [].
  change (f_sub f_one (f_div f_zero (S754_zero s))) with (S754_nan : float64) in Hnum.
  change (f_mul S754_nan (f_lit 3 1)) with (S754_nan : float64) in Hnum. by rewrite Hadd in Hnum.
Qed.

Lemma zero_MaxDistance_selects_none_witness :
  let now := fromUnix 1700000000 in
  let b := mkRB (rb_regions (sample_balancer now)) (rb_metrics (sample_balancer now)) ∅
             (mkBC f_one (f_of_Z 1000) f_one f_zero 1 10 (5 * Minute) true f_zero) in
  SelectRegionWithLocation (MR := canonical_MapRange) now (Some (mkGeo f_zero f_zero "dc" "" "r")) b
    = Err ErrNoHealthyRegions.
Proof.
  intros now b. apply (zero_MaxDistance_selects_none (MR := canonical_MapRange) now _ b false).
  - intros id. unfold b, sample_balancer. simpl. rewrite !lookup_insert. repeat case_decide; done.
  - by vm_compute.
  - done.
  - by vm_compute.
Defined.

(** * Theorems: pair metrics *)

(** The pairs of a region have distinct ids. *)
Definition pairs_distinct (b : RegionBalancer) : Prop :=
  ∀ regionID, NoDup (pm_PairID <$> pairs_of b regionID).

Lemma update_first_ids pairID f l l' :
  (∀ m, pm_PairID m = pairID → pm_PairID (f m) = pairID) →
  update_first pairID f l = Some l' → pm_PairID <$> l' = pm_PairID <$> l.
Proof.
  intros Hf. revert l'. induction l as [|m l IH]; intros l' H; simpl in H; [done|].
  case_bool_decide as E; simplify_eq/=; [by rewrite Hf|].
  destruct (update_first pairID f l) as [l''|]; simplify_eq/=. by rewrite (IH l'').
Qed.

Lemma update_first_None pairID f l :
  update_first pairID f l = None ↔ pairID ∉ (pm_PairID <$> l).
Proof.
  induction l as [|m l IH]; simpl; [split; [intros _; apply not_elem_of_nil|done]|].
  rewrite not_elem_of_cons. case_bool_decide as E; [naive_solver|].
  destruct (update_first pairID f l); naive_solver.
Qed.

Lemma pairs_of_with r l b r' :
  pairs_of (with_pairs r l b) r' = if decide (r' = r) then l else pairs_of b r'.
Proof.
  unfold pairs_of, with_pairs. simpl. case_decide; subst; [by rewrite lookup_insert_eq|].
  by rewrite lookup_insert_ne.
Qed.

(** What a lookup by id finds: the first pair with it. *)
Definition find_pair (regionID pairID : string) (b : RegionBalancer) : option TEEPairMetrics :=
  List.find (λ m, bool_decide (pm_PairID m = pairID)) (pairs_of b regionID).

Lemma find_update_first pairID f l l' q :
  (∀ m, pm_PairID m = pairID → pm_PairID (f m) = pairID) →
  update_first pairID f l = Some l' →
  List.find (λ m, bool_decide (pm_PairID m = q)) l' =
  if decide (q = pairID) then f <$> List.find (λ m, bool_decide (pm_PairID m = q)) l
  else List.find (λ m, bool_decide (pm_PairID m = q)) l.
Proof.
  intros Hf. revert l'. induction l as [|m l IH]; intros l' H; simpl in H; [done|].
  case_bool_decide as E; simplify_eq/=.
  - case_decide; subst; simpl.
    + rewrite !bool_decide_eq_true_2 by auto. done.
    + rewrite !bool_decide_eq_false_2; auto. rewrite Hf; auto.
  - destruct (update_first pairID f l) as [l''|]; simplify_eq/=. rewrite (IH l'' eq_refl).
    case_decide; subst; simpl; [by rewrite bool_decide_eq_false_2|done].
Qed.

Lemma find_app_snoc l m q :
  List.find (λ m, bool_decide (pm_PairID m = q)) (l ++ [m]) =
  match List.find (λ m, bool_decide (pm_PairID m = q)) l with
  | Some x => Some x
  | None => if bool_decide (pm_PairID m = q) then Some m else None
  end.
Proof. induction l as [|x l IH]; simpl; [done|]. by destruct (bool_decide (pm_PairID x = q)). Qed.

Lemma find_None_ids l q :
  q ∉ (pm_PairID <$> l) → List.find (λ m, bool_decide (pm_PairID m = q)) l = None.
Proof.
  induction l as [|x l IH]; simpl; [done|]. rewrite not_elem_of_cons. intros [? ?].
  rewrite bool_decide_eq_false_2 by done. auto.
Qed.

Lemma find_Some_ids l q :
  q ∈ (pm_PairID <$> l) → ∃ m, List.find (λ m, bool_decide (pm_PairID m = q)) l = Some m.
Proof.
  induction l as [|x l IH]; simpl; [by intros H%not_elem_of_nil|]. rewrite elem_of_cons. intros [->|?].
  - rewrite bool_decide_eq_true_2 by done. eauto.
  - case_bool_decide; eauto.
Qed.

(** Storing metrics under their own id makes them what the region holds for that
    pair, changes no other pair of any region, and keeps the pair ids of every
    region distinct. *)
Theorem UpdatePairMetrics_lookup regionID m b :
  let id := pm_PairID m in
  let b' := (UpdatePairMetrics regionID id (Some m) b).1 in
  (UpdatePairMetrics regionID id (Some m) b).2 = Ok tt ∧
  (∀ r q, find_pair r q b' = if decide (r = regionID ∧ q = id) then Some m else find_pair r q b) ∧
  (pairs_distinct b → pairs_distinct b').
Proof.
  cbv zeta. split; [done|]. unfold UpdatePairMetrics. go_unfold. unfold find_pair, pairs_distinct.
  set (b1 := with_pairs regionID (pairs_of b regionID) b).
  assert (∀ r, pairs_of b1 r = pairs_of b r) as Hb1.
  { intros r. unfold b1. rewrite pairs_of_with. by case_decide; subst. }
  rewrite Hb1. destruct (update_first (pm_PairID m) (λ _, m) (pairs_of b regionID)) as [l|] eqn:E; split.
  - intros r q. rewrite pairs_of_with, Hb1.
    destruct (decide (r = regionID)) as [->|]; [|rewrite decide_False by tauto; done].
    rewrite (find_update_first (pm_PairID m) (λ _, m) _ _ _ (λ _ _, eq_refl) E).
    destruct (decide (q = pm_PairID m)) as [->|]; [|rewrite decide_False by tauto; done].
    rewrite decide_True by done. destruct (find_Some_ids (pairs_of b regionID) (pm_PairID m)) as [x ->]; [|done].
    destruct (decide (pm_PairID m ∈ pm_PairID <$> pairs_of b regionID)) as [|Hn]; [done|].
    apply (update_first_None _ (λ _, m)) in Hn. congruence.
  - intros Hd r. rewrite pairs_of_with, Hb1. case_decide; [|apply Hd].
    rewrite (update_first_ids (pm_PairID m) (λ _, m) _ _ (λ _ _, eq_refl) E). apply Hd.
  - apply update_first_None in E. intros r q. rewrite pairs_of_with, Hb1.
    destruct (decide (r = regionID)) as [->|]; [|rewrite decide_False by tauto; done].
    rewrite find_app_snoc. destruct (decide (q = pm_PairID m)) as [->|].
    + rewrite find_None_ids, decide_True, bool_decide_eq_true_2 by done. done.
    + rewrite decide_False, bool_decide_eq_false_2 by naive_solver. by destruct (List.find _ _).
  - apply update_first_None in E. intros Hd r. rewrite pairs_of_with, Hb1. case_decide; [|apply Hd].
    rewrite fmap_app. apply NoDup_app. split_and!; [apply Hd| |apply NoDup_singleton].
    intros x Hx ->%list_elem_of_singleton. done.
Qed.

(** Metrics stored under an id that is not their own are appended every time and
    never found under that id. *)
Lemma UpdatePairMetrics_mismatch regionID pairID m b :
  pm_PairID m ≠ pairID → find_pair regionID pairID b = None →
  let b' := (UpdatePairMetrics regionID pairID (Some m) b).1 in
  find_pair regionID pairID b' = None ∧
  length (pairs_of b' regionID) = S (length (pairs_of b regionID)).
Proof.
  intros Hne Hf. unfold UpdatePairMetrics. go_unfold. unfold find_pair in *.
  set (b1 := with_pairs regionID (pairs_of b regionID) b).
  assert (pairs_of b1 regionID = pairs_of b regionID) as Hb1.
  { unfold b1. by rewrite pairs_of_with, decide_True. }
  rewrite Hb1. assert (update_first pairID (λ _, m) (pairs_of b regionID) = None) as ->.
  { apply update_first_None. intros [x Hx]%find_Some_ids. congruence. }
  rewrite pairs_of_with, decide_True, find_app_snoc, Hf, bool_decide_eq_false_2, length_app by done.
  split; [done|]. simpl. lia.
Qed.

(** A tick of the collector keeps the ids, so the pairs stay distinct, and a second
    tick at the same time changes nothing. *)
Lemma pairs_of_tick now b r : pairs_of (CollectMetrics_tick now b) r = collect_pair now <$> pairs_of b r.
Proof. unfold pairs_of, CollectMetrics_tick. simpl. rewrite lookup_fmap. by destruct (rb_pairMetrics b !! r). Qed.

Lemma CollectMetrics_tick_distinct now b : pairs_distinct b → pairs_distinct (CollectMetrics_tick now b).
Proof.
  intros H r. rewrite pairs_of_tick, <-list_fmap_compose. apply H.
Qed.

Lemma CollectMetrics_tick_idem now b :
  CollectMetrics_tick now (CollectMetrics_tick now b) = CollectMetrics_tick now b.
Proof.
  unfold CollectMetrics_tick. simpl. f_equal. apply map_eq. intros r. rewrite !lookup_fmap.
  destruct (rb_pairMetrics b !! r) as [l|]; simpl; [|done]. f_equal. rewrite map_map. by apply map_ext.
Qed.

Lemma UpdateSpecificPairMetrics_distinct regionID pairID f b :
  (∀ m, pm_PairID m = pairID → pm_PairID (f m) = pairID) → pairs_distinct b →
  pairs_distinct (UpdateSpecificPairMetrics regionID pairID f b).1.
Proof.
  intros Hf Hd r. unfold UpdateSpecificPairMetrics.
  destruct (rb_pairMetrics b !! regionID) as [l|] eqn:El; [|apply Hd].
  destruct (update_first pairID f l) as [l'|] eqn:E; [|apply Hd]. simpl. rewrite pairs_of_with.
  case_decide; [|apply Hd]. rewrite (update_first_ids _ _ _ _ Hf E). specialize (Hd regionID).
  unfold pairs_of in Hd. by rewrite El in Hd.
Qed.

(** Every pair [GetHealthyPairs] lists is one [SelectOptimalPair] may choose, as
    long as the load threshold is a number. *)
Lemma GetHealthyPairs_usable now regionID b id :
  f_le (bc_MaxLoadFactor (rb_thresholds b)) MaxFloat64 = true →
  id ∈ GetHealthyPairs now regionID b →
  ∃ m, m ∈ pairs_of b regionID ∧ pm_PairID m = id ∧ usable now (rb_thresholds b) m.
Proof.
  intros Hmax (m & -> & Hm)%list_elem_of_fmap. apply list_elem_of_In, filter_In in Hm as [Hm H].
  apply andb_true_iff in H as [[H1 H2]%andb_true_iff H3]. exists m.
  split_and!; [by apply list_elem_of_In|done|]. split_and!; [done..|]. by eapply f_lt_le_trans.
Qed.
