(* ===== verification/RegionManager.v ===== *)
(** Package [regions], the manager: region configurations, pair states and metrics
    in memory and in a persistent store ([regions/manager.go] and the manager's part
    of [regions/config.go]), the health checker ([regions/health.go]) and the
    performance monitor ([regions/monitor.go]).

    Configurations are shared by pointer between the table of configurations, the
    cache and the callers, and [AddTEEPair] changes one in place, so they live in a
    heap; an address that is not in the heap is the nil pointer.  The store is the
    interface [regions.Storage].  The cache lock is part of the state as one bit:
    whether some call is blocked for ever on it while holding it, after which every
    call that takes it blocks too. *)

From S2P Require Import Prelude GoTime Float64 KV Core RangeState RegionConfig Balancer.
From Stdlib Require Import ZArith Lia Ascii String.
From stdpp Require Import base tactics option list strings pretty gmap.

Local Open Scope Z_scope.

(** * The interface [regions.Storage]

    A pointer it returns may be nil. *)
Class RegionStorage (St : Type) : Type := {
  rs_SetRegionConfig : string → RegionConfig → go St unit;
  rs_GetRegionConfig : string → St → outcome (option RegionConfig);
  rs_DeleteRegionConfig : string → go St unit;
  rs_SaveTEEState : string → string → TEEPairState → go St unit;
  rs_GetTEEState : string → string → St → outcome (option TEEPairState);
  rs_SaveMetrics : string → string → TEEPairMetrics → go St unit;
  rs_GetMetrics : string → string → St → outcome (option TEEPairMetrics);
}.

(** What a store promises: it holds configurations by region and states and
    metrics by region and pair, for the region ids it keeps apart ([rs_id_ok]).  A
    value it can represent ([rs_config_ok] and so on) is written without error and
    read back; a write that fails changes nothing; no write touches another
    record; an absent record is an error. *)
Record RegionView : Type := mkView {
  v_config : string → option RegionConfig;
  v_state : string → string → option TEEPairState;
  v_metrics : string → string → option TEEPairMetrics;
}.

(** The records two views share. *)
Definition same_configs (v w : RegionView) : Prop := ∀ r, v_config w r = v_config v r.
Definition same_states (v w : RegionView) : Prop := ∀ r p, v_state w r p = v_state v r p.
Definition same_metrics (v w : RegionView) : Prop := ∀ r p, v_metrics w r p = v_metrics v r p.

Class RegionStorageLaws (St : Type) `{!RegionStorage St} : Type := {
  rs_view : St → RegionView;
  rs_id_ok : string → Prop;
  rs_config_ok : RegionConfig → Prop;
  rs_state_ok : TEEPairState → Prop;
  rs_metrics_ok : TEEPairMetrics → Prop;
  rs_Set_run : ∀ r c s, rs_id_ok r → ∃ s' o, rs_SetRegionConfig r c s = (s', o) ∧
    (rs_config_ok c → o = Ok tt) ∧
    ((∃ e, o = Err e) ∧ s' = s ∨
     o = Ok tt ∧ (rs_config_ok c → v_config (rs_view s') r = Some c) ∧
     (∀ r', rs_id_ok r' → r' ≠ r → v_config (rs_view s') r' = v_config (rs_view s) r') ∧
     same_states (rs_view s) (rs_view s') ∧ same_metrics (rs_view s) (rs_view s'));
  rs_Get_run : ∀ r s, match v_config (rs_view s) r with
    | Some c => rs_GetRegionConfig r s = Ok (Some c)
    | None => ∃ e, rs_GetRegionConfig r s = Err e
    end;
  rs_Delete_run : ∀ r s, rs_id_ok r → ∃ s', rs_DeleteRegionConfig r s = (s', Ok tt) ∧
    v_config (rs_view s') r = None ∧
    (∀ r', rs_id_ok r' → r' ≠ r → v_config (rs_view s') r' = v_config (rs_view s) r') ∧
    same_states (rs_view s) (rs_view s') ∧ same_metrics (rs_view s) (rs_view s');
  rs_SaveTEEState_run : ∀ r p st s, rs_id_ok r → ∃ s' o, rs_SaveTEEState r p st s = (s', o) ∧
    (rs_state_ok st → o = Ok tt) ∧
    ((∃ e, o = Err e) ∧ s' = s ∨
     o = Ok tt ∧ (rs_state_ok st → v_state (rs_view s') r p = Some st) ∧
     (∀ r' p', rs_id_ok r' → (r', p') ≠ (r, p) → v_state (rs_view s') r' p' = v_state (rs_view s) r' p') ∧
     same_configs (rs_view s) (rs_view s') ∧ same_metrics (rs_view s) (rs_view s'));
  rs_GetTEEState_run : ∀ r p s, match v_state (rs_view s) r p with
    | Some st => rs_GetTEEState r p s = Ok (Some st)
    | None => ∃ e, rs_GetTEEState r p s = Err e
    end;
  rs_SaveMetrics_run : ∀ r p m s, rs_id_ok r → ∃ s' o, rs_SaveMetrics r p m s = (s', o) ∧
    (rs_metrics_ok m → o = Ok tt) ∧
    ((∃ e, o = Err e) ∧ s' = s ∨
     o = Ok tt ∧ (rs_metrics_ok m → v_metrics (rs_view s') r p = Some m) ∧
     (∀ r' p', rs_id_ok r' → (r', p') ≠ (r, p) → v_metrics (rs_view s') r' p' = v_metrics (rs_view s) r' p') ∧
     same_configs (rs_view s) (rs_view s') ∧ same_states (rs_view s) (rs_view s'));
  rs_GetMetrics_run : ∀ r p s, match v_metrics (rs_view s) r p with
    | Some m => rs_GetMetrics r p s = Ok (Some m)
    | None => ∃ e, rs_GetMetrics r p s = Err e
    end;
}.

(** * State *)

Record PerformanceMetrics : Type := mkPerf {
  pf_CPU : float64;
  pf_Memory : float64;
  pf_NetworkLatency : Z;
  pf_TaskQueue : Z;
  pf_LastUpdate : Time;
}.

Record HealthThresholds : Type := mkHT {
  ht_MaxErrorRate : float64;
  ht_MinSuccessRate : float64;
  ht_MaxLatency : Z;
  ht_MaxLoadFactor : float64;
  ht_HealthyWindow : Z;
}.

(** The thresholds [NewHealthChecker] sets. *)
Definition NewHealthChecker_thresholds : HealthThresholds :=
  mkHT (f_lit 1 1) (f_lit 95 2) (5 * Second) (f_lit 8 1) (5 * Minute).

Record RegionManager (St : Type) : Type := mkMgr {
  mg_heap : gmap nat RegionConfig;
  mg_configs : gmap string nat;
  mg_cache : gmap string nat;
  mg_balancer : RegionBalancer;
  mg_store : St;
  mg_states : gmap string (gmap string TEEPairState);
  mg_metrics : gmap string (gmap string TEEPairMetrics);
  mg_health : HealthThresholds;
  mg_perf : gmap string (gmap string PerformanceMetrics);   (* the monitor's own table *)
  mg_monitor_closed : bool;                                 (* its [done] channel *)
  mg_deadlocked : bool;                                     (* [cacheLock] *)
}.
Arguments mkMgr {_} _ _ _ _ _ _ _ _ _ _ _.
Arguments mg_heap {_} _.
Arguments mg_configs {_} _.
Arguments mg_cache {_} _.
Arguments mg_balancer {_} _.
Arguments mg_store {_} _.
Arguments mg_states {_} _.
Arguments mg_metrics {_} _.
Arguments mg_health {_} _.
Arguments mg_perf {_} _.
Arguments mg_monitor_closed {_} _.
Arguments mg_deadlocked {_} _.

Section manager.
Context {St : Type} `{!RegionStorage St} `{MR : MapRange}.
Abbreviation RM := (RegionManager St).

Definition NewRegionManager (heap : gmap nat RegionConfig) (store : St) : RM :=
  mkMgr heap ∅ ∅ (NewRegionBalancer (Some DefaultBalancerConfig)) store ∅ ∅
    NewHealthChecker_thresholds ∅ false false.

Definition set_heap h (s : RM) : RM :=
  mkMgr h (mg_configs s) (mg_cache s) (mg_balancer s) (mg_store s) (mg_states s) (mg_metrics s)
    (mg_health s) (mg_perf s) (mg_monitor_closed s) (mg_deadlocked s).
Definition set_configs c (s : RM) : RM :=
  mkMgr (mg_heap s) c (mg_cache s) (mg_balancer s) (mg_store s) (mg_states s) (mg_metrics s)
    (mg_health s) (mg_perf s) (mg_monitor_closed s) (mg_deadlocked s).
Definition set_cache c (s : RM) : RM :=
  mkMgr (mg_heap s) (mg_configs s) c (mg_balancer s) (mg_store s) (mg_states s) (mg_metrics s)
    (mg_health s) (mg_perf s) (mg_monitor_closed s) (mg_deadlocked s).
Definition set_store st (s : RM) : RM :=
  mkMgr (mg_heap s) (mg_configs s) (mg_cache s) (mg_balancer s) st (mg_states s) (mg_metrics s)
    (mg_health s) (mg_perf s) (mg_monitor_closed s) (mg_deadlocked s).
Definition set_states x (s : RM) : RM :=
  mkMgr (mg_heap s) (mg_configs s) (mg_cache s) (mg_balancer s) (mg_store s) x (mg_metrics s)
    (mg_health s) (mg_perf s) (mg_monitor_closed s) (mg_deadlocked s).
Definition set_metrics x (s : RM) : RM :=
  mkMgr (mg_heap s) (mg_configs s) (mg_cache s) (mg_balancer s) (mg_store s) (mg_states s) x
    (mg_health s) (mg_perf s) (mg_monitor_closed s) (mg_deadlocked s).
Definition set_perf x (s : RM) : RM :=
  mkMgr (mg_heap s) (mg_configs s) (mg_cache s) (mg_balancer s) (mg_store s) (mg_states s) (mg_metrics s)
    (mg_health s) x (mg_monitor_closed s) (mg_deadlocked s).
Definition set_monitor_closed (s : RM) : RM :=
  mkMgr (mg_heap s) (mg_configs s) (mg_cache s) (mg_balancer s) (mg_store s) (mg_states s) (mg_metrics s)
    (mg_health s) (mg_perf s) true (mg_deadlocked s).
Definition set_deadlocked (s : RM) : RM :=
  mkMgr (mg_heap s) (mg_configs s) (mg_cache s) (mg_balancer s) (mg_store s) (mg_states s) (mg_metrics s)
    (mg_health s) (mg_perf s) (mg_monitor_closed s) true.

Definition on_store {A} (m : go St A) : go RM A := zoom mg_store set_store m.

(** A call that takes [cacheLock], for reading or for writing, and releases it. *)
Definition locked {A} (m : go RM A) : go RM A := λ s,
  if mg_deadlocked s then (s, Hang "cacheLock") else m s.

(** Reading through a pointer. *)
Definition deref (a : nat) : go RM RegionConfig := λ s,
  match mg_heap s !! a with Some c => (s, Ok c) | None => (s, Panic nil_deref) end.

Definition alloc (c : RegionConfig) : go RM nat := λ s,
  let a := S (list_max (map_to_list (mg_heap s)).*1) in
  (set_heap (<[a := c]> (mg_heap s)) s, Ok a).

Definition notFound (regionID : string) : goerr := Errorf ("region not found: " +s+ regionID).

(** * Configurations ([regions/config.go]) *)

Definition UpdateConfig (regionID : string) (config : nat) : go RM unit :=
  c ← deref config;
  lift (RegionConfig_Validate c) ;;
  fail_if (bool_decide (rc_ID c ≠ regionID)) (Wrapf "ID mismatch" ErrInvalidConfig) ;;
  wrap "failed to store config" (on_store (rs_SetRegionConfig regionID c)) ;;
  modify (λ s, set_configs (<[regionID := config]> (mg_configs s)) s).

Definition GetConfig (regionID : string) : go RM nat :=
  hit ← gets (λ s, mg_configs s !! regionID);
  match hit with
  | Some a => mret a
  | None =>
      r ← wrap "failed to load config" (on_store (λ st, (st, rs_GetRegionConfig regionID st)));
      match r with
      | None => fail ErrConfigNotFound
      | Some c =>
          a ← alloc c;
          modify (λ s, set_configs (<[regionID := a]> (mg_configs s)) s) ;;
          mret a
      end
  end.

(** The configuration in memory is not removed. *)
Definition RM_DeleteRegion (regionID : string) : go RM unit :=
  wrap "failed to delete region config" (on_store (rs_DeleteRegionConfig regionID)).

Definition FindTEEPair (regionID sgxID sevID : string) : go RM TEEPair :=
  a ← GetConfig regionID;
  c ← deref a;
  match List.find (λ p, bool_decide (tp_SGXID p = sgxID) && bool_decide (tp_SEVID p = sevID)) (rc_TEEPairs c) with
  | Some p => mret p
  | None => fail ErrInvalidTEEPair
  end.

Definition ValidateTEEPair (regionID sgxID sevID : string) : go RM unit :=
  FindTEEPair regionID sgxID sevID ;; mret tt.

Definition missing (regionID : string) : goerr := Errorf ("region " +s+ regionID +s+ " not found").

Definition add_pair (p : TEEPair) (c : RegionConfig) : RegionConfig :=
  mkRegionConfig (rc_ID c) (rc_TEEPairs c ++ [p]) (rc_MaxObjects c) (rc_MaxEvents c) (rc_LoadBalancer c) (rc_Location c).

(** [config.TEEPairs = append(config.TEEPairs, *pair)] through the cached pointer. *)
Definition RM_AddTEEPair (regionID : string) (p : option TEEPair) : go RM unit :=
  locked (
    hit ← gets (λ s, mg_cache s !! regionID);
    match hit with
    | None => fail (missing regionID)
    | Some a =>
        c ← deref a;
        match p with
        | None => gopanic nil_deref
        | Some pr =>
            modify (λ s, set_heap (<[a := add_pair pr c]> (mg_heap s)) s) ;;
            on_store (rs_SetRegionConfig regionID (add_pair pr c))
        end
    end).

Definition GetTEEPairs (regionID : string) : go RM (list TEEPair) :=
  locked (
    hit ← gets (λ s, mg_cache s !! regionID);
    match hit with
    | None => fail (missing regionID)
    | Some a => c ← deref a; mret (rc_TEEPairs c)
    end).

(** The read lock is still held when the write lock is asked for: a region that is
    not cached blocks the call for ever, with the lock. *)
Definition GetRegionConfig (regionID : string) : go RM nat :=
  locked (
    hit ← gets (λ s, mg_cache s !! regionID);
    match hit with
    | Some a => mret a
    | None => modify set_deadlocked ;; gohang "cacheLock"
    end).

Definition UpdateCache (regionID : string) (config : nat) : go RM unit :=
  locked (modify (λ s, set_cache (<[regionID := config]> (mg_cache s)) s)).
Definition ClearCache : go RM unit := locked (modify (set_cache ∅)).
Definition InvalidateCache (regionID : string) : go RM unit :=
  locked (modify (λ s, set_cache (delete regionID (mg_cache s)) s)).
Definition ListRegions : go RM (list string) :=
  locked (gets (λ s, (range_map 0 (mg_configs s)).*1)).

(** * Pair states and metrics ([regions/manager.go]) *)

Definition put_state (regionID pairID : string) (st : TEEPairState) : go RM unit :=
  modify (λ s, set_states (<[regionID := <[pairID := st]> (default ∅ (mg_states s !! regionID))]> (mg_states s)) s).
Definition put_metrics (regionID pairID : string) (m : TEEPairMetrics) : go RM unit :=
  modify (λ s, set_metrics (<[regionID := <[pairID := m]> (default ∅ (mg_metrics s !! regionID))]> (mg_metrics s)) s).

Definition initial_state (now : Time) : TEEPairState := mkTPS "active" now 0 0 f_zero f_one 0.
Definition initial_metrics (now : Time) : TEEPairMetrics :=
  mkTPM f_one 0 f_zero 0 now f_zero 0 "" "" "" zeroTime 0 "" f_zero f_zero f_zero zeroTime 0 0 0 0.

(** The region's tables are made together when the table of states is missing; an
    assignment to a table of metrics that is missing then is one to a nil map. *)
Definition RegisterTEEPair (now : Time) (regionID : string) (config : nat) : go RM unit :=
  locked (
    modify (λ s, match mg_states s !! regionID with
      | Some _ => s
      | None => set_metrics (<[regionID := ∅]> (mg_metrics s)) (set_states (<[regionID := ∅]> (mg_states s)) s)
      end) ;;
    modify (λ s, set_configs (<[regionID := config]> (mg_configs s)) s) ;;
    c ← deref config;
    put_state regionID (rc_ID c) (initial_state now) ;;
    present ← gets (λ s, bool_decide (is_Some (mg_metrics s !! regionID)));
    (if present : bool then put_metrics regionID (rc_ID c) (initial_metrics now)
     else gopanic "assignment to entry in nil map") ;;
    wrap "failed to save config" (on_store (rs_SetRegionConfig regionID c)) ;;
    wrap "failed to save state" (on_store (rs_SaveTEEState regionID (rc_ID c) (initial_state now))) ;;
    wrap "failed to save metrics" (on_store (rs_SaveMetrics regionID (rc_ID c) (initial_metrics now)))).

(** [if state.Status == "active" { state.LastHealthy = time.Now() }]. *)
Definition touch_active (now : Time) (st : TEEPairState) : TEEPairState :=
  if bool_decide (ps_Status st = "active")
  then mkTPS (ps_Status st) now (ps_ActiveTasks st) (ps_ErrorCount st) (ps_LoadFactor st)
         (ps_SuccessRate st) (ps_AverageLatency st)
  else st.

Definition UpdateTEEState (now : Time) (regionID pairID : string) (update : TEEPairState → TEEPairState) :
    go RM unit :=
  locked (
    hit ← gets (λ s, mg_configs s !! regionID);
    match hit with
    | None => fail (notFound regionID)
    | Some a =>
        c ← deref a;
        fail_if (negb (existsb (λ p, bool_decide (tp_ID p = pairID)) (rc_TEEPairs c)))
          (Errorf ("TEE pair " +s+ pairID +s+ " not found in region " +s+ regionID)) ;;
        old ← gets (λ s, mg_states s !! regionID ≫= (.!! pairID));
        let st := touch_active now (update (default (mkTPS "active" now 0 0 f_zero f_zero 0) old)) in
        put_state regionID pairID st ;;
        on_store (rs_SaveTEEState regionID pairID st)
    end).

Definition copy_metrics (m : TEEPairMetrics) (st : TEEPairState) : TEEPairState :=
  mkTPS (ps_Status st) (ps_LastHealthy st) (ps_ActiveTasks st) (ps_ErrorCount st)
    (pm_LoadFactor m) (pm_SuccessRate m) (pm_AverageLatency m).
Definition with_status (status : string) (st : TEEPairState) : TEEPairState :=
  mkTPS status (ps_LastHealthy st) (ps_ActiveTasks st) (ps_ErrorCount st)
    (ps_LoadFactor st) (ps_SuccessRate st) (ps_AverageLatency st).

Definition RM_UpdateMetrics (now : Time) (regionID pairID : string) (update : TEEPairMetrics → TEEPairMetrics) :
    go RM unit :=
  locked (
    hit ← gets (λ s, mg_configs s !! regionID);
    match hit with
    | None => fail (notFound regionID)
    | Some a =>
        old ← gets (λ s, mg_metrics s !! regionID ≫= (.!! pairID));
        let m := update (default (initial_metrics now) old) in
        put_metrics regionID pairID m ;;
        ost ← gets (λ s, mg_states s !! regionID ≫= (.!! pairID));
        match ost with
        | None => mret tt
        | Some st =>
            put_state regionID pairID (copy_metrics m st) ;;
            c ← deref a;
            let st' := with_status (if f_lt (lb_MaxLoadFactor (rc_LoadBalancer c)) (pm_LoadFactor m)
                                    then "degraded" else "active") (copy_metrics m st) in
            put_state regionID pairID st' ;;
            wrap "failed to save updated state" (on_store (rs_SaveTEEState regionID pairID st'))
        end ;;
        on_store (rs_SaveMetrics regionID pairID m)
    end).

Definition pairNotFound (pairID : string) : goerr := Errorf ("TEE pair not found: " +s+ pairID).

Definition RM_GetTEEState (regionID pairID : string) : go RM TEEPairState :=
  locked (λ s,
    (s, match mg_states s !! regionID with
        | None => Err (notFound regionID)
        | Some l => match l !! pairID with Some st => Ok st | None => Err (pairNotFound pairID) end
        end)).

Definition RM_GetMetrics (regionID pairID : string) : go RM TEEPairMetrics :=
  locked (λ s,
    (s, match mg_metrics s !! regionID with
        | None => Err (notFound regionID)
        | Some l => match l !! pairID with Some m => Ok m | None => Err (pairNotFound pairID) end
        end)).

(** The metrics built from a state. *)
Definition metrics_from_state (now : Time) (st : TEEPairState) : TEEPairMetrics :=
  mkTPM (ps_SuccessRate st) (ps_AverageLatency st) f_zero 0 zeroTime (ps_LoadFactor st) 0 "" "" ""
    now 0 (ps_Status st) f_zero f_zero f_zero zeroTime 0 0 0 0.

Definition collectRegionMetrics (now : Time) (regionID : string) : go RM unit :=
  pairs ← locked (gets (λ s, TPS_Clone <$> default ∅ (mg_states s !! regionID)));
  for_each (λ '(pairID, st),
    wrap ("failed to update metrics for pair " +s+ pairID)
      (RM_UpdateMetrics now regionID pairID (λ _, metrics_from_state now st)))
    (range_map 0 pairs).

Definition health_update (now : Time) (healthy : bool) (st : TEEPairState) : TEEPairState :=
  if healthy
  then mkTPS "healthy" now (ps_ActiveTasks st) 0 (ps_LoadFactor st) (ps_SuccessRate st) (ps_AverageLatency st)
  else mkTPS "unhealthy" (ps_LastHealthy st) (ps_ActiveTasks st) (int64 (ps_ErrorCount st + 1))
         (ps_LoadFactor st) (ps_SuccessRate st) (ps_AverageLatency st).

Definition UpdateHealthStatus (now : Time) (regionID pairID : string) (healthy : bool) : go RM unit :=
  UpdateTEEState now regionID pairID (health_update now healthy).

Definition isPairHealthy (now : Time) (st : option TEEPairState) : bool :=
  match st with
  | None => false
  | Some st =>
      (Since now (ps_LastHealthy st) <? 5 * Minute) && (ps_ErrorCount st <? 3) &&
      f_le (f_lit 95 2) (ps_SuccessRate st) && f_lt (ps_LoadFactor st) (f_lit 8 1)
  end.

(** A tick of [MonitorRegionHealth]; errors of a pair are printed. *)
Definition checkRegionHealth (now : Time) (regionID : string) : go RM unit :=
  hit ← gets (λ s, mg_configs s !! regionID);
  match hit with
  | None => fail (notFound regionID)
  | Some a =>
      c ← deref a;
      for_each (λ p,
        r ← try (RM_GetTEEState regionID (tp_ID p));
        match r with
        | inr _ => mret tt
        | inl st => try (UpdateHealthStatus now regionID (tp_ID p) (isPairHealthy now (Some st))) ;; mret tt
        end) (rc_TEEPairs c)
  end.

(** Saved as the state of a pair named after the status. *)
Definition UpdateRegionHealth (regionID : string) (h : HealthStatus) : go RM unit :=
  on_store (rs_SaveTEEState regionID (hs_Status h)
    (mkTPS (hs_Status h) (hs_LastCheck h) 0 (hs_ErrorCount h) (hs_LoadFactor h) (hs_SuccessRate h)
       (hs_AverageLatency h))).

(** Read as the state of the pair with the empty name. *)
Definition RM_GetRegionHealth (regionID : string) : go RM HealthStatus :=
  r ← on_store (λ st, (st, rs_GetTEEState regionID "" st));
  match r with
  | None => gopanic nil_deref
  | Some st => mret (mkHealth (ps_Status st) (ps_LastHealthy st) (ps_ErrorCount st) (ps_SuccessRate st)
                       (ps_LoadFactor st) (ps_AverageLatency st))
  end.

Definition UpdateRegionMetrics (regionID : string) (m : TEEPairMetrics) : go RM unit :=
  on_store (rs_SaveMetrics regionID "" m).

(** [close] of a closed channel panics. *)
Definition StopMonitoring : go RM unit :=
  closed ← gets mg_monitor_closed;
  if closed : bool then gopanic "close of closed channel" else modify set_monitor_closed.
Definition RM_Stop : go RM unit := StopMonitoring ;; mret tt.

(** * The health checker ([regions/health.go]) *)

Definition isHealthy (th : HealthThresholds) (h : HealthStatus) : bool :=
  (hs_ErrorCount h <? 3) && f_le (ht_MinSuccessRate th) (hs_SuccessRate h) &&
  f_lt (hs_LoadFactor h) (ht_MaxLoadFactor th) && (hs_AverageLatency h <? ht_MaxLatency th).

Definition checkTEEPair (now : Time) (regionID pairID : string) : go RM HealthStatus :=
  m ← wrap "failed to get metrics" (RM_GetMetrics regionID pairID);
  st ← wrap "failed to get state" (RM_GetTEEState regionID pairID);
  th ← gets mg_health;
  let h status := mkHealth status now (ps_ErrorCount st) (pm_SuccessRate m) (pm_LoadFactor m) (pm_AverageLatency m) in
  mret (h (if isHealthy th (h "") then "healthy" else "unhealthy")).

Definition checkRegion (now : Time) (regionID : string) : go RM unit :=
  pairs ← wrap "failed to get TEE pairs" (GetTEEPairs regionID);
  for_each (λ p,
    r ← try (checkTEEPair now regionID (tp_ID p));
    match r with
    | inr _ => mret tt
    | inl h => try (UpdateRegionHealth regionID h) ;; mret tt
    end) pairs.

Definition performHealthChecks (now : Time) : go RM unit :=
  ids ← ListRegions;
  for_each (λ id, try (checkRegion now id) ;; mret tt) ids.

Definition updatePairHealth (now : Time) (regionID pairID : string) (h : HealthStatus) : go RM unit :=
  UpdateTEEState now regionID pairID (λ st,
    mkTPS (hs_Status h) (hs_LastCheck h) (ps_ActiveTasks st) (hs_ErrorCount h) (hs_LoadFactor h)
      (hs_SuccessRate h) (hs_AverageLatency h)).

(** * The performance monitor ([regions/monitor.go]) *)

Definition collectPairMetrics (now : Time) : PerformanceMetrics :=
  mkPerf f_zero f_zero (100 * Millisecond) 0 now.

(** What a tick persists for a pair: every field the literal does not name is zero. *)
Definition monitored_metrics (now : Time) (pairID : string) (pf : PerformanceMetrics) : TEEPairMetrics :=
  mkTPM f_zero 0 f_zero 0 zeroTime f_zero (pf_NetworkLatency pf) pairID "" "" now 0 "" (pf_CPU pf)
    (pf_Memory pf) (f_of_Z (Milliseconds (pf_NetworkLatency pf))) zeroTime 0 (u64 (pf_TaskQueue pf)) 0 0.

Definition put_perf (regionID pairID : string) (pf : PerformanceMetrics) : go RM unit :=
  modify (λ s, set_perf (<[regionID := <[pairID := pf]> (default ∅ (mg_perf s !! regionID))]> (mg_perf s)) s).

(** A tick of the monitor. *)
Definition collectMetrics (now : Time) : go RM unit :=
  ids ← ListRegions;
  for_each (λ id,
    r ← try (GetTEEPairs id);
    match r with
    | inr _ => mret tt
    | inl pairs =>
        for_each (λ p,
          let pf := collectPairMetrics now in
          put_perf id (tp_ID p) pf ;;
          try (on_store (rs_SaveMetrics id (tp_ID p) (monitored_metrics now (tp_ID p) pf))) ;;
          mret tt) pairs
    end) ids.

Definition Monitor_updateMetrics (regionID pairID : string) (pf : PerformanceMetrics) : go RM unit :=
  put_perf regionID pairID pf.

Definition Monitor_GetMetrics (regionID pairID : string) : go RM PerformanceMetrics := λ s,
  (s, match mg_perf s !! regionID ≫= (.!! pairID) with
      | Some pf => Ok pf
      | None => Err (Errorf ("no metrics found for TEE pair " +s+ pairID +s+ " in region " +s+ regionID))
      end).
End manager.
