(* ===== verification/Background.v ===== *)
(** The background loops: the performance monitor and the health checker of the region
    manager ([regions/monitor.go], [health.go], [manager.go]), the worker monitor of
    the coordinator ([coordination/coordinator.go]).

    A loop is a [select] between a ticker and the ways to stop; what it receives is a
    list of events, and every tick runs the body once.  Errors of the body are printed
    and the loop goes on. *)

From S2P Require Import Prelude GoTime Float64 KV Core Channel Worker Coordinator RangeState RegionConfig Balancer RegionManager.
From Stdlib Require Import ZArith Lia Ascii String.
From stdpp Require Import base tactics option list strings pretty gmap.

Local Open Scope Z_scope.

Inductive loop_event : Type :=
  | OnTick (now : Time)
  | OnDone         (* the channel [done] of the loop's owner *)
  | OnCancel.      (* the context *)

(** [listens e]: the loop has a case for this way to stop. *)
Fixpoint ticker_loop {S} (listens : loop_event → bool) (body : Time → go S unit) (events : list loop_event) : go S unit :=
  match events with
  | [] => mret tt
  | OnTick now :: es => try (body now) ;; ticker_loop listens body es
  | e :: es => if listens e then mret tt else ticker_loop listens body es
  end.

Definition any_stop (e : loop_event) : bool := true.
Definition only_cancel (e : loop_event) : bool := match e with OnCancel => true | _ => false end.
Definition only_done (e : loop_event) : bool := match e with OnDone => true | _ => false end.

Section regions.
Context {St : Type} `{!RegionStorage St} `{MR : MapRange}.
Abbreviation RM := (RegionManager St).

Definition PerformanceMonitor_Start (events : list loop_event) : go RM unit := ticker_loop any_stop collectMetrics events.
Definition PerformanceMonitor_Stop : go RM unit := StopMonitoring.
Definition HealthChecker_StartHealthChecks (events : list loop_event) : go RM unit :=
  ticker_loop only_cancel performHealthChecks events.
Definition MonitorRegionHealth (regionID : string) (events : list loop_event) : go RM unit :=
  ticker_loop only_cancel (λ now, checkRegionHealth now regionID) events.

(** The monitor is made with the manager, so starting it cannot fail. *)
Definition StartMonitoring (events : list loop_event) : go RM unit := PerformanceMonitor_Start events.

(** The loops that work on a region manager, together: their ticks interleave.  The VM's
    own health monitor is in [Monitoring.v]. *)
Inductive job : Type := PerfJob | HealthJob | RegionJob (regionID : string) | BalancerJob.
Definition run_job (j : job) (now : Time) : go RM unit :=
  match j with
  | PerfJob => collectMetrics now
  | HealthJob => performHealthChecks now
  | RegionJob r => checkRegionHealth now r
  | BalancerJob => modify (λ s, mkMgr (mg_heap s) (mg_configs s) (mg_cache s) (CollectMetrics_tick now (mg_balancer s))
      (mg_store s) (mg_states s) (mg_metrics s) (mg_health s) (mg_perf s) (mg_monitor_closed s) (mg_deadlocked s))
  end.
Definition run_loops (steps : list (job * Time)) : go RM unit :=
  for_each (λ '(j, now), try (run_job j now) ;; mret tt) steps.
End regions.

(** The worker monitor of the coordinator; [order] is the order of the map of workers at
    each round. *)
Definition monitorWorkerHealth {B} (order : Time → list string) (events : list loop_event) : go (Coordinator B) unit :=
  ticker_loop only_done (λ now, checkWorkerHealth now (order now)) events.

(** * Properties *)

(** What comes after a stop the loop listens to is not seen. *)
Lemma ticker_loop_stops {S} listens (body : Time → go S unit) es e es' s :
  (∀ now, e ≠ OnTick now) → listens e = true → ticker_loop listens body (es ++ e :: es') s = ticker_loop listens body es s.
Proof.
  intros Hne Hl. revert s. induction es as [|e0 es IH]; intros s; simpl.
  - destruct e as [now| |]; [by destruct (Hne now)|simpl; by rewrite Hl..].
  - destruct e0 as [now| |]; [|destruct (listens OnDone); [done|apply IH]|destruct (listens OnCancel); [done|apply IH]].
    unfold mbind, go_bind. destruct (try (body now) s) as [s1 [a| | |]]; [apply IH|done..].
Qed.

(** A loop does not return an error. *)
Lemma ticker_loop_no_error {S} listens (body : Time → go S unit) es s e : (ticker_loop listens body es s).2 ≠ Err e.
Proof.
  revert s. induction es as [|[now| |] es IH]; intros s; simpl;
    [done| |destruct (listens OnDone); [done|apply IH]|destruct (listens OnCancel); [done|apply IH]].
  unfold mbind, go_bind, try. destruct (body now s) as [s1 [a| | |]]; try done; apply IH.
Qed.

Section regions.
Context {St : Type} `{!RegionStorage St} `{MR : MapRange}.
Abbreviation RM := (RegionManager St).

(** What the background work never touches: the configurations, in memory and cached,
    the thresholds, and the locks. *)
Definition keeps (s s' : RM) : Prop :=
  mg_heap s' = mg_heap s ∧ mg_configs s' = mg_configs s ∧ mg_cache s' = mg_cache s ∧ mg_health s' = mg_health s ∧
  mg_monitor_closed s' = mg_monitor_closed s ∧ mg_deadlocked s' = mg_deadlocked s.

#[export] Instance keeps_preorder : PreOrder keeps.
Proof. split; [by intros s|]. intros a b c (?&?&?&?&?&?) (?&?&?&?&?&?). repeat split; congruence. Qed.

Lemma preserves_locked {A} (m : go RM A) : preserves keeps m → preserves keeps (locked m).
Proof using Type. intros H s. unfold locked. destruct (mg_deadlocked s); [by repeat split|apply H]. Qed.
Lemma keeps_on_store {A} (m : go St A) : preserves keeps (on_store m).
Proof using Type. intros s. unfold on_store, zoom. by destruct (m (mg_store s)). Qed.
Lemma preserves_deref a : preserves keeps (deref a).
Proof using Type. intros s. unfold deref. by destruct (mg_heap s !! a). Qed.
Lemma preserves_ListRegions : preserves keeps ListRegions.
Proof using Type. apply preserves_locked. by intros s. Qed.
Lemma preserves_GetTEEPairs r : preserves keeps (GetTEEPairs r).
Proof using Type.
  apply preserves_locked, preserves_bind; [apply _|by intros s|]. intros [a|]; [|by intros s].
  apply preserves_bind; [apply _|apply preserves_deref|]. by intros c s.
Qed.
Lemma preserves_GetTEEState r p : preserves keeps (RM_GetTEEState r p).
Proof using Type. apply preserves_locked. by intros s. Qed.
Lemma preserves_GetMetrics r p : preserves keeps (RM_GetMetrics r p).
Proof using Type. apply preserves_locked. by intros s. Qed.
Lemma preserves_UpdateTEEState now r p f : preserves keeps (UpdateTEEState now r p f).
Proof using Type.
  apply preserves_locked, preserves_bind; [apply _|by intros s|]. intros [a|]; [|by intros s].
  apply preserves_bind; [apply _|apply preserves_deref|]. intros c.
  apply preserves_bind; [apply _|by destruct (negb _); intros s|]. intros _.
  apply preserves_bind; [apply _|by intros s|]. intros old.
  apply preserves_bind; [apply _|by intros s|]. intros _. apply keeps_on_store.
Qed.

#[local] Hint Resolve keeps_on_store preserves_deref preserves_ListRegions preserves_GetTEEPairs preserves_GetTEEState
  preserves_GetMetrics preserves_UpdateTEEState : pres_db.

Lemma preserves_checkRegionHealth now r : preserves keeps (checkRegionHealth now r).
Proof using Type. unfold checkRegionHealth, UpdateHealthStatus. solve_preserves idtac. Qed.
Lemma preserves_performHealthChecks now : preserves keeps (performHealthChecks now).
Proof using Type. unfold performHealthChecks, checkRegion, checkTEEPair, UpdateRegionHealth. solve_preserves idtac. Qed.
Lemma preserves_collectMetrics now : preserves keeps (collectMetrics now).
Proof using Type. unfold collectMetrics, put_perf. solve_preserves ltac:(by repeat split). Qed.

(** Whatever the loops on a region manager do and however their ticks interleave, the
    configurations, the cache, the thresholds and the locks of the manager stay as they
    are: only states, metrics and the balancer's records move. *)
Theorem loops_keep_configuration (steps : list (job * Time)) : preserves keeps (run_loops (St := St) steps).
Proof using Type.
  apply preserves_for_each; [apply _|]. intros [j now]. apply preserves_bind; [apply _| |by intros _ s].
  apply preserves_try. destruct j; simpl; [apply preserves_collectMetrics|apply preserves_performHealthChecks|
    apply preserves_checkRegionHealth|by intros s].
Qed.
End regions.
