(* ===== verification/RegionStateStore.v ===== *)
(** The store behind the region manager, [storage/region_state_store.go]: records
    encoded as JSON under keys of the state manager, and the proof that it keeps
    the contract of [regions.Storage].

    The keys are built by [makeRegionKey] with its first two arguments exchanged:
    ["config/<region>/"], ["state/<region>/<pair>"], ["metrics/<region>/<pair>"].
    None is a regional key, so the state manager serves them from its backing
    store, which is the [Mutable] here. *)

From S2P Require Import Prelude GoTime Float64 KV Core RangeState StateManager StateManagerFacts RegionConfig Balancer RegionManager.
From Stdlib Require Import ZArith Lia Ascii String SpecFloat.
From stdpp Require Import base tactics option list strings pretty gmap.

(** * [encoding/json] at types that hold floats

    [json.Marshal] fails on a NaN or an infinity, so it is partial; the values that
    survive a round trip ([encodable]: finite floats, years 0 to 9999, valid UTF-8)
    are left to the instance. *)
Class FJson (A : Type) : Type := {
  FMarshal : A → outcome string;
  FUnmarshal : string → outcome A;
}.

Class FJsonLaws (A : Type) `{!FJson A} : Type := {
  encodable : A → Prop;
  FMarshal_encodable : ∀ a, encodable a → ∃ s, FMarshal a = Ok s ∧ FUnmarshal s = Ok a;
  FMarshal_total : ∀ a, (∃ s, FMarshal a = Ok s) ∨ (∃ e, FMarshal a = Err e);
  FUnmarshal_total : ∀ s, (∃ a, FUnmarshal s = Ok a) ∨ (∃ e : goerr, FUnmarshal (A := A) s = Err e);
}.

Record SettingsLB : Type := mkSLB {
  sl_MaxLoadFactor : float64;
  sl_MaxLatencyMs : float64;
  sl_MaxErrorRate : float64;
  sl_MinActiveWorkers : Z;
  sl_MaxPendingTasks : Z;
  sl_HealthCheckWindow : Z;
}.

Record RegionSettings : Type := mkSettings {
  se_MaxObjects : Z;
  se_MaxEvents : Z;
  se_LoadBalancer : SettingsLB;
}.

Section store.
Context {S : Type} `{!Mutable S}.
Context `{!FJson RegionConfig, !FJson TEEPairState, !FJson TEEPairMetrics, !FJson RegionSettings}.
Context `{!Json (gomap json)}.

Definition RSS_GetRegionConfig (regionID : string) (s : S) : outcome (option RegionConfig) :=
  match mu_GetValue (makeRegionKey "config" regionID "") s with
  | Ok value =>
      match FUnmarshal value with
      | Ok config => Ok (Some config)
      | Err e => Err (Wrapf "failed to unmarshal region config" e)
      | Panic w => Panic w
      | Hang w => Hang w
      end
  | Err e => Err (Wrapf "failed to get region config" e)
  | Panic w => Panic w
  | Hang w => Hang w
  end.

Definition RSS_SetRegionConfig (regionID : string) (config : RegionConfig) : go S unit :=
  data ← wrap "failed to marshal region config" (lift (FMarshal config));
  wrap "failed to store region config" (mu_Insert (makeRegionKey "config" regionID "") data).

(** [region["id"].(string)] panics when the id is not a string. *)
Definition RSS_SaveRegion (region : gomap json) : go S unit :=
  let data := Marshal region in
  match map_lookup region "id" with
  | Some (GenLeaf id) =>
      wrap "failed to store region config" (mu_Insert (makeRegionKey "config" id "") data)
  | _ => gopanic "interface conversion"
  end.

Definition RSS_LoadRegion (id : string) (s : S) : outcome (gomap json) :=
  match mu_GetValue (makeRegionKey "config" id "") s with
  | Ok data => match Unmarshal data with
               | Err e => Err (Wrapf "failed to unmarshal region config" e)
               | r => r
               end
  | Err e => Err e
  | Panic w => Panic w
  | Hang w => Hang w
  end.

Definition RSS_DeleteRegionConfig (regionID : string) : go S unit :=
  mu_Remove (makeRegionKey "config" regionID "").

Definition GetRegionSettings (regionID : string) (s : S) : outcome RegionSettings :=
  match mu_GetValue (makeRegionKey "settings" regionID "") s with
  | Ok data => match FUnmarshal data with
               | Err e => Err (Wrapf "failed to unmarshal region settings" e)
               | r => r
               end
  | Err e => Err e
  | Panic w => Panic w
  | Hang w => Hang w
  end.

Definition SaveRegionSettings (regionID : string) (settings : RegionSettings) : go S unit :=
  data ← wrap "failed to marshal region settings" (lift (FMarshal settings));
  mu_Insert (makeRegionKey "settings" regionID "") data.

Definition config_prefix : string := "region/config/".

(** The loop over the iterator of the state manager, whose database has the given
    entries under the prefix; it turns once per entry at most. *)
Definition RSS_ListRegions (ctx : option goerr) (entries : list (string * string)) : outcome (list string) :=
  let '(visited, i) := drain (Datatypes.S (length entries)) (NewRegionIterator ctx entries config_prefix) in
  match Iter_Error i with
  | Some e => Err (Wrapf "iteration failed" e)
  | None =>
      Ok ((λ kv, drop_str (String.length config_prefix) kv.1) <$>
          List.filter (λ kv, (slen config_prefix <? slen kv.1)%Z) visited)
  end.

Definition RSS_GetTEEState (regionID pairID : string) (s : S) : outcome (option TEEPairState) :=
  match mu_GetValue (makeRegionKey "state" regionID pairID) s with
  | Ok value =>
      match FUnmarshal value with
      | Ok st => Ok (Some st)
      | Err e => Err (Wrapf "failed to unmarshal TEE state" e)
      | Panic w => Panic w
      | Hang w => Hang w
      end
  | Err e => Err (Wrapf "failed to get TEE state" e)
  | Panic w => Panic w
  | Hang w => Hang w
  end.

Definition RSS_SaveTEEState (regionID pairID : string) (st : TEEPairState) : go S unit :=
  data ← wrap "failed to marshal TEE state" (lift (FMarshal st));
  wrap "failed to store TEE state" (mu_Insert (makeRegionKey "state" regionID pairID) data).

Definition RSS_GetMetrics (regionID pairID : string) (s : S) : outcome (option TEEPairMetrics) :=
  match mu_GetValue (makeRegionKey "metrics" regionID pairID) s with
  | Ok value =>
      match FUnmarshal value with
      | Ok m => Ok (Some m)
      | Err e => Err (Wrapf "failed to unmarshal metrics" e)
      | Panic w => Panic w
      | Hang w => Hang w
      end
  | Err e => Err (Wrapf "failed to get metrics" e)
  | Panic w => Panic w
  | Hang w => Hang w
  end.

Definition RSS_SaveMetrics (regionID pairID : string) (m : TEEPairMetrics) : go S unit :=
  data ← wrap "failed to marshal metrics" (lift (FMarshal m));
  wrap "failed to store metrics" (mu_Insert (makeRegionKey "metrics" regionID pairID) data).

(** The store implements the interface [regions.Storage]. *)
#[export] Instance RegionStateStore : RegionStorage S := {
  rs_SetRegionConfig := RSS_SetRegionConfig;
  rs_GetRegionConfig := RSS_GetRegionConfig;
  rs_DeleteRegionConfig := RSS_DeleteRegionConfig;
  rs_SaveTEEState := RSS_SaveTEEState;
  rs_GetTEEState := RSS_GetTEEState;
  rs_SaveMetrics := RSS_SaveMetrics;
  rs_GetMetrics := RSS_GetMetrics;
}.
End store.

(** The next byte string of the same length: an increment with carry that wraps.
    [inc_carry] is the walk from the last byte, with whether it reached past the
    first. *)
Fixpoint inc_carry (b : string) : string * bool :=
  match b with
  | EmptyString => (EmptyString, true)
  | String a b' =>
      let '(r, carry) := inc_carry b' in
      if carry then
        let n := ((N_of_ascii a + 1) mod 256)%N in (String (ascii_of_N n) r, (n =? 0)%N)
      else (String a r, false)
  end.

Definition incrementBytes (b : string) : string := (inc_carry b).1.

(** * Theorems: keys *)

(** The kinds of records. *)
Definition is_kind (kind : string) : Prop := kind ∈ ["config"; "state"; "metrics"; "settings"].

Lemma kind_no_slash kind : is_kind kind → contains slash kind = false.
Proof. unfold is_kind. rewrite !elem_of_cons, elem_of_nil. by intros [-> |[-> |[-> |[-> |[]]]]]. Qed.

Lemma makeRegionKey_inj kind r p kind' r' p' :
  is_kind kind → is_kind kind' → contains slash r = false → contains slash r' = false →
  makeRegionKey kind r p = makeRegionKey kind' r' p' → kind = kind' ∧ r = r' ∧ p = p'.
Proof.
  intros Hk Hk' Hr Hr' H. unfold makeRegionKey in H.
  apply (sep_inj slash) in H as [-> H]; auto using kind_no_slash.
  apply (sep_inj slash) in H as [-> ->]; auto.
Qed.

Lemma makeRegionKey_kind kind r p kind' r' p' :
  is_kind kind → is_kind kind' → makeRegionKey kind r p = makeRegionKey kind' r' p' → kind = kind'.
Proof.
  intros Hk Hk' H. unfold makeRegionKey in H. by apply (sep_inj slash) in H as [-> _]; auto using kind_no_slash.
Qed.

(** None of the keys is a regional one, so the state manager serves them from its
    backing store. *)
Lemma store_keys_not_regional kind r p : is_kind kind → IsRegionalKey (makeRegionKey kind r p) = None.
Proof. unfold is_kind. rewrite !elem_of_cons, elem_of_nil. by intros [-> |[-> |[-> |[-> |[]]]]]. Qed.

Lemma store_keys_not_listed kind r p : is_kind kind → HasPrefix (makeRegionKey kind r p) config_prefix = false.
Proof. unfold is_kind. rewrite !elem_of_cons, elem_of_nil. by intros [-> |[-> |[-> |[-> |[]]]]]. Qed.

#[export] Hint Extern 0 (is_kind _) => (unfold is_kind; repeat constructor) : go_db.

(** * Theorems: refinement of [regions.Storage] *)

Section refinement.
Context {S : Type} `{!Mutable S, !KVLaws S}.

(** The record of type [A] under a key. *)
Definition record_at (A : Type) `{!FJson A} (key : string) (s : S) : option A :=
  match contents s !! key with
  | Some d => match FUnmarshal d with Ok a => Some a | _ => None end
  | None => None
  end.

Lemma record_at_same {A} `{!FJson A} key s s' :
  contents s' !! key = contents s !! key → record_at A key s' = record_at A key s.
Proof using Type. unfold record_at. by intros ->. Qed.

(** A write of a record: encode, then insert. *)
Lemma write_run {A} `{!FJson A, !FJsonLaws A} m1 m2 key (a : A) (s : S) :
  ∃ s' o, (data ← wrap m1 (lift (FMarshal a)); wrap m2 (mu_Insert key data)) s = (s', o) ∧
    (encodable a → o = Ok tt) ∧
    ((∃ e, o = Err e) ∧ s' = s ∨
     o = Ok tt ∧ (encodable a → record_at A key s' = Some a) ∧
     ∀ key', key' ≠ key → contents s' !! key' = contents s !! key').
Proof using Type.
  destruct (FMarshal_total a) as [[d Hd]|[e He]].
  - destruct (mu_Insert_run key d s) as (s' & Hs' & Hc). exists s', (Ok tt).
    go_unfold. rewrite Hd. cbn. rewrite Hs'. split_and!; [done..|]. right. split_and!; [done| |].
    + intros Ha. destruct (FMarshal_encodable a Ha) as (d' & Hd' & Hu). rewrite Hd in Hd'. injection Hd' as <-.
      unfold record_at. by rewrite Hc, lookup_insert_eq, Hu.
    + intros key' Hne. by rewrite Hc, lookup_insert_ne.
  - exists s, (Err (Wrapf m1 e)). go_unfold. rewrite He. cbn. split_and!; [done| |left; eauto].
    intros Ha. destruct (FMarshal_encodable a Ha) as (d' & Hd' & _). congruence.
Qed.

(** A read of a record: get, then decode. *)
Lemma read_run {A} `{!FJson A, !FJsonLaws A} m1 m2 key (s : S) :
  let r := match mu_GetValue key s with
    | Ok value => match FUnmarshal (A := A) value with
        | Ok a => Ok (Some a) | Err e => Err (Wrapf m1 e) | Panic w => Panic w | Hang w => Hang w
        end
    | Err e => Err (Wrapf m2 e) | Panic w => Panic w | Hang w => Hang w
    end in
  match record_at A key s with Some a => r = Ok (Some a) | None => ∃ e, r = Err e end.
Proof using Type.
  cbv zeta. rewrite mu_GetValue_contents. unfold record_at. destruct (contents s !! key) as [d|]; [|eauto].
  destruct (FUnmarshal_total (A := A) d) as [[a Ha]|[e He]]; [by rewrite Ha|rewrite He; eauto].
Qed.

Context `{!FJson RegionConfig, !FJson TEEPairState, !FJson TEEPairMetrics}.
Context `{!FJsonLaws RegionConfig, !FJsonLaws TEEPairState, !FJsonLaws TEEPairMetrics}.

Definition store_view (s : S) : RegionView :=
  mkView (λ r, record_at RegionConfig (makeRegionKey "config" r "") s)
         (λ r p, record_at TEEPairState (makeRegionKey "state" r p) s)
         (λ r p, record_at TEEPairMetrics (makeRegionKey "metrics" r p) s).

Lemma other_kind_same {A} `{!FJson A} s s' key kind kind' r p r' p' :
  (∀ key', key' ≠ key → contents s' !! key' = contents s !! key') →
  key = makeRegionKey kind r p → is_kind kind → is_kind kind' → kind' ≠ kind →
  record_at A (makeRegionKey kind' r' p') s' = record_at A (makeRegionKey kind' r' p') s.
Proof using Type.
  intros Hc -> Hk Hk' Hne. apply record_at_same, Hc. intros H. apply Hne.
  by eapply makeRegionKey_kind.
Qed.

Lemma other_key_same {A} `{!FJson A} s s' kind r p r' p' :
  (∀ key', key' ≠ makeRegionKey kind r p → contents s' !! key' = contents s !! key') →
  is_kind kind → contains slash r = false → contains slash r' = false → (r', p') ≠ (r, p) →
  record_at A (makeRegionKey kind r' p') s' = record_at A (makeRegionKey kind r' p') s.
Proof using Type.
  intros Hc Hk Hr Hr' Hne. apply record_at_same, Hc. intros H. apply Hne.
  apply makeRegionKey_inj in H as (_ & -> & ->); auto.
Qed.

#[export] Instance RegionStateStore_Laws : RegionStorageLaws S.
Proof using All.
  refine {| rs_view := store_view; rs_id_ok r := contains slash r = false;
    rs_config_ok := encodable; rs_state_ok := encodable; rs_metrics_ok := encodable |}.
  - intros r c s Hr.
    destruct (write_run "failed to marshal region config" "failed to store region config"
      (makeRegionKey "config" r "") c s) as (s' & o & Hrun & Hok & Hcase).
    exists s', o. split_and!; [done..|]. destruct Hcase as [?|(-> & Hv & Hc)]; [by left|right].
    split_and!; [done|done| | |].
    + intros r' Hr' Hne. eapply other_key_same; eauto with go_db. congruence.
    + intros r' p. eapply other_kind_same; eauto with go_db.
    + intros r' p. eapply other_kind_same; eauto with go_db.
  - intros r s. apply read_run.
  - intros r s Hr. destruct (mu_Remove_run (makeRegionKey "config" r "") s) as (s' & Hs' & Hc).
    assert (∀ key', key' ≠ makeRegionKey "config" r "" → contents s' !! key' = contents s !! key') as Hsame.
    { intros key' Hne. by rewrite Hc, lookup_delete_ne. }
    exists s'. split_and!; [done| | | |].
    + unfold store_view, record_at. cbn. by rewrite Hc, lookup_delete_eq.
    + intros r' Hr' Hne. eapply other_key_same; eauto with go_db. congruence.
    + intros r' p. eapply other_kind_same; eauto with go_db.
    + intros r' p. eapply other_kind_same; eauto with go_db.
  - intros r p st s Hr.
    destruct (write_run "failed to marshal TEE state" "failed to store TEE state"
      (makeRegionKey "state" r p) st s) as (s' & o & Hrun & Hok & Hcase).
    exists s', o. split_and!; [done..|]. destruct Hcase as [?|(-> & Hv & Hc)]; [by left|right].
    split_and!; [done|done| | |].
    + intros r' p' Hr' Hne. eapply other_key_same; eauto with go_db.
    + intros r'. eapply other_kind_same; eauto with go_db.
    + intros r' p'. eapply other_kind_same; eauto with go_db.
  - intros r p s. apply read_run.
  - intros r p m s Hr.
    destruct (write_run "failed to marshal metrics" "failed to store metrics"
      (makeRegionKey "metrics" r p) m s) as (s' & o & Hrun & Hok & Hcase).
    exists s', o. split_and!; [done..|]. destruct Hcase as [?|(-> & Hv & Hc)]; [by left|right].
    split_and!; [done|done| | |].
    + intros r' p' Hr' Hne. eapply other_key_same; eauto with go_db.
    + intros r'. eapply other_kind_same; eauto with go_db.
    + intros r' p'. eapply other_kind_same; eauto with go_db.
  - intros r p s. apply read_run.
Defined.
End refinement.

(** C18: over a store that performs its operations and a JSON codec that gives back
    what it encoded, the region state store keeps the contract of [regions.Storage]
    the manager relies on: configurations, states and metrics are read back as
    written, no write touches another record, a write that cannot be encoded
    changes nothing, an absent record is an error.  It keeps apart all region ids
    without a slash and accepts every encodable record. *)
Theorem RegionStateStore_refines_Storage (S : Type) `{!Mutable S, !KVLaws S}
    `{!FJson RegionConfig, !FJson TEEPairState, !FJson TEEPairMetrics}
    `{!FJsonLaws RegionConfig, !FJsonLaws TEEPairState, !FJsonLaws TEEPairMetrics} :
  ∃ L : RegionStorageLaws S,
    (∀ r, contains slash r = false → rs_id_ok r) ∧
    (∀ c : RegionConfig, encodable c → rs_config_ok c) ∧
    (∀ st : TEEPairState, encodable st → rs_state_ok st) ∧
    (∀ m : TEEPairMetrics, encodable m → rs_metrics_ok m) ∧
    ∀ s, rs_view s = store_view s.
Proof. exists RegionStateStore_Laws. split_and!; done. Qed.

(** ** Listing and byte increments *)

Definition store_keys (m : gmap string string) : Prop :=
  ∀ k v, m !! k = Some v → ∃ kind r p, is_kind kind ∧ k = makeRegionKey kind r p.

(** [ListRegions] looks under ["region/config/"], where the store never writes: over
    a database that holds only the store's records it lists no region. *)
Lemma RSS_ListRegions_empty (m : gmap string string) :
  store_keys m →
  RSS_ListRegions None (List.filter (λ kv, HasPrefix kv.1 config_prefix) (map_to_list m)) = Ok [].
Proof.
  intros Hm. assert (List.filter (λ kv, HasPrefix kv.1 config_prefix) (map_to_list m) = []) as ->; [|done].
  assert (∀ l, (∀ kv, kv ∈ l → HasPrefix kv.1 config_prefix = false) →
    List.filter (λ kv : string * string, HasPrefix kv.1 config_prefix) l = []) as Hl.
  { induction l as [|kv l IH]; intros H; [done|]. simpl. rewrite H by left. apply IH. intros. apply H. by right. }
  apply Hl. intros [k v] Hkv%elem_of_map_to_list. destruct (Hm k v Hkv) as (kind & r & p & Hk & ->).
  by apply store_keys_not_listed.
Qed.

(** The carry of [inc_carry] and the value it leaves, as big-endian integers. *)
Lemma inc_carry_value b :
  (be_get_acc 0 (inc_carry b).1 + (if (inc_carry b).2 then 256 ^ slen b else 0) = be_get_acc 0 b + 1)%Z ∧
  String.length (inc_carry b).1 = String.length b.
Proof.
  assert (∀ s acc, be_get_acc acc s = acc * 256 ^ slen s + be_get_acc 0 s)%Z as Hacc.
  { unfold slen. induction s as [|a s IH]; intros acc; [simpl; lia|]. cbn [be_get_acc String.length].
    rewrite Nat2Z.inj_succ, Z.pow_succ_r by lia. rewrite (IH (acc * 256 + _)%Z), (IH (0 * 256 + _)%Z). lia. }
  induction b as [|a b [IHv IHl]]; [done|]. cbn [inc_carry]. destruct (inc_carry b) as [r carry]. cbn [fst snd] in *.
  assert (slen (String a b) = slen b + 1)%Z as Hs by (unfold slen; simpl; lia).
  assert (slen r = slen b) as Hr by (unfold slen; lia).
  pose proof (N_ascii_bounded a) as Ha. pose proof (Z.pow_pos_nonneg 256 (slen b) ltac:(lia) (slen_nonneg b)) as Hpow.
  destruct carry; cbn [fst snd].
  - split; [|simpl; lia]. rewrite Hs, Z.pow_add_r by (try apply slen_nonneg; lia).
    cbn [be_get_acc]. rewrite (Hacc r), (Hacc b), Hr. rewrite N_ascii_embedding by (apply N.mod_lt; lia).
    destruct (decide (N_of_ascii a = 255)%N) as [->|Hne].
    + change ((255 + 1) mod 256)%N with 0%N. simpl. lia.
    + rewrite N.mod_small by lia. destruct (N.eqb_spec (N_of_ascii a + 1) 0); lia.
  - split; [|simpl; lia]. cbn [be_get_acc]. rewrite (Hacc r), (Hacc b), Hr. lia.
Qed.

(** [incrementBytes] adds one to the big-endian value of the bytes, modulo their
    range. *)
Lemma incrementBytes_value b :
  (be_get_acc 0 (incrementBytes b) = (be_get_acc 0 b + 1) mod 256 ^ slen b)%Z.
Proof.
  destruct (inc_carry_value b) as [Hv Hl]. unfold incrementBytes.
  pose proof (be_get_acc_bound (inc_carry b).1 0 ltac:(lia)) as Hb.
  assert (slen (inc_carry b).1 = slen b) as Hs by (unfold slen; lia). rewrite Hs in Hb.
  destruct (inc_carry b).2.
  - apply (Z.mod_unique _ _ 1); lia.
  - apply (Z.mod_unique _ _ 0); lia.
Qed.

(** * A codec to evaluate the definitions with

    Records that hold floats, encoded when the floats are finite. *)

Definition float_code (x : float64) : nat * bool * positive * Z :=
  match x with
  | S754_zero s => (0%nat, s, 1%positive, 0%Z)
  | S754_infinity s => (1%nat, s, 1%positive, 0%Z)
  | S754_nan => (2%nat, false, 1%positive, 0%Z)
  | S754_finite s m e => (3%nat, s, m, e)
  end.
Definition float_decode (c : nat * bool * positive * Z) : float64 :=
  let '(t, s, m, e) := c in
  match t with
  | 0%nat => S754_zero s
  | 1%nat => S754_infinity s
  | 2%nat => S754_nan
  | _ => S754_finite s m e
  end.

#[export] Instance float64_countable : Countable float64.
Proof. refine (inj_countable' float_code float_decode _). by intros []. Defined.

#[export] Instance TEEPairState_countable : Countable TEEPairState.
Proof.
  refine (inj_countable' (λ s, (ps_Status s, ps_LastHealthy s, ps_ActiveTasks s, ps_ErrorCount s,
    ps_LoadFactor s, ps_SuccessRate s, ps_AverageLatency s))
    (λ '(a, b, c, d, e, f, g), mkTPS a b c d e f g) _). by intros [].
Defined.
#[export] Instance TEEPairMetrics_countable : Countable TEEPairMetrics.
Proof.
  refine (inj_countable' (λ m, ((pm_SuccessRate m, pm_AverageLatency m, pm_ErrorRate m, pm_TasksProcessed m,
      pm_LastHealthy m, pm_LoadFactor m, pm_ExecutionTime m),
     (pm_PairID m, pm_SGXEndpoint m, pm_SEVEndpoint m, pm_LastHealthCheck m, pm_ConsecutiveErrors m, pm_Status m,
      pm_CPUUsage m),
     (pm_MemoryUsage m, pm_NetworkLatency m, pm_LastAttestation m, pm_AttestationFailures m, pm_PendingTasks m,
      pm_FailedTasks m, pm_AverageTaskTime m)))
    (λ '((a, b, c, d, e, f, g), (h, i, j, k, l, m, n), (o, p, q, r, s, t, u)),
      mkTPM a b c d e f g h i j k l m n o p q r s t u) _). by intros [].
Defined.
#[export] Instance GeoLocation_countable : Countable GeoLocation.
Proof.
  refine (inj_countable' (λ g, (Latitude g, Longitude g, DataCenter g, Country g, GeoRegion g))
    (λ '(a, b, c, d, e), mkGeo a b c d e) _). by intros [].
Defined.
#[export] Instance LoadBalancerConfig_countable : Countable LoadBalancerConfig.
Proof.
  refine (inj_countable' (λ l, (lb_MaxLoadFactor l, lb_MaxLatencyMs l, lb_MaxErrorRate l, lb_MinActiveWorkers l,
      lb_MaxPendingTasks l, lb_HealthCheckWindow l, lb_GeoPreference l, lb_MaxDistance l))
    (λ '(a, b, c, d, e, f, g, h), mkLB a b c d e f g h) _). by intros [].
Defined.
#[export] Instance TEEPair_countable : Countable TEEPair.
Proof.
  refine (inj_countable' (λ p, (tp_ID p, tp_SGXID p, tp_SEVID p, tp_SGXEndpoint p, tp_SEVEndpoint p, tp_Status p))
    (λ '(a, b, c, d, e, f), mkTEEPair a b c d e f) _). by intros [].
Defined.
#[export] Instance RegionConfig_countable : Countable RegionConfig.
Proof.
  refine (inj_countable' (λ c, (rc_ID c, rc_TEEPairs c, rc_MaxObjects c, rc_MaxEvents c, rc_LoadBalancer c, rc_Location c))
    (λ '(a, b, c, d, e, f), mkRegionConfig a b c d e f) _). by intros [].
Defined.

Definition finite_state (s : TEEPairState) : bool := f_finite (ps_LoadFactor s) && f_finite (ps_SuccessRate s).
Definition finite_metrics (m : TEEPairMetrics) : bool :=
  forallb f_finite [pm_SuccessRate m; pm_ErrorRate m; pm_LoadFactor m; pm_CPUUsage m; pm_MemoryUsage m; pm_NetworkLatency m].
Definition finite_config (c : RegionConfig) : bool :=
  let lb := rc_LoadBalancer c in
  forallb f_finite [lb_MaxLoadFactor lb; lb_MaxLatencyMs lb; lb_MaxErrorRate lb; lb_MaxDistance lb;
    Latitude (rc_Location c); Longitude (rc_Location c)].

Definition finite_FJson (A : Type) `{Countable A} (finite : A → bool) : FJson A := {|
  FMarshal a := if finite a then Ok (@Marshal A (countable_Json A) a)
                else Err (Errorf "json: unsupported value");
  FUnmarshal := @Unmarshal A (countable_Json A);
|}.

Definition finite_FJsonLaws (A : Type) `{Countable A} (finite : A → bool) :
  @FJsonLaws A (finite_FJson A finite).
Proof.
  refine {| encodable a := finite a = true |}; unfold finite_FJson; cbn.
  - intros a Ha. cbn. rewrite Ha. eexists. split; [done|]. apply countable_decodes.
  - intros a. cbn. destruct (finite a); eauto.
  - intros s. cbn. destruct s as [|x s]; [eauto|]. destruct (decode _); eauto.
Defined.

Definition config_FJson : FJson RegionConfig := finite_FJson RegionConfig finite_config.
Definition state_FJson : FJson TEEPairState := finite_FJson TEEPairState finite_state.
Definition metrics_FJson : FJson TEEPairMetrics := finite_FJson TEEPairMetrics finite_metrics.
Definition config_FJsonLaws : @FJsonLaws RegionConfig config_FJson := finite_FJsonLaws RegionConfig finite_config.
Definition state_FJsonLaws : @FJsonLaws TEEPairState state_FJson := finite_FJsonLaws TEEPairState finite_state.
Definition metrics_FJsonLaws : @FJsonLaws TEEPairMetrics metrics_FJson := finite_FJsonLaws TEEPairMetrics finite_metrics.

Lemma RegionStateStore_refines_Storage_witness :
  ∃ L : @RegionStorageLaws (gmap string string)
          (@RegionStateStore _ _ config_FJson state_FJson metrics_FJson),
    @rs_id_ok _ _ L "eu".
Proof.
  destruct (@RegionStateStore_refines_Storage (gmap string string) _ _ config_FJson state_FJson metrics_FJson
    config_FJsonLaws state_FJsonLaws metrics_FJsonLaws) as (L & H & _).
  exists L. by apply H.
Defined.
