(* ===== verification/RegionManagerFacts.v ===== *)
(** Properties of the region manager over any store that keeps the contract of
    [regions.Storage]: configurations and pair states in memory and in the store,
    the region health that is never found again, the lock that is never released,
    the checks that see no region. *)

From S2P Require Import Prelude GoTime Float64 KV Core RangeState RegionConfig Balancer RegionManager RegionStateStore.
From Stdlib Require Import ZArith Lia Ascii String.
From stdpp Require Import base tactics option list strings pretty gmap.

Local Open Scope Z_scope.

Section facts.
Context {St : Type} `{!RegionStorage St, !RegionStorageLaws St} `{MR : MapRange}.
Abbreviation RM := (RegionManager St).
Implicit Types (s : RM) (st : TEEPairState).

Definition view s : RegionView := rs_view (mg_store s).

(** * Configurations *)

Lemma deref_run s a c : mg_heap s !! a = Some c → deref a s = (s, Ok c).
Proof using Type. unfold deref. by intros ->. Qed.

(** A write to the store that cannot fail. *)
Lemma on_store_Set r c s :
  rs_id_ok r → rs_config_ok c →
  ∃ w, on_store (rs_SetRegionConfig r c) s = (set_store w s, Ok tt) ∧
    v_config (rs_view w) r = Some c ∧
    (∀ r', rs_id_ok r' → r' ≠ r → v_config (rs_view w) r' = v_config (view s) r') ∧
    same_states (view s) (rs_view w) ∧ same_metrics (view s) (rs_view w).
Proof using Type.
  intros Hr Hc. destruct (rs_Set_run r c (mg_store s) Hr) as (w & o & Hrun & Hok & Hcase).
  rewrite (Hok Hc) in *. destruct Hcase as [[[e ?] _]|(_ & Hv & Ho & Hs & Hm)]; [done|].
  exists w. unfold on_store, zoom. rewrite Hrun. split_and!; auto.
Qed.

Lemma on_store_State r p st s :
  rs_id_ok r → rs_state_ok st →
  ∃ w, on_store (rs_SaveTEEState r p st) s = (set_store w s, Ok tt) ∧
    v_state (rs_view w) r p = Some st ∧
    (∀ r' p', rs_id_ok r' → (r', p') ≠ (r, p) → v_state (rs_view w) r' p' = v_state (view s) r' p') ∧
    same_configs (view s) (rs_view w) ∧ same_metrics (view s) (rs_view w).
Proof using Type.
  intros Hr Hc. destruct (rs_SaveTEEState_run r p st (mg_store s) Hr) as (w & o & Hrun & Hok & Hcase).
  rewrite (Hok Hc) in *. destruct Hcase as [[[e ?] _]|(_ & Hv & Ho & Hs & Hm)]; [done|].
  exists w. unfold on_store, zoom. rewrite Hrun. split_and!; auto.
Qed.

(** C19: [UpdateConfig] accepts a configuration exactly when it is valid and carries
    the id of the region; an accepted one is what [GetConfig] returns from then on
    and what the store holds, and every other region keeps its configuration in
    memory and in the store.  A refused one changes nothing. *)
Theorem UpdateConfig_spec r a c s :
  rs_id_ok r → mg_heap s !! a = Some c → rs_config_ok c →
  (valid_config c → rc_ID c = r →
    ∃ s', UpdateConfig r a s = (s', Ok tt) ∧ GetConfig r s' = (s', Ok a) ∧
      v_config (view s') r = Some c ∧
      (∀ r', r' ≠ r → mg_configs s' !! r' = mg_configs s !! r') ∧
      (∀ r', rs_id_ok r' → r' ≠ r → v_config (view s') r' = v_config (view s) r') ∧
      mg_heap s' = mg_heap s ∧ mg_cache s' = mg_cache s) ∧
  (¬ (valid_config c ∧ rc_ID c = r) → ∃ e, UpdateConfig r a s = (s, Err e)).
Proof using Type.
  intros Hr Ha Hc. unfold UpdateConfig. rewrite (bind_ok _ _ _ _ _ (deref_run s a c Ha)).
  rewrite <-RegionConfig_Validate_ok.
  destruct (RegionConfig_Validate_returns c) as [Hv|[e Hv]]; rewrite Hv.
  - rewrite (bind_ok (lift (Ok tt)) _ s s tt) by done. split.
    + intros _ E. rewrite (bind_ok _ _ s s tt) by (by rewrite bool_decide_eq_false_2 by naive_solver).
      destruct (on_store_Set r c s Hr Hc) as (w & Hrun & H1 & H2 & _ & _).
      assert (wrap "failed to store config" (on_store (rs_SetRegionConfig r c)) s = (set_store w s, Ok tt)) as Hw.
      { unfold wrap. by rewrite Hrun. }
      rewrite (bind_ok _ _ _ _ _ Hw). eexists. split; [done|]. split_and!; try done.
      * unfold GetConfig. go_unfold. simpl. by rewrite lookup_insert_eq.
      * intros r' Hne. simpl. by rewrite lookup_insert_ne.
    + intros E. eexists. apply bind_err. rewrite bool_decide_eq_true_2 by naive_solver. done.
  - split; [done|]. intros _. exists e. by apply bind_err.
Qed.

(** * Pair states *)

Lemma locked_run {A} (m : go RM A) s : mg_deadlocked s = false → locked m s = m s.
Proof using Type. unfold locked. by intros ->. Qed.

(** The state of a pair in memory. *)
Definition mem_state s (r p : string) : option TEEPairState := mg_states s !! r ≫= (.!! p).

Lemma mem_state_put s r p st r' p' :
  mem_state (put_state r p st s).1 r' p' = if decide ((r', p') = (r, p)) then Some st else mem_state s r' p'.
Proof using Type.
  unfold mem_state, put_state. simpl. destruct (decide (r' = r)) as [->|Hr].
  - rewrite lookup_insert_eq. simpl. destruct (decide (p' = p)) as [->|Hp].
    + by rewrite lookup_insert_eq, decide_True.
    + rewrite lookup_insert_ne, decide_False by congruence. by destruct (mg_states s !! r).
  - by rewrite lookup_insert_ne, decide_False by congruence.
Qed.

(** An update of the state of a configured pair succeeds: the update is applied
    to the state in memory (a fresh active one when there is none), an active state
    is marked healthy now, the result is what is read back from memory and from the
    store, and no other pair's state changes in either.  A pair that the region's
    configuration does not list is refused and nothing changes. *)
Theorem UpdateTEEState_spec now r p f a c s :
  mg_deadlocked s = false → rs_id_ok r → mg_configs s !! r = Some a → mg_heap s !! a = Some c →
  let st := touch_active now (f (default (mkTPS "active" now 0 0 f_zero f_zero 0) (mem_state s r p))) in
  (p ∈ tp_ID <$> rc_TEEPairs c → rs_state_ok st →
    ∃ s', UpdateTEEState now r p f s = (s', Ok tt) ∧
      RM_GetTEEState r p s' = (s', Ok st) ∧ v_state (view s') r p = Some st ∧
      (∀ r' p', (r', p') ≠ (r, p) → mem_state s' r' p' = mem_state s r' p') ∧
      (∀ r' p', rs_id_ok r' → (r', p') ≠ (r, p) → v_state (view s') r' p' = v_state (view s) r' p') ∧
      same_configs (view s) (view s') ∧ same_metrics (view s) (view s')) ∧
  (p ∉ tp_ID <$> rc_TEEPairs c → ∃ e, UpdateTEEState now r p f s = (s, Err e)).
Proof using Type.
  intros Hd Hr Ha Hc st.
  assert (existsb (λ q, bool_decide (tp_ID q = p)) (rc_TEEPairs c) = bool_decide (p ∈ tp_ID <$> rc_TEEPairs c)) as Hex.
  { apply eq_bool_prop_intro. rewrite bool_decide_spec, list_elem_of_fmap. rewrite Is_true_true, existsb_exists.
    setoid_rewrite bool_decide_eq_true. setoid_rewrite list_elem_of_In. naive_solver. }
  unfold UpdateTEEState. rewrite locked_run by done.
  rewrite (bind_ok (gets _) _ s s (Some a)) by (unfold gets; by rewrite Ha).
  rewrite (bind_ok _ _ _ _ _ (deref_run s a c Hc)), Hex. split.
  - intros Hp Hst. rewrite (bind_ok _ _ s s tt) by (by rewrite bool_decide_eq_true_2).
    rewrite (bind_ok (gets _) _ s s (mem_state s r p)) by done. cbv zeta. fold st.
    rewrite (bind_ok (put_state r p st) _ s _ tt) by done.
    set (s1 := set_states _ s). assert (s1 = (put_state r p st s).1) as E1 by done.
    destruct (on_store_State r p st s1 Hr Hst) as (w & Hrun & H1 & H2 & H3 & H4). rewrite Hrun.
    eexists. split; [done|]. split_and!; try done.
    + unfold RM_GetTEEState. rewrite locked_run by done. simpl. by rewrite !lookup_insert_eq.
    + intros r' p' Hne. pose proof (mem_state_put s r p st r' p') as Hm.
      by rewrite <-E1, decide_False in Hm by done.
  - intros Hp. eexists. apply bind_err. rewrite bool_decide_eq_false_2 by done. done.
Qed.

(** * Region health is never found

    The invariant behind it: the empty name is no pair's, in any configuration, in
    memory or in the store. *)

(** A configuration with an id, pairs with ids, that the store can represent. *)
Definition named (c : RegionConfig) : Prop :=
  rc_ID c ≠ "" ∧ Forall (λ p, tp_ID p ≠ "") (rc_TEEPairs c) ∧ rs_config_ok c.

Record health_inv s : Prop := {
  hi_heap : ∀ a c, mg_heap s !! a = Some c → named c;
  hi_store : ∀ r c, rs_id_ok r → v_config (view s) r = Some c → named c;
  hi_health : ∀ r, rs_id_ok r → v_state (view s) r "" = None;
  hi_states : ∀ r, mem_state s r "" = None;
  hi_ids : ∀ r a, mg_configs s !! r = Some a → rs_id_ok r;
}.
Abbreviation keeps_inv m := (maintains health_inv m (λ _, True)).

Lemma keeps_locked {A} (m : go RM A) Q : maintains health_inv m Q → maintains health_inv (locked m) Q.
Proof using Type. intros H s Hs. unfold locked. destruct (mg_deadlocked s); [done|]. by apply H. Qed.

Lemma keeps_deref a : maintains health_inv (deref a) named.
Proof using Type.
  intros s Hs. unfold deref. destruct (mg_heap s !! a) eqn:E; [|done]. split; [done|].
  intros ? [= <-]. by eapply hi_heap.
Qed.

(** Changes of the tables that are not part of the invariant. *)
Lemma keeps_same s s' :
  mg_heap s' = mg_heap s → mg_store s' = mg_store s → mg_states s' = mg_states s →
  mg_configs s' = mg_configs s → health_inv s → health_inv s'.
Proof using Type.
  intros E1 E2 E3 E4 [H1 H2 H3 H4 H5]. split; unfold view, mem_state in *; rewrite ?E1, ?E2, ?E3, ?E4; auto.
Qed.

Lemma keeps_heap a c s : named c → health_inv s → health_inv (set_heap (<[a := c]> (mg_heap s)) s).
Proof using Type.
  intros Hc [H1 H2 H3 H4 H5]. split; auto. simpl. intros a' c' H.
  apply lookup_insert_Some in H as [[_ <-]|[_ ?]]; eauto.
Qed.

Lemma keeps_configs r a s : rs_id_ok r → health_inv s → health_inv (set_configs (<[r := a]> (mg_configs s)) s).
Proof using Type.
  intros Hr [H1 H2 H3 H4 H5]. split; auto. simpl. intros r' a' H.
  apply lookup_insert_Some in H as [[<- _]|[_ ?]]; eauto.
Qed.

Lemma keeps_put_state r p st : p ≠ "" → keeps_inv (put_state r p st).
Proof using Type.
  intros Hp s [H1 H2 H3 H4 H5]. split; [|done]. split; auto. intros r'.
  rewrite mem_state_put, decide_False by congruence. apply H4.
Qed.

Lemma keeps_put_metrics r p m : keeps_inv (put_metrics r p m).
Proof using Type. intros s Hs. split; [|done]. by apply (keeps_same s). Qed.
Lemma keeps_put_perf r p m : keeps_inv (put_perf r p m).
Proof using Type. intros s Hs. split; [|done]. by apply (keeps_same s). Qed.

(** Writes to the store. *)
Lemma keeps_Set r c : rs_id_ok r → named c → keeps_inv (on_store (rs_SetRegionConfig r c)).
Proof using Type.
  intros Hr Hc s Hs. split; [|done].
  destruct (on_store_Set r c s Hr (proj2 (proj2 Hc))) as (w & -> & Hv & Ho & Hst & _).
  destruct Hs as [H1 H2 H3 H4 H5]. split; auto; unfold view in *; simpl.
  - intros r' c' Hr' E. destruct (decide (r' = r)) as [->|]; [by simplify_eq|]. rewrite Ho in E by done. eauto.
  - intros r' Hr'. rewrite Hst. auto.
Qed.

Lemma keeps_Delete r : rs_id_ok r → keeps_inv (on_store (rs_DeleteRegionConfig r)).
Proof using Type.
  intros Hr s Hs. split; [|done]. unfold on_store, zoom.
  destruct (rs_Delete_run r (mg_store s) Hr) as (w & -> & Hv & Ho & Hst & _).
  destruct Hs as [H1 H2 H3 H4 H5]. split; auto; unfold view in *; simpl.
  - intros r' c' Hr' E. destruct (decide (r' = r)) as [->|]; [by simplify_eq|]. rewrite Ho in E by done. eauto.
  - intros r' Hr'. rewrite Hst. auto.
Qed.

Lemma keeps_SaveState r p st : rs_id_ok r → p ≠ "" → keeps_inv (on_store (rs_SaveTEEState r p st)).
Proof using Type.
  intros Hr Hp s Hs. split; [|done]. unfold on_store, zoom.
  destruct (rs_SaveTEEState_run r p st (mg_store s) Hr) as (w & o & -> & _ & [[_ ->]|(_ & _ & Ho & Hc & _)]);
    [by apply (keeps_same s)|].
  destruct Hs as [H1 H2 H3 H4 H5]. split; auto; unfold view in *; simpl.
  - intros r' c' Hr'. rewrite Hc. eauto.
  - intros r' Hr'. rewrite Ho by (done || congruence). auto.
Qed.

Lemma keeps_SaveMetrics r p m : rs_id_ok r → keeps_inv (on_store (rs_SaveMetrics r p m)).
Proof using Type.
  intros Hr s Hs. split; [|done]. unfold on_store, zoom.
  destruct (rs_SaveMetrics_run r p m (mg_store s) Hr) as (w & o & -> & _ & [[_ ->]|(_ & _ & _ & Hc & Hst)]);
    [by apply (keeps_same s)|].
  destruct Hs as [H1 H2 H3 H4 H5]. split; auto; unfold view in *; simpl.
  - intros r' c' Hr'. rewrite Hc. eauto.
  - intros r' Hr'. rewrite Hst. auto.
Qed.

(** Decomposes an operation into the calls above. *)
Ltac keep_step :=
  match goal with
  | |- ∀ _, _ => intros
  | |- maintains _ (locked _) _ => apply keeps_locked
  | |- maintains _ (mret _) _ => by apply maintains_ret
  | |- maintains _ (fail _) _ => apply maintains_fail
  | |- maintains _ (gopanic _) _ => apply maintains_gopanic
  | |- maintains _ (gohang _) _ => apply maintains_gohang
  | |- maintains _ (wrap _ _) _ => apply maintains_wrap
  | |- maintains _ (deref _ ≫= _) _ => eapply maintains_bind; [apply keeps_deref|]
  | |- maintains _ (fail_if _ _ ≫= _) _ => eapply maintains_bind; [apply maintains_fail_if|]
  | |- maintains _ (lift _ ≫= _) _ => eapply maintains_bind; [by apply (maintains_lift _ _ (λ _, True))|]
  | |- maintains _ (gets _ ≫= _) _ => eapply maintains_bind; [by apply (maintains_gets _ _ (λ _, True))|]
  | |- maintains _ (modify _ ≫= _) _ =>
      eapply (maintains_bind _ _ _ (λ _, True)); [apply maintains_modify; [|done]|]
  | |- maintains _ (try _ ≫= _) _ => eapply maintains_bind; [eapply maintains_try|]
  | |- maintains _ (match ?x with _ => _ end ≫= _) _ => eapply (maintains_bind _ _ _ (λ _, True)); [destruct x|]
  | |- maintains _ (_ ≫= _) _ => eapply maintains_bind
  | |- maintains _ (match ?x with _ => _ end) _ => destruct x
  | |- maintains _ (modify _) _ => apply maintains_modify; [|done]
  | _ => solve [eauto 3 using keeps_put_state, keeps_put_metrics, keeps_put_perf, keeps_Set, keeps_Delete,
                keeps_SaveState, keeps_SaveMetrics, keeps_configs, keeps_heap]
  | H : health_inv ?s |- health_inv _ => apply (keeps_same s); [reflexivity..|exact H]
  end.
Ltac keep := repeat keep_step.

Lemma named_ID c : named c → rc_ID c ≠ "".
Proof using Type. by intros []. Qed.
Lemma named_add p c : tp_ID p ≠ "" → rs_config_ok (add_pair p c) → named c → named (add_pair p c).
Proof using Type. intros Hp Hok (H1 & H2 & H3). split_and!; [done| |done]. simpl. apply Forall_app. auto. Qed.
#[local] Hint Resolve named_ID : core.

Lemma keeps_UpdateConfig r a : rs_id_ok r → keeps_inv (UpdateConfig r a).
Proof using Type. intros Hr. unfold UpdateConfig. keep. Qed.

Lemma keeps_alloc c : named c → keeps_inv (alloc c).
Proof using Type. intros Hc s Hs. split; [|done]. by apply keeps_heap. Qed.

Lemma keeps_GetConfig r : rs_id_ok r → keeps_inv (GetConfig r).
Proof using Type.
  intros Hr. unfold GetConfig. keep_step. intros [a|] _; [keep|].
  eapply (maintains_bind _ _ _ (λ o, ∀ c, o = Some c → named c)).
  - apply maintains_wrap. intros s Hs. unfold on_store, zoom. split; [by apply (keeps_same s)|]. simpl.
    intros o Ho c ->. pose proof (rs_Get_run r (mg_store s)) as Hg.
    destruct (v_config (rs_view (mg_store s)) r) as [c'|] eqn:E; [|destruct Hg; congruence].
    rewrite Hg in Ho. simplify_eq. by eapply hi_store.
  - intros [c|] Hc; [|keep]. eapply maintains_bind; [by apply keeps_alloc, Hc|]. keep.
Qed.

Lemma keeps_AddTEEPair r p :
  rs_id_ok r → (∀ q, p = Some q → tp_ID q ≠ "" ∧ ∀ c, rs_config_ok c → rs_config_ok (add_pair q c)) →
  keeps_inv (RM_AddTEEPair r p).
Proof using Type.
  intros Hr Hp. unfold RM_AddTEEPair. destruct p as [q|]; [|keep]. destruct (Hp q eq_refl) as [Hq Hok].
  assert (∀ c, named c → named (add_pair q c)) as Hn by (intros c Hc; apply named_add; [done|apply Hok, Hc|done]).
  keep.
Qed.

Lemma keeps_GetTEEPairs r : maintains health_inv (GetTEEPairs r) (Forall (λ p, tp_ID p ≠ "")).
Proof using Type.
  unfold GetTEEPairs. keep_step. keep_step. intros [a|] _; [|keep]. keep_step. intros c Hc.
  apply maintains_ret, Hc.
Qed.

Lemma keeps_GetRegionConfig r : keeps_inv (GetRegionConfig r).
Proof using Type. unfold GetRegionConfig. keep. Qed.

Lemma keeps_fresh_tables r s :
  health_inv s →
  health_inv match mg_states s !! r with
    | Some _ => s
    | None => set_metrics (<[r := ∅]> (mg_metrics s)) (set_states (<[r := ∅]> (mg_states s)) s)
    end.
Proof using Type.
  intros Hs. destruct (mg_states s !! r) eqn:E; [done|]. destruct Hs as [H1 H2 H3 H4 H5]. split; auto.
  intros r'. specialize (H4 r'). unfold mem_state in *. simpl. destruct (decide (r' = r)) as [->|].
  - by rewrite lookup_insert_eq.
  - by rewrite lookup_insert_ne.
Qed.

Lemma keeps_RegisterTEEPair now r a : rs_id_ok r → keeps_inv (RegisterTEEPair now r a).
Proof using Type.
  intros Hr. unfold RegisterTEEPair. keep_step. keep_step; [intros; by apply keeps_fresh_tables|]. keep.
Qed.

Lemma existsb_named p c : named c → existsb (λ q, bool_decide (tp_ID q = p)) (rc_TEEPairs c) = true → p ≠ "".
Proof using Type.
  intros (_ & Hf & _) (q & Hq & E%bool_decide_eq_true)%existsb_exists. subst.
  rewrite Forall_forall in Hf. apply Hf. by apply list_elem_of_In.
Qed.

Lemma keeps_UpdateTEEState now r p f : rs_id_ok r → keeps_inv (UpdateTEEState now r p f).
Proof using Type.
  intros Hr. unfold UpdateTEEState. keep_step. keep_step. intros [a|] _; [|keep]. keep_step. intros c Hc.
  keep_step. intros _ Hex%negb_false_iff. pose proof (existsb_named _ _ Hc Hex). keep.
Qed.

(** The pair whose state the metrics change is in memory, so its name is not empty. *)
Lemma keeps_RM_UpdateMetrics now r p f : rs_id_ok r → keeps_inv (RM_UpdateMetrics now r p f).
Proof using Type.
  intros Hr. unfold RM_UpdateMetrics. keep_step. keep_step. intros [a|] _; [|keep]. keep_step. intros old _.
  cbv zeta. eapply maintains_bind; [apply keeps_put_metrics|]. intros _ _.
  eapply (maintains_bind _ _ _ (λ o, ∀ st, o = Some st → p ≠ "")).
  { apply maintains_gets. intros s Hs st E ->. fold (mem_state s r "") in E. by rewrite hi_states in E. }
  intros o Ho. eapply (maintains_bind _ _ _ (λ _, True)); [|keep].
  destruct o as [st|]; [|keep]. specialize (Ho st eq_refl). keep.
Qed.

Lemma keeps_collectRegionMetrics now r : rs_id_ok r → keeps_inv (collectRegionMetrics now r).
Proof using Type.
  intros Hr. unfold collectRegionMetrics. eapply (maintains_bind _ _ _ (λ _, True)).
  { apply keeps_locked. by apply maintains_gets. }
  intros pairs _. eapply (maintains_for_each _ _ _ (λ _, True)); [|by apply Forall_true].
  intros [p st] _. apply maintains_wrap. by apply keeps_RM_UpdateMetrics.
Qed.

Lemma keeps_read {A} (m : RM → outcome A) : keeps_inv (λ s, (s, m s)).
Proof using Type. by intros s Hs. Qed.

Lemma keeps_checkRegionHealth now r : rs_id_ok r → keeps_inv (checkRegionHealth now r).
Proof using Type.
  intros Hr. unfold checkRegionHealth. keep_step. intros [a|] _; [|keep]. keep_step. intros c _.
  eapply (maintains_for_each _ _ _ (λ _, True)); [|by apply Forall_true]. intros p _.
  eapply maintains_bind; [apply maintains_try, keeps_locked, keeps_read|]. intros [st|e] _; [|keep].
  eapply maintains_bind; [by apply maintains_try, keeps_UpdateTEEState|]. keep.
Qed.

Lemma keeps_UpdateRegionHealth r h : rs_id_ok r → hs_Status h ≠ "" → keeps_inv (UpdateRegionHealth r h).
Proof using Type. intros. unfold UpdateRegionHealth. keep. Qed.

Lemma keeps_checkTEEPair now r p : maintains health_inv (checkTEEPair now r p) (λ h, hs_Status h ≠ "").
Proof using Type.
  unfold checkTEEPair. eapply maintains_bind; [apply maintains_wrap, keeps_locked, keeps_read|]. intros m _.
  eapply maintains_bind; [apply maintains_wrap, keeps_locked, keeps_read|]. intros st _. keep_step. intros th _.
  apply maintains_ret. simpl. by destruct (isHealthy _ _).
Qed.

Lemma keeps_checkRegion now r : rs_id_ok r → keeps_inv (checkRegion now r).
Proof using Type.
  intros Hr. unfold checkRegion. eapply maintains_bind; [apply maintains_wrap, keeps_GetTEEPairs|].
  intros pairs _. eapply (maintains_for_each _ _ _ (λ _, True)); [|by apply Forall_true]. intros p _.
  eapply maintains_bind; [apply maintains_try, keeps_checkTEEPair|]. intros [h|e] Hh; [|keep].
  eapply maintains_bind; [by apply maintains_try, keeps_UpdateRegionHealth|]. keep.
Qed.

Lemma keeps_ListRegions `{MR' : MapRange} : maintains health_inv (ListRegions (MR := MR')) (Forall rs_id_ok).
Proof using Type.
  apply keeps_locked, maintains_gets. intros s Hs. apply Forall_forall.
  intros r ([r' a] & -> & H)%list_elem_of_fmap. apply elem_of_range_map in H. by eapply hi_ids.
Qed.

Lemma keeps_performHealthChecks `{MR' : MapRange} now : keeps_inv (performHealthChecks (MR := MR') now).
Proof using Type.
  eapply maintains_bind; [apply keeps_ListRegions|]. intros ids Hids.
  eapply maintains_for_each; [|exact Hids]. intros r Hr.
  eapply maintains_bind; [by apply maintains_try, keeps_checkRegion|]. keep.
Qed.

Lemma keeps_collectMetrics `{MR' : MapRange} now : keeps_inv (collectMetrics (MR := MR') now).
Proof using Type.
  eapply maintains_bind; [apply keeps_ListRegions|]. intros ids Hids.
  eapply maintains_for_each; [|exact Hids]. intros r Hr.
  eapply maintains_bind; [apply maintains_try, keeps_GetTEEPairs|]. intros [pairs|e] _; [|keep].
  eapply (maintains_for_each _ _ _ (λ _, True)); [|by apply Forall_true]. intros p _. cbv zeta.
  eapply maintains_bind; [apply keeps_put_perf|]. intros _ _.
  eapply maintains_bind; [by apply maintains_try, keeps_SaveMetrics|]. keep.
Qed.

(** The operations of the manager, its health checker and its monitor, in any order
    and with any outcome.  Callers create configurations with ids, name pairs they
    add, and record a health with a status. *)
Inductive mgr_step : RM → RM → Prop :=
  | do_new c s : named c → mgr_step s (alloc c s).1
  | do_UpdateConfig r a s : rs_id_ok r → mgr_step s (UpdateConfig r a s).1
  | do_GetConfig r s : rs_id_ok r → mgr_step s (GetConfig r s).1
  | do_DeleteRegion r s : rs_id_ok r → mgr_step s (RM_DeleteRegion r s).1
  | do_AddTEEPair r p s : rs_id_ok r →
      (∀ q, p = Some q → tp_ID q ≠ "" ∧ ∀ c, rs_config_ok c → rs_config_ok (add_pair q c)) →
      mgr_step s (RM_AddTEEPair r p s).1
  | do_GetRegionConfig r s : mgr_step s (GetRegionConfig r s).1
  | do_UpdateCache r a s : mgr_step s (UpdateCache r a s).1
  | do_ClearCache s : mgr_step s (ClearCache s).1
  | do_InvalidateCache r s : mgr_step s (InvalidateCache r s).1
  | do_RegisterTEEPair now r a s : rs_id_ok r → mgr_step s (RegisterTEEPair now r a s).1
  | do_UpdateTEEState now r p f s : rs_id_ok r → mgr_step s (UpdateTEEState now r p f s).1
  | do_UpdateMetrics now r p f s : rs_id_ok r → mgr_step s (RM_UpdateMetrics now r p f s).1
  | do_collectRegionMetrics now r s : rs_id_ok r → mgr_step s (collectRegionMetrics now r s).1
  | do_checkRegionHealth now r s : rs_id_ok r → mgr_step s (checkRegionHealth now r s).1
  | do_UpdateRegionHealth r h s : rs_id_ok r → hs_Status h ≠ "" → mgr_step s (UpdateRegionHealth r h s).1
  | do_UpdateRegionMetrics r m s : rs_id_ok r → mgr_step s (UpdateRegionMetrics r m s).1
  | do_performHealthChecks (MR' : MapRange) now s : mgr_step s (performHealthChecks (MR := MR') now s).1
  | do_collectMetrics (MR' : MapRange) now s : mgr_step s (collectMetrics (MR := MR') now s).1
  | do_Stop s : mgr_step s (RM_Stop s).1.

Lemma health_inv_step s s' : mgr_step s s' → health_inv s → health_inv s'.
Proof using Type.
  intros Hstep Hs. destruct Hstep; revert s Hs;
    match goal with |- ∀ s, health_inv s → health_inv (?m s).1 => enough (keeps_inv m) as Hm by (intros s Hs; by apply Hm) end.
  - by apply keeps_alloc.
  - by apply keeps_UpdateConfig.
  - by apply keeps_GetConfig.
  - unfold RM_DeleteRegion. keep.
  - by apply keeps_AddTEEPair.
  - apply keeps_GetRegionConfig.
  - unfold UpdateCache. keep.
  - unfold ClearCache. keep.
  - unfold InvalidateCache. keep.
  - by apply keeps_RegisterTEEPair.
  - by apply keeps_UpdateTEEState.
  - by apply keeps_RM_UpdateMetrics.
  - by apply keeps_collectRegionMetrics.
  - by apply keeps_checkRegionHealth.
  - by apply keeps_UpdateRegionHealth.
  - unfold UpdateRegionMetrics. keep.
  - apply keeps_performHealthChecks.
  - apply keeps_collectMetrics.
  - unfold RM_Stop, StopMonitoring. eapply (maintains_bind _ _ _ (λ _, True)); keep.
Qed.

Lemma health_inv_steps s s' : rtc mgr_step s s' → health_inv s → health_inv s'.
Proof using Type. induction 1; eauto using health_inv_step. Qed.

(** The health of a region is recorded under the status as pair name and looked up
    under the empty one.  From a manager over a store that has no state under the
    empty name, no sequence of operations, health checks included, makes
    [GetRegionHealth] return a health: it fails for every region. *)
Theorem region_health_never_found heap (store : St) s r :
  (∀ a c, heap !! a = Some c → named c) →
  (∀ r c, rs_id_ok r → v_config (rs_view store) r = Some c → named c) →
  (∀ r, rs_id_ok r → v_state (rs_view store) r "" = None) →
  rtc mgr_step (NewRegionManager heap store) s → rs_id_ok r →
  ∃ e, (RM_GetRegionHealth r s).2 = Err e.
Proof using Type.
  intros Hh Hc Hst Hsteps Hr.
  assert (health_inv (NewRegionManager heap store)) as Hs by by split.
  apply (health_inv_steps _ _ Hsteps) in Hs.
  pose proof (rs_GetTEEState_run r "" (mg_store s)) as H. fold (view s) in H. rewrite hi_health in H by done.
  destruct H as [e He]. exists e. unfold RM_GetRegionHealth, on_store. go_unfold. simpl. by rewrite He.
Qed.

(** * The lock that is never released *)

Abbreviation stays_locked m := (maintains (λ s : RM, mg_deadlocked s = true) m (λ _, True)).

Lemma stays_locked_locked {A} (m : go RM A) Q : maintains (λ s, mg_deadlocked s = true) (locked m) Q.
Proof using Type. intros s Hs. unfold locked. by rewrite Hs. Qed.

Lemma stays_locked_bind {A B} (m : go RM A) (f : A → go RM B) s :
  mg_deadlocked s = true → (locked m ≫= f) s = (s, Hang "cacheLock").
Proof using Type. intros Hs. unfold mbind, go_bind, locked. by rewrite Hs. Qed.

Lemma stays_locked_on_store {A} (m : go St A) : stays_locked (on_store m).
Proof using Type. intros s Hs. unfold on_store, zoom. by destruct (m (mg_store s)). Qed.

Lemma stays_locked_deref a : stays_locked (deref a).
Proof using Type. intros s Hs. unfold deref. by destruct (mg_heap s !! a). Qed.

Lemma deadlock_step s s' : mgr_step s s' → mg_deadlocked s = true → mg_deadlocked s' = true.
Proof using Type.
  intros Hstep Hs. destruct Hstep; try (by apply (stays_locked_locked _ (λ _, True))).
  - done.
  - revert s Hs. enough (stays_locked (UpdateConfig r a)) as Hm by (intros s Hs; by apply Hm).
    eapply maintains_bind; [apply stays_locked_deref|]. intros c _.
    eapply maintains_bind; [by apply (maintains_lift _ _ (λ _, True))|]. intros _ _.
    eapply maintains_bind; [apply maintains_fail_if|]. intros _ _.
    eapply maintains_bind; [apply maintains_wrap, stays_locked_on_store|]. intros _ _. by apply maintains_modify.
  - revert s Hs. enough (stays_locked (GetConfig r)) as Hm by (intros s Hs; by apply Hm).
    eapply maintains_bind; [by apply (maintains_gets _ _ (λ _, True))|]. intros [a|] _; [by apply maintains_ret|].
    eapply maintains_bind; [apply maintains_wrap, stays_locked_on_store|]. intros [c|] _; [|apply maintains_fail].
    eapply (maintains_bind _ _ _ (λ _, True)); [by intros s Hs|]. intros a _.
    eapply (maintains_bind _ _ _ (λ _, True)); [by apply maintains_modify|]. intros _ _. by apply maintains_ret.
  - by apply (maintains_wrap _ _ _ _ (stays_locked_on_store _)).
  - unfold collectRegionMetrics. by rewrite stays_locked_bind.
  - revert s Hs. enough (stays_locked (checkRegionHealth now r)) as Hm by (intros s Hs; by apply Hm).
    eapply maintains_bind; [by apply (maintains_gets _ _ (λ _, True))|]. intros [a|] _; [|apply maintains_fail].
    eapply maintains_bind; [apply stays_locked_deref|]. intros c _.
    eapply (maintains_for_each _ _ _ (λ _, True)); [|by apply Forall_true]. intros p _.
    eapply maintains_bind; [apply maintains_try, (stays_locked_locked _ (λ _, True))|].
    intros [st|e] _; [|by apply maintains_ret].
    eapply maintains_bind; [apply maintains_try, (stays_locked_locked _ (λ _, True))|]. intros _ _. by apply maintains_ret.
  - by apply stays_locked_on_store.
  - by apply stays_locked_on_store.
  - unfold performHealthChecks, ListRegions. by rewrite stays_locked_bind.
  - unfold collectMetrics, ListRegions. by rewrite stays_locked_bind.
  - unfold RM_Stop, StopMonitoring. go_unfold. by destruct (mg_monitor_closed s).
Qed.

Lemma deadlock_steps s s' : rtc mgr_step s s' → mg_deadlocked s = true → mg_deadlocked s' = true.
Proof using Type. induction 1; eauto using deadlock_step. Qed.

(** [GetRegionConfig] asks for the write lock while it holds the read lock: for
    a region that is not in the cache it never returns, and from then on, whatever
    else happens, no call that takes the lock returns: the cache, the pair states,
    the metrics, the list of regions and the health checks are blocked for ever. *)
Theorem GetRegionConfig_deadlocks r s s' :
  mg_deadlocked s = false → mg_cache s !! r = None →
  rtc mgr_step (GetRegionConfig r s).1 s' →
  (∃ w, (GetRegionConfig r s).2 = Hang w) ∧
  ∀ now r' p a f g, ∃ w,
    (GetRegionConfig r' s').2 = Hang w ∧ (UpdateCache r' a s').2 = Hang w ∧
    (GetTEEPairs r' s').2 = Hang w ∧ (RegisterTEEPair now r' a s').2 = Hang w ∧
    (UpdateTEEState now r' p f s').2 = Hang w ∧ (RM_UpdateMetrics now r' p g s').2 = Hang w ∧
    (RM_GetTEEState r' p s').2 = Hang w ∧ (ListRegions s').2 = Hang w ∧
    (performHealthChecks now s').2 = Hang w ∧ (collectMetrics now s').2 = Hang w.
Proof using Type.
  intros Hd Hc Hsteps.
  assert (GetRegionConfig r s = (set_deadlocked s, Hang "cacheLock")) as E.
  { unfold GetRegionConfig. rewrite locked_run by done. go_unfold. by rewrite Hc. }
  rewrite E in *. cbn [fst] in Hsteps. split; [eexists; done|].
  assert (mg_deadlocked s' = true) as Hs' by by apply (deadlock_steps _ _ Hsteps).
  intros now r' p a f g. exists "cacheLock".
  assert (∀ A (m : go RM A), (locked m s').2 = Hang "cacheLock") as Hl.
  { intros A m. unfold locked. by rewrite Hs'. }
  split_and!; try apply Hl; unfold performHealthChecks, collectMetrics, ListRegions; by rewrite stays_locked_bind.
Qed.

(** * Regions that are registered but not cached *)

(** Health checks and monitoring list the regions of one table and look their
    pairs up in another, the cache, which neither a registration nor a
    configuration update fills: over an empty cache a round of health checks and a
    round of monitoring change nothing, whatever regions are registered. *)
Theorem uncached_regions_unchecked `{MR' : MapRange} now s :
  mg_deadlocked s = false → mg_cache s = ∅ →
  performHealthChecks (MR := MR') now s = (s, Ok tt) ∧ collectMetrics (MR := MR') now s = (s, Ok tt).
Proof using Type.
  intros Hd Hc.
  assert (∀ r, GetTEEPairs r s = (s, Err (missing r))) as Hg.
  { intros r. unfold GetTEEPairs. rewrite locked_run by done. go_unfold. by rewrite Hc, lookup_empty. }
  unfold performHealthChecks, collectMetrics, ListRegions.
  rewrite !(bind_ok (locked _) _ s s (range_map 0 (mg_configs s)).*1) by (by rewrite locked_run).
  split; apply for_each_pass; intros r _.
  - rewrite (bind_ok _ _ s s (inr (Wrapf "failed to get TEE pairs" (missing r)))); [done|].
    unfold try, checkRegion. go_unfold. by rewrite Hg.
  - rewrite (bind_ok _ _ s s (inr (missing r))); [done|]. unfold try. by rewrite Hg.
Qed.

(** A registration does not fill the cache, so the checks above miss the regions it
    adds. *)
Lemma RegisterTEEPair_cache now r a s : mg_cache (RegisterTEEPair now r a s).1 = mg_cache s.
Proof using Type.
  set (I := λ x : RM, mg_cache x = mg_cache s).
  enough (maintains I (RegisterTEEPair now r a) (λ _, True)) as H by by apply (H s).
  assert (∀ A (m : go St A), maintains I (on_store m) (λ _, True)) as Hon.
  { intros A m x Hx. unfold on_store, zoom. by destruct (m (mg_store x)). }
  assert (∀ f, (∀ x, mg_cache (f x) = mg_cache x) → maintains I (modify f) (λ _, True)) as Hmod.
  { intros f Hf. apply maintains_modify; [|done]. unfold I. intros x <-. apply Hf. }
  enough (∀ c, maintains I (put_state r (rc_ID c) (initial_state now)) (λ _, True) ∧
               maintains I (put_metrics r (rc_ID c) (initial_metrics now)) (λ _, True)) as Hput.
  - intros x Hx. unfold RegisterTEEPair, locked. destruct (mg_deadlocked x); [done|]. revert x Hx.
    eapply maintains_bind; [apply Hmod; intros x; by destruct (mg_states x !! r)|]. intros _ _.
    eapply maintains_bind; [by apply Hmod|]. intros _ _.
    eapply (maintains_bind _ _ _ (λ _, True)); [intros x Hx; unfold deref; by destruct (mg_heap x !! a)|].
    intros c _. destruct (Hput c) as [H1 H2].
    eapply maintains_bind; [exact H1|]. intros _ _.
    eapply (maintains_bind _ _ _ (λ _, True)); [by apply maintains_gets|]. intros present _.
    eapply (maintains_bind _ _ _ (λ _, True)); [destruct present; [exact H2|apply maintains_gopanic]|]. intros _ _.
    do 2 (eapply maintains_bind; [apply maintains_wrap, Hon|]; intros _ _). apply maintains_wrap, Hon.
  - intros c. split; by apply Hmod.
Qed.

(** An update of a pair's state makes the table of states of its region but not the
    table of metrics, and a later registration of the region then assigns to a nil
    map: it panics, with the configuration replaced in memory and not stored. *)
Lemma RegisterTEEPair_after_UpdateTEEState now r a c s l :
  mg_deadlocked s = false → mg_heap s !! a = Some c →
  mg_states s !! r = Some l → mg_metrics s !! r = None →
  ∃ s', RegisterTEEPair now r a s = (s', Panic "assignment to entry in nil map") ∧
    mg_configs s' !! r = Some a ∧ mg_store s' = mg_store s.
Proof using Type.
  intros Hd Ha Hs Hm. unfold RegisterTEEPair. rewrite locked_run by done. unfold put_state. go_unfold.
  rewrite Hs. unfold deref. simpl. rewrite Ha. simpl. rewrite Hm, bool_decide_eq_false_2 by (by intros []).
  eexists. split; [done|]. simpl. by rewrite lookup_insert_eq.
Qed.
End facts.

(** * Witnesses: the region state store over a map *)

#[local] Existing Instances config_FJson state_FJson metrics_FJson.
#[local] Existing Instances config_FJsonLaws state_FJsonLaws metrics_FJsonLaws.

Definition sample_now : Time := fromUnix 1700000000.
Definition sample_config : RegionConfig :=
  mkRegionConfig "eu" [mkTEEPair "p1" "sgx1" "sev1" "h:1" "h:2" "active"] 10 10
    (mkLB (f_lit 8 1) (f_of_Z 100) (f_lit 1 1) 1 10 60 false f_zero)
    (mkGeo f_zero f_zero "dc1" "FR" "eu-west").
Abbreviation sample_RM := (RegionManager (gmap string string)).
Definition sample_manager : sample_RM := NewRegionManager {[ 1%nat := sample_config ]} ∅.

Lemma sample_config_valid : valid_config sample_config.
Proof. apply RegionConfig_Validate_ok. by vm_compute. Qed.

Lemma sample_named : named (St := gmap string string) sample_config.
Proof. split_and!; [done|by repeat constructor|by vm_compute]. Qed.

Lemma UpdateConfig_spec_witness :
  ∃ s', UpdateConfig "eu" 1 sample_manager = (s', Ok tt) ∧ GetConfig "eu" s' = (s', Ok 1%nat).
Proof.
  destruct (UpdateConfig_spec "eu" 1 sample_config sample_manager) as [H _];
    [by vm_compute|done|by vm_compute|].
  destruct (H sample_config_valid eq_refl) as (s' & H1 & H2 & _). eauto.
Defined.

(** The manager after the configuration is stored. *)
Definition configured : sample_RM := (UpdateConfig "eu" 1 sample_manager).1.

Lemma UpdateTEEState_spec_witness :
  ∃ s', UpdateTEEState sample_now "eu" "p1" (λ st, with_status "draining" st) configured = (s', Ok tt).
Proof.
  destruct (UpdateTEEState_spec sample_now "eu" "p1" (λ st, with_status "draining" st) 1 sample_config configured)
    as [H _]; [by vm_compute..|].
  destruct H as (s' & H1 & _); [left|by vm_compute|eauto].
Defined.

(** A pair is registered and its region's health recorded; the health is not found. *)
Definition sample_health : HealthStatus := mkHealth "healthy" sample_now 0 f_one f_zero 0.

Lemma region_health_never_found_witness :
  ∃ e, (RM_GetRegionHealth "eu"
    (UpdateRegionHealth "eu" sample_health (RegisterTEEPair sample_now "eu" 1 sample_manager).1).1).2 = Err e.
Proof.
  apply (region_health_never_found (MR := canonical_MapRange) {[ 1%nat := sample_config ]} (∅ : gmap string string)).
  - intros a c [_ <-]%lookup_singleton_Some. exact sample_named.
  - intros r c Hr H. vm_compute in H. done.
  - intros r Hr. by vm_compute.
  - eapply rtc_l; [by apply (do_RegisterTEEPair sample_now "eu" 1)|].
    apply rtc_once. by apply (do_UpdateRegionHealth "eu" sample_health).
  - by vm_compute.
Defined.

Lemma GetRegionConfig_deadlocks_witness :
  ∃ w, (ListRegions (MR := canonical_MapRange) (GetRegionConfig "eu" configured).1).2 = Hang w.
Proof.
  destruct (GetRegionConfig_deadlocks (MR := canonical_MapRange) "eu" configured (GetRegionConfig "eu" configured).1)
    as [_ H]; [by vm_compute|by vm_compute|apply rtc_refl|].
  destruct (H sample_now "eu" "p1" 1%nat (λ st, st) (λ m, m)) as (w & _ & _ & _ & _ & _ & _ & _ & Hw & _). eauto.
Defined.

Lemma uncached_regions_unchecked_witness :
  mg_configs configured !! "eu" = Some 1%nat ∧
  performHealthChecks (MR := canonical_MapRange) sample_now configured = (configured, Ok tt).
Proof.
  split; [by vm_compute|].
  apply (uncached_regions_unchecked (MR' := canonical_MapRange) sample_now configured); by vm_compute.
Defined.

(** An update of a state, then a registration: the panic above does occur. *)
Example RegisterTEEPair_panics :
  (RegisterTEEPair sample_now "eu" 1
     (UpdateTEEState sample_now "eu" "p1" (λ st, st) configured).1).2 = Panic "assignment to entry in nil map".
Proof. by vm_compute. Qed.
