(* ===== verification/PairManager.v ===== *)
(** Package [regions], the pair manager ([regions/pair_manager.go]): pairs of enclave
    workers registered with a coordinator and recorded in a store.

    The coordinator and the store are the interfaces of [interfaces/tee.go].  [Close]
    sets the tables to nil, which reads as empty and panics on write, so they are
    [gomap]s. *)

From S2P Require Import Prelude GoTime Float64 KV Core RangeState RegionConfig Balancer.
From Stdlib Require Import ZArith Lia Ascii String.
From stdpp Require Import base tactics option list strings pretty gmap.

Local Open Scope Z_scope.

(** * Data of [interfaces/tee.go] *)

Record IPair : Type := mkIPair { ip_ID : string; ip_SGXID : string; ip_SEVID : string }.

Record IPairConfig : Type := mkIPairConfig {
  ic_ID : string;
  ic_SGXEndpoint : string;
  ic_SEVEndpoint : string;
  ic_Status : string;
}.

Record IPairInfo : Type := mkIPairInfo {
  ii_ID : string;
  ii_SGXEndpoint : string;
  ii_SEVEndpoint : string;
  ii_Status : string;
  ii_LastUpdate : Time;
}.

Record IPairMetrics : Type := mkIPairMetrics {
  im_PairID : string;
  im_LoadFactor : float64;
  im_SuccessRate : float64;
  im_ErrorRate : float64;
  im_TasksProcessed : Z;
  im_LastUpdate : Time;
}.

(** The methods the manager calls of [interfaces.Coordinator] and
    [interfaces.Storage]. *)
Class PairCoordinator (C : Type) : Type := { ic_RegisterWorker : string → string → go C unit }.
Class PairStorage (St : Type) : Type := {
  ps_SaveTEEPairInfo : IPairInfo → go St unit;
  ps_SaveTEEMetrics : string → IPairMetrics → go St unit;
}.

Record TEEPairManager (C St : Type) : Type := mkPM {
  pg_pairs : gomap IPair;
  pg_metrics : gomap IPairMetrics;
  pg_info : gomap IPairInfo;
  pg_coordinator : C;
  pg_store : St;
}.
Arguments mkPM {_ _} _ _ _ _ _.
Arguments pg_pairs {_ _} _.
Arguments pg_metrics {_ _} _.
Arguments pg_info {_ _} _.
Arguments pg_coordinator {_ _} _.
Arguments pg_store {_ _} _.

Section manager.
Context {C St : Type} `{!PairCoordinator C, !PairStorage St} `{MR : MapRange}.
Abbreviation PM := (TEEPairManager C St).

Definition NewTEEPairManager (c : C) (st : St) : PM := mkPM (Some ∅) (Some ∅) (Some ∅) c st.

Definition on_coord {A} (m : go C A) : go PM A :=
  zoom pg_coordinator (λ c s, mkPM (pg_pairs s) (pg_metrics s) (pg_info s) c (pg_store s)) m.
Definition on_pstore {A} (m : go St A) : go PM A :=
  zoom pg_store (λ st s, mkPM (pg_pairs s) (pg_metrics s) (pg_info s) (pg_coordinator s) st) m.

(** Assignments [pm.metrics[id] = m] and [pm.info[id] = i]. *)
Definition assign_metrics (id : string) (m : IPairMetrics) : go PM unit := λ s,
  match map_assign (pg_metrics s) id m with
  | Ok t => (mkPM (pg_pairs s) (Some t) (pg_info s) (pg_coordinator s) (pg_store s), Ok tt)
  | Err e => (s, Err e)
  | Panic w => (s, Panic w)
  | Hang w => (s, Hang w)
  end.
Definition assign_info (id : string) (i : IPairInfo) : go PM unit := λ s,
  match map_assign (pg_info s) id i with
  | Ok t => (mkPM (pg_pairs s) (pg_metrics s) (Some t) (pg_coordinator s) (pg_store s), Ok tt)
  | Err e => (s, Err e)
  | Panic w => (s, Panic w)
  | Hang w => (s, Hang w)
  end.

Definition new_info (config : IPairConfig) : IPairInfo :=
  mkIPairInfo (ic_ID config) (ic_SGXEndpoint config) (ic_SEVEndpoint config) "active" zeroTime.
Definition new_metrics (now : Time) (config : IPairConfig) : IPairMetrics :=
  mkIPairMetrics (ic_ID config) f_zero f_one f_zero 0 now.

Definition CreatePair (now : Time) (config : option IPairConfig) : go PM IPairInfo :=
  match config with
  | None => gopanic nil_deref
  | Some config =>
      wrap "failed to register SGX worker" (on_coord (ic_RegisterWorker ("sgx-" +s+ ic_ID config) "sgx-enclave")) ;;
      wrap "failed to register SEV worker" (on_coord (ic_RegisterWorker ("sev-" +s+ ic_ID config) "sev-enclave")) ;;
      assign_metrics (ic_ID config) (new_metrics now config) ;;
      wrap "failed to save TEE pair info" (on_pstore (ps_SaveTEEPairInfo (new_info config))) ;;
      assign_info (ic_ID config) (new_info config) ;;
      mret (new_info config)
  end.

Definition PG_GetPair (pairID : string) (s : PM) : outcome IPair :=
  match map_lookup (pg_pairs s) pairID with
  | Some p => Ok p
  | None => Err (Errorf ("TEE pair " +s+ pairID +s+ " not found"))
  end.

Definition GetPairInfo (pairID : string) (s : PM) : outcome IPairInfo :=
  match map_lookup (pg_info s) pairID with
  | Some i => Ok i
  | None => Err (Errorf ("TEE pair info " +s+ pairID +s+ " not found"))
  end.

(** The status is set through the pointer in the table before the metrics are
    dereferenced. *)
Definition UpdatePairStatus (now : Time) (pairID status : string) : go PM unit :=
  i ← gets (λ s, map_lookup (pg_info s) pairID);
  match i with
  | None => fail (Errorf ("TEE pair " +s+ pairID +s+ " not found"))
  | Some i =>
      let i' := mkIPairInfo (ii_ID i) (ii_SGXEndpoint i) (ii_SEVEndpoint i) status (ii_LastUpdate i) in
      assign_info pairID i' ;;
      m ← gets (λ s, map_lookup (pg_metrics s) pairID);
      match m with
      | None => gopanic nil_deref
      | Some m =>
          assign_metrics pairID (mkIPairMetrics (im_PairID m) (im_LoadFactor m) (im_SuccessRate m)
            (im_ErrorRate m) (im_TasksProcessed m) now) ;;
          wrap "failed to save TEE pair status" (on_pstore (ps_SaveTEEPairInfo i'))
      end
  end.

Definition PG_GetMetrics (pairID : string) (s : PM) : outcome IPairMetrics :=
  match map_lookup (pg_metrics s) pairID with
  | Some m => Ok m
  | None => Err (Errorf ("metrics not found for TEE pair " +s+ pairID))
  end.

Definition PG_UpdateMetrics (pairID : string) (updateFn : IPairMetrics → IPairMetrics) : go PM unit :=
  m ← gets (λ s, map_lookup (pg_metrics s) pairID);
  match m with
  | None => fail (Errorf ("metrics not found for TEE pair " +s+ pairID))
  | Some m =>
      assign_metrics pairID (updateFn m) ;;
      wrap "failed to save metrics" (on_pstore (ps_SaveTEEMetrics pairID (updateFn m)))
  end.

Definition ListPairs (s : PM) : list IPairInfo := (range_map 0 (default ∅ (pg_info s))).*2.

Definition PG_Close : go PM unit :=
  modify (λ s, mkPM None None None (pg_coordinator s) (pg_store s)).
End manager.

(** * Theorems *)

Section facts.
Context {C St : Type} `{!PairCoordinator C, !PairStorage St}.
Abbreviation PM := (TEEPairManager C St).
Implicit Types s : PM.

(** The operations, in any order and with any outcome of the coordinator and the
    store. *)
Inductive pm_step : PM → PM → Prop :=
  | pm_CreatePair now config s : pm_step s (CreatePair now config s).1
  | pm_UpdatePairStatus now id status s : pm_step s (UpdatePairStatus now id status s).1
  | pm_UpdateMetrics id f s : pm_step s (PG_UpdateMetrics id f s).1
  | pm_Close s : pm_step s (PG_Close s).1.

(** Every pair with an info record has metrics, the tables are nil together, and the
    table of pairs is empty. *)
Record pm_inv s : Prop := {
  pi_metrics : ∀ id i, map_lookup (pg_info s) id = Some i → is_Some (map_lookup (pg_metrics s) id);
  pi_nil : is_Some (pg_info s) ↔ is_Some (pg_metrics s);
  pi_pairs : ∀ id, map_lookup (pg_pairs s) id = None;
}.

Lemma inv_coord {A} (m : go C A) : maintains pm_inv (on_coord m) (λ _, True).
Proof using Type. intros s [H1 H2 H3]. unfold on_coord, zoom. by destruct (m (pg_coordinator s)). Qed.
Lemma inv_pstore {A} (m : go St A) : maintains pm_inv (on_pstore m) (λ _, True).
Proof using Type. intros s [H1 H2 H3]. unfold on_pstore, zoom. by destruct (m (pg_store s)). Qed.

Lemma inv_assign_metrics id m : maintains pm_inv (assign_metrics id m) (λ _, True).
Proof using Type.
  intros s Hs. unfold assign_metrics, map_assign. destruct (pg_metrics s) as [t|] eqn:E; [|done].
  destruct Hs as [H1 H2 H3]. rewrite E in *. split; [|done]. split; simpl; auto.
  - intros id' i Hi. specialize (H1 id' i Hi). simpl in *. destruct (decide (id' = id)) as [->|].
    + rewrite lookup_insert_eq. eauto.
    + by rewrite lookup_insert_ne.
  - rewrite H2. split; eauto.
Qed.

(** Recording info for a pair that has metrics. *)
Lemma inv_assign_info id i s :
  pm_inv s → is_Some (map_lookup (pg_metrics s) id) → pm_inv (assign_info id i s).1.
Proof using Type.
  intros Hs Hm. unfold assign_info, map_assign. destruct (pg_info s) as [t|] eqn:E; [|done].
  destruct Hs as [H1 H2 H3]. rewrite E in *. split; simpl; auto.
  - intros id' i' Hi. destruct (decide (id' = id)) as [->|]; [done|].
    rewrite lookup_insert_ne in Hi by done. by eapply H1.
  - rewrite <-H2. split; eauto.
Qed.

Lemma assign_info_run id i s t :
  pg_info s = Some t → assign_info id i s =
  (mkPM (pg_pairs s) (pg_metrics s) (Some (<[id := i]> t)) (pg_coordinator s) (pg_store s), Ok tt).
Proof using Type. unfold assign_info, map_assign. by intros ->. Qed.
Lemma assign_metrics_run id m s t :
  pg_metrics s = Some t → assign_metrics id m s =
  (mkPM (pg_pairs s) (Some (<[id := m]> t)) (pg_info s) (pg_coordinator s) (pg_store s), Ok tt).
Proof using Type. unfold assign_metrics, map_assign. by intros ->. Qed.

Lemma inv_CreatePair now config : maintains pm_inv (CreatePair now config) (λ _, True).
Proof using Type.
  destruct config as [c|]; [|apply maintains_gopanic]. unfold CreatePair.
  eapply maintains_bind; [apply maintains_wrap, inv_coord|]. intros _ _.
  eapply maintains_bind; [apply maintains_wrap, inv_coord|]. intros _ _.
  intros s Hs. destruct (pg_metrics s) as [t|] eqn:Et; cycle 1.
  { unfold assign_metrics, map_assign. go_unfold. rewrite Et. simpl. done. }
  pose proof (proj1 (inv_assign_metrics (ic_ID c) (new_metrics now c) s Hs)) as Hs1.
  unfold mbind at 1, go_bind. unfold assign_metrics, map_assign in *. rewrite Et in *. cbn [fst] in Hs1.
  set (s1 := mkPM _ _ _ _ _) in *.
  assert (∀ st', pm_inv (mkPM (pg_pairs s1) (pg_metrics s1) (pg_info s1) (pg_coordinator s1) st')) as Hst.
  { intros st'. destruct Hs1 as [H1 H2 H3]. by split. }
  unfold on_pstore. go_unfold. destruct (ps_SaveTEEPairInfo (new_info c) (pg_store s1)) as [st' [[]| | |]];
    [|split; [apply Hst|done]..].
  specialize (Hst st').
  pose proof (inv_assign_info (ic_ID c) (new_info c) _ Hst) as Hi. simpl in Hi.
  rewrite lookup_insert_eq in Hi. specialize (Hi ltac:(eauto)).
  destruct (assign_info (ic_ID c) (new_info c) _) as [s2 [[]| | |]]; done.
Qed.

Lemma inv_UpdateMetrics id f : maintains pm_inv (PG_UpdateMetrics id f) (λ _, True).
Proof using Type.
  unfold PG_UpdateMetrics. eapply (maintains_bind _ _ _ (λ _, True)); [by apply maintains_gets|].
  intros [m|] _; [|apply maintains_fail].
  eapply maintains_bind; [apply inv_assign_metrics|]. intros _ _. apply maintains_wrap, inv_pstore.
Qed.

Lemma inv_UpdatePairStatus now id status : maintains pm_inv (UpdatePairStatus now id status) (λ _, True).
Proof using Type.
  intros s Hs. unfold UpdatePairStatus.
  rewrite (bind_ok (gets _) _ s s (map_lookup (pg_info s) id)) by done.
  destruct (map_lookup (pg_info s) id) as [i|] eqn:Ei; [|done]. cbv zeta.
  pose proof (inv_assign_info id (mkIPairInfo (ii_ID i) (ii_SGXEndpoint i) (ii_SEVEndpoint i) status (ii_LastUpdate i))
    s Hs (pi_metrics s Hs id i Ei)) as Hs1.
  destruct (pg_info s) as [t|] eqn:Et; [|done]. rewrite (assign_info_run _ _ _ _ Et) in Hs1.
  rewrite (bind_ok _ _ _ _ _ (assign_info_run _ _ _ _ Et)). revert Hs1. generalize (mkPM (pg_pairs s) (pg_metrics s)
    (Some (<[id := mkIPairInfo (ii_ID i) (ii_SGXEndpoint i) (ii_SEVEndpoint i) status (ii_LastUpdate i)]> t))
    (pg_coordinator s) (pg_store s)).
  eapply (maintains_bind _ _ _ (λ _, True)); [by apply maintains_gets|].
  intros [m|] _; [|apply maintains_gopanic].
  eapply maintains_bind; [apply inv_assign_metrics|]. intros _ _. apply maintains_wrap, inv_pstore.
Qed.

Lemma pm_inv_step s s' : pm_step s s' → pm_inv s → pm_inv s'.
Proof using Type.
  destruct 1; intros Hs; [by apply inv_CreatePair|by apply inv_UpdatePairStatus|by apply inv_UpdateMetrics|].
  split; simpl; [done| |done]. by split; intros [? ?].
Qed.

Lemma pm_inv_steps s s' : rtc pm_step s s' → pm_inv s → pm_inv s'.
Proof using Type. induction 1; eauto using pm_inv_step. Qed.

Lemma pm_inv_new c st : pm_inv (NewTEEPairManager c st).
Proof using Type. split; simpl; [done| |intros; apply lookup_empty]. split; eauto. Qed.

(** C22: over every sequence of operations, whatever the coordinator and the store
    answer: a pair with an info record has metrics, so a change of status never
    dereferences a nil pointer; [GetPair] finds no pair at all, since nothing fills
    its table. *)
Theorem pair_manager_safe c st s :
  rtc pm_step (NewTEEPairManager c st) s →
  (∀ id i, GetPairInfo id s = Ok i → ∃ m, PG_GetMetrics id s = Ok m) ∧
  (∀ now id status, (∀ i x, (ps_SaveTEEPairInfo i x).2 = Ok tt ∨ ∃ e, (ps_SaveTEEPairInfo i x).2 = Err e) →
     (UpdatePairStatus now id status s).2 = Ok tt ∨ ∃ e, (UpdatePairStatus now id status s).2 = Err e) ∧
  (∀ id, ∃ e, PG_GetPair id s = Err e).
Proof using Type.
  intros Hsteps. pose proof (pm_inv_steps _ _ Hsteps (pm_inv_new c st)) as [H1 H2 H3]. split_and!.
  - intros id i H. unfold GetPairInfo in H. destruct (map_lookup (pg_info s) id) as [i'|] eqn:E; [|done].
    destruct (H1 id i' E) as [m Hm]. exists m. unfold PG_GetMetrics. by rewrite Hm.
  - intros now id status Hret. unfold UpdatePairStatus.
    rewrite (bind_ok (gets _) _ s s (map_lookup (pg_info s) id)) by done.
    destruct (map_lookup (pg_info s) id) as [i|] eqn:Ei; [|right; eexists; done]. cbv zeta.
    destruct (H1 id i Ei) as [m Hm].
    destruct (pg_info s) as [ti|] eqn:Eti; [|done]. destruct (pg_metrics s) as [tm|] eqn:Etm; [|done].
    rewrite (bind_ok _ _ _ _ _ (assign_info_run id _ s ti Eti)), Etm.
    rewrite (bind_ok (gets _) _ _ _ (Some m)) by (unfold gets; simpl in *; by rewrite Hm).
    erewrite bind_ok; [|apply (assign_metrics_run _ _ _ tm); done].
    unfold wrap, on_pstore, zoom. simpl.
    match goal with |- context [ps_SaveTEEPairInfo ?i ?x] => destruct (Hret i x) as [Ho|[e Ho]] end;
      destruct (ps_SaveTEEPairInfo _ _) as [x o]; simpl in Ho; subst; eauto.
  - intros id. unfold PG_GetPair. rewrite H3. eauto.
Qed.

(** A pair that is created registers the SGX worker and then the SEV worker under
    the pair's id, is recorded in the store, active, and is found by its info and
    its metrics; the other pairs stay as they were.  When the second registration
    fails the first worker stays registered and no pair is recorded. *)
Theorem CreatePair_spec now config s :
  is_Some (pg_info s) → is_Some (pg_metrics s) →
  let id := ic_ID config in
  let r1 := ic_RegisterWorker ("sgx-" +s+ id) "sgx-enclave" (pg_coordinator s) in
  let r2 := ic_RegisterWorker ("sev-" +s+ id) "sev-enclave" r1.1 in
  let r3 := ps_SaveTEEPairInfo (new_info config) (pg_store s) in
  (r1.2 = Ok tt → r2.2 = Ok tt → r3.2 = Ok tt →
   ∃ s', CreatePair now (Some config) s = (s', Ok (new_info config)) ∧
     pg_coordinator s' = r2.1 ∧ pg_store s' = r3.1 ∧
     GetPairInfo id s' = Ok (new_info config) ∧ PG_GetMetrics id s' = Ok (new_metrics now config) ∧
     (∀ id', id' ≠ id → GetPairInfo id' s' = GetPairInfo id' s ∧ PG_GetMetrics id' s' = PG_GetMetrics id' s)) ∧
  (∀ e, r1.2 = Ok tt → r2.2 = Err e →
   ∃ s', CreatePair now (Some config) s = (s', Err (Wrapf "failed to register SEV worker" e)) ∧
     pg_coordinator s' = r2.1 ∧ pg_info s' = pg_info s ∧ pg_metrics s' = pg_metrics s ∧ pg_store s' = pg_store s).
Proof using Type.
  intros [ti Eti] [tm Etm] id r1 r2 r3.
  split.
  - intros H1 H2 H3. unfold CreatePair, assign_info, assign_metrics, on_coord, on_pstore, map_assign. go_unfold.
    fold id. rewrite (surjective_pairing (ic_RegisterWorker ("sgx-" +s+ id) "sgx-enclave" (pg_coordinator s))).
    fold r1. rewrite H1. simpl. rewrite (surjective_pairing (ic_RegisterWorker ("sev-" +s+ id) "sev-enclave" r1.1)).
    fold r2. rewrite H2. simpl. rewrite Etm. simpl.
    rewrite (surjective_pairing (ps_SaveTEEPairInfo (new_info config) (pg_store s))). fold r3. rewrite H3. simpl.
    rewrite Eti. simpl. eexists. split; [done|]. unfold GetPairInfo, PG_GetMetrics. simpl.
    rewrite !lookup_insert_eq. split_and!; try done. intros id' Hne. by rewrite !lookup_insert_ne, Eti, Etm.
  - intros e H1 H2. unfold CreatePair, on_coord. go_unfold. fold id.
    rewrite (surjective_pairing (ic_RegisterWorker ("sgx-" +s+ id) "sgx-enclave" (pg_coordinator s))).
    fold r1. rewrite H1. simpl. rewrite (surjective_pairing (ic_RegisterWorker ("sev-" +s+ id) "sev-enclave" r1.1)).
    fold r2. rewrite H2. simpl. eexists. split; [done|]. done.
Qed.

(** After [Close] the tables are nil: creating a pair registers both workers and
    then panics. *)
Lemma CreatePair_after_Close now config s c1 c2 :
  ic_RegisterWorker ("sgx-" +s+ ic_ID config) "sgx-enclave" (pg_coordinator s) = (c1, Ok tt) →
  ic_RegisterWorker ("sev-" +s+ ic_ID config) "sev-enclave" c1 = (c2, Ok tt) →
  (CreatePair now (Some config) (PG_Close s).1).2 = Panic "assignment to entry in nil map".
Proof using Type.
  intros H1 H2. unfold CreatePair, on_coord, assign_metrics, PG_Close. go_unfold. cbn [pg_coordinator].
  rewrite H1. cbn [pg_coordinator pg_metrics]. by rewrite H2.
Qed.
End facts.

(** ** A coordinator that records its workers and a store that keeps the last record *)
#[local] Instance list_PairCoordinator : PairCoordinator (list string) := {
  ic_RegisterWorker id enclave := modify (λ l, l ++ [id]) }.
#[local] Instance map_PairStorage : PairStorage (gmap string IPairInfo) := {
  ps_SaveTEEPairInfo i := modify (λ m, <[ii_ID i := i]> m);
  ps_SaveTEEMetrics id m := mret tt }.

Definition sample_pair_config : IPairConfig := mkIPairConfig "p1" "h:1" "h:2" "".
Definition sample_pm : TEEPairManager (list string) (gmap string IPairInfo) := NewTEEPairManager [] ∅.

Lemma pair_manager_safe_witness :
  ∃ e, PG_GetPair "p1" (CreatePair zeroTime (Some sample_pair_config) sample_pm).1 = Err e.
Proof.
  apply (pair_manager_safe (C := list string) (St := gmap string IPairInfo) [] ∅).
  apply rtc_once. apply (pm_CreatePair zeroTime (Some sample_pair_config)).
Defined.

Lemma CreatePair_spec_witness :
  ∃ s', CreatePair zeroTime (Some sample_pair_config) sample_pm = (s', Ok (new_info sample_pair_config)) ∧
    pg_coordinator s' = ["sgx-p1"; "sev-p1"].
Proof.
  destruct (CreatePair_spec zeroTime sample_pair_config sample_pm) as [H _]; [eexists; done|eexists; done|].
  destruct H as (s' & H1 & H2 & _); [done..|]. eauto.
Defined.
