(* ===== verification/CodeValidator.v ===== *)
(** Package [vm], the code validator ([vm/code_validator.go]): the header of a code
    blob, the formats and the TEE types that may run them.

    A blob is sixteen header bytes (magic, format, version, TEE type, five reserved
    bytes) and a body.  A [uint8] is a [Z] below 256.  The validators of formats are
    an interface, here a record of its two methods. *)

From S2P Require Import Prelude Core.
From Stdlib Require Import ZArith Lia Ascii String.
From stdpp Require Import base tactics option list strings pretty gmap.

Local Open Scope Z_scope.

Definition TEETypeSGX : Z := 1.
Definition TEETypeSEV : Z := 2.
Definition FormatRaw : Z := 1.
Definition FormatWasm : Z := 2.
Definition FormatCustom : Z := 3.

Definition ErrInvalidFormat := Sentinel "vm" "ErrInvalidFormat".
Definition ErrUnsupportedFormat := Sentinel "vm" "ErrUnsupportedFormat".
Definition ErrMalformedCode := Sentinel "vm" "ErrMalformedCode".
Definition vm_ErrCodeTooLarge := Sentinel "vm" "ErrCodeTooLarge".
Definition ErrInvalidHeader := Sentinel "vm" "ErrInvalidHeader".
Definition ErrInvalidTEEFormat := Sentinel "vm" "ErrInvalidTEEFormat".
Definition vm_ErrInvalidTEEType := Sentinel "vm" "ErrInvalidTEEType".

Definition byte (x : Z) : ascii := ascii_of_N (Z.to_N x).
Definition is_u8 (x : Z) : Prop := 0 ≤ x < 256.

(** ["\x00SHUTTLE"]. *)
Definition HeaderMagic : string := String (byte 0) "SHUTTLE".
Definition HeaderSize : Z := 16.

Record CodeHeader : Type := mkCodeHeader {
  ch_Format : Z;
  ch_Version : Z;
  ch_TEEType : Z;
  ch_Reserved : string;
}.

Record FormatValidator : Type := mkFV {
  fv_Validate : string → verdict;
  fv_ValidateForTEE : string → Z → verdict;
}.

Record CodeValidator : Type := mkCV {
  cv_maxSize : Z;
  cv_formats : gmap Z FormatValidator;
  cv_teeFormats : gmap Z (list Z);
}.

(** * Formats *)

Definition Raw_Validate (code : string) : verdict := check (slen code =? 0) ErrMalformedCode.
Definition Raw_ValidateForTEE (code : string) (teeType : Z) : verdict := Err ErrInvalidTEEFormat.

Definition wasmMagic : string :=
  String (byte 0) (String (byte 97) (String (byte 115) (String (byte 109)
    (String (byte 1) (String (byte 0) (String (byte 0) (String (byte 0) EmptyString))))))).

Definition Wasm_Validate (code : string) : verdict :=
  check (slen code <? slen wasmMagic) ErrMalformedCode ;;
  check (negb (bool_decide (substring 0 (String.length wasmMagic) code = wasmMagic))) ErrInvalidFormat.
Definition Wasm_ValidateForTEE (code : string) (teeType : Z) : verdict := Ok tt.

(** [binary.LittleEndian.Uint32] of the first four bytes. *)
Fixpoint le_get (s : string) : Z :=
  match s with
  | EmptyString => 0
  | String a s' => Z.of_N (N_of_ascii a) + 256 * le_get s'
  end.
Definition LittleEndian_Uint32 (s : string) : Z := le_get (substring 0 4 s).

Definition Custom_Validate (code : string) : verdict :=
  check (slen code <? 4) ErrMalformedCode ;;
  check (slen code <? int64 (LittleEndian_Uint32 code + 4)) ErrMalformedCode.
Definition Custom_ValidateForTEE (code : string) (teeType : Z) : verdict := Ok tt.

Definition RawValidator : FormatValidator := mkFV Raw_Validate Raw_ValidateForTEE.
Definition WasmValidator : FormatValidator := mkFV Wasm_Validate Wasm_ValidateForTEE.
Definition CustomValidator : FormatValidator := mkFV Custom_Validate Custom_ValidateForTEE.

(** * The validator *)

Definition RegisterFormat (format : Z) (v : FormatValidator) (cv : CodeValidator) : CodeValidator :=
  mkCV (cv_maxSize cv) (<[format := v]> (cv_formats cv)) (cv_teeFormats cv).
Definition RegisterTEEFormat (teeType : Z) (formats : list Z) (cv : CodeValidator) : CodeValidator :=
  mkCV (cv_maxSize cv) (cv_formats cv) (<[teeType := formats]> (cv_teeFormats cv)).

Definition NewCodeValidator (maxSize : Z) : CodeValidator :=
  RegisterTEEFormat TEETypeSEV [FormatWasm; FormatCustom]
    (RegisterTEEFormat TEETypeSGX [FormatWasm]
       (RegisterFormat FormatCustom CustomValidator
          (RegisterFormat FormatWasm WasmValidator
             (RegisterFormat FormatRaw RawValidator (mkCV maxSize ∅ ∅))))).

Definition isValidTEEType (teeType : Z) : bool := (teeType =? TEETypeSGX) || (teeType =? TEETypeSEV).

Definition isFormatSupportedByTEE (cv : CodeValidator) (format teeType : Z) : bool :=
  match cv_teeFormats cv !! teeType with
  | None => false
  | Some supported => existsb (λ f, f =? format) supported
  end.

(** [code[i]] of a slice that is long enough. *)
Definition at_ (code : string) (i : nat) : Z :=
  match String.get i code with Some a => Z.of_N (N_of_ascii a) | None => 0 end.

Definition read_header (code : string) : CodeHeader :=
  mkCodeHeader (at_ code 8) (at_ code 9) (at_ code 10) (substring 11 5 code).

Definition ValidateCode (cv : CodeValidator) (code : string) : verdict :=
  check (cv_maxSize cv <? slen code) vm_ErrCodeTooLarge ;;
  check (slen code <? HeaderSize) ErrInvalidHeader ;;
  check (negb (bool_decide (substring 0 8 code = HeaderMagic))) ErrInvalidHeader ;;
  let header := read_header code in
  check (negb (isValidTEEType (ch_TEEType header))) vm_ErrInvalidTEEType ;;
  check (negb (isFormatSupportedByTEE cv (ch_Format header) (ch_TEEType header))) ErrInvalidTEEFormat ;;
  match cv_formats cv !! ch_Format header with
  | None => Err ErrUnsupportedFormat
  | Some v => fv_Validate v (drop_str 16 code)
  end.

Definition zeros (n : nat) : string := string_of_list_ascii (replicate n (byte 0)).

(** The reserved bytes of a fresh header are zero. *)
Definition CreateCode (format version teeType : Z) (code : string) : string :=
  HeaderMagic +s+ String (byte format) (String (byte version) (String (byte teeType) (zeros 5 +s+ code))).

(** * Theorems *)

(** A header printed before a body. *)
Definition blob (h : CodeHeader) (body : string) : string :=
  HeaderMagic +s+ String (byte (ch_Format h)) (String (byte (ch_Version h))
    (String (byte (ch_TEEType h)) (ch_Reserved h +s+ body))).

Definition wf_header (h : CodeHeader) : Prop :=
  is_u8 (ch_Format h) ∧ is_u8 (ch_Version h) ∧ is_u8 (ch_TEEType h) ∧ String.length (ch_Reserved h) = 5%nat.

Lemma byte_N a : byte (Z.of_N (N_of_ascii a)) = a.
Proof. unfold byte. rewrite N2Z.id. apply ascii_N_embedding. Qed.
Lemma N_byte x : is_u8 x → Z.of_N (N_of_ascii (byte x)) = x.
Proof. unfold byte, is_u8. intros H. rewrite N_ascii_embedding by lia. lia. Qed.
Lemma is_u8_ascii a : is_u8 (Z.of_N (N_of_ascii a)).
Proof. unfold is_u8. pose proof (N_ascii_bounded a). lia. Qed.

Lemma slen_blob h body : wf_header h → slen (blob h body) = 16 + slen body.
Proof.
  intros (_ & _ & _ & Hr). unfold blob, slen. rewrite length_app_str. simpl. rewrite length_app_str, Hr. lia.
Qed.

Lemma substring_rest (s : string) n : (String.length s ≤ n)%nat → substring 0 n s = s.
Proof. revert n. induction s as [|a s IH]; intros [|n] H; simpl in *; try done; [lia|]. by rewrite IH by lia. Qed.

Lemma drop_str_all (p s : string) : drop_str (String.length p) (p +s+ s) = s.
Proof.
  unfold drop_str. rewrite length_app_str. replace (String.length p + String.length s - String.length p)%nat
    with (String.length s) by lia.
  induction p as [|a p IH]; simpl; [by apply substring_rest|done].
Qed.

(** Five bytes, spelt out. *)
Lemma five_bytes s : String.length s = 5%nat →
  ∃ a b c d e, s = String a (String b (String c (String d (String e EmptyString)))).
Proof.
  intros H. do 5 (destruct s as [|? s]; [simpl in H; lia|]). destruct s; [|simpl in H; lia].
  by repeat eexists.
Qed.

Lemma read_blob h body :
  wf_header h → read_header (blob h body) = h ∧ drop_str 16 (blob h body) = body ∧
    substring 0 8 (blob h body) = HeaderMagic.
Proof.
  intros (Hf & Hv & Ht & Hr). destruct h as [f v t r]. simpl in *.
  destruct (five_bytes r Hr) as (a & b & c & d & e & ->). split_and!.
  - unfold read_header, at_, blob. simpl. rewrite !N_byte by done. f_equal.
    by destruct body.
  - apply (drop_str_all (HeaderMagic +s+ String (byte f) (String (byte v) (String (byte t)
      (String a (String b (String c (String d (String e EmptyString)))))))) body).
  - done.
Qed.

Lemma blob_read code :
  16 ≤ slen code → substring 0 8 code = HeaderMagic →
  wf_header (read_header code) ∧ code = blob (read_header code) (drop_str 16 code).
Proof.
  unfold slen. intros Hl Hm.
  do 16 (destruct code as [|? code]; [simpl in Hl; lia|]).
  unfold read_header, blob, wf_header, at_. simpl. rewrite !byte_N.
  replace (substring 0 0 code) with "" in * by by destruct code.
  split; [split_and!; try apply is_u8_ascii; done|]. simpl in Hm |- *.
  injection Hm as -> -> -> -> -> -> -> ->. repeat f_equal.
  unfold drop_str. simpl. by rewrite Nat.sub_0_r, substring_rest.
Qed.

(** Headers and blobs are in bijection: printing a header (with eight-bit fields
    and five reserved bytes) before a body and reading it back gives the header and
    the body, and every blob of at least sixteen bytes that starts with the magic is
    the print of what is read from it. *)
Theorem header_roundtrip :
  (∀ h body, wf_header h → read_header (blob h body) = h ∧ drop_str 16 (blob h body) = body) ∧
  (∀ code, 16 ≤ slen code → substring 0 8 code = HeaderMagic →
     wf_header (read_header code) ∧ code = blob (read_header code) (drop_str 16 code)).
Proof.
  split; [|apply blob_read]. intros h body Hh. by destruct (read_blob h body Hh) as (? & ? & _).
Qed.

Lemma CreateCode_blob format version teeType code :
  CreateCode format version teeType code = blob (mkCodeHeader format version teeType (zeros 5)) code.
Proof. done. Qed.

(** What the formats accept. *)
Definition wasm_body (body : string) : Prop := ∃ rest, body = wasmMagic +s+ rest.
Definition custom_body (body : string) : Prop :=
  4 ≤ slen body ∧ LittleEndian_Uint32 body + 4 ≤ slen body.

Lemma verdict_check b e : check b e = Ok tt ↔ b = false.
Proof. by destruct b. Qed.

Lemma prefix_substring p s :
  substring 0 (String.length p) s = p ↔ ∃ rest, s = p +s+ rest.
Proof.
  split.
  - revert s. induction p as [|a p IH]; intros s H; [by exists s|]. destruct s as [|b s]; simpl in H; [done|].
    injection H as -> H. destruct (IH s H) as [rest ->]. by exists rest.
  - intros [rest ->]. induction p as [|a p IH]; simpl; [by destruct rest|]. by rewrite IH.
Qed.

Lemma Wasm_Validate_spec body : Wasm_Validate body = Ok tt ↔ wasm_body body.
Proof.
  unfold Wasm_Validate, wasm_body. rewrite check_ok, verdict_check, negb_false_iff, bool_decide_eq_true,
    prefix_substring, Z.ltb_ge. split; [tauto|]. intros [rest ->]. split; [|eauto].
  rewrite slen_app. pose proof (slen_nonneg rest). lia.
Qed.

Lemma le_get_bound s : 0 ≤ le_get s < 256 ^ slen s.
Proof.
  unfold slen. induction s as [|a s IH]; cbn [le_get String.length]; [simpl; lia|].
  rewrite Nat2Z.inj_succ, Z.pow_succ_r by lia. pose proof (N_ascii_bounded a). lia.
Qed.

Lemma Uint32_bound s : 0 ≤ LittleEndian_Uint32 s < 2 ^ 32.
Proof.
  unfold LittleEndian_Uint32. pose proof (le_get_bound (substring 0 4 s)) as H. split; [lia|].
  eapply Z.lt_le_trans; [apply H|]. change (2 ^ 32) with (256 ^ 4). apply Z.pow_le_mono_r; [lia|].
  unfold slen. pose proof (length_substring0 4 s). lia.
Qed.

Lemma Custom_Validate_spec body : Custom_Validate body = Ok tt ↔ custom_body body.
Proof.
  unfold Custom_Validate, custom_body. rewrite check_ok, verdict_check, !Z.ltb_ge.
  pose proof (Uint32_bound body). by rewrite int64_small by lia.
Qed.

(** The blobs that may run: a WebAssembly module on either TEE, a custom image on
    SEV. *)
Definition runnable (h : CodeHeader) (body : string) : Prop :=
  (ch_Format h = FormatWasm ∧ (ch_TEEType h = TEETypeSGX ∨ ch_TEEType h = TEETypeSEV) ∧ wasm_body body) ∨
  (ch_Format h = FormatCustom ∧ ch_TEEType h = TEETypeSEV ∧ custom_body body).

Lemma supported_spec maxSize f t :
  isValidTEEType t = true ∧ isFormatSupportedByTEE (NewCodeValidator maxSize) f t = true ↔
  f = FormatWasm ∧ (t = TEETypeSGX ∨ t = TEETypeSEV) ∨ f = FormatCustom ∧ t = TEETypeSEV.
Proof.
  unfold isValidTEEType, isFormatSupportedByTEE. rewrite orb_true_iff, !Z.eqb_eq.
  split.
  - intros [[->| ->] H].
    + change (cv_teeFormats _ !! _) with (Some [FormatWasm]) in H.
      apply existsb_exists in H as (x & Hin & ->%Z.eqb_eq). destruct Hin as [<-|[]]. auto.
    + change (cv_teeFormats _ !! _) with (Some [FormatWasm; FormatCustom]) in H.
      apply existsb_exists in H as (x & Hin & ->%Z.eqb_eq). destruct Hin as [<-|[<-|[]]]; auto.
  - intros [[-> [->| ->]]|[-> ->]]; cbn; auto.
Qed.

Lemma validators maxSize :
  cv_formats (NewCodeValidator maxSize) !! FormatWasm = Some WasmValidator ∧
  cv_formats (NewCodeValidator maxSize) !! FormatCustom = Some CustomValidator.
Proof. done. Qed.

(** C23: the code validator of the VM accepts exactly the blobs within the size limit
    that print a header before a body that may run: a WebAssembly module (with its
    magic and version) for SGX or SEV, or a custom image (whose table fits in it) for
    SEV.  The version and the reserved bytes do not matter, and code in the raw
    format, though registered, is never accepted. *)
Theorem ValidateCode_spec maxSize code :
  ValidateCode (NewCodeValidator maxSize) code = Ok tt ↔
  slen code ≤ maxSize ∧ ∃ h body, wf_header h ∧ code = blob h body ∧ runnable h body.
Proof.
  unfold ValidateCode. rewrite !check_ok, !negb_false_iff, bool_decide_eq_true, !Z.ltb_ge.
  unfold HeaderSize. split.
  - intros (Hs & Hl & Hm & Ht & Hf & Hv). split; [done|]. destruct (blob_read code Hl Hm) as [Hwf Hc].
    exists (read_header code), (drop_str 16 code). split_and!; [done..|]. cbv zeta in *.
    destruct (proj1 (supported_spec maxSize _ _) (conj Ht Hf)) as [[E Htee]|[E Htee]]; rewrite E in Hv.
    + left. split_and!; [done..|]. by apply Wasm_Validate_spec.
    + right. split_and!; [done..|]. by apply Custom_Validate_spec.
  - intros (Hs & h & body & Hwf & -> & Hrun). destruct (read_blob h body Hwf) as (Hh & Hb & Hm).
    pose proof (slen_nonneg body). rewrite slen_blob in * by done.
    destruct (proj2 (supported_spec maxSize (ch_Format h) (ch_TEEType h))) as [Ht Hf].
    { unfold runnable in Hrun. naive_solver. }
    split_and!; [done|lia|done|..]; cbv zeta; rewrite Hh, ?Hb; [done|done|].
    destruct Hrun as [(-> & _ & ?)|(-> & _ & ?)].
    + by apply Wasm_Validate_spec.
    + by apply Custom_Validate_spec.
Qed.

(** A module wrapped by [CreateCode] is accepted, one in the raw format refused. *)
Example create_wasm :
  ValidateCode (NewCodeValidator 1024) (CreateCode FormatWasm 1 TEETypeSGX (wasmMagic +s+ "body")) = Ok tt.
Proof. by vm_compute. Qed.
Example create_raw :
  ValidateCode (NewCodeValidator 1024) (CreateCode FormatRaw 1 TEETypeSEV "body") = Err ErrInvalidTEEFormat.
Proof. by vm_compute. Qed.
Example create_custom_short :
  ValidateCode (NewCodeValidator 1024) (CreateCode FormatCustom 1 TEETypeSEV
    (String (byte 9) (String (byte 0) (String (byte 0) (String (byte 0) "table"))))) = Err ErrMalformedCode.
Proof. by vm_compute. Qed.
