(* ===== verification/VMExecution.v ===== *)
(** Package [vm], the regional executor ([vm/execution.go]): a second path by which
    objects are created and events sent, written against the same state manager
    interface as the actions.

    The theorems compare it with the actions' own [Execute]: on an action the action
    itself accepts, both create the same object; the executor does not have the
    actions' bounds, and it stores an event under the id of its object alone. *)

From S2P Require Import Prelude GoTime KV Core Storage Transfer Actions ActionsFacts TimeServer Verifier.
From S2P Require Import Channel Worker Coordinator CoordinatorFacts StateManager StateManagerFacts StateManagerVM.
From Stdlib Require Import ZArith Lia Ascii String.
From stdpp Require Import base tactics option list strings pretty gmap.

Local Open Scope Z_scope.

(** What [ExecuteAction] returns. *)
Inductive exec_result : Type :=
  | ResSendEvent (r : SendEventResult)
  | ResCreateObject (r : CreateObjectResult).

Section executor.
Context {W : Type} `{!VMState W}.

Definition getActionRegion (action : Action) : string :=
  match action with
  | ActSendEvent a => SEv_RegionID a
  | ActCreateObject a => CO_RegionID a
  | _ => ""
  end.

(** The event of an action, stored under the id of the object; the result has no
    event id. *)
Definition executeSendEvent (now : Time) (a : SendEventAction) : go W SendEventResult :=
  targetObj ← vm_GetObject (SEv_IDTo a) (SEv_RegionID a);
  fail_if (match targetObj with None => true | Some _ => false end) (Errorf "target object not found in region") ;;
  let event := mkEvent (SEv_FunctionCall a) (SEv_Parameters a) (SEv_Attestations a)
                 (Format (Timestamp (SEv_Attestations a).1)) "pending" in
  vm_SetEvent now (SEv_IDTo a) event (SEv_RegionID a) ;;
  mret (mkSendEventResult true (SEv_IDTo a) "" (Data (SEv_Attestations a).1) (EventTimestamp event) (SEv_RegionID a)).

Definition executeCreateObject (now : Time) (a : CreateObjectAction) : go W CreateObjectResult :=
  existingObj ← vm_GetObject (CO_ID a) (CO_RegionID a);
  fail_if (match existingObj with Some _ => true | None => false end) (Errorf "object already exists in region") ;;
  vm_SetObject now (CO_ID a) (mkObject (CO_Code a) (CO_Storage a) (CO_RegionID a) [] zeroTime "active") ;;
  mret (mkCreateObjectResult (CO_ID a) (CO_RegionID a)).

(** The name of the type, as [%T] prints it, is an argument of the message only. *)
Definition ExecuteAction (now : Time) (typeName : string) (action : Action) : go W exec_result :=
  let regionID := getActionRegion action in
  fail_if (bool_decide (regionID = "")) (Errorf "no region specified for action") ;;
  region ← vm_GetRegion regionID;
  fail_if (match region with None => true | Some _ => false end) (Errorf ("region " +s+ regionID +s+ " not found")) ;;
  match action with
  | ActSendEvent a => r ← executeSendEvent now a; mret (ResSendEvent r)
  | ActCreateObject a => r ← executeCreateObject now a; mret (ResCreateObject r)
  | _ => fail (Errorf ("unsupported action type: " +s+ typeName))
  end.
End executor.

(** * Theorems *)

Section facts.
Context {W : Type} `{!VMState W, !VMView W, !VMStateLaws W}.
Implicit Types w : W.

(** When the executor creates an object. *)
Definition exec_create_valid (c : CreateObjectAction) w : bool :=
  region_known w (CO_RegionID c) && negb (bool_decide (is_Some (object_at w (CO_RegionID c) (CO_ID c)))).

Lemma create_valid_exec c w : create_valid c w = true → exec_create_valid c w = true.
Proof using Type. unfold create_valid, exec_create_valid. rewrite !andb_true_iff. tauto. Qed.

Lemma region_checked r w :
  r ≠ "" → ready r w →
  ∃ w1, same_view w w1 ∧ ∀ A (k : go W A),
    (fail_if (bool_decide (r = "")) (Errorf "no region specified for action") ;;
     region ← vm_GetRegion r;
     fail_if (match region with None => true | Some _ => false end) (Errorf ("region " +s+ r +s+ " not found")) ;; k) w =
    if region_known w r then k w1 else (w1, Err (Errorf ("region " +s+ r +s+ " not found"))).
Proof using Type*.
  intros Hne Hr. destruct (GetRegion_law _ _ Hr) as (w1 & g & Hg & Hv & Hk). exists w1. split; [done|].
  intros A k. go_unfold. rewrite bool_decide_eq_false_2 by done. rewrite Hg. by destruct g; rewrite Hk.
Qed.

Lemma ExecuteAction_create now typeName c w :
  CO_RegionID c ≠ "" → ready (CO_RegionID c) w →
  ∃ w' o, ExecuteAction now typeName (ActCreateObject c) w = (w', o) ∧
    is_ok o = exec_create_valid c w ∧
    (is_ok o = true → o = Ok (ResCreateObject (mkCreateObjectResult (CO_ID c) (CO_RegionID c)))) ∧
    ∀ id, object_at w' (CO_RegionID c) id =
      if exec_create_valid c w && bool_decide (id = CO_ID c)
      then Some (mkObject (CO_Code c) (CO_Storage c) (CO_RegionID c) [] zeroTime "active")
      else object_at w (CO_RegionID c) id.
Proof using Type*.
  intros Hne Hr. unfold ExecuteAction, exec_create_valid. cbv zeta. cbn [getActionRegion].
  destruct (region_checked _ _ Hne Hr) as (w1 & Hv1 & Hrun). rewrite Hrun. destruct (Hv1 _ Hr) as (Hr1 & _).
  destruct (region_known w (CO_RegionID c)); simpl;
    [|eexists _, _; split_and!; [done..|]; intros id; by apply same_view_objects].
  destruct (GetObject_law _ (CO_ID c) w1 Hr1) as (w2 & Hg & Hv2). destruct (Hv2 _ Hr1) as (Hr2 & _).
  assert (∀ id, object_at w2 (CO_RegionID c) id = object_at w (CO_RegionID c) id) as Hsame.
  { intros id. by rewrite (same_view_objects w1 w2 _ _ Hr1 Hv2), (same_view_objects w w1 _ _ Hr Hv1). }
  rewrite (same_view_objects w w1 _ _ Hr Hv1) in Hg. unfold executeCreateObject. go_unfold. rewrite Hg.
  destruct (object_at w (CO_RegionID c) (CO_ID c)) as [ob|]; cbn [is_Some].
  - rewrite bool_decide_eq_true_2 by eauto. simpl. by eexists _, _.
  - rewrite bool_decide_eq_false_2 by (by intros []). simpl.
    destruct (SetObject_law now (CO_ID c) (mkObject (CO_Code c) (CO_Storage c) (CO_RegionID c) [] zeroTime "active") w2 Hr2)
      as (w3 & Hs & H3).
    rewrite Hs. eexists _, _. split_and!; [done..|]. intros id.
    destruct (H3 _ Hr2) as (_ & _ & H3' & _). rewrite H3'. simpl. rewrite Hsame. apply bool_decide_if. tauto.
Qed.

(** Creating an object through the regional executor is creating it with the
    action, except for the checks: whenever the action's own [Execute] succeeds the
    executor succeeds with the same result and every object of the region is the
    same afterwards.  The executor accepts, moreover, exactly the other actions
    whose region exists and whose object does not, whatever the size of the id,
    code and storage. *)
Theorem executor_creates_like_action ok now typeName timestamp c w :
  CO_RegionID c ≠ "" → ready (CO_RegionID c) w →
  let ra := CreateObject_Execute ok now timestamp c w in
  let re := ExecuteAction now typeName (ActCreateObject c) w in
  (∀ res, ra.2 = Ok res →
     re.2 = Ok (ResCreateObject res) ∧
     ∀ id, object_at re.1 (CO_RegionID c) id = object_at ra.1 (CO_RegionID c) id) ∧
  is_ok re.2 = exec_create_valid c w.
Proof using Type*.
  intros Hne Hr ra re.
  destruct (CreateObject_Execute_run ok now timestamp c w Hne Hr) as (wa & oa & Ha & Hoka & Hresa & Hobja).
  destruct (ExecuteAction_create now typeName c w Hne Hr) as (we & oe & He & Hoke & Hrese & Hobje).
  unfold ra, re. rewrite Ha, He. cbn [fst snd]. split; [|done].
  intros res ->. simpl in Hoka. symmetry in Hoka. apply andb_true_iff in Hoka as [-> Hoka]. pose proof (create_valid_exec c w Hoka) as Hv.
  rewrite Hv in Hoke. rewrite (Hrese Hoke), (Hresa res eq_refl). split; [done|].
  intros id. rewrite Hobje, Hobja, Hoka, Hv. done.
Qed.

(** An event sent through the executor is stored under the id of its object and
    nowhere else, pending; the object and its list of events do not change, so a
    second event to the same object replaces the first. *)
Theorem executor_event_overwrites now typeName a w :
  SEv_RegionID a ≠ "" → ready (SEv_RegionID a) w → encodable (event_of a) = true →
  region_known w (SEv_RegionID a) = true → is_Some (object_at w (SEv_RegionID a) (SEv_IDTo a)) →
  let r := ExecuteAction now typeName (ActSendEvent a) w in
  is_ok r.2 = true ∧
  (∀ id, event_at r.1 (SEv_RegionID a) id =
     if bool_decide (id = SEv_IDTo a) then Some (event_of a) else event_at w (SEv_RegionID a) id) ∧
  (∀ id, object_at r.1 (SEv_RegionID a) id = object_at w (SEv_RegionID a) id).
Proof using Type*.
  intros Hne Hr Hen Hk [ob Hob] r. unfold r, ExecuteAction. cbv zeta. cbn [getActionRegion].
  destruct (region_checked _ _ Hne Hr) as (w1 & Hv1 & Hrun). rewrite Hrun, Hk.
  destruct (Hv1 _ Hr) as (Hr1 & _ & Ho1 & He1 & _).
  destruct (GetObject_law _ (SEv_IDTo a) w1 Hr1) as (w2 & Hg & Hv2). destruct (Hv2 _ Hr1) as (Hr2 & _ & Ho2 & He2 & _).
  rewrite Ho1, Hob in Hg. unfold executeSendEvent. go_unfold. rewrite Hg. simpl.
  destruct (SetEvent_law now (SEv_IDTo a) (event_of a) (SEv_RegionID a) w2 Hr2 Hen) as (w3 & Hs & H3).
  unfold event_of in Hs at 1. rewrite Hs. simpl. destruct (H3 _ Hr2) as (_ & _ & Ho3 & He3). split_and!; [done| |].
  - intros id. rewrite He3, He2, He1. apply bool_decide_if. tauto.
  - intros id. by rewrite Ho3, Ho2, Ho1.
Qed.
End facts.

(** * Witnesses: over the state manager of package [storage] *)

#[local] Existing Instances channel_Json channel_JsonLaws worker_Json region_Json map_PrefixIter.
#[local] Existing Instances obj_Json obj_JsonLaws json_Json json_JsonLaws message_Json map_MerkleDB.
#[local] Existing Instances evt_Json evt_JsonLaws map_VMView map_VMStateLaws.

Lemma executor_creates_like_action_witness :
  is_ok (ExecuteAction CoordinatorFacts.sample_now "" (ActCreateObject sample_create) sample_vm).2 = true.
Proof.
  rewrite (proj2 (executor_creates_like_action true CoordinatorFacts.sample_now "" 10 sample_create sample_vm
    ltac:(done) sample_vm_ready)). vm_compute. reflexivity.
Defined.

Lemma executor_event_overwrites_witness :
  event_at (ExecuteAction CoordinatorFacts.sample_now "" (ActSendEvent sample_event) created_vm).1 "us-east" "obj" =
  Some (event_of sample_event).
Proof.
  destruct (executor_event_overwrites CoordinatorFacts.sample_now "" sample_event created_vm) as (_ & H & _).
  - done.
  - apply created_vm_ready.
  - vm_compute. reflexivity.
  - vm_compute. reflexivity.
  - vm_compute. eexists. reflexivity.
  - etransitivity; [apply (H "obj")|]. by rewrite bool_decide_eq_true_2.
Defined.
