(* ===== verification/RFC3339.v ===== *)
(** [time.Parse(time.RFC3339, s)], and that it reads back what [Format] prints.

    The parser follows the layout "2006-01-02T15:04:05Z07:00" element by element the
    way Go's [time.Parse] does, with its leniencies: an hour of one digit, a fraction
    after a point or a comma, of which nine digits count, and zone offsets of 24
    hours or 60 minutes.  What the text says wrong is one error here; the
    program never looks at it. *)

From S2P Require Import Prelude GoTime.
From Stdlib Require Import ZArith Lia Ascii String.
From stdpp Require Import base tactics option list strings.

Local Open Scope Z_scope.
#[local] Ltac Zify.zify_post_hook ::= Z.to_euclidean_division_equations.

(** * The parser *)

Definition is_digit (c : ascii) : bool := let n := Z.of_N (N_of_ascii c) in (48 <=? n) && (n <=? 57).
Definition digit_val (c : ascii) : Z := Z.of_N (N_of_ascii c) - 48.

(** Two digits, or one when the width is not fixed. *)
Definition getnum (fixed : bool) (s : string) : option (Z * string) :=
  match s with
  | String a s1 =>
      if is_digit a then
        match s1 with
        | String b s2 =>
            if is_digit b then Some (10 * digit_val a + digit_val b, s2)
            else if fixed then None else Some (digit_val a, s1)
        | EmptyString => if fixed then None else Some (digit_val a, s1)
        end
      else None
  | EmptyString => None
  end.

(** Two digits below a bound. *)
Definition getnum_below (fixed : bool) (bound : Z) (s : string) : option (Z * string) :=
  '(n, s) ← getnum fixed s;
  if n <? bound then Some (n, s) else None.

Definition get_year (s : string) : option (Z * string) :=
  '(hi, s) ← getnum true s;
  '(lo, s) ← getnum true s;
  Some (100 * hi + lo, s).

Definition skip (c : ascii) (s : string) : option string :=
  match s with
  | String a s' => if ascii_dec a c then Some s' else None
  | EmptyString => None
  end.

Fixpoint span_digits (s : string) : list Z * string :=
  match s with
  | String a s' => if is_digit a then let '(ds, r) := span_digits s' in (digit_val a :: ds, r) else ([], s)
  | EmptyString => ([], s)
  end.

(** The first nine digits of a fraction, as nanoseconds. *)
Definition nanoseconds (ds : list Z) : Z :=
  let used := take 9 ds in
  fold_left (λ acc d, 10 * acc + d) used 0 * 10 ^ (9 - Z.of_nat (length used)).

Definition comma_or_period (c : ascii) : bool :=
  if ascii_dec c "."%char then true else if ascii_dec c ","%char then true else false.

Definition get_fraction (s : string) : Z * string :=
  match s with
  | String c (String d _ as s') =>
      if comma_or_period c && is_digit d then let '(ds, r) := span_digits s' in (nanoseconds ds, r) else (0, s)
  | _ => (0, s)
  end.

(** "Z", or a sign, two digits of hours, a colon and two digits of minutes. *)
Definition get_zone (s : string) : option (Z * string) :=
  match s with
  | String sign s1 =>
      if ascii_dec sign "Z"%char then Some (0, s1) else
      '(hr, s2) ← getnum_below true 25 s1;
      s3 ← skip ":"%char s2;
      '(mm, s4) ← getnum_below true 61 s3;
      let off := (hr * 60 + mm) * 60 in
      if ascii_dec sign "+"%char then Some (off, s4)
      else if ascii_dec sign "-"%char then Some (- off, s4) else None
  | EmptyString => None
  end.

Definition is_leap (y : Z) : bool := (y mod 4 =? 0) && (negb (y mod 100 =? 0) || (y mod 400 =? 0)).

Definition daysIn (m y : Z) : Z :=
  if m =? 2 then (if is_leap y then 29 else 28)
  else if (m =? 4) || (m =? 6) || (m =? 9) || (m =? 11) then 30 else 31.

(** The day count of a date, the inverse of [civil]. *)
Definition days_of_civil (y m d : Z) : Z :=
  let y' := if m <=? 2 then y - 1 else y in
  let yoe := y' mod 400 in
  let doy := (153 * (if m <=? 2 then m + 9 else m - 3) + 2) / 5 + d - 1 in
  y' / 400 * 146097 + (yoe * 365 + yoe / 4 - yoe / 100 + doy) - 719468.

Definition parse_rfc3339 (s : string) : option Time :=
  '(y, s) ← get_year s;
  s ← skip "-"%char s;
  '(m, s) ← getnum_below true 13 s;
  s ← skip "-"%char s;
  '(d, s) ← getnum true s;
  s ← skip "T"%char s;
  '(hh, s) ← getnum_below false 24 s;
  s ← skip ":"%char s;
  '(mi, s) ← getnum_below true 60 s;
  s ← skip ":"%char s;
  '(ss, s) ← getnum_below true 60 s;
  let '(ns, s) := get_fraction s in
  '(off, s) ← get_zone s;
  if (slen s =? 0) && (1 <=? m) && (1 <=? d) && (d <=? daysIn m y)
  then Some (mkTime ((days_of_civil y m d * 86400 + hh * 3600 + mi * 60 + ss - off) * Second + ns) off)
  else None.

Definition Parse (s : string) : outcome Time :=
  match parse_rfc3339 s with
  | Some t => Ok t
  | None => Err (Errorf ("parsing time " +s+ s))
  end.

Example Parse_ex1 : Parse "2023-11-14T22:13:20Z" = Ok (fromUnix 1700000000).
Proof. reflexivity. Qed.
Example Parse_ex2 : Parse "2000-02-28T19:30:00-04:30" = Ok (mkTime (951782400 * Second) (-16200)).
Proof. reflexivity. Qed.
Example Parse_ex3 : Parse "2000-02-29T0:00:00,05Z" = Ok (mkTime (951782400 * Second + 50000000) 0).
Proof. reflexivity. Qed.
Example Parse_bad_day : is_ok (Parse "2001-02-29T00:00:00Z") = false.
Proof. reflexivity. Qed.
Example Parse_extra : is_ok (Parse "2001-02-28T00:00:00Z ") = false.
Proof. reflexivity. Qed.

(** * Dates *)

Definition year_of_era (doe : Z) : Z := (doe - doe / 1460 + doe / 36524 - doe / 146096) / 365.

(** The years of an era of 400, counted from March: day [doe] lies in year
    [year_of_era doe]. *)
Lemma year_of_era_bounds doe :
  0 ≤ doe < 146097 →
  let y := year_of_era doe in
  0 ≤ y ≤ 399 ∧ 365 * y + y / 4 - y / 100 ≤ doe ∧
  doe < 365 * (y + 1) + (y + 1) / 4 - (y + 1) / 100 + (if y + 1 =? 400 then 1 else 0).
Proof.
  intros H y. unfold y, year_of_era; clear y.
  assert (doe / 146096 = if doe =? 146096 then 1 else 0) as ->.
  { destruct (Z.eqb_spec doe 146096); subst; [reflexivity|apply Z.div_small; lia]. }
  destruct (Z.eqb_spec doe 146096) as [->|Hne]; [by vm_compute|].
  set (c := doe / 36524) in *. assert (c = 0 ∨ c = 1 ∨ c = 2 ∨ c = 3) as Hc by (unfold c; lia).
  set (q := doe / 1460). set (y := (doe - q + c - 0) / 365).
  assert (36524 * c ≤ doe < 36524 * (c + 1)) by (unfold c; lia).
  assert (1460 * q ≤ doe < 1460 * (q + 1)) by (unfold q; lia).
  assert (365 * y ≤ doe - q + c < 365 * (y + 1)) by (unfold y; lia). clearbody c q y. clear Hne.
  destruct Hc as [-> |[-> |[-> | ->]]]; destruct (Z.eqb_spec (y + 1) 400); lia.
Qed.

Lemma is_leap_era era y : is_leap (y + era * 400) = is_leap y.
Proof.
  unfold is_leap. rewrite (Z.mod_add y era 400) by lia.
  replace (era * 400) with ((era * 100) * 4) by lia. rewrite Z.mod_add by lia.
  replace (era * 100 * 4) with ((era * 4) * 100) by lia. by rewrite Z.mod_add by lia.
Qed.

(** The day of a March-based year, the longest of which ends with a leap day. *)
Lemma day_of_year_bounds doe :
  0 ≤ doe < 146097 →
  let y := year_of_era doe in
  let doy := doe - (365 * y + y / 4 - y / 100) in
  0 ≤ doy ≤ (if is_leap (y + 1) then 365 else 364).
Proof.
  intros H y doy. destruct (year_of_era_bounds doe H) as (Hy & H1 & H2). fold y in Hy, H1, H2.
  unfold doy. clear doy. clearbody y. split; [lia|].
  destruct (Z.eqb_spec (y + 1) 400) as [E|E].
  { assert (y = 399) as -> by lia. replace (is_leap (399 + 1)) with true by done. lia. }
  unfold is_leap.
  destruct (Z.eqb_spec ((y + 1) mod 4) 0), (Z.eqb_spec ((y + 1) mod 100) 0), (Z.eqb_spec ((y + 1) mod 400) 0);
    simpl; lia.
Qed.

(** Month and day of a day of the March-based year. *)
Lemma month_day_bounds doy :
  0 ≤ doy ≤ 365 →
  let mp := (5 * doy + 2) / 153 in
  let d := doy - (153 * mp + 2) / 5 + 1 in
  0 ≤ mp ≤ 11 ∧ 1 ≤ d ∧ (153 * mp + 2) / 5 + d - 1 = doy ∧
  d ≤ (if mp =? 11 then (if doy =? 365 then 29 else 28)
       else if (mp =? 1) || (mp =? 3) || (mp =? 6) || (mp =? 8) then 30 else 31).
Proof.
  intros H mp d. unfold d; clear d. assert (0 ≤ mp ≤ 11) as Hmp by (unfold mp; lia).
  assert (153 * mp ≤ 5 * doy + 2 < 153 * (mp + 1)) by (unfold mp; lia). clearbody mp.
  split; [done|]. split; [lia|]. split; [lia|].
  assert (∃ k : nat, mp = Z.of_nat k ∧ (k < 12)%nat) as (k & -> & Hk) by (exists (Z.to_nat mp); lia).
  do 12 (destruct k as [|k]; [simpl; try destruct (Z.eqb_spec doy 365); lia|]). lia.
Qed.

(** [days_of_civil] inverts [civil], whose dates exist. *)
Lemma civil_valid days :
  let '(y, m, d) := civil days in
  days_of_civil y m d = days ∧ 1 ≤ m ≤ 12 ∧ 1 ≤ d ≤ daysIn m y.
Proof.
  unfold civil. cbv zeta.
  set (era := (days + 719468) / 146097). set (doe := (days + 719468) mod 146097).
  assert (days + 719468 = era * 146097 + doe ∧ 0 ≤ doe < 146097) as [Hdays Hdoe] by (unfold era, doe; lia).
  clearbody era doe. fold (year_of_era doe).
  destruct (year_of_era_bounds doe Hdoe) as (Hy & _ & _). pose proof (day_of_year_bounds doe Hdoe) as Hdoy.
  cbv zeta in Hdoy. set (yoe := year_of_era doe) in *.
  set (doy := doe - (365 * yoe + yoe / 4 - yoe / 100)) in *.
  destruct (month_day_bounds doy) as (Hmp & Hd1 & Hd2 & Hd3); [destruct (is_leap (yoe + 1)); lia|].
  set (mp := (5 * doy + 2) / 153) in *. set (d := doy - (153 * mp + 2) / 5 + 1) in *.
  assert (doe = 365 * yoe + yoe / 4 - yoe / 100 + doy) as Hsum by (unfold doy; lia).
  assert (doy = 365 → is_leap (yoe + 1) = true) as Hl by (intros ->; destruct (is_leap (yoe + 1)); [done|lia]).
  clearbody yoe doy mp d. unfold days_of_civil, daysIn. cbv zeta.
  assert (∀ x, 0 ≤ x ≤ 399 → (x + era * 400) mod 400 = x ∧ (x + era * 400) / 400 = era) as Hera by (intros; lia).
  assert (∃ k : nat, mp = Z.of_nat k ∧ (k < 12)%nat) as (k & -> & Hk) by (exists (Z.to_nat mp); lia).
  destruct (Hera yoe Hy) as [He1 He2]. clear Hera Hdoy Hdoe.
  do 12 (destruct k as [|k]; [simpl in *;
    replace (yoe + era * 400 + 1) with (yoe + 1 + era * 400) in * by ring;
    replace (yoe + 1 + era * 400 - 1) with (yoe + era * 400) in * by ring;
    rewrite ?Z.add_0_r, ?is_leap_era, He1, He2; simpl in *; set (a := yoe / 4) in *; set (b := yoe / 100) in *;
    clearbody a b; clear He1 He2; split; [lia|]; split; [lia|];
    try (destruct (Z.eqb_spec doy 365) as [E|E]; [rewrite Hl by done|destruct (is_leap (yoe + 1))]); lia|]).
  lia.
Qed.

(** * What [Format] prints is read back *)

Definition digit_char (k : Z) : ascii := ascii_of_N (Z.to_N (48 + k)).

Lemma digit_char_spec k : 0 ≤ k < 10 → is_digit (digit_char k) = true ∧ digit_val (digit_char k) = k.
Proof.
  intros H. assert (∃ n : nat, k = Z.of_nat n ∧ (n < 10)%nat) as (n & -> & Hn) by (exists (Z.to_nat k); lia).
  do 10 (destruct n as [|n]; [done|]). lia.
Qed.

Lemma digits2 n s : digits 2 n +s+ s = String (digit_char (n / 10 mod 10)) (String (digit_char (n mod 10)) s).
Proof. reflexivity. Qed.

Lemma getnum_digits fixed n s : 0 ≤ n < 100 → getnum fixed (digits 2 n +s+ s) = Some (n, s).
Proof.
  intros H. rewrite digits2. unfold getnum.
  destruct (digit_char_spec (n / 10 mod 10) ltac:(lia)) as [-> ->].
  destruct (digit_char_spec (n mod 10) ltac:(lia)) as [-> ->]. do 2 f_equal. lia.
Qed.

Lemma getnum_below_digits fixed b n s :
  0 ≤ n < b → b ≤ 100 → getnum_below fixed b (digits 2 n +s+ s) = Some (n, s).
Proof.
  intros H Hb. unfold getnum_below. rewrite getnum_digits by lia. simpl. by rewrite (proj2 (Z.ltb_lt n b)) by lia.
Qed.

Lemma get_year_digits n s : 0 ≤ n < 10000 → get_year (digits 4 n +s+ s) = Some (n, s).
Proof.
  intros H. replace (digits 4 n +s+ s) with (digits 2 (n / 100) +s+ digits 2 n +s+ s).
  2: { change (digits 4 n +s+ s) with (String (digit_char (n / 10 / 10 / 10 mod 10))
         (String (digit_char (n / 10 / 10 mod 10)) (digits 2 n +s+ s))).
       rewrite (digits2 (n / 100)), !Z.div_div by lia. repeat f_equal; lia. }
  unfold get_year. rewrite getnum_digits by lia. cbn [mbind option_bind].
  rewrite (digits2 n). unfold getnum.
  destruct (digit_char_spec (n / 10 mod 10) ltac:(lia)) as [-> ->].
  destruct (digit_char_spec (n mod 10) ltac:(lia)) as [-> ->]. cbn [mbind option_bind]. do 2 f_equal. lia.
Qed.

Lemma skip_same c s : skip c (String c s) = Some s.
Proof. unfold skip. by destruct (ascii_dec c c). Qed.

(** Zones of whole minutes, up to a day. *)
Definition printable_zone (off : Z) : bool := (off mod 60 =? 0) && (Z.abs off <? 90000).

Lemma get_zone_zone off : printable_zone off = true → get_zone (zone off) = Some (off, "").
Proof.
  unfold printable_zone. rewrite andb_true_iff, Z.eqb_eq, Z.ltb_lt. intros [Hm Hb]. unfold zone.
  destruct (Z.eqb_spec off 0) as [->|Hne]; [done|].
  assert (∀ c, (c = "+"%char ∨ c = "-"%char) →
    get_zone (String c "" +s+ digits 2 (Z.abs off / 3600) +s+ ":" +s+ digits 2 (Z.abs off / 60 mod 60)) =
    Some (if ascii_dec c "+"%char then Z.abs off else - Z.abs off, "")) as H.
  { intros c Hc. cbn [String.append]. unfold get_zone. rewrite getnum_below_digits by lia.
    cbn [mbind option_bind String.append]. rewrite skip_same. cbn [mbind option_bind].
    rewrite <-(app_nil_r_str (digits 2 (Z.abs off / 60 mod 60))). rewrite getnum_below_digits by lia.
    cbn [mbind option_bind].
    assert ((Z.abs off / 3600 * 60 + Z.abs off / 60 mod 60) * 60 = Z.abs off) as -> by lia.
    by destruct Hc as [-> | ->]. }
  destruct (Z.ltb_spec off 0).
  - change "-" with (String "-"%char ""). rewrite H by auto. simpl. do 2 f_equal. lia.
  - change "+" with (String "+"%char ""). rewrite H by auto. simpl. do 2 f_equal. lia.
Qed.

Lemma get_fraction_zone off : get_fraction (zone off) = (0, zone off).
Proof. unfold zone. destruct (off =? 0); [done|]. by destruct (off <? 0). Qed.

#[local] Ltac read_field :=
  cbn [mbind option_bind String.append]; rewrite ?skip_same; cbn [mbind option_bind];
  first [rewrite getnum_below_digits by lia | rewrite getnum_digits by lia].

(** Times [Format] prints in four digits of the year and whole minutes of the zone. *)
Definition printable (t : Time) : bool :=
  let y := (civil ((Unix t + t_off t) / 86400)).1.1 in
  (0 <=? y) && (y <? 10000) && printable_zone (t_off t).

(** * Fractions *)

(** The digits a fraction is printed with. *)
Fixpoint digit_list (w : nat) (n : Z) : list Z :=
  match w with
  | O => []
  | S w' => digit_list w' (n / 10) ++ [n mod 10]
  end.

Lemma digit_list_value w n : 0 ≤ n < 10 ^ Z.of_nat w → fold_left (λ acc d, 10 * acc + d) (digit_list w n) 0 = n.
Proof.
  revert n. induction w as [|w IH]; intros n Hn; [simpl in *; lia|].
  rewrite Nat2Z.inj_succ, Z.pow_succ_r in Hn by lia. simpl. rewrite fold_left_app, IH by lia. simpl. lia.
Qed.
Lemma length_digit_list w n : length (digit_list w n) = w.
Proof. revert n. induction w as [|w IH]; intros n; simpl; [done|]. rewrite length_app, IH. simpl. lia. Qed.

(** A text that does not start with a digit. *)
Definition no_digit (s : string) : bool := match s with String a _ => negb (is_digit a) | EmptyString => true end.

Lemma span_digits_digits w n s l r :
  span_digits s = (l, r) → span_digits (digits w n +s+ s) = (digit_list w n ++ l, r).
Proof.
  revert n s l. induction w as [|w IH]; intros n s l H; [done|]. cbn [digits digit_list]. rewrite app_assoc_str.
  rewrite (IH _ _ (n mod 10 :: l)); [by rewrite <-app_assoc|].
  change (String (ascii_of_N (Z.to_N (48 + n mod 10))) "" +s+ s) with (String (digit_char (n mod 10)) s). cbn [span_digits].
  destruct (digit_char_spec (n mod 10)) as [-> ->]; [lia|]. by rewrite H.
Qed.

(** Trailing zeros left out. *)
Lemma frac_digits_spec w n :
  0 < n < 10 ^ Z.of_nat w →
  ∃ w' n', (w' < w)%nat ∧ frac_digits w n = digits (S w') n' ∧ 0 ≤ n' < 10 ^ Z.of_nat (S w') ∧
    n' * 10 ^ (Z.of_nat w - Z.of_nat (S w')) = n.
Proof.
  revert n. induction w as [|w IH]; intros n Hn; [simpl in Hn; lia|]. cbn [frac_digits].
  destruct (Z.eqb_spec (n mod 10) 0) as [H0|H0].
  - rewrite Nat2Z.inj_succ, Z.pow_succ_r in Hn by lia.
    destruct (IH (n / 10)) as (w' & n' & Hw & -> & Hn' & Hv); [lia|]. exists w', n'. split; [lia|]. split; [done|]. split; [done|].
    rewrite Nat2Z.inj_succ, Z.sub_succ_l, Z.pow_succ_r by lia. rewrite Z.mul_assoc, (Z.mul_comm n' 10), <-Z.mul_assoc, Hv. lia.
  - exists w, n. split; [lia|]. split; [done|]. split; [lia|]. rewrite Z.sub_diag. lia.
Qed.

Lemma zone_no_digit off : no_digit (zone off) = true.
Proof. unfold zone. destruct (off =? 0); [done|]. by destruct (off <? 0). Qed.

Lemma span_digits_head s x l r : span_digits s = (x :: l, r) → ∃ a s', s = String a s' ∧ is_digit a = true.
Proof.
  destruct s as [|a s]; simpl; [done|]. destruct (is_digit a) eqn:E; [|done]. intros _. by exists a, s.
Qed.

Lemma get_fraction_frac t : get_fraction (frac t +s+ zone (t_off t)) = (t_ns t mod Second, zone (t_off t)).
Proof.
  unfold frac. assert (0 ≤ t_ns t mod Second < Second) as Hn by (apply Z.mod_pos_bound; done).
  destruct (Z.eqb_spec (t_ns t mod Second) 0) as [->|H0]; [apply get_fraction_zone|].
  destruct (frac_digits_spec 9 (t_ns t mod Second)) as (w & n & Hw & -> & Hb & Hv); [unfold Second in *; simpl; lia|].
  assert (span_digits (zone (t_off t)) = ([], zone (t_off t))) as Hz.
  { pose proof (zone_no_digit (t_off t)) as H. destruct (zone (t_off t)); [done|]. simpl in *. by destruct (is_digit a). }
  pose proof (span_digits_digits (S w) n _ _ _ Hz) as Hs. rewrite app_nil_r in Hs.
  rewrite app_assoc_str. change ("." +s+ ?x) with (String "."%char x).
  destruct (digit_list (S w) n) as [|x l] eqn:El; [by apply (f_equal length) in El; rewrite length_digit_list in El|].
  destruct (span_digits_head _ _ _ _ Hs) as (a & rest & Ha & Hd). rewrite Ha in *. unfold get_fraction.
  rewrite Hd. cbn [comma_or_period andb]. rewrite Hs. f_equal. rewrite <-El. unfold nanoseconds.
  rewrite firstn_all2 by (rewrite length_digit_list; lia). rewrite digit_list_value, length_digit_list by done. done.
Qed.

(** A date, a fraction and a zone read back. *)
Lemma Parse_clock t f ns :
  printable t = true → get_fraction (f +s+ zone (t_off t)) = (ns, zone (t_off t)) →
  Parse (date_clock "T" t +s+ f +s+ zone (t_off t)) = Ok (mkTime (Unix t * Second + ns) (t_off t)).
Proof.
  unfold printable. rewrite !andb_true_iff, Z.leb_le, Z.ltb_lt. intros [[Hy0 Hy1] Hz] Hf.
  unfold Parse, date_clock, parse_rfc3339.
  pose proof (civil_valid ((Unix t + t_off t) / 86400)) as Hc.
  destruct (civil ((Unix t + t_off t) / 86400)) as [[y m] d]. simpl in Hy0, Hy1. destruct Hc as (Hd & Hm & Hday).
  set (sec := Unix t + t_off t) in *. set (s := sec mod 86400).
  assert (0 ≤ s < 86400) by (unfold s; lia).
  assert (d < 100) by (unfold daysIn in Hday; repeat case_match; lia).
  rewrite !app_assoc_str, get_year_digits by lia. do 5 read_field. cbn [mbind option_bind].
  rewrite Hf, get_zone_zone by done. cbn [mbind option_bind].
  rewrite (proj2 (Z.leb_le 1 m)), (proj2 (Z.leb_le 1 d)), (proj2 (Z.leb_le d _)) by lia. simpl. rewrite Hd.
  do 3 f_equal. f_equal. unfold s, sec. lia.
Qed.

(** A printed time reads back at the second it shows. *)
Lemma Parse_printed t : printable t = true → Parse (Format t) = Ok (mkTime (Unix t * Second) (t_off t)).
Proof.
  intros Hp. unfold Format. rewrite <-(Z.add_0_r (Unix t * Second)). apply (Parse_clock t "" 0 Hp), get_fraction_zone.
Qed.

(** A time printed with its nanoseconds reads back. *)
Lemma Parse_printed_nano t : printable t = true → Parse (FormatNano t) = Ok t.
Proof.
  intros Hp. unfold FormatNano. rewrite (Parse_clock t _ _ Hp (get_fraction_frac t)). f_equal. destruct t as [ns off]. simpl. f_equal.
  unfold Unix. simpl. rewrite Z.mul_comm. symmetry. by apply Z.div_mod.
Qed.

Lemma Parse_printed_ex :
  Parse (Format (mkTime (951782400 * Second + 7) (-16200))) = Ok (mkTime (951782400 * Second) (-16200)).
Proof. by rewrite (Parse_printed (mkTime (951782400 * Second + 7) (-16200)) eq_refl). Defined.

#[global] Arguments Parse : simpl never.
#[global] Arguments Format : simpl never.
#[global] Arguments printable : simpl never.
