(* ===== verification/TimeServing.v ===== *)
(** The HTTP side of a time server ([timeserver/server.go]): making a server, and the
    endpoint that answers a nonce with a signed time; the health checks of the network
    ([timeserver/network.go]), one round at a time.

    The answer is text: the time in RFC 3339 with its nanoseconds and the signature in
    base64.  [DecodeString] is Go's decoder of padded base64, which skips line breaks. *)

From S2P Require Import Prelude GoTime RFC3339 KV Core TimeServer.
From Stdlib Require Import ZArith Lia Ascii String.
From stdpp Require Import base tactics option list strings pretty gmap.

Local Open Scope Z_scope.

(** * base64 *)

Definition b64_val (c : ascii) : option N :=
  let n := N_of_ascii c in
  if (65 <=? n)%N && (n <=? 90)%N then Some (n - 65)%N
  else if (97 <=? n)%N && (n <=? 122)%N then Some (n - 71)%N
  else if (48 <=? n)%N && (n <=? 57)%N then Some (n + 4)%N
  else if (n =? 43)%N then Some 62%N
  else if (n =? 47)%N then Some 63%N
  else None.

Definition is_break (c : ascii) : bool := (N_of_ascii c =? 10)%N || (N_of_ascii c =? 13)%N.
Fixpoint strip_breaks (s : string) : string :=
  match s with
  | EmptyString => EmptyString
  | String c s' => if is_break c then strip_breaks s' else String c (strip_breaks s')
  end.

Fixpoint decode_quads (s : string) : option string :=
  match s with
  | EmptyString => Some EmptyString
  | String a (String b (String c (String d rest))) =>
      va ← b64_val a;
      vb ← b64_val b;
      if bool_decide (c = "="%char) then
        if bool_decide (d = "="%char) && bool_decide (rest = "") then Some (String (ascii_of_N (va * 4 + vb / 16)) "") else None
      else
        vc ← b64_val c;
        if bool_decide (d = "="%char) then
          if bool_decide (rest = "")
          then Some (String (ascii_of_N (va * 4 + vb / 16)) (String (ascii_of_N (vb mod 16 * 16 + vc / 4)) "")) else None
        else
          vd ← b64_val d;
          r ← decode_quads rest;
          Some (String (ascii_of_N (va * 4 + vb / 16))
                 (String (ascii_of_N (vb mod 16 * 16 + vc / 4)) (String (ascii_of_N (vc mod 4 * 64 + vd)) r)))
  | _ => None
  end.

Definition DecodeString (s : string) : outcome string :=
  match decode_quads (strip_breaks s) with
  | Some b => Ok b
  | None => Err (Errorf "illegal base64 data")
  end.

Example DecodeString_ex : DecodeString "QXJpc3RvIQ==" = Ok "Aristo!".
Proof. reflexivity. Qed.

Lemma b64_char_spec n :
  (n < 64)%N → b64_val (b64_char n) = Some n ∧ b64_char n ≠ "="%char ∧ is_break (b64_char n) = false.
Proof.
  intros H. assert (∃ k : nat, n = N.of_nat k ∧ (k < 64)%nat) as (k & -> & Hk) by (exists (N.to_nat n); lia).
  do 64 (destruct k as [|k]; [by vm_compute|]). lia.
Qed.

Lemma N_of_ascii_byte a : (N_of_ascii a < 256)%N.
Proof. by destruct a as [[] [] [] [] [] [] [] []]. Qed.

Lemma byte_is a n s s' : n = N_of_ascii a → s = s' → String (ascii_of_N n) s = String a s'.
Proof. intros -> ->. by rewrite ascii_N_embedding. Qed.

#[local] Ltac Zify.zify_post_hook ::= Z.to_euclidean_division_equations.

(** Reads back the characters of a group, one after the other. *)
#[local] Ltac read_char :=
  match goal with
  | |- context [b64_val (b64_char ?n)] => rewrite (proj1 (b64_char_spec n ltac:(lia))); cbn [mbind option_bind]
  | |- context [bool_decide (b64_char ?n = "="%char)] => rewrite (bool_decide_eq_false_2 (b64_char n = "="%char)) by (apply b64_char_spec; lia)
  end.

Lemma decode_base64 : ∀ s, decode_quads (base64 s) = Some s.
Proof.
  fix IH 1. intros [|a [|b [|c s]]]; [done|..].
  - pose proof (N_of_ascii_byte a). cbn [base64 decode_quads]. repeat read_char.
    cbn. f_equal. apply byte_is; [lia|done].
  - pose proof (N_of_ascii_byte a). pose proof (N_of_ascii_byte b). cbn [base64 decode_quads]. repeat read_char.
    cbn. f_equal. repeat (apply byte_is; [lia|]). done.
  - pose proof (N_of_ascii_byte a). pose proof (N_of_ascii_byte b). pose proof (N_of_ascii_byte c).
    cbn [base64 decode_quads]. repeat read_char. rewrite IH. cbn [mbind option_bind]. f_equal.
    repeat (apply byte_is; [lia|]). done.
Qed.

Lemma strip_base64 : ∀ s, strip_breaks (base64 s) = base64 s.
Proof.
  fix IH 1. intros [|a [|b [|c s]]]; [done|..]; try pose proof (N_of_ascii_byte a); try pose proof (N_of_ascii_byte b);
    try pose proof (N_of_ascii_byte c); cbn [base64 strip_breaks];
    repeat match goal with |- context [is_break (b64_char ?n)] => rewrite (proj2 (proj2 (b64_char_spec n ltac:(lia)))) end;
    [done|done|by rewrite IH].
Qed.

Lemma DecodeString_base64 s : DecodeString (base64 s) = Ok s.
Proof. unfold DecodeString. by rewrite strip_base64, decode_base64. Qed.

(** * The server *)

Section server.
Context {ED : Ed25519}.

(** [rnd] is the private key [ed25519.GenerateKey] makes, or its error. *)
Definition NewTimeServer (rnd : outcome string) (id regionID address : string) : outcome TimeServer :=
  match rnd with
  | Ok priv => Ok (mkServer id regionID (ed_public priv) priv address)
  | Err e => Err (Wrapf "failed to generate keys" e)
  | Panic w => Panic w
  | Hang w => Hang w
  end.

(** The request's method and header, the answer's status and JSON fields. *)
Record StampRequest : Type := mkStampRequest { sq_Method : string; sq_Nonce : string; sq_Region : string }.
Record StampReply : Type := mkStampReply { sp_time : string; sp_signature : string; sp_server_id : string }.

Definition handleTimestamp (now later : Time) (ts : TimeServer) (r : StampRequest) : outcome (Z * (StampReply + string)) :=
  if negb (bool_decide (sq_Method r = "POST")) then Ok (405, inr "method not allowed") else
  match DecodeString (sq_Nonce r) with
  | Err _ => Ok (400, inr "invalid nonce")
  | Ok nonce =>
      match GetTimestamp now later ts (Some nonce) with
      | Err _ => Ok (500, inr "nil request")
      | Ok resp =>
          match VR_Timestamp resp with
          | Some st => Ok (200, inl (mkStampReply (FormatNano (ST_Time st)) (base64 (ST_Signature st)) (TS_ID ts)))
          | None => Panic "invalid memory address or nil pointer dereference"
          end
      | Panic w => Panic w
      | Hang w => Hang w
      end
  | Panic w => Panic w
  | Hang w => Hang w
  end.

(** [Serve]: the one path that is served. *)
Definition Serve (now later : Time) (ts : TimeServer) (path : string) (r : StampRequest) : outcome (Z * (StampReply + string)) :=
  if bool_decide (path = "/timestamp") then handleTimestamp now later ts r else Ok (404, inr "404 page not found").

(** What a client makes of a reply: the time and the signature it decodes, checked with
    the server's public key and its own nonce. *)
Definition reply_verifies (ts : TimeServer) (nonce : string) (rep : StampReply) : option Time :=
  match Parse (sp_time rep), DecodeString (sp_signature rep) with
  | Ok t, Ok sig => if verifySignature ts (mkStamp (sp_server_id rep) t sig nonce) nonce then Some t else None
  | _, _ => None
  end.

(** ** Health checks *)

(** A round of [StartHealthChecks]: every server is checked, whatever the others say;
    [order] is the order of the regions, [rnd] and [clock] what each check draws and
    reads.  The servers that fail are logged. *)
Definition health_round (order : list string) (rnd : nat → outcome string) (clock : nat → Time) (tn : TimeNetwork) :
    list (string * verdict) :=
  imap (λ i s, (TS_ID s, checkServerHealth (rnd i) (clock i) s)) (order ≫= λ r, getRegionalServers r tn).

(** The loop, over what its [select] receives: a round per tick until [done]. *)
Inductive tick : Type := Tick | Done.
Fixpoint StartHealthChecks (order : nat → list string) (rnd : nat → nat → outcome string) (clock : nat → nat → Time)
    (ticks : list tick) (round : nat) (tn : TimeNetwork) : list (list (string * verdict)) :=
  match ticks with
  | [] | Done :: _ => []
  | Tick :: rest =>
      health_round (order round) (rnd round) (clock round) tn :: StartHealthChecks order rnd clock rest (S round) tn
  end.
End server.

(** * Properties *)

Section properties.
Context {ED : Ed25519} `{EL : !Ed25519Laws}.

(** C36: what the endpoint of a time server answers: a request of another method or with
    a nonce that is not base64 is refused; a nonce sent in base64 gets an answer that
    the client, reading the time and the signature back from their text, verifies with
    the server's public key, at exactly the time the server signed. *)
Theorem handleTimestamp_verifiable now later rnd id region address ts m nonce rg :
  NewTimeServer (Ok rnd) id region address = Ok ts → printable (UTC now) = true →
  match handleTimestamp now later ts (mkStampRequest m (base64 nonce) rg) with
  | Ok (code, inl rep) => m = "POST" ∧ code = 200 ∧ sp_server_id rep = id ∧ reply_verifies ts nonce rep = Some (UTC now)
  | Ok (code, inr _) => m ≠ "POST" ∧ code = 405
  | _ => False
  end.
Proof using Type*.
  intros [= <-] Hp. unfold handleTimestamp. cbn [sq_Method sq_Nonce]. destruct (bool_decide_reflect (m = "POST")) as [->|Hm]; simpl; [|done].
  rewrite DecodeString_base64. unfold GetTimestamp. cbn [VR_Timestamp TS_ID TS_privKey]. split; [done|]. split; [done|]. split; [done|].
  unfold reply_verifies. cbn [sp_time sp_signature sp_server_id ST_Time ST_Signature]. rewrite (Parse_printed_nano _ Hp), DecodeString_base64.
  unfold verifySignature. cbn [TS_PublicKey ST_Time ST_Signature]. by rewrite ed_Verify_Sign.
Qed.

(** A nonce that does not decode is a bad request. *)
Lemma handleTimestamp_bad_nonce now later ts bad rg :
  is_ok (DecodeString bad) = false → handleTimestamp now later ts (mkStampRequest "POST" bad rg) = Ok (400, inr "invalid nonce").
Proof using Type.
  intros Hb. unfold handleTimestamp, DecodeString in *. simpl in *. by destruct (decode_quads (strip_breaks bad)).
Qed.

(** A server that is made by [NewTimeServer] passes its health checks. *)
Lemma NewTimeServer_healthy k n now id region address ts :
  NewTimeServer (Ok k) id region address = Ok ts → checkServerHealth (Ok n) now ts = Ok tt.
Proof using Type*.
  intros [= <-]. unfold checkServerHealth, GetTimestamp, verifySignature. simpl. by rewrite ed_Verify_Sign.
Qed.

(** No round is run after [done]. *)
Lemma StartHealthChecks_rounds order rnd clock ticks rest round tn :
  length (StartHealthChecks order rnd clock (ticks ++ Done :: rest) round tn) = length (StartHealthChecks order rnd clock ticks round tn).
Proof using Type.
  revert round. induction ticks as [|[] ticks IH]; intros round; simpl; [done|by rewrite IH|done].
Qed.
End properties.

(** * Witness *)

Definition echo_Ed25519 : Ed25519 := {|
  ed_public k := k; ed_Sign k m := k +s+ m; ed_Verify p m s := bool_decide (s = p +s+ m) |}.
Lemma echo_Ed25519Laws : @Ed25519Laws echo_Ed25519.
Proof. split. intros k m. simpl. by rewrite bool_decide_eq_true_2. Qed.

Lemma handleTimestamp_verifiable_witness :
  ∃ rep, handleTimestamp (ED := echo_Ed25519) (fromUnix 1700000000) (fromUnix 1700000000)
    (mkServer "a" "eu" "k" "k" "addr") (mkStampRequest "POST" (base64 "nonce") "eu") = Ok (200, inl rep) ∧
    reply_verifies (ED := echo_Ed25519) (mkServer "a" "eu" "k" "k" "addr") "nonce" rep = Some (UTC (fromUnix 1700000000)).
Proof.
  pose proof (handleTimestamp_verifiable (ED := echo_Ed25519) (EL := echo_Ed25519Laws) (fromUnix 1700000000)
    (fromUnix 1700000000) "k" "a" "eu" "addr" (mkServer "a" "eu" "k" "k" "addr") "POST" "nonce" "eu" eq_refl eq_refl) as H.
  destruct (handleTimestamp _ _ _ _) as [[code [rep|msg]]|e|w|w]; [|by destruct H|done..].
  destruct H as (_ & -> & _ & H). by exists rep.
Defined.
