(* ===== verification/TEE.v ===== *)
(** Package [tee] with [rustconnector]: the messages exchanged with the enclaves and
    their conversion ([tee/types.go], [tee/proto]), the executor that runs a request
    in both enclaves ([tee/executor.go], [rustconnector/rustconnector.go]), the bridge
    to the Rust controller ([tee/bridge.go]) and the client of remote enclaves
    ([tee/client.go]); the validator of package [vm] that asks the same enclaves
    ([vm/tee_validator.go]) and its bridge proofs ([vm/bridge.go]).

    The operating system (temporary files, the controller process, the local time
    zone) and gRPC are parameters.  The fields of a message are what protobuf carries;
    decoded messages hold no nil attestation. *)

From S2P Require Import Prelude GoTime RFC3339 KV Core Channel Storage Actions TimeServer Verifier RangeState.
From Stdlib Require Import ZArith Lia Ascii String.
From stdpp Require Import base tactics option list strings pretty gmap.

Local Open Scope Z_scope.

(** * Data *)

(** [core.ExecutionRequest] and [core.ExecutionResult]. *)
Record ExecutionRequest : Type := mkRequest {
  EQ_IdTo : string;
  EQ_FunctionCall : string;
  EQ_Parameters : string;
  EQ_RegionId : string;
  EQ_TimeProof : option VerifiedTimestamp;
}.

Record ExecutionResult : Type := mkResult {
  ER_Output : string;
  ER_StateHash : string;
  ER_RegionID : string;
  ER_Attestations : TEEAttestation * TEEAttestation;
  ER_TimeProof : option VerifiedTimestamp;
}.

(** The protobuf messages. *)
Record AttestationMsg : Type := mkAttestationMsg {
  AM_EnclaveId : string;
  AM_Measurement : string;
  AM_Timestamp : string;
  AM_Data : string;
  AM_Signature : string;
  AM_RegionProof : string;
  AM_EnclaveType : string;
}.

Record RequestMsg : Type := mkRequestMsg {
  RQ_IdTo : string;
  RQ_FunctionCall : string;
  RQ_Parameters : string;
  RQ_RegionId : string;
  RQ_DetailedProof : bool;
  RQ_ExpectedHash : string;
}.

Record ResultMsg : Type := mkResultMsg {
  RS_Timestamp : string;
  RS_Attestations : list AttestationMsg;
  RS_StateHash : string;
  RS_Result : string;
  RS_ExecutionTime : Z;
  RS_MemoryUsed : Z;
  RS_SyscallCount : Z;
}.

Record EventMsg : Type := mkEventMsg {
  EM_Id : string;
  EM_FunctionCall : string;
  EM_Parameters : string;
  EM_RegionId : string;
  EM_Timestamp : string;
  EM_Attestations : list AttestationMsg;
}.

Record ShuttleEvent : Type := mkShuttleEvent {
  SH_ID : string;
  SH_FunctionCall : string;
  SH_Parameters : string;
  SH_Timestamp : Time;
  SH_Attestations : TEEAttestation * TEEAttestation;
  SH_RegionID : string;
}.

Definition zeroAttestation : TEEAttestation := mkAttestation "" "" zeroTime "" "" "".

(** [if err != nil { return fmt.Errorf("...: %w", err) }] on a value. *)
Definition wrapped {A} (msg : string) (o : outcome A) : outcome A :=
  match o with Err e => Err (Wrapf msg e) | o => o end.

(** * Conversions, [tee/types.go] *)

Definition toProtoAttestation (att : TEEAttestation) : AttestationMsg :=
  mkAttestationMsg (EnclaveID att) (Measurement att) (Format (Timestamp att)) (Data att) (Signature att)
    (RegionProof att) "".

Definition fromProtoAttestation (att : AttestationMsg) : outcome TEEAttestation :=
  timestamp ← wrapped "invalid timestamp format" (Parse (AM_Timestamp att));
  Ok (mkAttestation (AM_EnclaveId att) (AM_Measurement att) timestamp (AM_Data att) (AM_Signature att)
        (AM_RegionProof att)).

Definition convertProtoAttestations (protoAtts : list AttestationMsg) : outcome (TEEAttestation * TEEAttestation) :=
  match protoAtts with
  | [a0; a1] =>
      c0 ← wrapped "failed to convert attestation 0" (fromProtoAttestation a0);
      c1 ← wrapped "failed to convert attestation 1" (fromProtoAttestation a1);
      Ok (c0, c1)
  | _ => Err (Errorf ("expected 2 attestations, got " +s+ pretty (length protoAtts)))
  end.

Definition convertEvent (event : EventMsg) : outcome ShuttleEvent :=
  parsedTime ← wrapped "failed to parse timestamp" (Parse (EM_Timestamp event));
  attestations ← wrapped "failed to convert attestations" (convertProtoAttestations (EM_Attestations event));
  Ok (mkShuttleEvent (EM_Id event) (EM_FunctionCall event) (EM_Parameters event) (UTC parsedTime)
        attestations (EM_RegionId event)).

Definition ToProto (e : ShuttleEvent) : EventMsg :=
  mkEventMsg (SH_ID e) (SH_FunctionCall e) (SH_Parameters e) (SH_RegionID e) (Format (SH_Timestamp e))
    [toProtoAttestation (SH_Attestations e).1; toProtoAttestation (SH_Attestations e).2].

Definition ShuttleEvent_Validate (e : ShuttleEvent) : verdict :=
  check (bool_decide (SH_ID e = "")) (Errorf "empty event ID") ;;
  check (bool_decide (SH_FunctionCall e = "")) (Errorf "empty function call") ;;
  check (bool_decide (SH_RegionID e = "")) (Errorf "empty region ID") ;;
  check (IsZero (SH_Timestamp e)) (Errorf "invalid timestamp") ;;
  wrap_verdict "invalid attestation 0" (Attestation_Validate (SH_Attestations e).1) ;;
  wrap_verdict "invalid attestation 1" (Attestation_Validate (SH_Attestations e).2).

(** The second pair of conversions of the file, without messages of their own. *)
Definition protoToCoreAttestation (proto : AttestationMsg) : outcome TEEAttestation :=
  timestamp ← Parse (AM_Timestamp proto);
  Ok (mkAttestation (AM_EnclaveId proto) (AM_Measurement proto) timestamp (AM_Data proto) (AM_Signature proto)
        (AM_RegionProof proto)).

Definition protoToCoreAttestations (protos : list AttestationMsg) : outcome (TEEAttestation * TEEAttestation) :=
  match protos with
  | [p0; p1] =>
      c0 ← protoToCoreAttestation p0;
      c1 ← protoToCoreAttestation p1;
      Ok (c0, c1)
  | _ => Err (Errorf ("expected 2 attestations, got " +s+ pretty (length protos)))
  end.

(** * The enclaves behind the Rust controller *)

(** What the operating system does for a call: make and fill the temporary input
    file, run the controller with arguments on that input, and the offset of the
    local time zone, which [time.Unix] shows its result in. *)
Record Host : Type := mkHost {
  h_CreateTemp : outcome unit;
  h_Write : string → outcome unit;
  h_Output : list string → string → outcome string;
  h_local : Z;
}.

(** [time.Unix(int64(sec), 0)]. *)
Definition unix_local (h : Host) (sec : Z) : Time := mkTime (int64 sec * Second) (h_local h).

(** The result the connector decodes: hash and measurement are 32 bytes. *)
Record ConnectorResult : Type := mkConnectorResult {
  CN_ResultHash : string;
  CN_Result : string;
  CN_EnclaveType : string;
  CN_Measurement : string;
  CN_Timestamp : Z;
  CN_PlatformData : string;
}.

Record RustConnector : Type := mkConnector {
  rc_controllerPath : string;
  rc_wasmPath : string;
  rc_verbose : bool;
}.

(** The result the bridge decodes, with two attestations. *)
Record rustAttestation : Type := mkRustAttestation {
  ra_EnclaveType : string;
  ra_EnclaveID : string;
  ra_Measurement : string;
  ra_Timestamp : Z;
  ra_PlatformData : string;
  ra_RegionProof : string;
}.

Record rustExecutionResult : Type := mkRustResult {
  rr_ResultHash : string;
  rr_Result : string;
  rr_Attestations : rustAttestation * rustAttestation;
  rr_RegionID : string;
}.

Record RustBridge : Type := mkBridge {
  rb_controllerPath : string;
  rb_wasmPath : string;
}.

Definition NewRustBridge (controllerPath wasmPath : string) : RustBridge := mkBridge controllerPath wasmPath.

(** [tee.ExecutionRequest]. *)
Record BridgeRequest : Type := mkBridgeRequest {
  BR_IdTo : string;
  BR_FunctionCall : string;
  BR_Parameters : string;
  BR_RegionId : string;
}.

Section enclaves.
Context `{!Json ConnectorResult, !Json rustExecutionResult}.
Context (h : Host).

(** [ExecuteSGX] and [ExecuteSEV] differ in the backend and the enclave's name.  Making
    and writing the temporary input file end the same way for both runs on a host. *)
Definition run_backend (backend enclave what : string) (rc : RustConnector) (input : string) :
    outcome ExecutionResult :=
  wrapped "failed to create input file" (h_CreateTemp h) ;;
  wrapped "failed to write input" (h_Write h input) ;;
  output ← wrapped (what +s+ " execution failed")
    (h_Output h [rc_controllerPath rc; "--wasm-module"; rc_wasmPath rc; "--input"; "--backend"; backend;
                 "--verbose"; if rc_verbose rc then "true" else "false"] input);
  r ← wrapped "failed to parse result" (Unmarshal output);
  Ok (mkResult (CN_Result r) (CN_ResultHash r) ""
        (mkAttestation enclave (CN_Measurement r) (unix_local h (CN_Timestamp r)) (CN_PlatformData r) "" "",
         zeroAttestation) None).

Definition ExecuteSGX : RustConnector → string → outcome ExecutionResult :=
  run_backend "sgx" "sgx-enclave" "SGX".
Definition ExecuteSEV : RustConnector → string → outcome ExecutionResult :=
  run_backend "sev" "sev-enclave" "SEV".

Definition convert_attestation (r : rustAttestation) : TEEAttestation :=
  mkAttestation (ra_EnclaveID r) (ra_Measurement r) (unix_local h (ra_Timestamp r)) (ra_PlatformData r) ""
    (ra_RegionProof r).

Definition convertToCoreResult (rust : rustExecutionResult) : outcome ExecutionResult :=
  Ok (mkResult (rr_Result rust) (rr_ResultHash rust) (rr_RegionID rust)
        (convert_attestation (rr_Attestations rust).1, convert_attestation (rr_Attestations rust).2) None).

(** [createTempFile] writes the parameters when they are not nil; writing nothing
    is the same file. *)
Definition Bridge_Execute (rb : RustBridge) (req : BridgeRequest) : outcome ExecutionResult :=
  wrapped "failed to create input file" (h_CreateTemp h ;; h_Write h (BR_Parameters req)) ;;
  output ← wrapped "rust execution failed"
    (h_Output h [rb_controllerPath rb; "--wasm-module"; rb_wasmPath rb; "--input"; "--region"; BR_RegionId req;
                 "--function"; BR_FunctionCall req; "--verbose"] (BR_Parameters req));
  rustResult ← wrapped "failed to parse rust result" (Unmarshal output);
  convertToCoreResult rustResult.

Definition ValidatePlatforms (rb : RustBridge) : verdict :=
  wrapped "platform validation failed" (h_Output h [rb_controllerPath rb; "verify-platforms"] "") ;; Ok tt.

(** * The executor, [tee/executor.go] *)

Section executor.
Context `{!Ed25519}.
(** What a time request sees: see [GetVerifiedTimestamp]. *)
Context (order : list string) (health : TimeServer → outcome string * Time) (nonce : outcome string)
  (arrivals : list arrival).

(** [timeserver.NewTimeVerifier]: a network of its own, without servers. *)
Definition NewTimeVerifier : outcome TimeNetwork :=
  match Network_Start (NewTimeNetwork 2 (100 * Millisecond)) with
  | (tn, Ok _) => Ok tn
  | (_, Err e) => Err e
  | (_, Panic w) => Panic w
  | (_, Hang w) => Hang w
  end.

Definition VerifyExecutionTime (tv : TimeNetwork) (regionID : string) : outcome VerifiedTimestamp :=
  GetVerifiedTimestamp order health nonce arrivals regionID tv.

Record Executor : Type := mkExecutor { ex_connector : RustConnector; ex_timeVerifier : TimeNetwork }.

Definition Executor_New (controllerPath wasmPath : string) (debug : bool) : outcome Executor :=
  timeVerifier ← wrapped "failed to create time verifier" NewTimeVerifier;
  Ok (mkExecutor (mkConnector controllerPath wasmPath debug) timeVerifier).

(** The time of the request's proof replaces the enclave's own. *)
Definition stamp (p : option VerifiedTimestamp) (r : ExecutionResult) : ExecutionResult :=
  match p with
  | None => r
  | Some p =>
      let a := (ER_Attestations r).1 in
      mkResult (ER_Output r) (ER_StateHash r) (ER_RegionID r)
        (mkAttestation (EnclaveID a) (Measurement a) (VT_Time p) (Data a) (Signature a) (RegionProof a),
         (ER_Attestations r).2) (ER_TimeProof r)
  end.

Definition executeSGX (e : Executor) (req : ExecutionRequest) : outcome ExecutionResult :=
  result ← wrapped "SGX execution failed" (ExecuteSGX (ex_connector e) (EQ_Parameters req));
  Ok (stamp (EQ_TimeProof req) result).

Definition executeSEV (e : Executor) (req : ExecutionRequest) : outcome ExecutionResult :=
  result ← wrapped "SEV execution failed" (ExecuteSEV (ex_connector e) (EQ_Parameters req));
  Ok (stamp (EQ_TimeProof req) result).

Definition Executor_verifyAttestation (now : Time) (att : TEEAttestation) : verdict :=
  check (slen (EnclaveID att) =? 0) (Errorf "missing enclave ID") ;;
  check (slen (Measurement att) =? 0) (Errorf "missing measurement") ;;
  check (IsZero (Timestamp att)) (Errorf "missing timestamp") ;;
  check (outside_window now (Timestamp att) (5 * Minute)) (Errorf "timestamp outside acceptable range") ;;
  check (slen (Data att) =? 0) (Errorf "missing attestation data").

Definition verifyResults (now1 now2 : Time) (sgx sev : ExecutionResult) : verdict :=
  check (negb (bool_decide (ER_Output sgx = ER_Output sev))) (Errorf "output mismatch between TEEs") ;;
  check (negb (bool_decide (ER_StateHash sgx = ER_StateHash sev))) (Errorf "state hash mismatch between TEEs") ;;
  wrap_verdict "SGX attestation invalid" (Executor_verifyAttestation now1 (ER_Attestations sgx).1) ;;
  wrap_verdict "SEV attestation invalid" (Executor_verifyAttestation now2 (ER_Attestations sev).1) ;;
  check (negb (TimeEqual (Timestamp (ER_Attestations sgx).1) (Timestamp (ER_Attestations sev).1)))
    (Errorf "timestamp mismatch between attestations").

Definition with_TimeProof (p : option VerifiedTimestamp) (req : ExecutionRequest) : ExecutionRequest :=
  mkRequest (EQ_IdTo req) (EQ_FunctionCall req) (EQ_Parameters req) (EQ_RegionId req) p.

(** The request is the caller's, through its pointer: a time proof that was
    missing is written into it. *)
Definition Execute (now1 now2 : Time) (e : Executor) : go ExecutionRequest ExecutionResult :=
  req ← gets (λ req, req);
  match EQ_TimeProof req with
  | Some _ => mret tt
  | None =>
      timestamp ← wrap "failed to verify execution time"
        (lift (VerifyExecutionTime (ex_timeVerifier e) (EQ_RegionId req)));
      modify (with_TimeProof (Some timestamp))
  end ;;
  req ← gets (λ req, req);
  sgxResult ← wrap "SGX execution failed" (lift (executeSGX e req));
  sevResult ← wrap "SEV execution failed" (lift (executeSEV e req));
  wrap "result verification failed" (lift (verifyResults now1 now2 sgxResult sevResult)) ;;
  mret (mkResult (ER_Output sgxResult) (ER_StateHash sgxResult) (EQ_RegionId req)
          ((ER_Attestations sgxResult).1, (ER_Attestations sevResult).1) (EQ_TimeProof req)).
End executor.
End enclaves.

(** * Remote enclaves *)

(** gRPC: dialling an endpoint, the [Execute] call on a connection, and closing it,
    with its error.  Dialling does not wait, and a call returns a message exactly when
    it returns no error. *)
Class Grpc (Conn : Type) : Type := {
  dial : string → outcome Conn;
  rpc_Execute : Conn → RequestMsg → outcome ResultMsg;
  conn_Close : Conn → option goerr;
}.

Definition close_errors {Conn} `{!Grpc Conn} (conns : list (string * Conn)) : list goerr :=
  omap (λ '(what, c), Wrapf what <$> conn_Close c) conns.

Definition all_closed (msg : string) (errs : list goerr) : verdict :=
  match errs with [] => Ok tt | _ => Err (Errorf msg) end.

Section client.
Context {Conn : Type} `{!Grpc Conn}.

(** A pair is its two connections; the SGX connection is not left open when the
    other cannot be made. *)
Definition CreateTEEPair (SGXEndpoint SEVEndpoint : string) : outcome (Conn * Conn) :=
  sgxConn ← wrapped "failed to connect to SGX" (dial SGXEndpoint);
  sevConn ← wrapped "failed to connect to SEV" (dial SEVEndpoint);
  Ok (sgxConn, sevConn).

Definition TEEPair_Close (p : option Conn * option Conn) : verdict :=
  all_closed "errors closing connections"
    (close_errors (option_list (pair "failed to close SGX connection" <$> p.1) ++
                   option_list (pair "failed to close SEV connection" <$> p.2))).

Record Client : Type := mkClient {
  cl_sgxConn : Conn;
  cl_sevConn : Conn;
  cl_regionTEEs : gmap string (Conn * Conn);
}.

Definition NewClient (sgxEndpoint sevEndpoint : string) : outcome Client :=
  sgxConn ← wrapped "failed to dial SGX" (dial sgxEndpoint);
  sevConn ← wrapped "failed to dial SEV" (dial sevEndpoint);
  Ok (mkClient sgxConn sevConn ∅).

Definition Client_AddRegion (regionID sgxEndpoint sevEndpoint : string) : go Client unit :=
  sgxConn ← wrap ("failed to dial SGX for region " +s+ regionID) (lift (dial sgxEndpoint));
  sevConn ← wrap ("failed to dial SEV for region " +s+ regionID) (lift (dial sevEndpoint));
  modify (λ c, mkClient (cl_sgxConn c) (cl_sevConn c) (<[regionID := (sgxConn, sevConn)]> (cl_regionTEEs c))).

Definition Client_Close `{!MapRange} (c : Client) : verdict :=
  all_closed "TEE client close errors"
    (close_errors ([("closing default SGX", cl_sgxConn c); ("closing default SEV", cl_sevConn c)] ++
       (range_map 0 (cl_regionTEEs c) ≫= λ '(regionID, p),
          [("closing SGX for region " +s+ regionID, p.1); ("closing SEV for region " +s+ regionID, p.2)]))).

Definition request_of (action : SendEventAction) : RequestMsg :=
  mkRequestMsg (SEv_IDTo action) (SEv_FunctionCall action) (SEv_Parameters action) (SEv_RegionID action) false "".

Definition compareResults (sgxRes sevRes : ResultMsg) : verdict :=
  check (negb (bool_decide (RS_StateHash sgxRes = RS_StateHash sevRes)))
    (Errorf "state hash mismatch between SGX and SEV results") ;;
  check (negb (bool_decide (RS_Result sgxRes = RS_Result sevRes)))
    (Errorf "execution result mismatch between SGX and SEV").

(** Each verification makes its own session key, [rnd1] and [rnd2]. *)
Definition Client_ExecuteAction (rnd1 rnd2 : outcome string) (c : Client) (action : SendEventAction) : verdict :=
  let req := request_of action in
  regional ← match (if bool_decide (SEv_RegionID action = "") then None
                    else cl_regionTEEs c !! SEv_RegionID action) with
             | Some tees =>
                 sgxResult ← wrapped "regional SGX Execute failed" (rpc_Execute tees.1 req);
                 sevResult ← wrapped "regional SEV Execute failed" (rpc_Execute tees.2 req);
                 Ok (Some (sgxResult, sevResult))
             | None => Ok None
             end;
  results ← match regional with
            | Some rs => Ok rs
            | None =>
                sgxResult ← wrapped "SGX Execute failed" (rpc_Execute (cl_sgxConn c) req);
                sevResult ← wrapped "SEV Execute failed" (rpc_Execute (cl_sevConn c) req);
                Ok (sgxResult, sevResult)
            end;
  sgxAtts ← wrapped "failed to convert SGX attestations" (protoToCoreAttestations (RS_Attestations results.1));
  sevAtts ← wrapped "failed to convert SEV attestations" (protoToCoreAttestations (RS_Attestations results.2));
  wrapped "SGX attestation verify failed" (VerifyAttestationPair rnd1 sgxAtts) ;;
  wrapped "SEV attestation verify failed" (VerifyAttestationPair rnd2 sevAtts) ;;
  compareResults results.1 results.2.

(** ** The validator, [vm/tee_validator.go] *)

Record Validator : Type := mkValidator {
  vl_regionTEEs : gmap string (Conn * Conn);
  vl_grpcConns : list Conn;
}.

Definition NewValidator : Validator := mkValidator ∅ [].

Definition track_conn (conn : Conn) (v : Validator) : Validator :=
  mkValidator (vl_regionTEEs v) (vl_grpcConns v ++ [conn]).

(** The SGX connection stays tracked when the SEV endpoint cannot be dialled. *)
Definition Validator_AddRegion (regionID sgxEndpoint sevEndpoint : string) : go Validator unit :=
  sgxConn ← wrap "failed to connect to SGX node" (lift (dial sgxEndpoint));
  modify (track_conn sgxConn) ;;
  sevConn ← wrap "failed to connect to SEV node" (lift (dial sevEndpoint));
  modify (track_conn sevConn) ;;
  modify (λ v, mkValidator (<[regionID := (sgxConn, sevConn)]> (vl_regionTEEs v)) (vl_grpcConns v)).

(** The first attestation of a result, without its time and signature. *)
Definition first_attestation (r : ResultMsg) : outcome TEEAttestation :=
  match RS_Attestations r with
  | [] => Panic "index out of range"
  | a :: _ => Ok (mkAttestation (AM_EnclaveId a) (AM_Measurement a) zeroTime (AM_Data a) "" "")
  end.

Definition ValidateRegionalAction (rnd : outcome string) (v : Validator) (action : SendEventAction) : verdict :=
  match vl_regionTEEs v !! SEv_RegionID action with
  | None => Err (Errorf "region not found")
  | Some region =>
      let req := request_of action in
      sgxResult ← wrapped "SGX verification failed" (rpc_Execute region.1 req);
      sevResult ← wrapped "SEV verification failed" (rpc_Execute region.2 req);
      check (negb (bool_decide (RS_StateHash sgxResult = RS_StateHash sevResult)))
        (Errorf "state hash mismatch between TEEs") ;;
      a ← first_attestation sgxResult;
      b ← first_attestation sevResult;
      wrapped "attestation verification failed" (VerifyAttestationPair rnd (a, b))
  end.

Definition Validator_Close (v : Validator) : verdict :=
  all_closed "errors closing connections" (close_errors (pair "" <$> vl_grpcConns v)).
End client.
Arguments Client : clear implicits.
Arguments Validator : clear implicits.

(** * Bridge proofs, [vm/bridge.go] *)

Record RegionBridge : Type := mkRegionBridge { lockTimeout : Z }.
Definition NewRegionBridge : RegionBridge := mkRegionBridge (5 * Minute).

(** The package's own execution result. *)
Record BridgeResult : Type := mkBridgeResult {
  BX_TxID : string;
  BX_StateHash : string;
  BX_Output : string;
  BX_Attestations : TEEAttestation * TEEAttestation;
  BX_Timestamp : Time;
  BX_RegionID : string;
}.

Record BridgeProof : Type := mkBridgeProof {
  BP_TxID : string;
  BP_StateHash : string;
  BP_Attestation : TEEAttestation;
  BP_Timestamp : Time;
}.

Record BridgeTransaction : Type := mkBridgeTransaction {
  BT_SourceRegion : string;
  BT_TargetRegion : string;
  BT_Action : Action;
  BT_DependencyRegions : list string;
  BT_LockTime : Time;
}.

(** The source's stub. *)
Definition getRegions (action : Action) : outcome (string * string) := Ok ("", "").

Definition CreateBridgeTransaction (now : Time) (rb : RegionBridge) (action : Action) (deps : list string) :
    outcome BridgeTransaction :=
  rs ← getRegions action;
  Ok (mkBridgeTransaction rs.1 rs.2 action deps (GoTime.Add now (lockTimeout rb))).

(** The array of attestations has length two, so the length check never fails. *)
Definition CreateBridgeProof (result : BridgeResult) : outcome BridgeProof :=
  Ok (mkBridgeProof (BX_TxID result) (BX_StateHash result) (BX_Attestations result).1 (BX_Timestamp result)).

Definition VerifyBridgeProof (now : Time) (rb : RegionBridge) (proof : BridgeProof) : verdict :=
  check (lockTimeout rb <? Since now (BP_Timestamp proof)) (Errorf "bridge proof expired") ;;
  wrap_verdict "invalid attestation in bridge proof" (Attestation_Validate (BP_Attestation proof)).
