(* ===== verification/TEEFacts.v ===== *)
(** What package [tee] and the validator of package [vm] guarantee: messages read back
    as sent, what an execution in two enclaves certifies and when it succeeds, and
    what the clients of remote enclaves do and do not check. *)

From S2P Require Import Prelude GoTime RFC3339 KV Core Channel Storage Actions TimeServer Verifier RangeState TEE.
From Stdlib Require Import ZArith Lia Ascii String.
From stdpp Require Import base tactics option list strings pretty gmap.

Local Open Scope Z_scope.

(** * Outcomes *)

Lemma obind_ok {A B} (o : outcome A) (f : A → outcome B) b : (o ≫= f) = Ok b ↔ ∃ a, o = Ok a ∧ f a = Ok b.
Proof.
  destruct o as [a|e|w|w]; simpl; split; intros H; try done.
  - by exists a.
  - by destruct H as (? & [= <-] & ?).
  - by destruct H as (? & ? & _).
  - by destruct H as (? & ? & _).
  - by destruct H as (? & ? & _).
Qed.

Lemma wrapped_ok {A} msg (o : outcome A) a : wrapped msg o = Ok a ↔ o = Ok a.
Proof. by destruct o. Qed.

Lemma wrapped_unit msg (o : verdict) : wrapped msg o = wrap_verdict msg o.
Proof. by destruct o as [[]| | |]. Qed.

Lemma verdict_then (v w : verdict) : (v ;; w) = Ok tt ↔ v = Ok tt ∧ w = Ok tt.
Proof. destruct v as [[]|e|s|s]; naive_solver. Qed.

Lemma check_iff b e : check b e = Ok tt ↔ b = false.
Proof. by destruct b. Qed.

(** * Messages *)

(** What is left of an attestation after a trip over the wire: the second of its time. *)
Definition to_second (a : TEEAttestation) : TEEAttestation :=
  mkAttestation (EnclaveID a) (Measurement a) (mkTime (Unix (Timestamp a) * Second) (t_off (Timestamp a)))
    (Data a) (Signature a) (RegionProof a).

Lemma attestation_wire a :
  printable (Timestamp a) = true → fromProtoAttestation (toProtoAttestation a) = Ok (to_second a).
Proof.
  intros H. unfold fromProtoAttestation. cbn [toProtoAttestation AM_Timestamp]. rewrite Parse_printed by exact H.
  reflexivity.
Qed.

(** C31: an event converted to its message and back is the same event at the
    seconds of its times, the event's own time in UTC, and prints as the same message
    but for the zone of that time. *)
Theorem event_wire_roundtrip e :
  printable (SH_Timestamp e) = true →
  printable (Timestamp (SH_Attestations e).1) = true → printable (Timestamp (SH_Attestations e).2) = true →
  ∃ e', convertEvent (ToProto e) = Ok e' ∧
    e' = mkShuttleEvent (SH_ID e) (SH_FunctionCall e) (SH_Parameters e) (fromUnix (Unix (SH_Timestamp e)))
           (to_second (SH_Attestations e).1, to_second (SH_Attestations e).2) (SH_RegionID e) ∧
    ToProto e' = mkEventMsg (SH_ID e) (SH_FunctionCall e) (SH_Parameters e) (SH_RegionID e)
      (Format (UTC (SH_Timestamp e))) (EM_Attestations (ToProto e)).
Proof.
  intros Ht H1 H2.
  exists (mkShuttleEvent (SH_ID e) (SH_FunctionCall e) (SH_Parameters e) (fromUnix (Unix (SH_Timestamp e)))
           (to_second (SH_Attestations e).1, to_second (SH_Attestations e).2) (SH_RegionID e)).
  unfold convertEvent. cbn [ToProto EM_Timestamp EM_Attestations].
  rewrite Parse_printed by exact Ht. unfold convertProtoAttestations.
  rewrite (attestation_wire _ H1), (attestation_wire _ H2).
  split; [reflexivity|]. split; [reflexivity|]. unfold ToProto, toProtoAttestation, to_second.
  cbn [SH_ID SH_FunctionCall SH_Parameters SH_Timestamp SH_Attestations SH_RegionID EnclaveID Measurement
       Timestamp Data Signature RegionProof fst snd EM_Attestations].
  assert (∀ t, Unix (mkTime (Unix t * Second) (t_off t)) = Unix t) as HU.
  { intros t. unfold Unix, Second. simpl. apply Z.div_mul. lia. }
  rewrite !(Format_same_second (mkTime (Unix (Timestamp _) * Second) _) (Timestamp _) (HU _) eq_refl).
  rewrite (Format_same_second (fromUnix (Unix (SH_Timestamp e))) (UTC (SH_Timestamp e))); [reflexivity| |reflexivity].
  apply (HU (UTC (SH_Timestamp e))).
Qed.

(** * Two enclaves *)

Section executor.
Context `{!Json ConnectorResult}.
Context `{!Ed25519}.
Context (h : Host).
Context (order : list string) (health : TimeServer → outcome string * Time) (nonce : outcome string)
  (arrivals : list arrival).
Implicit Types (e : Executor) (req : ExecutionRequest).

Abbreviation exec := (Execute h order health nonce arrivals).

(** What the controller reports for a backend: the decoded result of a run that
    went through. *)
Definition reports (backend : string) (rc : RustConnector) (input : string) (r : ConnectorResult) : Prop :=
  h_CreateTemp h = Ok tt ∧ h_Write h input = Ok tt ∧
  ∃ out, h_Output h [rc_controllerPath rc; "--wasm-module"; rc_wasmPath rc; "--input"; "--backend"; backend;
                     "--verbose"; if rc_verbose rc then "true" else "false"] input = Ok out ∧ Unmarshal out = Ok r.

(** The attestation the executor makes of a report at the time of a proof. *)
Definition attested (enclave : string) (p : VerifiedTimestamp) (r : ConnectorResult) : TEEAttestation :=
  mkAttestation enclave (CN_Measurement r) (VT_Time p) (CN_PlatformData r) "" "".

Lemma run_backend_reports backend enclave what rc input x :
  run_backend h backend enclave what rc input = Ok x ↔
  ∃ r, reports backend rc input r ∧
    x = mkResult (CN_Result r) (CN_ResultHash r) ""
          (mkAttestation enclave (CN_Measurement r) (unix_local h (CN_Timestamp r)) (CN_PlatformData r) "" "",
           zeroAttestation) None.
Proof.
  unfold run_backend, reports. rewrite obind_ok. setoid_rewrite obind_ok. setoid_rewrite obind_ok.
  setoid_rewrite obind_ok. setoid_rewrite wrapped_ok. split.
  - intros ([] & Ht & [] & Hw & out & Ho & r & Hr & [= <-]). eauto 10.
  - intros (r & (Ht & Hw & out & Ho & Hr) & ->). eauto 12.
Qed.

(** A report the executor accepts: complete and of a recent time. *)
Definition acceptable (now : Time) (p : VerifiedTimestamp) (r : ConnectorResult) : Prop :=
  CN_Measurement r ≠ "" ∧ CN_PlatformData r ≠ "" ∧ IsZero (VT_Time p) = false ∧
  Z.abs (t_ns now - t_ns (VT_Time p)) ≤ 5 * Minute.

Lemma slen_zero_iff s : (slen s =? 0) = false ↔ s ≠ "".
Proof. unfold slen. rewrite Z.eqb_neq. destruct s; simpl; split; try done; lia. Qed.

Lemma verifyAttestation_acceptable now enclave p r :
  enclave ≠ "" → Executor_verifyAttestation now (attested enclave p r) = Ok tt ↔ acceptable now p r.
Proof.
  intros He. unfold Executor_verifyAttestation, attested, acceptable. cbn [EnclaveID Measurement Timestamp Data].
  rewrite !verdict_then, !check_iff, !slen_zero_iff, outside_window_false by (unfold maxDuration, Minute, Second; lia).
  naive_solver.
Qed.


(** With a time proof in the request nothing is written and the result is a value. *)
Lemma Execute_value now1 now2 e req p :
  EQ_TimeProof req = Some p →
  exec now1 now2 e req =
    (req, sgx ← wrapped "SGX execution failed" (executeSGX h e req);
          sev ← wrapped "SEV execution failed" (executeSEV h e req);
          wrapped "result verification failed" (verifyResults now1 now2 sgx sev) ;;
          Ok (mkResult (ER_Output sgx) (ER_StateHash sgx) (EQ_RegionId req)
                ((ER_Attestations sgx).1, (ER_Attestations sev).1) (EQ_TimeProof req))).
Proof.
  intros Hp. unfold Execute. go_unfold. rewrite Hp.
  destruct (executeSGX h e req) as [sgx|?|?|?]; try done. simpl.
  destruct (executeSEV h e req) as [sev|?|?|?]; try done. simpl.
  by destruct (verifyResults now1 now2 sgx sev) as [[]|?|?|?]; simpl; rewrite ?Hp.
Qed.

Lemma executeSGX_reports e req p x :
  EQ_TimeProof req = Some p →
  executeSGX h e req = Ok x ↔ ∃ r, reports "sgx" (ex_connector e) (EQ_Parameters req) r ∧
    x = mkResult (CN_Result r) (CN_ResultHash r) "" (attested "sgx-enclave" p r, zeroAttestation) None.
Proof.
  intros Hp. unfold executeSGX, ExecuteSGX. rewrite obind_ok. setoid_rewrite wrapped_ok.
  setoid_rewrite run_backend_reports. rewrite Hp. split.
  - intros (a & (r & Hr & ->) & [= <-]). eauto.
  - intros (r & Hr & ->). eauto 10.
Qed.

Lemma executeSEV_reports e req p x :
  EQ_TimeProof req = Some p →
  executeSEV h e req = Ok x ↔ ∃ r, reports "sev" (ex_connector e) (EQ_Parameters req) r ∧
    x = mkResult (CN_Result r) (CN_ResultHash r) "" (attested "sev-enclave" p r, zeroAttestation) None.
Proof.
  intros Hp. unfold executeSEV, ExecuteSEV. rewrite obind_ok. setoid_rewrite wrapped_ok.
  setoid_rewrite run_backend_reports. rewrite Hp. split.
  - intros (a & (r & Hr & ->) & [= <-]). eauto.
  - intros (r & Hr & ->). eauto 10.
Qed.

Lemma verifyResults_spec now1 now2 p sgx sev :
  verifyResults now1 now2
    (mkResult (CN_Result sgx) (CN_ResultHash sgx) "" (attested "sgx-enclave" p sgx, zeroAttestation) None)
    (mkResult (CN_Result sev) (CN_ResultHash sev) "" (attested "sev-enclave" p sev, zeroAttestation) None) = Ok tt ↔
  CN_Result sgx = CN_Result sev ∧ CN_ResultHash sgx = CN_ResultHash sev ∧
  acceptable now1 p sgx ∧ acceptable now2 p sev.
Proof.
  unfold verifyResults. cbn [ER_Output ER_StateHash ER_Attestations fst].
  rewrite !verdict_then, !check_iff, !wrap_verdict_ok, !negb_false_iff, !bool_decide_eq_true.
  rewrite !verifyAttestation_acceptable by done. unfold TimeEqual. cbn [attested Timestamp]. rewrite Z.eqb_refl.
  naive_solver.
Qed.

(** C30: a request with a time proof is executed exactly when both enclaves report,
    they agree on output and state hash, both reports are complete, and the proof's
    time is within five minutes of the clock; the result then carries the common
    output and hash and an attestation of each enclave at the proof's time.  The
    request is not changed. *)
Theorem Executor_Execute_spec now1 now2 e req p r :
  EQ_TimeProof req = Some p →
  (exec now1 now2 e req).1 = req ∧
  ((exec now1 now2 e req).2 = Ok r ↔
   ∃ sgx sev, reports "sgx" (ex_connector e) (EQ_Parameters req) sgx ∧
     reports "sev" (ex_connector e) (EQ_Parameters req) sev ∧
     CN_Result sgx = CN_Result sev ∧ CN_ResultHash sgx = CN_ResultHash sev ∧
     acceptable now1 p sgx ∧ acceptable now2 p sev ∧
     r = mkResult (CN_Result sgx) (CN_ResultHash sgx) (EQ_RegionId req)
           (attested "sgx-enclave" p sgx, attested "sev-enclave" p sev) (Some p)).
Proof.
  intros Hp. rewrite (Execute_value _ _ _ _ p) by done. split; [done|]. cbn [snd].
  rewrite obind_ok. setoid_rewrite obind_ok. setoid_rewrite obind_ok. setoid_rewrite wrapped_ok.
  setoid_rewrite (executeSGX_reports e req p _ Hp). setoid_rewrite (executeSEV_reports e req p _ Hp). split.
  - intros (x & (sgx & Hs & ->) & y & (sev & Hv & ->) & [] & Hok%verifyResults_spec & [= <-]).
    exists sgx, sev. rewrite Hp. naive_solver.
  - intros (sgx & sev & Hs & Hv & H1 & H2 & H3 & H4 & ->). eexists. split; [eauto|]. eexists. split; [eauto|].
    exists tt. split; [by apply verifyResults_spec|]. by rewrite Hp.
Qed.

(** An executor made by [New] asks a time network that has no servers, so a
    request without a time proof always fails, before any enclave runs. *)
Theorem Executor_New_needs_time_proof now1 now2 controllerPath wasmPath debug e req :
  Executor_New controllerPath wasmPath debug = Ok e → EQ_TimeProof req = None →
  ∃ err, exec now1 now2 e req = (req, Err err).
Proof.
  intros [= <-] Hp. eexists. unfold Execute. go_unfold. rewrite Hp. reflexivity.
Qed.
End executor.

(** * Remote enclaves *)

Section remote.
Context {Conn : Type} `{!Grpc Conn}.
Implicit Types (c : Client Conn) (v : Validator Conn) (action : SendEventAction).

(** The enclaves an action is executed on: those of its region, when it names one
    the client knows, and otherwise the default pair. *)
Definition clients_for c action : Conn * Conn :=
  default (cl_sgxConn c, cl_sevConn c)
    (if bool_decide (SEv_RegionID action = "") then None else cl_regionTEEs c !! SEv_RegionID action).

(** A result with two attestations whose times parse. *)
Definition convertible (r : ResultMsg) : Prop :=
  ∃ a b, RS_Attestations r = [a; b] ∧ is_ok (Parse (AM_Timestamp a)) = true ∧ is_ok (Parse (AM_Timestamp b)) = true.

Lemma protoToCoreAttestations_convertible r :
  (∃ atts, protoToCoreAttestations (RS_Attestations r) = Ok atts) ↔ convertible r.
Proof.
  unfold convertible, protoToCoreAttestations. split.
  - intros [atts H]. destruct (RS_Attestations r) as [|a [|b [|? ?]]]; try done. exists a, b.
    unfold protoToCoreAttestation in H.
    destruct (Parse (AM_Timestamp a)); try done. by destruct (Parse (AM_Timestamp b)).
  - intros (a & b & -> & Ha & Hb). unfold protoToCoreAttestation.
    destruct (Parse (AM_Timestamp a)); try done. destruct (Parse (AM_Timestamp b)); try done. eexists; reflexivity.
Qed.

Lemma VerifyAttestationPair_key key a : VerifyAttestationPair (Ok key) a = Ok tt.
Proof. done. Qed.

Lemma ExecuteAction_value rnd1 rnd2 c action x :
  Client_ExecuteAction rnd1 rnd2 c action = Ok x →
  ∃ rs rv sgxAtts sevAtts, rpc_Execute (clients_for c action).1 (request_of action) = Ok rs ∧
    rpc_Execute (clients_for c action).2 (request_of action) = Ok rv ∧
    protoToCoreAttestations (RS_Attestations rs) = Ok sgxAtts ∧
    protoToCoreAttestations (RS_Attestations rv) = Ok sevAtts ∧ compareResults rs rv = Ok tt.
Proof.
  unfold Client_ExecuteAction, clients_for. destruct x. destruct (if bool_decide _ then _ else _) as [tees|]; simpl.
  - rewrite !obind_ok. intros ([[rs rv]|] & H1 & H2).
    + apply obind_ok in H1 as (rs' & H1%wrapped_ok & (rv' & H3%wrapped_ok & [= -> ->])%obind_ok). simpl in H2.
      apply obind_ok in H2 as (sa & Hs%wrapped_ok & (va & Hv%wrapped_ok & H2)%obind_ok).
      rewrite !verdict_then in H2. naive_solver.
    + by apply obind_ok in H1 as (? & _ & (? & _ & ?)%obind_ok).
  - rewrite obind_ok. intros ([rs rv] & H1 & H2).
    apply obind_ok in H1 as (rs' & H1%wrapped_ok & (rv' & H3%wrapped_ok & [= -> ->])%obind_ok). simpl in H2.
    apply obind_ok in H2 as (sa & Hs%wrapped_ok & (va & Hv%wrapped_ok & H2)%obind_ok).
    rewrite !verdict_then in H2. naive_solver.
Qed.

Lemma compareResults_ok rs rv :
  compareResults rs rv = Ok tt ↔ RS_StateHash rs = RS_StateHash rv ∧ RS_Result rs = RS_Result rv.
Proof. unfold compareResults. by rewrite verdict_then, !check_iff, !negb_false_iff, !bool_decide_eq_true. Qed.

(** The client accepts an action exactly when both enclaves answer, each with
    two attestations whose times parse, and the answers agree on state hash and
    result.  Nothing else of an attestation counts: not its enclave, measurement,
    time, data or signature. *)
Theorem ExecuteAction_spec key1 key2 c action :
  Client_ExecuteAction (Ok key1) (Ok key2) c action = Ok tt ↔
  ∃ rs rv, rpc_Execute (clients_for c action).1 (request_of action) = Ok rs ∧
    rpc_Execute (clients_for c action).2 (request_of action) = Ok rv ∧
    convertible rs ∧ convertible rv ∧ RS_StateHash rs = RS_StateHash rv ∧ RS_Result rs = RS_Result rv.
Proof.
  split.
  - intros (rs & rv & sa & va & H1 & H2 & H3 & H4 & H5%compareResults_ok)%ExecuteAction_value.
    exists rs, rv. rewrite <-!protoToCoreAttestations_convertible. naive_solver.
  - intros (rs & rv & H1 & H2 & [sa Hs]%protoToCoreAttestations_convertible &
      [va Hv]%protoToCoreAttestations_convertible & Hc).
    unfold clients_for in H1, H2. unfold Client_ExecuteAction.
    destruct (if bool_decide _ then _ else _) as [tees|]; simpl in H1, H2 |- *; rewrite H1; simpl; rewrite H2; simpl;
      rewrite Hs; simpl; rewrite Hv; simpl; by apply compareResults_ok.
Qed.

(** The validator accepts an action exactly when its region's enclaves both
    answer with at least one attestation and the same state hash; the results
    themselves are not compared, and an answer without attestations makes it panic. *)
Theorem ValidateRegionalAction_spec key v action sgx sev :
  vl_regionTEEs v !! SEv_RegionID action = Some (sgx, sev) →
  (ValidateRegionalAction (Ok key) v action = Ok tt ↔
   ∃ rs rv, rpc_Execute sgx (request_of action) = Ok rs ∧ rpc_Execute sev (request_of action) = Ok rv ∧
     RS_StateHash rs = RS_StateHash rv ∧ RS_Attestations rs ≠ [] ∧ RS_Attestations rv ≠ []) ∧
  (∀ rs rv, rpc_Execute sgx (request_of action) = Ok rs → rpc_Execute sev (request_of action) = Ok rv →
     RS_StateHash rs = RS_StateHash rv → RS_Attestations rs = [] ∨ RS_Attestations rv = [] →
     ∃ w, ValidateRegionalAction (Ok key) v action = Panic w).
Proof.
  intros Hv. unfold ValidateRegionalAction. rewrite Hv. simpl. split.
  - rewrite obind_ok. setoid_rewrite obind_ok. setoid_rewrite wrapped_ok. setoid_rewrite verdict_then.
    setoid_rewrite check_iff. setoid_rewrite negb_false_iff. setoid_rewrite bool_decide_eq_true.
    unfold first_attestation. split.
    + intros (rs & H1 & rv & H2 & H3 & H4). exists rs, rv. split_and!; [done..| |].
      * by destruct (RS_Attestations rs).
      * by destruct (RS_Attestations rs), (RS_Attestations rv).
    + intros (rs & rv & H1 & H2 & H3 & H4 & H5). exists rs. split; [done|]. exists rv. split_and!; [done..|].
      by destruct (RS_Attestations rs), (RS_Attestations rv).
  - intros rs rv -> -> Hh Hne. simpl. rewrite bool_decide_eq_true_2 by done. simpl. unfold first_attestation.
    destruct Hne as [-> | ->]; [by eexists|]. by destruct (RS_Attestations rs); eexists.
Qed.

(** What the client accepts for a region, the validator with the same enclaves
    accepts too. *)
Lemma validator_accepts_client key1 key2 key c v action :
  SEv_RegionID action ≠ "" → is_Some (cl_regionTEEs c !! SEv_RegionID action) →
  vl_regionTEEs v = cl_regionTEEs c →
  Client_ExecuteAction (Ok key1) (Ok key2) c action = Ok tt → ValidateRegionalAction (Ok key) v action = Ok tt.
Proof.
  intros Hne [tees Ht] Hv (rs & rv & sa & va & H1 & H2 & H3 & H4 & [H5 _]%compareResults_ok)%ExecuteAction_value.
  unfold clients_for in H1, H2. rewrite bool_decide_eq_false_2, Ht in H1, H2 by done. simpl in H1, H2.
  unfold ValidateRegionalAction. rewrite Hv, Ht. simpl. rewrite H1, H2. simpl.
  rewrite bool_decide_eq_true_2 by done. simpl. unfold first_attestation, protoToCoreAttestations in *.
  by destruct (RS_Attestations rs), (RS_Attestations rv).
Qed.
End remote.

(** * The bridge *)

(** The attestations that come back from the Rust controller carry no signature,
    so none of them passes the core validation, and no bridge proof made of one
    verifies. *)
Lemma bridge_attestations_unsigned `{!Json rustExecutionResult} h rb req r :
  Bridge_Execute h rb req = Ok r →
  Attestation_Validate (ER_Attestations r).1 ≠ Ok tt ∧ Attestation_Validate (ER_Attestations r).2 ≠ Ok tt ∧
  ∀ now p, BP_Attestation p = (ER_Attestations r).1 → VerifyBridgeProof now NewRegionBridge p ≠ Ok tt.
Proof.
  unfold Bridge_Execute. rewrite !obind_ok. intros (_ & _ & (out & _ & (rust & _ & [= <-])%obind_ok)%obind_ok).
  simpl. assert (∀ x, Attestation_Validate (convert_attestation h x) ≠ Ok tt) as H.
  { intros x Hx. unfold Attestation_Validate in Hx. rewrite !verdict_then, !check_iff in Hx. by destruct Hx as (_ & _ & _ & ?). }
  split; [apply H|]. split; [apply H|]. intros now p Hp Hv. unfold VerifyBridgeProof in Hv.
  rewrite verdict_then, wrap_verdict_ok, Hp in Hv. exact (H (rr_Attestations rust).1 (proj2 Hv)).
Qed.

(** A bridge proof verifies when its attestation is valid and its time is not more
    than five minutes ago; a time in the future is never refused. *)
Lemma VerifyBridgeProof_spec now p :
  VerifyBridgeProof now NewRegionBridge p = Ok tt ↔
  Attestation_Validate (BP_Attestation p) = Ok tt ∧ t_ns now - t_ns (BP_Timestamp p) ≤ 5 * Minute.
Proof.
  unfold VerifyBridgeProof. rewrite verdict_then, wrap_verdict_ok, check_iff, Z.ltb_ge.
  unfold Since, Sub, minDuration, maxDuration, Minute, Second. simpl lockTimeout. unfold Minute, Second.
  split; intros [H1 H2]; split; first [done|lia].
Qed.

(** * Witnesses *)

#[local] Instance connector_eq_dec : EqDecision ConnectorResult.
Proof. solve_decision. Defined.
#[local] Instance connector_countable : Countable ConnectorResult.
Proof.
  refine (inj_countable' (λ r, (CN_ResultHash r, CN_Result r, CN_EnclaveType r, CN_Measurement r, CN_Timestamp r,
    CN_PlatformData r)) (λ '(a, b, c, d, e, f), mkConnectorResult a b c d e f) _). by intros [].
Defined.
#[local] Instance connector_Json : Json ConnectorResult := countable_Json ConnectorResult.

Definition sample_report (backend : string) : ConnectorResult :=
  mkConnectorResult "hash" "out" backend "m" 1700000000 "quote".
Definition sample_host : Host :=
  mkHost (Ok tt) (λ _, Ok tt) (λ args _, Ok (Marshal (sample_report (default "" (args !! 5%nat))))) 0.
Definition sample_executor : Executor := mkExecutor (mkConnector "/ctl" "/wasm" false) (NewTimeNetwork 2 0).
Definition sample_proof : VerifiedTimestamp := mkVerified (fromUnix 1700000000) [] "eu" 2.
Definition sample_request : ExecutionRequest := mkRequest "obj" "f" "p" "eu" (Some sample_proof).

Lemma event_wire_roundtrip_witness :
  ∃ e', convertEvent (ToProto (mkShuttleEvent "e" "f" "p" (fromUnix 10) (zeroAttestation, zeroAttestation) "eu")) = Ok e'.
Proof.
  destruct (event_wire_roundtrip (mkShuttleEvent "e" "f" "p" (fromUnix 10) (zeroAttestation, zeroAttestation) "eu"))
    as (e' & H & _); [vm_compute; reflexivity..|]. exists e'. exact H.
Defined.

Lemma sample_reports backend :
  reports sample_host backend (mkConnector "/ctl" "/wasm" false) "p" (sample_report backend).
Proof.
  split; [done|]. split; [done|]. eexists. split; [reflexivity|]. apply countable_decodes.
Qed.

#[local] Existing Instance toy_Ed25519.

Lemma Executor_Execute_spec_witness :
  is_ok (Execute sample_host [] (λ _, (Ok "", zeroTime)) (Ok "") [] (fromUnix 1700000100) (fromUnix 1700000100)
    sample_executor sample_request).2 = true.
Proof.
  destruct (Executor_Execute_spec sample_host [] (λ _, (Ok "", zeroTime)) (Ok "") [] (fromUnix 1700000100)
    (fromUnix 1700000100) sample_executor sample_request sample_proof
    (mkResult "out" "hash" "eu" (attested "sgx-enclave" sample_proof (sample_report "sgx"),
       attested "sev-enclave" sample_proof (sample_report "sev")) (Some sample_proof))) as [_ [_ H]]; [reflexivity|].
  rewrite H; [reflexivity|]. exists (sample_report "sgx"), (sample_report "sev").
  split; [apply sample_reports|]. split; [apply sample_reports|].
  split; [reflexivity|]. split; [reflexivity|].
  assert (∀ b, acceptable (fromUnix 1700000100) sample_proof (sample_report b)) as Ha.
  { intros b. split; [discriminate|]. split; [discriminate|]. split; [reflexivity|]. vm_compute. discriminate. }
  split; [apply Ha|]. split; [apply Ha|]. reflexivity.
Defined.

Lemma Executor_New_needs_time_proof_witness :
  ∃ e err, Executor_New "/ctl" "/wasm" false = Ok e ∧
    Execute sample_host [] (λ _, (Ok "", zeroTime)) (Ok "") [] zeroTime zeroTime e
      (with_TimeProof None sample_request) = (with_TimeProof None sample_request, Err err).
Proof.
  eexists. destruct (Executor_New_needs_time_proof sample_host [] (λ _, (Ok "", zeroTime)) (Ok "") [] zeroTime zeroTime
    "/ctl" "/wasm" false _ (with_TimeProof None sample_request) eq_refl eq_refl) as [err H].
  exists err. split; [reflexivity|exact H].
Defined.

Definition sample_att_msg : AttestationMsg := mkAttestationMsg "id" "m" "2023-11-14T22:13:20Z" "d" "" "" "SGX".
Definition sample_answer : ResultMsg := mkResultMsg "" [sample_att_msg; sample_att_msg] "hash" "out" 0 0 0.
(** Every endpoint is its own connection and answers alike. *)
#[local] Instance echo_Grpc : Grpc string :=
  {| dial := Ok; rpc_Execute _ _ := Ok sample_answer; conn_Close _ := None |}.
Definition sample_event_action : SendEventAction :=
  mkSendEvent "obj" "f" "p" (zeroAttestation, zeroAttestation) "eu".

Lemma ValidateRegionalAction_spec_witness :
  ValidateRegionalAction (Ok "key") (Validator_AddRegion "eu" "sgx:1" "sev:1" NewValidator).1 sample_event_action = Ok tt.
Proof.
  apply (ValidateRegionalAction_spec "key" (Validator_AddRegion "eu" "sgx:1" "sev:1" NewValidator).1
    sample_event_action "sgx:1" "sev:1").
  - vm_compute. reflexivity.
  - exists sample_answer, sample_answer. repeat split; discriminate.
Defined.

Example client_accepts :
  Client_ExecuteAction (Ok "k1") (Ok "k2") (mkClient "sgx:0" "sev:0" ∅) sample_event_action = Ok tt.
Proof. vm_compute. reflexivity. Qed.
