(* ===== verification/Compute.v ===== *)
(** Package [compute]: the node that executes requests in its enclaves and hands them
    to its coordinator ([compute/service.go]), and the client of such nodes
    ([compute/client.go]).

    The node's counter of running tasks is guarded by a mutex and each use of it is
    one step; between them requests of several goroutines interleave, which
    [node_step] describes.  The gRPC server around the node is input/output. *)

From S2P Require Import Prelude GoTime RFC3339 KV Core Channel Worker Coordinator Storage Actions TimeServer Verifier.
From S2P Require Import RangeState TEE.
From Stdlib Require Import ZArith Lia Ascii String.
From stdpp Require Import base tactics option list strings pretty gmap.

Local Open Scope Z_scope.

Definition ErrNoRegion := Sentinel "compute" "ErrNoRegion".
Definition ErrNodeBusy := Sentinel "compute" "ErrNodeBusy".

(** * Data *)

Record ComputeNode (B : Type) : Type := mkNode {
  cn_regionID : string;
  cn_maxTasks : Z;
  cn_activeTasks : Z;
  cn_bridge : RustBridge;
  cn_coordinator : Coordinator B;
  cn_workers : gmap string (string * string);     (* id and enclave id *)
}.
Arguments mkNode {_} _ _ _ _ _ _.
Arguments cn_regionID {_} _.
Arguments cn_maxTasks {_} _.
Arguments cn_activeTasks {_} _.
Arguments cn_bridge {_} _.
Arguments cn_coordinator {_} _.
Arguments cn_workers {_} _.

Definition set_active {B} (k : Z) (n : ComputeNode B) : ComputeNode B :=
  mkNode (cn_regionID n) (cn_maxTasks n) k (cn_bridge n) (cn_coordinator n) (cn_workers n).
Definition set_coordinator {B} (c : Coordinator B) (n : ComputeNode B) : ComputeNode B :=
  mkNode (cn_regionID n) (cn_maxTasks n) (cn_activeTasks n) (cn_bridge n) c (cn_workers n).
Definition set_node_workers {B} ws (n : ComputeNode B) : ComputeNode B :=
  mkNode (cn_regionID n) (cn_maxTasks n) (cn_activeTasks n) (cn_bridge n) (cn_coordinator n) ws.

(** The configuration the node gives its coordinator. *)
Definition coordConfig (regionID : string) : Config :=
  mkConfig 2 10 (30 * Second) 100 1000 (5 * Minute) 0 (10 * Second) 0 true true (5 * Second)
    ("/tmp/coordinator-" +s+ regionID) true.

(** [merkledb_New] is the result of opening the Merkle database; [h] is the heap of
    channels and the source of their keys. *)
Definition NewComputeNode {B} (merkledb_New : outcome unit) (base : B) (h : Heap)
    (regionID : string) (maxTasks : Z) (controllerPath wasmPath : string) : outcome (ComputeNode B) :=
  wrapped "failed to create merkledb" merkledb_New ;;
  Ok (mkNode regionID maxTasks 0 (NewRustBridge controllerPath wasmPath)
        (NewCoordinator (coordConfig regionID) base h) ∅).

Record AttestationReport : Type := mkReport {
  AR_EnclaveType : string;
  AR_EnclaveID : string;
  AR_Measurement : string;
  AR_Timestamp : Time;
  AR_PlatformData : string;
  AR_RegionProof : string;
}.

Record RegionMsg : Type := mkRegionMsg {
  RM_Id : string;
  RM_CreatedAt : string;
  RM_WorkerIds : list string;
  RM_SupportedTeeTypes : list string;
  RM_MaxTasks : Z;
}.

(** * Conversions *)

Definition convertToRustRequest (req : RequestMsg) : BridgeRequest :=
  mkBridgeRequest (RQ_IdTo req) (RQ_FunctionCall req) (RQ_Parameters req) (RQ_RegionId req).

(** The message of an attestation, without signature and enclave type. *)
Definition unsigned_msg (att : TEEAttestation) : AttestationMsg :=
  mkAttestationMsg (EnclaveID att) (Measurement att) (Format (Timestamp att)) (Data att) "" (RegionProof att) "".

Definition convertAttestations (atts : TEEAttestation * TEEAttestation) : list AttestationMsg :=
  [unsigned_msg atts.1; unsigned_msg atts.2].

Definition convertToProtoResult (now : Time) (result : ExecutionResult) : ResultMsg :=
  mkResultMsg (Format (UTC now)) (convertAttestations (ER_Attestations result)) (ER_StateHash result)
    (ER_Output result) 0 0 0.

(** The same conversion once more, as a method. *)
Definition createExecutionResult (now : Time) (result : ExecutionResult) : ResultMsg :=
  convertToProtoResult now result.

Definition determineEnclaveType (enclaveID : string) : string :=
  if HasPrefix enclaveID "sgx-" then "SGX"
  else if HasPrefix enclaveID "sev-" then "SEV"
  else "UNKNOWN".

Definition convertToRustAttestation (att : AttestationMsg) : outcome AttestationReport :=
  timestamp ← wrapped "invalid timestamp format" (Parse (AM_Timestamp att));
  Ok (mkReport (determineEnclaveType (AM_EnclaveId att)) (AM_EnclaveId att) (AM_Measurement att) timestamp
        (AM_Data att) (AM_RegionProof att)).

(** * Local channels *)

(** [m; defer d]: the deferred call runs when [m] returns or panics. *)
Definition deferring {S A} (d : go S unit) (m : go S A) : go S A := λ s,
  match m s with
  | (s', Hang w) => (s', Hang w)
  | (s', o) =>
      match d s' with
      | (s'', Ok _) => (s'', o)
      | (s'', Err e) => (s'', Err e)
      | (s'', Panic w) => (s'', Panic w)
      | (s'', Hang w) => (s'', Hang w)
      end
  end.

Abbreviation channels := (gmap string SecureChannel).

Definition on_entry {A} (k : string) (m : go SecureChannel A) : go channels A := λ chs,
  match chs !! k with
  | Some ch => let '(ch', o) := m ch in (<[k := ch']> chs, o)
  | None => (chs, Panic "invalid memory address or nil pointer dereference")
  end.

Definition establishSecureChannels (rnd : outcome string) (result : ExecutionResult) : outcome channels :=
  match EstablishSecure rnd
          (NewSecureChannel (EnclaveID (ER_Attestations result).1) (EnclaveID (ER_Attestations result).2)) with
  | (ch, Ok _) => Ok {[ "sgx-sev" := ch ]}
  | (_, Err e) => Err (Wrapf "failed to establish secure channel" e)
  | (_, Panic w) => Panic w
  | (_, Hang w) => Hang w
  end.

Definition exchangeVerification `{!MapRange} (result : ExecutionResult) : go channels unit := λ chs,
  for_each (λ k, wrap "failed to send verification message" (on_entry k (Send (ER_StateHash result))))
    (range_map 0 chs).*1 chs.

Definition close_channels `{!MapRange} : go channels unit := λ chs,
  for_each (λ k, on_entry k Channel_Close) (range_map 1 chs).*1 chs.

(** A channel of its own for one pair, which gets the first attestation's data. *)
Definition Node_verifyAttestations (rnd : outcome string) (atts : TEEAttestation * TEEAttestation) : verdict :=
  match EstablishSecure rnd (NewSecureChannel (EnclaveID atts.1) (EnclaveID atts.2)) with
  | (ch, Ok _) =>
      (deferring Channel_Close (wrap "failed to send verification message" (Send (Data atts.1))) ch).2
  | (_, o) => o
  end.

(** * The node *)

Section node.
Context {B : Type} `{!BaseStore B}.
Context `{!Json channel_alias, !Json worker_alias, !Json rustExecutionResult, !MapRange}.
Implicit Types (n : ComputeNode B).

Definition on_coordinator {A} (m : go (Coordinator B) A) : go (ComputeNode B) A :=
  zoom cn_coordinator set_coordinator m.

Definition acquireTaskSlot : go (ComputeNode B) bool := λ n,
  if cn_maxTasks n <=? cn_activeTasks n then (n, Ok false)
  else (set_active (cn_activeTasks n + 1) n, Ok true).

Definition releaseTaskSlot : go (ComputeNode B) unit :=
  modify (λ n, set_active (cn_activeTasks n - 1) n).

(** Both workers enter the node's table; all of the table is then registered. *)
Definition registerWorkers (now : Time) : go (ComputeNode B) unit :=
  modify (λ n, set_node_workers
    (<["sev-" +s+ cn_regionID n := ("sev-" +s+ cn_regionID n, "sev-enclave")]>
      (<["sgx-" +s+ cn_regionID n := ("sgx-" +s+ cn_regionID n, "sgx-enclave")]> (cn_workers n))) n) ;;
  ws ← gets (λ n, (range_map 0 (cn_workers n)).*2);
  for_each (λ w, wrap ("failed to register worker " +s+ w.1) (on_coordinator (RegisterWorker now w.1 w.2))) ws.

Definition executeTEE (h : Host) (req : RequestMsg) : go (ComputeNode B) ExecutionResult := λ n,
  (n, wrapped "TEE execution failed" (Bridge_Execute h (cn_bridge n) (convertToRustRequest req))).

(** [&coordination.Task{...}]: a new object. *)
Definition new_task (t : Task) : go (Coordinator B) nat := λ c,
  let p := fresh (dom (task_table c)) in (set_task_table (<[p := t]> (task_table c)) c, Ok p).

(** The task's id has the node's region and the clock. *)
Definition coordination_task (now : Time) (regionID : string) (req : RequestMsg) (r : ExecutionResult) : Task :=
  mkTask ("task-" +s+ regionID +s+ "-" +s+ pretty (UnixNano now))
    [EnclaveID (ER_Attestations r).1; EnclaveID (ER_Attestations r).2] (RQ_Parameters req) [] (5 * Minute) "".

(** The task is made and submitted. *)
Definition submit_new (now : Time) (ctx : option goerr) (pick : bool) (t : Task) : go (ComputeNode B) unit :=
  task ← on_coordinator (new_task t);
  wrap "coordination failed" (on_coordinator (SubmitTask now ctx pick (Some task))).

(** What [Execute] does while it holds a slot.  [now] are the readings of the clock,
    [ctx] the error of a context that is done, [pick] the choice of [SubmitTask]'s
    [select], [rnd] the key of the channel. *)
Definition execute_task (h : Host) (now1 now2 now3 : Time) (ctx : option goerr) (pick : bool) (rnd : outcome string)
    (req : RequestMsg) : go (ComputeNode B) ResultMsg :=
  coreResult ← executeTEE h req;
  regionID ← gets cn_regionID;
  submit_new now2 ctx pick (coordination_task now1 regionID req coreResult) ;;
  chs ← lift (establishSecureChannels rnd coreResult);
  lift (deferring close_channels (exchangeVerification coreResult) chs).2 ;;
  mret (convertToProtoResult now3 coreResult).

Definition Node_Execute (h : Host) (now1 now2 now3 : Time) (ctx : option goerr) (pick : bool) (rnd : outcome string)
    (req : RequestMsg) : go (ComputeNode B) ResultMsg :=
  regionID ← gets cn_regionID;
  fail_if (bool_decide (RQ_RegionId req = "")) ErrNoRegion ;;
  fail_if (bool_decide (RQ_RegionId req ≠ regionID))
    (Errorf ("wrong region: want " +s+ regionID +s+ ", got " +s+ RQ_RegionId req)) ;;
  got ← acquireTaskSlot;
  fail_if (negb got) ErrNodeBusy ;;
  deferring releaseTaskSlot (execute_task h now1 now2 now3 ctx pick rnd req).

Definition GetRegions (now : Time) (n : ComputeNode B) : list RegionMsg :=
  [mkRegionMsg (cn_regionID n) (Format now) ["sgx-" +s+ cn_regionID n; "sev-" +s+ cn_regionID n] [] 0].

(** Closing the bridge does nothing. *)
Definition Node_Close (now : Time) (order : list string) : go (ComputeNode B) unit :=
  r ← try (on_coordinator (Coordinator_Stop now order));
  match r with
  | inl _ => mret tt
  | inr _ => fail (Errorf "multiple close errors")
  end.
End node.

(** * The client, [compute/client.go] *)

Record NodeClient (Conn : Type) : Type := mkNodeClient {
  nc_endpoint : string;
  nc_bridge : RustBridge;
  nc_conn : Conn;
}.
Arguments mkNodeClient {_} _ _ _.
Arguments nc_endpoint {_} _.
Arguments nc_bridge {_} _.
Arguments nc_conn {_} _.

Section client.
Context {Conn : Type} `{!Grpc Conn, !Json rustExecutionResult}.

Definition NewNodeClient (endpoint controllerPath wasmPath : string) : outcome (NodeClient Conn) :=
  conn ← wrapped "failed to connect" (dial endpoint);
  Ok (mkNodeClient endpoint (NewRustBridge controllerPath wasmPath) conn).

Definition convertProtoToTeeRequest (req : RequestMsg) : BridgeRequest :=
  mkBridgeRequest (RQ_IdTo req) (RQ_FunctionCall req) (RQ_Parameters req) (RQ_RegionId req).

(** The request runs in the client's own enclaves first, then on the node. *)
Definition NodeClient_Execute (h : Host) (c : NodeClient Conn) (req : RequestMsg) : outcome ResultMsg :=
  teeResult ← wrapped "TEE execution failed" (Bridge_Execute h (nc_bridge c) (convertProtoToTeeRequest req));
  result ← wrapped "compute node execution failed" (rpc_Execute (nc_conn c) req);
  check (negb (bool_decide (ER_StateHash teeResult = RS_StateHash result)))
    (Errorf "result mismatch between TEE and compute node") ;;
  Ok result.

(** [ready] is whether the connection's state is [connectivity.Ready]. *)
Definition ValidateConnection (h : Host) (ready : bool) (c : NodeClient Conn) : verdict :=
  check (negb ready) (Errorf "connection not ready") ;;
  wrapped "TEE validation failed" (ValidatePlatforms h (nc_bridge c)).

Definition NodeClient_Close (c : NodeClient Conn) : verdict :=
  all_closed "multiple close errors" (close_errors [("failed to close gRPC connection", nc_conn c)]).
End client.
