(* ===== verification/ComputeFacts.v ===== *)
(** What a compute node guarantees: its slots are never overcommitted and always given
    back, when a request is executed and with what answer, and how many requests a
    node can execute in its life. *)

From S2P Require Import Prelude GoTime RFC3339 KV Core Channel Worker Coordinator CoordinatorFacts Storage Actions.
From S2P Require Import TimeServer Verifier RangeState TEE TEEFacts Compute.
From Stdlib Require Import ZArith Lia Ascii String.
From stdpp Require Import base tactics option list relations strings pretty gmap.

Local Open Scope Z_scope.

Section facts.
Context {B : Type} `{!BaseStore B}.
Context `{!Json channel_alias, !Json worker_alias, !Json rustExecutionResult, !MapRange}.
Implicit Types (n : ComputeNode B) (c : Coordinator B).

(** * Slots *)

(** The steps of a node serving requests in parallel, with those that hold a slot: one
    enters, or finds the node full, one of them works on the coordinator, one leaves. *)
Inductive node_step : relation (ComputeNode B * list RequestMsg) :=
  | ns_enter req n n' fl : acquireTaskSlot n = (n', Ok true) → node_step (n, fl) (n', req :: fl)
  | ns_busy n n' fl : acquireTaskSlot n = (n', Ok false) → node_step (n, fl) (n', fl)
  | ns_work req c n fl : req ∈ fl → node_step (n, fl) (set_coordinator c n, fl)
  | ns_leave req n fl1 fl2 : node_step (n, fl1 ++ req :: fl2) ((releaseTaskSlot n).1, fl1 ++ fl2).

Definition slots_inv (maxTasks : Z) (s : ComputeNode B * list RequestMsg) : Prop :=
  cn_maxTasks s.1 = maxTasks ∧ cn_activeTasks s.1 = Z.of_nat (length s.2) ∧ cn_activeTasks s.1 ≤ Z.max 0 maxTasks.

Lemma slots_inv_step maxTasks s s' : node_step s s' → slots_inv maxTasks s → slots_inv maxTasks s'.
Proof.
  unfold slots_inv. intros [req n n' fl Ha|n n' fl Ha|req c n fl Hr|req n fl1 fl2]; simpl; [| |done|].
  - unfold acquireTaskSlot in Ha. destruct (Z.leb_spec (cn_maxTasks n) (cn_activeTasks n)); [done|].
    injection Ha as <-. simpl. lia.
  - unfold acquireTaskSlot in Ha. destruct (Z.leb_spec (cn_maxTasks n) (cn_activeTasks n)); [|done].
    by injection Ha as <-.
  - rewrite !length_app. simpl. lia.
Qed.

Lemma slots_inv_steps maxTasks s s' : rtc node_step s s' → slots_inv maxTasks s → slots_inv maxTasks s'.
Proof. induction 1; eauto using slots_inv_step. Qed.

(** Everything between taking a slot and giving it back is work on the coordinator. *)
Definition only_coordinator n n' : Prop := ∃ c, n' = set_coordinator c n.

#[local] Instance only_coordinator_preorder : PreOrder only_coordinator.
Proof.
  split; [intros n; exists (cn_coordinator n); by destruct n|].
  intros n1 n2 n3 [c1 ->] [c2 ->]. by exists c2.
Qed.

Lemma only_coordinator_on {A} (m : go (Coordinator B) A) : preserves only_coordinator (on_coordinator m).
Proof. intros n. unfold on_coordinator, zoom. destruct (m (cn_coordinator n)) as [c o]. by exists c. Qed.

Lemma only_coordinator_submit now ctx pick t : preserves only_coordinator (submit_new now ctx pick t).
Proof.
  apply preserves_bind; [apply _|apply only_coordinator_on|intros p]. apply preserves_wrap, only_coordinator_on.
Qed.

Lemma only_coordinator_execute h now1 now2 now3 ctx pick rnd req :
  preserves only_coordinator (execute_task h now1 now2 now3 ctx pick rnd req).
Proof.
  unfold execute_task.
  apply preserves_bind; [apply _|intros n; apply (reflexivity (R := only_coordinator))|intros r].
  apply preserves_bind; [apply _|apply preserves_gets, _|intros regionID].
  apply preserves_bind; [apply _|apply only_coordinator_submit|intros _].
  apply preserves_bind; [apply _|apply preserves_lift, _|intros chs].
  apply preserves_bind; [apply _|apply preserves_lift, _|intros _]. apply preserves_ret, _.
Qed.

Definition returned {A} (o : outcome A) : Prop := ∀ w, o ≠ Hang w.

(** A request that is refused leaves the node as it is; an admitted one takes a
    slot, works on the coordinator and gives the slot back, also when it fails or
    panics. *)
Lemma Node_Execute_cases h now1 now2 now3 ctx pick rnd req n n' o :
  Node_Execute h now1 now2 now3 ctx pick rnd req n = (n', o) → returned o →
  n' = n ∨
  ∃ n1 c, acquireTaskSlot n = (n1, Ok true) ∧ n1 = set_active (cn_activeTasks n + 1) n ∧
    n' = (releaseTaskSlot (set_coordinator c n1)).1.
Proof.
  intros E Hret. unfold Node_Execute in E. go_unfold.
  destruct (bool_decide (RQ_RegionId req = "")); [left; by injection E as <- _|].
  destruct (bool_decide (RQ_RegionId req ≠ cn_regionID n)); [left; by injection E as <- _|].
  destruct (acquireTaskSlot n) as [n1 o1] eqn:Ea. pose proof Ea as Ea'. unfold acquireTaskSlot in Ea'.
  destruct (cn_maxTasks n <=? cn_activeTasks n); injection Ea' as <- <-; cbn [negb] in E.
  { left. by injection E as <- _. }
  right. unfold deferring in E.
  pose proof (only_coordinator_execute h now1 now2 now3 ctx pick rnd req (set_active (cn_activeTasks n + 1) n)) as [c Hc].
  destruct (execute_task h now1 now2 now3 ctx pick rnd req (set_active (cn_activeTasks n + 1) n)) as [n2 o2].
  cbn [fst] in Hc. subst n2. eexists _, c. split_and!; [done..|].
  destruct o2; [by injection E as <- _..|]. injection E as _ <-. by destruct (Hret why).
Qed.

(** A call of [Execute] is a run of these steps. *)
Lemma Node_Execute_steps h now1 now2 now3 ctx pick rnd req n n' o fl :
  Node_Execute h now1 now2 now3 ctx pick rnd req n = (n', o) → returned o → rtc node_step (n, fl) (n', fl).
Proof.
  intros E Hret. destruct (Node_Execute_cases _ _ _ _ _ _ _ _ _ _ _ E Hret) as [-> |(n1 & c & Ha & _ & ->)];
    [apply rtc_refl|].
  eapply rtc_l; [by apply (ns_enter req)|]. eapply rtc_l; [apply (ns_work req c); left|].
  apply rtc_once, (ns_leave req _ [] fl).
Qed.

(** C24: whatever the interleaving of its requests, a node counts exactly the
    requests that hold a slot and never has more than its limit of them; a free
    slot is given to the next request; and a request gives its slot back however it
    ends. *)
Theorem task_slots_bounded mdb base hp regionID maxTasks cp wp n0 n fl :
  NewComputeNode mdb base hp regionID maxTasks cp wp = Ok n0 → 0 ≤ maxTasks →
  rtc node_step (n0, []) (n, fl) →
  cn_activeTasks n = Z.of_nat (length fl) ∧ cn_activeTasks n ≤ maxTasks ∧
  (cn_activeTasks n < maxTasks → ∃ n', acquireTaskSlot n = (n', Ok true)) ∧
  (∀ h now1 now2 now3 ctx pick rnd req n' o,
     Node_Execute h now1 now2 now3 ctx pick rnd req n = (n', o) → returned o →
     rtc node_step (n, fl) (n', fl) ∧ cn_activeTasks n' = cn_activeTasks n).
Proof.
  intros H0 Hmax Hsteps. unfold NewComputeNode in H0. destruct mdb as [[]| | |]; try done. injection H0 as <-.
  apply (slots_inv_steps maxTasks) in Hsteps as Hn; [|by unfold slots_inv; simpl; lia].
  destruct Hn as (Hm & Hlen & Hle). simpl in Hm, Hlen, Hle. split_and!; [done|lia| |].
  - intros Hlt. unfold acquireTaskSlot. rewrite Hm, (proj2 (Z.leb_gt _ _)) by done. by eexists.
  - intros h now1 now2 now3 ctx pick rnd req n' o E Hret. pose proof (Node_Execute_steps _ _ _ _ _ _ _ _ _ _ _ fl E Hret) as Hs.
    split; [done|]. apply (slots_inv_steps maxTasks) in Hs as (_ & Hlen' & _); [|done]. simpl in Hlen'. congruence.
Qed.

(** * The tasks a node submits *)

(** Submitting to a free coordinator: it stays free and configured as it was, and the
    queue grows by the task exactly on success, which needs room. *)
Lemma SubmitTask_effect now ctx pick p t c c' o :
  mu c = false → task_table c !! p = Some t → SubmitTask now ctx pick (Some p) c = (c', o) →
  mu c' = false ∧ config c' = config c ∧ workers c' = workers c ∧ task_table c' = task_table c ∧ returned o ∧
  (o = Ok tt ∧ queue c' = queue c ++ [p] ∧ Z.of_nat (length (queue c)) < MaxTasks (config c) ∨
   (∃ e, o = Err e) ∧ queue c' = queue c).
Proof.
  intros Hmu Ht E. unfold SubmitTask in E. rewrite (bind_ok (gets _) _ c c (Some t)) in E by (unfold gets; by rewrite Ht).
  unfold admit_task in E. go_unfold. rewrite with_mu_free in E by done. simpl in E.
  destruct (MaxTasks (config c) <=? Z.of_nat (size (taskStatus c))) eqn:Ef; simpl in E.
  { injection E as <- <-. split_and!; try done. right. eauto. }
  set (c1 := set_mu false _) in E. unfold enqueue_task, cancel_task in E. go_unfold.
  assert (queue c1 = queue c) as Hq by done. assert (config c1 = config c) as Hcfg by done. rewrite Hq, Hcfg in E.
  assert (mu c1 = false ∧ workers c1 = workers c ∧ task_table c1 = task_table c) as (H1 & H2 & H3) by done.
  clearbody c1. destruct (Z.ltb_spec (Z.of_nat (length (queue c))) (MaxTasks (config c))).
  - destruct ctx as [e|]; [destruct pick|]; simpl in E; try rewrite with_mu_free in E by done; simpl in E;
      injection E as <- <-; rewrite <-Hcfg, <-Hq; split_and!; try done; [right; eauto|left; split_and!; [done..|by rewrite Hcfg, Hq]..].
  - destruct ctx as [e|]; simpl in E; rewrite with_mu_free in E by done; simpl in E;
      injection E as <- <-; rewrite <-Hcfg, <-Hq; split_and!; try done; right; eauto.
Qed.

Lemma new_task_run t c :
  ∃ p, new_task t c = (set_task_table (<[p := t]> (task_table c)) c, Ok p) ∧ task_table c !! p = None.
Proof.
  exists (fresh (dom (task_table c))). split; [done|]. apply not_elem_of_dom, is_fresh.
Qed.

Lemma range_map_singleton {A} i k (v : A) : range_map i ({[ k := v ]} : gmap string A) = [(k, v)].
Proof.
  pose proof (range_map_perm _ i ({[ k := v ]} : gmap string A)) as H0.
  rewrite map_to_list_singleton in H0. symmetry in H0. by apply Permutation_singleton_l in H0.
Qed.

(** The verification channel is fresh, so its one message always goes through. *)
Lemma verification_channel key r :
  ∃ chs, establishSecureChannels (Ok key) r = Ok chs ∧
    (deferring close_channels (exchangeVerification r) chs).2 = Ok tt.
Proof.
  eexists. split; [reflexivity|]. unfold deferring, exchangeVerification, close_channels.
  rewrite range_map_singleton. cbn [fmap list_fmap fst for_each]. go_unfold. unfold on_entry.
  rewrite lookup_singleton_eq. simpl. rewrite insert_singleton_eq, range_map_singleton.
  cbn [fmap list_fmap fst for_each]. go_unfold. unfold on_entry. by rewrite lookup_singleton_eq.
Qed.

Lemma SubmitTask_room now pick p t c :
  mu c = false → task_table c !! p = Some t →
  (SubmitTask now None pick (Some p) c).2 = Ok tt ↔
  Z.of_nat (size (taskStatus c)) < MaxTasks (config c) ∧ Z.of_nat (length (queue c)) < MaxTasks (config c).
Proof.
  intros Hmu Ht. unfold SubmitTask. rewrite (bind_ok (gets _) _ c c (Some t)) by (unfold gets; by rewrite Ht).
  unfold admit_task, enqueue_task, cancel_task. go_unfold. rewrite with_mu_free by done. simpl.
  destruct (Z.leb_spec (MaxTasks (config c)) (Z.of_nat (size (taskStatus c)))); simpl.
  { split; [done|]. lia. }
  destruct (Z.ltb_spec (Z.of_nat (length (queue c))) (MaxTasks (config c))); simpl; [done|].
  split; [done|]. lia.
Qed.

(** The queue of the node's coordinator grows by one task, for which there was room. *)
Definition queued c c' : Prop :=
  ∃ p, queue c' = queue c ++ [p] ∧ Z.of_nat (length (queue c)) < MaxTasks (config c).

Definition same_setup c c' : Prop := mu c' = false ∧ config c' = config c ∧ workers c' = workers c.

Lemma submit_new_effect now ctx pick t n n' o :
  mu (cn_coordinator n) = false → submit_new now ctx pick t n = (n', o) →
  same_setup (cn_coordinator n) (cn_coordinator n') ∧
  (o = Ok tt ∧ queued (cn_coordinator n) (cn_coordinator n') ∨
   (∃ e, o = Err e) ∧ queue (cn_coordinator n') = queue (cn_coordinator n)).
Proof.
  intros Hmu E. unfold submit_new in E. destruct (new_task_run t (cn_coordinator n)) as (p & Hp & Hfresh).
  set (c1 := set_task_table (<[p := t]> (task_table (cn_coordinator n))) (cn_coordinator n)) in *.
  rewrite (bind_ok _ _ n (set_coordinator c1 n) p) in E by (unfold on_coordinator, zoom; by rewrite Hp).
  unfold wrap, on_coordinator, zoom in E. cbn [cn_coordinator set_coordinator] in E.
  destruct (SubmitTask now ctx pick (Some p) c1) as [c2 o2] eqn:Es.
  destruct (SubmitTask_effect _ _ _ _ t _ _ _ (Hmu : mu c1 = false) (lookup_insert_eq _ _ _) Es)
    as (Hmu2 & Hc2 & Hw2 & _ & _ & Hcase).
  destruct Hcase as [(-> & Hq & Hlt)|([e ->] & Hq)]; injection E as <- <-; (split; [done|]).
  - left. split; [done|]. by exists p.
  - right. split; [by eexists|done].
Qed.

Lemma submit_new_room now pick t n :
  mu (cn_coordinator n) = false →
  (submit_new now None pick t n).2 = Ok tt ↔
  Z.of_nat (size (taskStatus (cn_coordinator n))) < MaxTasks (config (cn_coordinator n)) ∧
  Z.of_nat (length (queue (cn_coordinator n))) < MaxTasks (config (cn_coordinator n)).
Proof.
  intros Hmu. unfold submit_new. destruct (new_task_run t (cn_coordinator n)) as (p & Hp & Hfresh).
  set (c1 := set_task_table (<[p := t]> (task_table (cn_coordinator n))) (cn_coordinator n)) in *.
  rewrite (bind_ok _ _ n (set_coordinator c1 n) p) by (unfold on_coordinator, zoom; by rewrite Hp).
  etransitivity; [|exact (SubmitTask_room now pick p t c1 Hmu (lookup_insert_eq _ _ _))].
  unfold wrap, on_coordinator, zoom. cbn [cn_coordinator set_coordinator].
  by destruct (SubmitTask now None pick (Some p) c1) as [c2 [| | |]].
Qed.

(** What an admitted request does to the coordinator. *)
Lemma execute_task_effect h now1 now2 now3 ctx pick rnd req n n' o :
  mu (cn_coordinator n) = false → execute_task h now1 now2 now3 ctx pick rnd req n = (n', o) →
  same_setup (cn_coordinator n) (cn_coordinator n') ∧
  (queued (cn_coordinator n) (cn_coordinator n') ∨
   queue (cn_coordinator n') = queue (cn_coordinator n) ∧ is_ok o = false).
Proof.
  intros Hmu E. unfold execute_task, executeTEE in E. unfold mbind at 1, go_bind at 1 in E.
  destruct (wrapped _ (Bridge_Execute h (cn_bridge n) (convertToRustRequest req))) as [r|e|w|w];
    [|injection E as <- <-; split; [done|by right]..].
  rewrite (bind_ok (gets cn_regionID) _ n n (cn_regionID n)) in E by done.
  unfold mbind at 1, go_bind at 1 in E. destruct (submit_new _ _ _ _ n) as [n1 o1] eqn:Es.
  destruct (submit_new_effect _ _ _ _ _ _ _ Hmu Es) as [Hsame [(-> & Hq)|([e ->] & Hq)]];
    [|injection E as <- <-; split; [done|by right]].
  assert (n' = n1) as ->; [|by split; [|left]].
  unfold mbind, go_bind, lift in E. destruct (establishSecureChannels rnd r) as [chs| | |]; [|by injection E as <- _..].
  by destruct (deferring _ _ chs).2; injection E as <- _.
Qed.

(** An admitted request runs as it would with its slot, and then gives it back. *)
Lemma Node_Execute_admitted h now1 now2 now3 ctx pick rnd req n :
  RQ_RegionId req ≠ "" → RQ_RegionId req = cn_regionID n → cn_activeTasks n < cn_maxTasks n →
  Node_Execute h now1 now2 now3 ctx pick rnd req n =
  deferring releaseTaskSlot (execute_task h now1 now2 now3 ctx pick rnd req) (set_active (cn_activeTasks n + 1) n).
Proof.
  intros Hne Hr Hlt. unfold Node_Execute. go_unfold. rewrite !bool_decide_eq_false_2 by naive_solver.
  unfold acquireTaskSlot. by rewrite (proj2 (Z.leb_gt _ _)) by done.
Qed.

Lemma Node_Execute_refused h now1 now2 now3 ctx pick rnd req n :
  ¬ (RQ_RegionId req ≠ "" ∧ RQ_RegionId req = cn_regionID n ∧ cn_activeTasks n < cn_maxTasks n) →
  ∃ e, Node_Execute h now1 now2 now3 ctx pick rnd req n = (n, Err e).
Proof.
  intros Hno. unfold Node_Execute. go_unfold. destruct (decide (RQ_RegionId req = "")) as [E|E].
  { rewrite bool_decide_eq_true_2 by done. by eexists. }
  rewrite bool_decide_eq_false_2 by done. destruct (decide (RQ_RegionId req = cn_regionID n)) as [E2|E2].
  - rewrite bool_decide_eq_false_2 by naive_solver. unfold acquireTaskSlot.
    rewrite (proj2 (Z.leb_le _ _)) by (apply Z.nlt_ge; naive_solver). by eexists.
  - rewrite bool_decide_eq_true_2 by done. by eexists.
Qed.

(** C25: with its context alive, a node whose coordinator is free executes a request
    exactly when the request names the node's region, a slot is free, the enclaves
    produce a result and the coordinator has room for one more task; the answer is
    that result, its attestations stripped of their signatures. *)
Theorem Node_Execute_spec h now1 now2 now3 pick key req n m :
  mu (cn_coordinator n) = false →
  (Node_Execute h now1 now2 now3 None pick (Ok key) req n).2 = Ok m ↔
  (RQ_RegionId req ≠ "" ∧ RQ_RegionId req = cn_regionID n ∧ cn_activeTasks n < cn_maxTasks n) ∧
  (Z.of_nat (size (taskStatus (cn_coordinator n))) < MaxTasks (config (cn_coordinator n)) ∧
   Z.of_nat (length (queue (cn_coordinator n))) < MaxTasks (config (cn_coordinator n))) ∧
  ∃ r, Bridge_Execute h (cn_bridge n) (convertToRustRequest req) = Ok r ∧
    m = mkResultMsg (Format (UTC now3))
          [unsigned_msg (ER_Attestations r).1; unsigned_msg (ER_Attestations r).2] (ER_StateHash r) (ER_Output r) 0 0 0.
Proof.
  intros Hmu.
  destruct (decide (RQ_RegionId req ≠ "" ∧ RQ_RegionId req = cn_regionID n ∧ cn_activeTasks n < cn_maxTasks n))
    as [(H1 & H2 & H3)|Hno].
  2: { destruct (Node_Execute_refused h now1 now2 now3 None pick (Ok key) req n Hno) as [e ->]. naive_solver. }
  rewrite Node_Execute_admitted by done. set (n1 := set_active (cn_activeTasks n + 1) n).
  assert ((deferring releaseTaskSlot (execute_task h now1 now2 now3 None pick (Ok key) req) n1).2 =
    (execute_task h now1 now2 now3 None pick (Ok key) req n1).2) as ->.
  { unfold deferring. by destruct (execute_task _ _ _ _ _ _ _ _ n1) as [? [| | |]]. }
  unfold execute_task, executeTEE. unfold mbind at 1, go_bind at 1. change (cn_bridge n1) with (cn_bridge n).
  destruct (Bridge_Execute h (cn_bridge n) (convertToRustRequest req)) as [r|e|w|w]; simpl; [|naive_solver..].
  rewrite (bind_ok (gets cn_regionID) _ n1 n1 (cn_regionID n)) by done.
  change (cn_coordinator n) with (cn_coordinator n1).
  rewrite <-(submit_new_room now2 pick (coordination_task now1 (cn_regionID n) req r) n1 Hmu).
  unfold mbind at 1, go_bind at 1. destruct (submit_new _ _ _ _ n1) as [n2 o2] eqn:Es. cbn [snd].
  destruct (submit_new_effect _ _ _ _ n1 _ _ Hmu Es) as [_ [(-> & _)|([e ->] & _)]]; [|naive_solver].
  destruct (verification_channel key r) as (chs & Hc & Hd). rewrite Hc. unfold mbind, go_bind, lift. rewrite Hd.
  cbn [snd mret go_ret]. unfold convertToProtoResult, convertAttestations. naive_solver.
Qed.

(** * The life of a node *)

(** A call of [Execute] with what the world does for it. *)
Record Call : Type := mkCall {
  call_host : Host;
  call_now1 : Time;
  call_now2 : Time;
  call_now3 : Time;
  call_ctx : option goerr;
  call_pick : bool;
  call_rnd : outcome string;
  call_req : RequestMsg;
}.

Definition call_node (k : Call) : go (ComputeNode B) ResultMsg :=
  Node_Execute (call_host k) (call_now1 k) (call_now2 k) (call_now3 k) (call_ctx k) (call_pick k) (call_rnd k)
    (call_req k).

Fixpoint serve (calls : list Call) (n : ComputeNode B) : ComputeNode B * list (outcome ResultMsg) :=
  match calls with
  | [] => (n, [])
  | k :: calls' =>
      let '(n1, o) := call_node k n in
      let '(n2, os) := serve calls' n1 in (n2, o :: os)
  end.

Definition successes (os : list (outcome ResultMsg)) : nat := length (filter (λ o, is_ok o = true) os).

Lemma call_node_effect k n n' o :
  mu (cn_coordinator n) = false → call_node k n = (n', o) →
  same_setup (cn_coordinator n) (cn_coordinator n') ∧
  (queued (cn_coordinator n) (cn_coordinator n') ∨
   queue (cn_coordinator n') = queue (cn_coordinator n) ∧ is_ok o = false).
Proof.
  intros Hmu E. unfold call_node in E. set (req := call_req k) in *.
  destruct (decide (RQ_RegionId req ≠ "" ∧ RQ_RegionId req = cn_regionID n ∧ cn_activeTasks n < cn_maxTasks n))
    as [(H1 & H2 & H3)|Hno].
  2: { destruct (Node_Execute_refused (call_host k) (call_now1 k) (call_now2 k) (call_now3 k) (call_ctx k) (call_pick k)
         (call_rnd k) req n Hno) as [e He]. rewrite He in E. injection E as <- <-. split; [done|by right]. }
  rewrite Node_Execute_admitted in E by done. unfold deferring in E.
  destruct (execute_task _ _ _ _ _ _ _ req _) as [n1 o1] eqn:Ee.
  pose proof (execute_task_effect _ _ _ _ _ _ _ _ (set_active (cn_activeTasks n + 1) n) _ _ Hmu Ee) as Heff.
  assert (cn_coordinator n' = cn_coordinator n1 ∧ o = o1) as [-> ->]; [|exact Heff].
  by destruct o1; injection E as <- <-.
Qed.

Lemma serve_queue calls n n' os :
  mu (cn_coordinator n) = false → serve calls n = (n', os) →
  Z.of_nat (length (queue (cn_coordinator n))) ≤ MaxTasks (config (cn_coordinator n)) →
  Z.of_nat (length (queue (cn_coordinator n)) + successes os) ≤ MaxTasks (config (cn_coordinator n)).
Proof.
  revert n os. induction calls as [|k calls IH]; intros n os Hmu E Hle; simpl in E.
  { injection E as <- <-. unfold successes. simpl. lia. }
  destruct (call_node k n) as [n1 o] eqn:Ek. destruct (serve calls n1) as [n2 os'] eqn:Es. injection E as <- <-.
  destruct (call_node_effect k n n1 o Hmu Ek) as [(Hmu1 & Hc1 & _) Hq].
  assert (Z.of_nat (length (queue (cn_coordinator n))) + (if is_ok o then 1 else 0) ≤
    Z.of_nat (length (queue (cn_coordinator n1))) ≤ MaxTasks (config (cn_coordinator n))) as Hlen.
  { destruct Hq as [(p & -> & Hlt)|(-> & ->)]; [rewrite length_app; simpl|]; destruct (is_ok o); lia. }
  specialize (IH n1 os' Hmu1 Es). rewrite Hc1 in IH.
  unfold successes in *. rewrite filter_cons. destruct (decide (is_ok o = true)) as [Ho|Ho];
    [rewrite Ho in Hlen; simpl|destruct (is_ok o); [done|]]; lia.
Qed.

(** A node never starts its coordinator, so the tasks it submits stay queued: over
    its whole life, whatever it is asked and whatever its enclaves do, it answers at
    most a hundred requests. *)
Theorem node_answers_at_most_100 mdb base hp regionID maxTasks cp wp n calls n' os :
  NewComputeNode mdb base hp regionID maxTasks cp wp = Ok n → serve calls n = (n', os) →
  (successes os ≤ 100)%nat.
Proof.
  intros H0 Hs. unfold NewComputeNode in H0. destruct mdb as [[]| | |]; try done. injection H0 as <-.
  apply serve_queue in Hs; [|done|by vm_compute]. change (MaxTasks _) with 100 in Hs. simpl in Hs. lia.
Qed.

(** Nor could they run: the workers of the node are never registered. *)
Lemma node_task_not_enough_workers NewView now pick p t c :
  mu c = false → workers c = ∅ → 0 < MinWorkers (config c) → TaskRegionID t = "" →
  executeTask NewView now pick p t c = (c, Err ErrNotEnoughWorkers).
Proof.
  intros Hmu Hw Hmin Hr. unfold executeTask. rewrite Hr. simpl. unfold handleTask, with_mu_read. go_unfold. rewrite Hmu.
  assert (task_workers (WorkerIDs t) c = []) as ->.
  { unfold task_workers. rewrite Hw. induction (WorkerIDs t) as [|w l IH]; [done|]. rewrite filter_cons, lookup_empty.
    rewrite decide_False by (by intros []). done. }
  simpl. by rewrite (proj2 (Z.ltb_lt 0 _)).
Qed.

(** * What the clients make of an answer *)

(** An answer of a node has two attestations that the client of package [tee] can
    convert when their times print, and neither passes the core validation. *)
Lemma node_answer_convertible now r :
  printable (Timestamp (ER_Attestations r).1) = true → printable (Timestamp (ER_Attestations r).2) = true →
  convertible (convertToProtoResult now r) ∧
  ∀ a att, a ∈ RS_Attestations (convertToProtoResult now r) → protoToCoreAttestation a = Ok att →
    Attestation_Validate att ≠ Ok tt.
Proof.
  intros H1 H2. split.
  - eexists _, _. split; [reflexivity|]. cbn [AM_Timestamp unsigned_msg]. by rewrite !Parse_printed.
  - intros a att Ha Hc Hv. apply obind_ok in Hc as (t & _ & [= <-]).
    unfold Attestation_Validate in Hv. rewrite !verdict_then, !check_iff in Hv. destruct Hv as (_ & _ & _ & Hs).
    change (a ∈ [unsigned_msg (ER_Attestations r).1; unsigned_msg (ER_Attestations r).2]) in Ha.
    rewrite !elem_of_cons, elem_of_nil in Ha. by destruct Ha as [-> |[-> |[]]].
Qed.
End facts.

(** * Witnesses *)

#[local] Existing Instances channel_Json worker_Json canonical_MapRange.

Definition sample_rust : rustExecutionResult :=
  mkRustResult "hash" "out" (mkRustAttestation "SGX" "sgx-1" "m" 1700000000 "q" "",
    mkRustAttestation "SEV" "sev-1" "m" 1700000000 "q" "") "eu".
(** A decoder that reads every output as that result. *)
#[local] Instance rustResult_Json : Json rustExecutionResult :=
  {| Marshal _ := "{}"; Unmarshal s := if String.eqb s "" then Err (Errorf "unexpected end of JSON input") else Ok sample_rust |}.
Definition rust_host : Host := mkHost (Ok tt) (λ _, Ok tt) (λ _ _, Ok "{}") 0.
Definition sample_req : RequestMsg := mkRequestMsg "obj" "f" "p" "eu" false "".
Definition sample_node : ComputeNode (gmap string string) :=
  mkNode "eu" 2 0 (NewRustBridge "/ctl" "/wasm") (NewCoordinator (coordConfig "eu") ∅ sample_heap) ∅.
Definition sample_call : Call := mkCall rust_host (fromUnix 1) (fromUnix 1) (fromUnix 1) None false (Ok "key") sample_req.

Lemma task_slots_bounded_witness :
  cn_activeTasks sample_node ≤ 2.
Proof.
  apply (task_slots_bounded (B := gmap string string) (Ok tt) ∅ sample_heap "eu" 2 "/ctl" "/wasm" sample_node sample_node []);
    [reflexivity|lia|apply rtc_refl].
Defined.

Lemma Node_Execute_spec_witness :
  is_ok (Node_Execute rust_host (fromUnix 1) (fromUnix 1) (fromUnix 1) None false (Ok "key") sample_req sample_node).2 = true.
Proof.
  destruct (Node_Execute_spec rust_host (fromUnix 1) (fromUnix 1) (fromUnix 1) false "key" sample_req sample_node
    (convertToProtoResult (fromUnix 1) (mkResult "out" "hash" "eu"
       (convert_attestation rust_host (rr_Attestations sample_rust).1,
        convert_attestation rust_host (rr_Attestations sample_rust).2) None)))
    as [_ H]; [reflexivity|].
  rewrite H; [reflexivity|]. split; [split; [discriminate|]; split; [reflexivity|vm_compute; reflexivity]|].
  split; [split; vm_compute; reflexivity|]. eexists. split; reflexivity.
Defined.

Lemma node_answers_at_most_100_witness : (successes (serve [sample_call] sample_node).2 ≤ 100)%nat.
Proof.
  apply (node_answers_at_most_100 (Ok tt) ∅ sample_heap "eu" 2 "/ctl" "/wasm" sample_node [sample_call]
    (serve [sample_call] sample_node).1); [reflexivity|]. apply surjective_pairing.
Defined.
