(* ===== verification/Platform.v ===== *)
(** The small parts around the enclaves: the platforms and configurations of package
    [core] ([platform.go], [platform_sgx.go], [platform_sev.go], [config.go]), the
    configurations of [compute] and [tee], the connector's constructor and platform
    check ([rustconnector]), temporary files ([compute/service.go], [tee/bridge.go]),
    the server of a compute node and the validator program ([cmd/tee_validator]). *)

From S2P Require Import Prelude GoTime RFC3339 Float64 KV Core TimeServer RegionConfig TEE TEEFacts Compute.
From Stdlib Require Import ZArith Lia Ascii String.
From stdpp Require Import base tactics option list strings pretty gmap.

Local Open Scope Z_scope.

(** * Platforms *)

Definition PlatformTypeSGX : Z := 1.
Definition PlatformTypeSEV : Z := 2.

Record PlatformConfig : Type := mkPlatformConfig {
  pf_EnclaveType : Z;
  pf_TeeEndpoint : string;
  pf_AttestationKey : string;
  pf_Debug : bool;
}.
Definition core_DefaultConfig : PlatformConfig := mkPlatformConfig PlatformTypeSGX "" "" false.

(** The interface [Platform]. *)
Class Platform (P : Type) : Type := {
  Platform_Type : P → Z;
  Platform_Execute : P → string → string → outcome ExecutionResult;
  Platform_Verify : P → TEEAttestation → verdict;
  Platform_Close : P → verdict;
}.

(** The result [&ExecutionResult{}]. *)
Definition emptyResult : ExecutionResult := mkResult "" "" "" (zeroAttestation, zeroAttestation) None.

Record SGXPlatform : Type := mkSGX { sgx_config : PlatformConfig }.
Record SEVPlatform : Type := mkSEV { sev_config : PlatformConfig }.

Definition SGX_Type (p : SGXPlatform) : Z := PlatformTypeSGX.
Definition SGX_Execute (p : SGXPlatform) (code input : string) : outcome ExecutionResult := Ok emptyResult.
Definition SGX_Verify (p : SGXPlatform) (att : TEEAttestation) : verdict := Ok tt.
Definition SGX_Close (p : SGXPlatform) : verdict := Ok tt.
Definition SEV_Type (p : SEVPlatform) : Z := PlatformTypeSEV.
Definition SEV_Execute (p : SEVPlatform) (code input : string) : outcome ExecutionResult := Ok emptyResult.
Definition SEV_Verify (p : SEVPlatform) (att : TEEAttestation) : verdict := Ok tt.
Definition SEV_Close (p : SEVPlatform) : verdict := Ok tt.

#[export] Instance SGX_Platform : Platform SGXPlatform := {|
  Platform_Type := SGX_Type; Platform_Execute := SGX_Execute; Platform_Verify := SGX_Verify; Platform_Close := SGX_Close |}.
#[export] Instance SEV_Platform : Platform SEVPlatform := {|
  Platform_Type := SEV_Type; Platform_Execute := SEV_Execute; Platform_Verify := SEV_Verify; Platform_Close := SEV_Close |}.

Definition NewSGXPlatform (c : PlatformConfig) : outcome SGXPlatform := Ok (mkSGX c).
Definition NewSEVPlatform (c : PlatformConfig) : outcome SEVPlatform := Ok (mkSEV c).
Definition NewPlatform (pType : Z) (c : PlatformConfig) : outcome (SGXPlatform + SEVPlatform) :=
  if pType =? PlatformTypeSGX then p ← NewSGXPlatform c; Ok (inl p)
  else if pType =? PlatformTypeSEV then p ← NewSEVPlatform c; Ok (inr p)
  else Err (Errorf "unsupported platform type").

#[export] Instance any_Platform : Platform (SGXPlatform + SEVPlatform) := {|
  Platform_Type p := match p with inl p => Platform_Type p | inr p => Platform_Type p end;
  Platform_Execute p := match p with inl p => Platform_Execute p | inr p => Platform_Execute p end;
  Platform_Verify p := match p with inl p => Platform_Verify p | inr p => Platform_Verify p end;
  Platform_Close p := match p with inl p => Platform_Close p | inr p => Platform_Close p end |}.

(** * Configurations *)

Record ComputeConfig : Type := mkComputeConfig {
  kc_MaxTasks : Z;
  kc_TEEConfig : PlatformConfig;
  kc_RegionConfig : RegionConfig;
  kc_WasmPath : string;
  kc_ControllerPath : string;
  kc_Debug : bool;
  kc_RegionID : string;
}.

(** No database is set. *)
Definition compute_DefaultConfig : ComputeConfig :=
  mkComputeConfig 100 core_DefaultConfig
    (mkRegionConfig "" [] 1000 1000 (mkLB (f_lit 8 1) (f_of_Z 1000) (f_lit 1 2) 2 100 300 false f_zero)
       (mkGeo f_zero f_zero "" "" ""))
    "/usr/local/bin/tee-wasm-module.wasm" "/usr/local/bin/tee-controller" false "".

Record TEERegistry : Type := mkRegistry { tr_config : ComputeConfig }.
Definition NewTEERegistry (c : ComputeConfig) : TEERegistry := mkRegistry c.

Record TEEConfig : Type := mkTEEConfig { tc_SGXEndpoint : string; tc_SEVEndpoint : string; tc_RequireDualAttestation : bool }.
Definition tee_DefaultConfig : TEEConfig := mkTEEConfig "localhost:50051" "localhost:50052" true.

(** * The connector *)

Definition Connector_New (controllerPath wasmPath : string) (verbose : bool) : RustConnector :=
  mkConnector controllerPath wasmPath verbose.

Section connector.
Context (h : Host) `{!Json (bool * bool)}.

(** The controller's answer, as the two fields [sgx] and [sev]. *)
Definition VerifyPlatforms (rc : RustConnector) : outcome (bool * bool) :=
  output ← wrapped "platform verification failed" (h_Output h [rc_controllerPath rc; "verify-platforms"] "");
  wrapped "failed to parse platform info" (Unmarshal output).
End connector.

Definition Bridge_Close (rb : RustBridge) : verdict := Ok tt.

(** * Temporary files *)

(** The files by name; [name] is what [TempFile] makes, a name that is not in use, and
    [write] how writing ends. *)
Abbreviation Files := (gmap string string).

Definition createTempFile (name : outcome string) (write : verdict) (data : option string) : go Files string := λ fs,
  match name with
  | Ok path =>
      match data with
      | None => (<[path := ""]> fs, Ok path)
      | Some d =>
          match write with
          | Ok _ => (<[path := d]> fs, Ok path)
          | Err e => (delete path fs, Err e)
          | Panic w => (fs, Panic w)
          | Hang w => (fs, Hang w)
          end
      end
  | Err e => (fs, Err e)
  | Panic w => (fs, Panic w)
  | Hang w => (fs, Hang w)
  end.

Definition cleanupTempFile (f : option string) : go Files unit :=
  match f with None => mret tt | Some path => modify (delete path) end.

(** * The server of a compute node *)

(** [listen] and [serve] are how listening and serving end, [stopped] whether a signal
    cancelled the context before. *)
Definition Node_Start (listen serve : verdict) (stopped : bool) : verdict :=
  wrapped "failed to listen" listen ;;
  match serve with
  | Err e => if stopped then Ok tt else Err (Wrapf "failed to serve" e)
  | o => o
  end.

(** * The validator program *)

Record ValidatorRegion : Type := mkValidatorRegion { vg_ID : string; vg_SGX : string; vg_SEV : string }.

Section validator.
Context {Conn : Type} `{!Grpc Conn}.

(** The regions of the file are added, the program waits for a signal and closes the
    connections; [config] is the file read and parsed.  An error of a region is fatal;
    an error of closing is printed. *)
Definition validator_main (config : outcome (list ValidatorRegion)) : outcome (Validator Conn * verdict) :=
  match config with
  | Ok regions =>
      match for_each (λ r, Validator_AddRegion (vg_ID r) (vg_SGX r) (vg_SEV r)) regions NewValidator with
      | (v, Ok _) => Ok (v, Validator_Close v)
      | (_, _) => Panic "Failed to add region"
      end
  | _ => Panic "Failed to read config"
  end.
End validator.

(** * Properties *)

(** A platform of a type reports that type, executes nothing and accepts every
    attestation. *)
Lemma NewPlatform_spec t c :
  match NewPlatform t c with
  | Ok p => (t = PlatformTypeSGX ∨ t = PlatformTypeSEV) ∧ Platform_Type p = t ∧
      (∀ code input, Platform_Execute p code input = Ok emptyResult) ∧ ∀ att, Platform_Verify p att = Ok tt
  | Err _ => t ≠ PlatformTypeSGX ∧ t ≠ PlatformTypeSEV
  | _ => False
  end.
Proof.
  unfold NewPlatform. destruct (Z.eqb_spec t PlatformTypeSGX) as [->|H1]; [by repeat split; [left|..]|].
  destruct (Z.eqb_spec t PlatformTypeSEV) as [->|H2]; [by repeat split; [right|..]|]. by split.
Qed.

(** The default configuration of a compute node is not a valid region configuration. *)
Lemma compute_DefaultConfig_invalid `{!FmtV} : RegionConfig_Validate (kc_RegionConfig compute_DefaultConfig) = Err ErrIDRequired.
Proof. reflexivity. Qed.

(** A temporary file holds the data and its clean-up leaves the files as they were; a
    write that fails leaves nothing behind. *)
Lemma TempFile_cleanup name write data fs :
  (∀ path, name = Ok path → fs !! path = None) →
  match createTempFile name write data fs with
  | (fs', Ok path) => fs' !! path = Some (default "" data) ∧ (cleanupTempFile (Some path) fs').1 = fs
  | (fs', _) => fs' = fs
  end.
Proof.
  intros Hn. destruct name as [path|e|w|w]; simpl; [|done..]. specialize (Hn path eq_refl).
  destruct data as [d|]; simpl; [destruct write as [u|e|w|w]; simpl|];
    rewrite ?lookup_insert_eq, ?delete_insert_id by done; try done.
  by apply delete_id.
Qed.

Section validator_facts.
Context {Conn : Type} `{!Grpc Conn}.

(** The validator waits with the connections of exactly the regions of its
    configuration, those of the last entry of each. *)
Lemma validator_main_regions regions v c :
  validator_main (Conn := Conn) (Ok regions) = Ok (v, c) →
  ∀ r, is_Some (vl_regionTEEs v !! r) ↔ r ∈ vg_ID <$> regions.
Proof using Type.
  unfold validator_main. destruct (for_each _ regions NewValidator) as [v' [[]| | |]] eqn:E; try done. intros [= <- _].
  assert (∀ l (v0 v1 : Validator Conn), for_each (λ r, Validator_AddRegion (vg_ID r) (vg_SGX r) (vg_SEV r)) l v0 = (v1, Ok tt) →
    ∀ r, is_Some (vl_regionTEEs v1 !! r) ↔ is_Some (vl_regionTEEs v0 !! r) ∨ r ∈ vg_ID <$> l) as Hgen.
  { induction l as [|x l IH]; intros v0 v1 H r; simpl in H.
    - injection H as <-. rewrite elem_of_nil. naive_solver.
    - apply bind_ok_inv in H as ([] & v2 & H1 & H2). rewrite (IH _ _ H2).
      assert (∃ cs, vl_regionTEEs v2 = <[vg_ID x := cs]> (vl_regionTEEs v0)) as [cs ->].
      { unfold Validator_AddRegion in H1. apply bind_ok_inv in H1 as (c1 & ? & [-> _]%wrap_ok_inv%lift_ok_inv & H1).
        apply bind_ok_inv in H1 as ([] & ? & [= <-] & H1).
        apply bind_ok_inv in H1 as (c2 & ? & [-> _]%wrap_ok_inv%lift_ok_inv & H1).
        apply bind_ok_inv in H1 as ([] & ? & [= <-] & [= <-]). by eexists. }
      rewrite lookup_insert_is_Some, fmap_cons, elem_of_cons. destruct (decide (vg_ID x = r)); naive_solver. }
  intros r. rewrite (Hgen _ _ _ E). split; [|intros Hr; by right]. intros [Hn|Hr]; [by destruct (lookup_empty_is_Some r Hn)|done].
Qed.
End validator_facts.
