(* ===== verification/MerkleStorage.v ===== *)
(** Package [coordination], [storage.go]: the storage of coordination records over a
    Merkle database, and the JSON form of workers it reads back ([worker.go]).

    Channels and workers are shared by pointer: the cache holds addresses, of channels
    in the heap of [Worker.v] and of workers in a table of their own.  The cache's
    mutex is taken once per call. *)

From S2P Require Import Prelude GoTime KV Core Channel Worker Coordinator StateManager.
From Stdlib Require Import ZArith Lia Ascii String.
From stdpp Require Import base tactics option list strings pretty gmap.

Local Open Scope Z_scope.

Record MerkleStorage (M V : Type) : Type := mkMst {
  mst_db : M;
  mst_view : V;
  mst_channels : gmap string nat;
  mst_workers : gmap string nat;
  mst_heap : Heap;                 (* the channel objects *)
  mst_objs : gmap nat Worker;      (* the worker objects *)
}.
Arguments mkMst {_ _} _ _ _ _ _ _.
Arguments mst_db {_ _} _.
Arguments mst_view {_ _} _.
Arguments mst_channels {_ _} _.
Arguments mst_workers {_ _} _.
Arguments mst_heap {_ _} _.
Arguments mst_objs {_ _} _.

(** * Workers as JSON *)

(** The three codes [status_code] writes. *)
Definition status_of_code (z : Z) : WorkerStatus :=
  if z =? 0 then WorkerStatusIdle else if z =? 1 then WorkerStatusActive else WorkerStatusError.

(** Decoding makes a new object for every channel of the worker. *)
Fixpoint alloc_channels (l : list (string * channel_alias)) : go Heap (gmap string nat) :=
  match l with
  | [] => mret ∅
  | (k, (w1, w2, key, enc)) :: l' =>
      p ← alloc (mkChannel w1 w2 key enc [] false);
      m ← alloc_channels l';
      mret (<[k := p]> m)
  end.

Definition Worker_UnmarshalJSON `{!Json worker_alias} (data : string) : go Heap Worker :=
  aux ← lift (Unmarshal data);
  let '(id, enclaveID, status, chs) := aux in
  ptrs ← alloc_channels (map_to_list chs);
  mret (mkWorker id enclaveID (status_of_code status) "" "" ptrs zeroTime 0 0 0 Float64.f_zero (Some []) SigOpen).

Section storage.
Context {M V : Type} `{!MerkleViews M V}.
Context `{!Json channel_alias, !Json worker_alias}.
Abbreviation Mst := (MerkleStorage M V).
Implicit Types (s : Mst).

Definition set_mst_view (v : V) s : Mst :=
  mkMst (mst_db s) v (mst_channels s) (mst_workers s) (mst_heap s) (mst_objs s).
Definition set_mst_channels cs s : Mst :=
  mkMst (mst_db s) (mst_view s) cs (mst_workers s) (mst_heap s) (mst_objs s).
Definition set_mst_workers ws s : Mst :=
  mkMst (mst_db s) (mst_view s) (mst_channels s) ws (mst_heap s) (mst_objs s).
Definition set_mst_heap h s : Mst :=
  mkMst (mst_db s) (mst_view s) (mst_channels s) (mst_workers s) h (mst_objs s).
Definition set_mst_objs o s : Mst :=
  mkMst (mst_db s) (mst_view s) (mst_channels s) (mst_workers s) (mst_heap s) o.

Definition NewStorage (db : M) (h : Heap) (objs : gmap nat Worker) : outcome Mst :=
  view ← mdb_NewView [] db;
  Ok (mkMst db view ∅ ∅ h objs).

(** Every change makes a new view of the database, not of the current view, and is
    never committed. *)
Definition mst_NewView (changes : list (string * option string)) : go Mst unit :=
  db ← gets mst_db;
  newView ← lift (mdb_NewView changes db);
  modify (set_mst_view newView).

Definition mst_Put (key value : string) : go Mst unit := mst_NewView [(key, Some value)].
Definition mst_Get (key : string) : go Mst string := λ s, (s, view_GetValue key (mst_view s)).
Definition mst_Delete (key : string) : go Mst unit := mst_NewView [(key, None)].

(** ** Records *)

Definition mst_load {R} `{!Json R} (key : string) : go Mst R :=
  data ← mst_Get key;
  lift (Unmarshal data).

Definition mst_SaveRegion {R} `{!Json R} (ID : string) (region : R) : go Mst unit :=
  mst_Put ("region:" +s+ ID) (Marshal region).
Definition mst_LoadRegion {R} `{!Json R} (id : string) : go Mst R := mst_load ("region:" +s+ id).
Definition mst_DeleteRegion (id : string) : go Mst unit := mst_Delete ("region:" +s+ id).

Definition mst_SaveTEEPairInfo {R} `{!Json R} (ID : string) (info : R) : go Mst unit :=
  mst_Put ("tee:pair:" +s+ ID) (Marshal info).
Definition mst_GetTEEPairInfo {R} `{!Json R} (pairID : string) : go Mst R := mst_load ("tee:pair:" +s+ pairID).
(** The source's stub. *)
Definition mst_ListTEEPairInfo {R} : go Mst (list R) := mret [].

Definition mst_SaveTEEMetrics {R} `{!Json R} (pairID : string) (metrics : R) : go Mst unit :=
  mst_Put ("tee:metrics:" +s+ pairID) (Marshal metrics).
Definition mst_GetTEEMetrics {R} `{!Json R} (pairID : string) : go Mst R := mst_load ("tee:metrics:" +s+ pairID).

Definition mst_SaveCoordinatorState {R} `{!Json R} (state : R) : go Mst unit :=
  mst_Put "coordinator:state" (Marshal state).
Definition mst_LoadCoordinatorState {R} `{!Json R} : go Mst R := mst_load "coordinator:state".

(** ** Channels and workers, with their cache *)

Definition on_mst_heap {A} (m : go Heap A) : go Mst A := zoom mst_heap set_mst_heap m.

(** [channel] is a pointer. *)
Definition mst_SaveChannel (channel : nat) : go Mst unit :=
  ch ← gets (λ s, cells (mst_heap s) !! channel);
  match ch with
  | None => gopanic "invalid memory address or nil pointer dereference"
  | Some ch =>
      let key := makeChannelKey (Worker1 ch) (Worker2 ch) in
      modify (λ s, set_mst_channels (<[key := channel]> (mst_channels s)) s) ;;
      mst_Put key (Channel_MarshalJSON ch)
  end.

Definition mst_LoadChannel (worker1 worker2 : string) : go Mst nat :=
  let key := makeChannelKey worker1 worker2 in
  hit ← gets (λ s, mst_channels s !! key);
  match hit with
  | Some p => mret p
  | None =>
      data ← mst_Get key;
      ch ← lift (Channel_UnmarshalJSON data);
      p ← on_mst_heap (alloc ch);
      modify (λ s, set_mst_channels (<[key := p]> (mst_channels s)) s) ;;
      mret p
  end.

Definition mst_DeleteChannel (worker1 worker2 : string) : go Mst unit :=
  let key := makeChannelKey worker1 worker2 in
  modify (λ s, set_mst_channels (delete key (mst_channels s)) s) ;;
  mst_Delete key.

(** A worker's key is its bare id. *)
Definition mst_SaveWorker (worker : nat) : go Mst unit :=
  w ← gets (λ s, mst_objs s !! worker);
  match w with
  | None => gopanic "invalid memory address or nil pointer dereference"
  | Some w =>
      modify (λ s, set_mst_workers (<[ID w := worker]> (mst_workers s)) s) ;;
      h ← gets mst_heap;
      mst_Put (ID w) (Worker_MarshalJSON h w)
  end.

Definition alloc_worker (w : Worker) : go Mst nat := λ s,
  let p := fresh (dom (mst_objs s)) in (set_mst_objs (<[p := w]> (mst_objs s)) s, Ok p).

Definition mst_LoadWorker (id : string) : go Mst nat :=
  hit ← gets (λ s, mst_workers s !! id);
  match hit with
  | Some p => mret p
  | None =>
      data ← mst_Get id;
      w ← on_mst_heap (Worker_UnmarshalJSON data);
      p ← alloc_worker w;
      modify (λ s, set_mst_workers (<[id := p]> (mst_workers s)) s) ;;
      mret p
  end.

Definition mst_DeleteWorker (id : string) : go Mst unit :=
  modify (λ s, set_mst_workers (delete id (mst_workers s)) s) ;;
  mst_Delete id.

Definition mst_Close : go Mst unit := mret tt.
End storage.

(** * What it keeps *)

Section laws.
Context {M V : Type} `{!MerkleViews M V, !Mutable M, !KVLaws M, !MerkleViewsLaws M V}.
Context `{!Json channel_alias, !Json worker_alias}.
Abbreviation Mst := (MerkleStorage M V).
Implicit Types (s : Mst).

Lemma mst_NewView_run ch s :
  ∃ v, mst_NewView ch s = (set_mst_view v s, Ok tt) ∧ view_contents v = apply_changes ch (contents (mst_db s)).
Proof.
  destruct (mdb_NewView_ok ch (mst_db s)) as (v & Hv & Hc). exists v. split; [|done].
  unfold mst_NewView. go_unfold. by rewrite Hv.
Qed.

(** The entries of a storage's current view. *)
Definition entries s : gmap string string := view_contents (mst_view s).

(** An operation keeps the database and either leaves the entries alone or makes them
    those of the database with one change. *)
Definition rebuilt s s' : Prop :=
  mst_db s' = mst_db s ∧
  (entries s' = entries s ∨
   ∃ ch, (length ch ≤ 1)%nat ∧ entries s' = apply_changes ch (contents (mst_db s))).

#[local] Instance rebuilt_preorder : PreOrder rebuilt.
Proof.
  split; [intros s; split; [done|by left]|].
  intros s1 s2 s3 [Hd1 H1] [Hd2 H2]. split; [congruence|]. destruct H2 as [-> |(ch & Hl & ->)]; [exact H1|].
  right. exists ch. by rewrite Hd1.
Qed.

Lemma rebuilt_change k v : preserves rebuilt (mst_NewView [(k, v)]).
Proof.
  intros s. destruct (mst_NewView_run [(k, v)] s) as (w & -> & Hw). split; [done|]. right.
  exists [(k, v)]. split; [simpl; lia|exact Hw].
Qed.

Lemma rebuilt_on_heap {A} (m : go Heap A) : preserves rebuilt (on_mst_heap m).
Proof. intros s. unfold on_mst_heap, zoom. destruct (m (mst_heap s)). split; [done|by left]. Qed.

Lemma rebuilt_alloc_worker w : preserves rebuilt (alloc_worker w).
Proof. intros s. split; [done|by left]. Qed.

Lemma rebuilt_Get k : preserves rebuilt (mst_Get k).
Proof. intros s. split; [done|by left]. Qed.

#[local] Hint Resolve rebuilt_change rebuilt_on_heap rebuilt_alloc_worker rebuilt_Get : pres_db.

(** The operations of the storage. *)
Inductive mst_step : relation Mst :=
  | st_Put k v s : mst_step s (mst_Put k v s).1
  | st_Delete k s : mst_step s (mst_Delete k s).1
  | st_SaveChannel p s : mst_step s (mst_SaveChannel p s).1
  | st_LoadChannel w1 w2 s : mst_step s (mst_LoadChannel w1 w2 s).1
  | st_DeleteChannel w1 w2 s : mst_step s (mst_DeleteChannel w1 w2 s).1
  | st_SaveWorker p s : mst_step s (mst_SaveWorker p s).1
  | st_LoadWorker id s : mst_step s (mst_LoadWorker id s).1
  | st_DeleteWorker id s : mst_step s (mst_DeleteWorker id s).1
  (** what the callers do to the channels and workers they share *)
  | st_heap h s : mst_step s (set_mst_heap h s)
  | st_objs o s : mst_step s (set_mst_objs o s).

Lemma mst_step_rebuilt s s' : mst_step s s' → rebuilt s s'.
Proof.
  assert (∀ s h, rebuilt s (set_mst_heap h s)) as Hheap by (intros; split; [done|by left]).
  assert (∀ s o, rebuilt s (set_mst_objs o s)) as Hobjs by (intros; split; [done|by left]).
  intros []; [..|done|done];
    match goal with |- rebuilt ?s0 (?m ?s0).1 => enough (preserves rebuilt m) as Hm by apply Hm end;
    unfold mst_Put, mst_Delete, mst_SaveChannel, mst_LoadChannel, mst_DeleteChannel, mst_SaveWorker, mst_LoadWorker,
      mst_DeleteWorker, mst_Put, mst_Delete; cbv zeta; solve_preserves ltac:(split; [done|by left]).
Qed.

(** Over any sequence of operations on a new storage the database is never
    written, and what the storage shows is the database with at most one change: of
    all the records saved only the last is there, and a new storage over the same
    database shows none. *)
Theorem merkle_storage_one_change db h objs s0 s :
  NewStorage db h objs = Ok s0 → rtc mst_step s0 s →
  mst_db s = db ∧
  (∃ ch, (length ch ≤ 1)%nat ∧ entries s = apply_changes ch (contents db)) ∧
  ∀ h' objs', ∃ s1, NewStorage (mst_db s) h' objs' = Ok s1 ∧ entries s1 = contents db.
Proof.
  intros H0 Hsteps. unfold NewStorage in H0. destruct (mdb_NewView_ok [] db) as (v & Hv & Hc). rewrite Hv in H0.
  injection H0 as <-. assert (rebuilt (mkMst db v ∅ ∅ h objs) s) as [Hd He].
  { induction Hsteps as [|x y z Hxy _ IH]; [done|]. etrans; [by apply mst_step_rebuilt|done]. }
  simpl in Hd, He. split; [done|]. split.
  - destruct He as [-> |He]; [|exact He]. exists []. split; [simpl; lia|exact Hc].
  - intros h' objs'. unfold NewStorage. rewrite Hd, Hv. eexists. split; [reflexivity|exact Hc].
Qed.

Lemma mst_Get_run k s :
  mst_Get k s = (s, match entries s !! k with Some x => Ok x | None => Err ErrNotFound end).
Proof. unfold mst_Get. by rewrite view_GetValue_contents. Qed.

(** A region is read back until the next record is saved, which replaces it. *)
Lemma mst_region_forgotten {R} `{!Json R, !Encodable R, !JsonLaws R} a b (ra rb : R) s :
  encodable ra = true → encodable rb = true → a ≠ b → contents (mst_db s) !! ("region:" +s+ a) = None →
  ∃ s1 s2, mst_SaveRegion a ra s = (s1, Ok tt) ∧ mst_LoadRegion a s1 = (s1, Ok ra) ∧
    mst_SaveRegion b rb s1 = (s2, Ok tt) ∧ mst_LoadRegion b s2 = (s2, Ok rb) ∧
    (mst_LoadRegion a s2 : _ * outcome R) = (s2, Err ErrNotFound).
Proof.
  intros Ha Hb Hab Hnone. unfold mst_SaveRegion, mst_LoadRegion, mst_load, mst_Put.
  destruct (mst_NewView_run [("region:" +s+ a, Some (Marshal ra))] s) as (v1 & H1 & Hc1).
  destruct (mst_NewView_run [("region:" +s+ b, Some (Marshal rb))] (set_mst_view v1 s)) as (v2 & H2 & Hc2).
  exists (set_mst_view v1 s), (set_mst_view v2 (set_mst_view v1 s)). unfold apply_changes in Hc1, Hc2. cbn [foldl mst_db set_mst_view] in Hc1, Hc2.
  split; [done|]. split; [|split; [done|split]].
  - unfold mbind, go_bind. rewrite mst_Get_run. unfold entries. cbn [mst_view set_mst_view]. rewrite Hc1, lookup_insert_eq.
    unfold lift. by rewrite Unmarshal_Marshal.
  - unfold mbind, go_bind. rewrite mst_Get_run. unfold entries. cbn [mst_view set_mst_view]. rewrite Hc2, lookup_insert_eq.
    unfold lift. by rewrite Unmarshal_Marshal.
  - unfold mbind, go_bind. rewrite mst_Get_run. unfold entries. cbn [mst_view set_mst_view]. rewrite Hc2, lookup_insert_ne, Hnone; [done|].
    by intros ?%app_inj_l_str.
Qed.
End laws.

(** * Witnesses *)

#[local] Instance mst_views : MerkleViews (gmap string string) (gmap string string) := {
  mdb_NewView ch m := Ok (apply_changes ch m);
  view_GetValue k v := match v !! k with Some x => Ok x | None => Err ErrNotFound end;
  view_GetMerkleRoot v := Ok "root" }.
#[local] Instance mst_views_laws : MerkleViewsLaws (gmap string string) (gmap string string).
Proof. refine {| view_contents v := v |}; [done|]. intros ch m. by exists (apply_changes ch m). Defined.
#[local] Instance mst_channel_Json : Json channel_alias := countable_Json channel_alias.
#[local] Instance mst_worker_Json : Json worker_alias := countable_Json worker_alias.

Definition empty_storage : MerkleStorage (gmap string string) (gmap string string) :=
  mkMst ∅ ∅ ∅ ∅ sample_heap ∅.

Lemma merkle_storage_one_change_witness :
  mst_db (mst_Put "b" "2" (mst_Put "a" "1" empty_storage).1).1 = ∅.
Proof.
  apply (merkle_storage_one_change (∅ : gmap string string) sample_heap ∅ empty_storage).
  - reflexivity.
  - eapply rtc_l; [apply st_Put|]. eapply rtc_l; [apply st_Put|]. apply rtc_refl.
Defined.

Example saved_then_lost :
  (mst_Get "a" (mst_Put "b" "2" (mst_Put "a" "1" empty_storage).1).1).2 = Err ErrNotFound.
Proof. vm_compute. reflexivity. Qed.
