(* ===== verification/WorkerRecords.v ===== *)
(** Stored workers: [LoadWorker] of [coordination/storage_wrapper.go] against the
    [SaveWorker] of [Coordinator.v], over the JSON form of [MerkleStorage.v]. *)

From S2P Require Import Prelude GoTime Float64 KV Core Channel Worker Coordinator CoordinatorFacts StateManager MerkleStorage.
From Stdlib Require Import ZArith Lia Ascii String.
From stdpp Require Import base tactics option list strings pretty gmap.

Local Open Scope Z_scope.

Section load.
Context {B : Type} `{!BaseStore B}.
Context `{!Json channel_alias, !Json worker_alias}.

Definition LoadWorker (id : string) : go (Coordinator B) Worker :=
  data ← Coordinator.on_store (sw_Get (workerPrefix +s+ id));
  worker ← wrap "failed to unmarshal worker" (on_heap_of (Worker_UnmarshalJSON data));
  mret (Worker.set_done SigOpen (set_mailbox (Some []) worker)).
End load.

(** * Properties *)

Definition channel_of (f : channel_alias) : SecureChannel := let '(w1, w2, key, enc) := f in mkChannel w1 w2 key enc [] false.

Lemma alloc_wf ch h : heap_wf h → heap_wf (alloc ch h).1.
Proof.
  intros Hw p [x Hp]. simpl in *. destruct (decide (p = next_cell h)) as [->|Hne]; [lia|].
  rewrite lookup_insert_ne in Hp by done. specialize (Hw p (ex_intro _ x Hp)). lia.
Qed.

Lemma alloc_grows ch h : heap_wf h → cells h ⊆ cells (alloc ch h).1.
Proof. intros Hw. by apply insert_subseteq, lookup_next_cell. Qed.

(** Decoding makes, for every name, an object that was not there, and touches no other. *)
Lemma alloc_channels_run l h :
  heap_wf h → NoDup l.*1 →
  ∃ h' m, alloc_channels l h = (h', Ok m) ∧ heap_wf h' ∧ cells h ⊆ cells h' ∧
    (∀ k, k ∉ l.*1 → m !! k = None) ∧
    ∀ k f, (k, f) ∈ l → ∃ q, m !! k = Some q ∧ cells h !! q = None ∧ cells h' !! q = Some (channel_of f).
Proof.
  revert h. induction l as [|[k0 [[[w1 w2] key] enc]] l IH]; intros h Hw Hnd.
  - exists h, ∅. split; [done|]. split; [done|]. split; [done|]. split; [done|]. by intros k f ?%elem_of_nil.
  - rewrite fmap_cons in Hnd. apply NoDup_cons in Hnd as [Hk0 Hnd].
    set (ch := mkChannel w1 w2 key enc [] false).
    destruct (IH (alloc ch h).1 (alloc_wf ch h Hw) Hnd) as (h' & m & E & Hw' & Hsub & Hout & Hin).
    pose proof (alloc_grows ch h Hw) as Hg.
    exists h', (<[k0 := next_cell h]> m). split; [|split; [done|split; [by etrans|split]]].
    + cbn [alloc_channels]. rewrite (bind_ok _ _ _ (alloc ch h).1 (next_cell h)) by done.
      by rewrite (bind_ok _ _ _ _ _ E).
    + intros k Hk. rewrite fmap_cons, not_elem_of_cons in Hk. destruct Hk as [Hk Hl]. simpl in Hk.
      rewrite lookup_insert_ne by congruence. by apply Hout.
    + intros k f [[= -> ->]|Hl]%elem_of_cons.
      * exists (next_cell h). rewrite lookup_insert_eq. split; [done|]. split; [by apply lookup_next_cell|].
        eapply lookup_weaken, Hsub. apply lookup_insert_eq.
      * assert (k ≠ k0) as Hne. { intros ->. apply Hk0. apply list_elem_of_fmap. by exists (k0, f). }
        destruct (Hin k f Hl) as (q & Hq & Hn & Hc). exists q. rewrite lookup_insert_ne by done.
        split; [done|]. split; [|done]. by eapply lookup_weaken_None.
Qed.

Section roundtrip.
Context {B : Type} `{!BaseStore B} (nf : goerr) `{BL : !BaseStoreLaws B nf}.
Context `{!Json channel_alias, !Json worker_alias, WL : !JsonLaws worker_alias}.
Implicit Types (c : Coordinator B).

Lemma status_of_code_inv st : status_of_code (status_code st) = st.
Proof using Type. by destruct st. Qed.

(** The strings of a stored worker: its id, and for each channel its peer and both ends. *)
Definition names_utf8 (h : Heap) (w : Worker) : Prop :=
  utf8 (ID w) = true ∧
  ∀ k p, Channels w !! k = Some p → utf8 k = true ∧ ∀ ch, cells h !! p = Some ch → ends_utf8 ch = true.

Lemma worker_encodable h w :
  names_utf8 h w → encodable (ID w, WEnclaveID w, status_code (WStatus w), omap (channel_fields h) (Channels w)) = true.
Proof using Type.
  intros [Hid Hch]. unfold encodable, worker_Encodable. rewrite Hid. simpl.
  apply andb_true_iff. split; apply forallb_forall; intros x Hx%list_elem_of_In; apply list_elem_of_fmap in Hx as ([k f] & -> & Hk);
    apply elem_of_map_to_list in Hk; rewrite lookup_omap in Hk; destruct (Channels w !! k) as [p|] eqn:Ep; try done; simpl in *;
    destruct (Hch k p Ep) as [Hk' He]; [done|].
  unfold channel_fields in Hk. destruct (cells h !! p) as [ch|]; simplify_eq/=. by apply He.
Qed.

(** C33: a stored worker whose ids are UTF-8 is loaded with its id, enclave and status, idle mailbox and stop
    signal, and with an object of its own for every channel it had: the same ends and key,
    no messages, shared with nobody.  Its type, region and counters are not stored. *)
Theorem SaveWorker_LoadWorker w c :
  heap_wf (heap c) → names_utf8 (heap c) w →
  ∃ c1 c2 w', SaveWorker w c = (c1, Ok tt) ∧ LoadWorker (ID w) c1 = (c2, Ok w') ∧
    w' = mkWorker (ID w) (WEnclaveID w) (WStatus w) "" "" (Channels w') zeroTime 0 0 0 f_zero (Some []) SigOpen ∧
    cells (heap c) ⊆ cells (heap c2) ∧
    (∀ k, Channels w !! k = None → Channels w' !! k = None) ∧
    (∀ k p ch, Channels w !! k = Some p → cells (heap c) !! p = Some ch →
       ∃ q, Channels w' !! k = Some q ∧ cells (heap c) !! q = None ∧
         cells (heap c2) !! q = Some (mkChannel (Worker1 ch) (Worker2 ch) (Key ch) (Encrypted ch) [] false)).
Proof using BL WL.
  intros Hw Hnames.
  destruct (bs_Put_run (workerPrefix +s+ ID w) (Worker_MarshalJSON (heap c) w) (store c)) as (b' & E & C).
  set (chs := omap (channel_fields (heap c)) (Channels w)).
  destruct (alloc_channels_run (map_to_list chs) (heap c) Hw (NoDup_fst_map_to_list chs)) as (h' & m & A & _ & Hsub & Hout & Hin).
  exists (set_store b' c), (set_heap h' (set_store b' c)),
    (mkWorker (ID w) (WEnclaveID w) (WStatus w) "" "" m zeroTime 0 0 0 f_zero (Some []) SigOpen).
  split; [unfold SaveWorker, Coordinator.on_store, zoom, sw_Put; by rewrite E|]. split.
  { unfold LoadWorker. rewrite (bind_ok _ _ _ (set_store b' c) (Worker_MarshalJSON (heap c) w)).
    2:{ unfold Coordinator.on_store, zoom, sw_Get. simpl. rewrite bs_Get_contents, C, lookup_insert_eq. by destruct c. }
    rewrite (bind_ok _ _ _ (set_heap h' (set_store b' c))
      (mkWorker (ID w) (WEnclaveID w) (WStatus w) "" "" m zeroTime 0 0 0 f_zero (Some []) SigOpen)); [done|].
    assert (Worker_UnmarshalJSON (Worker_MarshalJSON (heap c) w) (heap c) =
      (h', Ok (mkWorker (ID w) (WEnclaveID w) (WStatus w) "" "" m zeroTime 0 0 0 f_zero (Some []) SigOpen))) as EU.
    { unfold Worker_UnmarshalJSON, Worker_MarshalJSON. rewrite Unmarshal_Marshal by (by apply worker_encodable).
      rewrite (bind_ok _ _ _ (heap c) _ eq_refl). cbv iota beta. rewrite (bind_ok _ _ _ _ _ A). by rewrite status_of_code_inv. }
    unfold wrap, on_heap_of, zoom. simpl. by rewrite EU. }
  split; [done|]. split; [done|]. split.
  - intros k Hk. apply Hout. intros ([k' f] & -> & Hl)%list_elem_of_fmap. apply elem_of_map_to_list in Hl.
    simpl in Hk. unfold chs in Hl. by rewrite lookup_omap, Hk in Hl.
  - intros k p ch Hk Hc. destruct (Hin k (Worker1 ch, Worker2 ch, Key ch, Encrypted ch)) as (q & Hq & Hn & Hq').
    + apply elem_of_map_to_list. unfold chs. rewrite lookup_omap, Hk. simpl. unfold channel_fields. by rewrite Hc.
    + by exists q.
Qed.
End roundtrip.

(** * Witness *)

#[local] Instance rec_PrefixIter : PrefixIter (gmap string string) := {
  iter_prefix p m := filter (λ kv, String.prefix p kv.1 = true) (map_to_list m);
}.
#[local] Instance rec_channel_Json : Json channel_alias := countable_Json channel_alias.
#[local] Instance rec_worker_Json : Json worker_alias := countable_Json worker_alias.
#[local] Instance rec_worker_JsonLaws : JsonLaws worker_alias := countable_JsonLaws worker_alias.

(** A worker with one channel, in which a message waits. *)
Definition busy_channel : SecureChannel := mkChannel "w1" "w2" "k" true ["pending"] false.
Definition busy_coord : Coordinator (gmap string string) :=
  NewCoordinator DefaultConfig ∅ (mkHeap {[0%nat := busy_channel]} 1 (λ n, Ok (pretty n)) 0).
Definition busy_worker : Worker := set_channels {["w2" := 0%nat]} (NewWorker sample_now "w1" "e1" "sgx").

Lemma SaveWorker_LoadWorker_witness :
  ∃ c1 c2 w' q, SaveWorker busy_worker busy_coord = (c1, Ok tt) ∧ LoadWorker "w1" c1 = (c2, Ok w') ∧
    WStatus w' = WorkerStatusIdle ∧ Channels w' !! "w2" = Some q ∧ q ≠ 0%nat ∧
    cells (heap c2) !! q = Some (mkChannel "w1" "w2" "k" true [] false).
Proof.
  destruct (SaveWorker_LoadWorker ErrNotFound busy_worker busy_coord) as (c1 & c2 & w' & E1 & E2 & Hw & _ & _ & Hch).
  - intros p Hp. cbn in Hp. apply lookup_singleton_is_Some in Hp as <-. vm_compute. lia.
  - split; [reflexivity|]. intros k p Hk. change (Channels busy_worker) with ({["w2" := 0%nat]} : gmap string nat) in Hk.
    apply lookup_singleton_Some in Hk as [<- <-]. split; [reflexivity|]. intros ch Hc. vm_compute in Hc.
    injection Hc as <-. reflexivity.
  - destruct (Hch "w2" 0%nat busy_channel) as (q & Hq & Hn & Hc); [reflexivity..|].
    exists c1, c2, w', q. split; [exact E1|]. split; [exact E2|]. split; [rewrite Hw; reflexivity|]. split; [exact Hq|].
    split; [|exact Hc]. intros ->. vm_compute in Hn. discriminate Hn.
Defined.
