(* ===== verification/VMCore.v ===== *)
(** Package [vm], [core.go] and [vm.go]: the VM object, its transaction validation, the
    execution of actions in the enclaves of a region, the health monitor, and the
    set-up of regions, composed of the components modelled in the other files.

    The clock readings of a call are arguments.  The two enclaves run in parallel and
    note their times under the region manager's lock, in either order.  The loop of
    the monitor is its single tick; handlers that only answer HTTP requests are not
    modelled. *)

From S2P Require Import Prelude GoTime RFC3339 Float64 KV Core Channel Worker Coordinator CoordinatorFacts CoordinatorState Storage Actions TimeServer.
From S2P Require Import Verifier RangeState RegionConfig Balancer RegionManager CodeValidator TEE Compute.
From Stdlib Require Import ZArith Lia Ascii String.
From stdpp Require Import base tactics option list strings pretty gmap.

Local Open Scope Z_scope.

(** [compute.ExecutionResult]. *)
Record RegionResult : Type := mkRegionResult {
  RX_StateHash : string;
  RX_Output : string;
  RX_Attestations : TEEAttestation * TEEAttestation;
  RX_Timestamp : string;
  RX_ID : string;
  RX_RegionID : string;
}.

Record ShuttleVM (Conn St B S : Type) : Type := mkVM {
  vm_VerificationOnly : bool;
  vm_Regions : list string;                        (* the ids of the configured regions *)
  vm_state : S;                                    (* what the verifier reads *)
  vm_computeNodes : gmap string (NodeClient Conn);
  vm_codeValidator : CodeValidator;
  vm_teeValidator : Validator Conn;
  vm_validators : gset string;                     (* the regions with a validator *)
  vm_regionManager : RegionManager St;
  vm_coordinator : Coordinator B;
}.
Arguments mkVM {_ _ _ _} _ _ _ _ _ _ _ _ _.
Arguments vm_VerificationOnly {_ _ _ _} _.
Arguments vm_Regions {_ _ _ _} _.
Arguments vm_state {_ _ _ _} _.
Arguments vm_computeNodes {_ _ _ _} _.
Arguments vm_codeValidator {_ _ _ _} _.
Arguments vm_teeValidator {_ _ _ _} _.
Arguments vm_validators {_ _ _ _} _.
Arguments vm_regionManager {_ _ _ _} _.
Arguments vm_coordinator {_ _ _ _} _.

(** * Attestations of a transaction *)

(** The measurements the VM expects, both empty byte slices, and its stubs for the
    signatures. *)
Definition verifySGXSignature (enclaveID data signature : string) : verdict := Ok tt.
Definition verifySEVSignature (enclaveID data signature : string) : verdict := Ok tt.

Definition verifySGXAttestation (att : TEEAttestation) : verdict :=
  check (negb (bool_decide (Measurement att = ""))) (Errorf "invalid SGX enclave measurement") ;;
  wrapped "invalid SGX signature" (verifySGXSignature (EnclaveID att) (Data att) (Signature att)).

Definition verifySEVAttestation (att : TEEAttestation) : verdict :=
  check (negb (bool_decide (Measurement att = ""))) (Errorf "invalid SEV measurement") ;;
  wrapped "invalid SEV signature" (verifySEVSignature (EnclaveID att) (Data att) (Signature att)).

Definition verifyTEEExecution (now : Time) (stateHash : string) (atts : TEEAttestation * TEEAttestation) : verdict :=
  check (negb (TimeEqual (Timestamp atts.1) (Timestamp atts.2))) (Errorf "attestation timestamps do not match") ;;
  check (outside_window now (Timestamp atts.1) (5 * Minute))
    (Errorf "attestation timestamp outside acceptable range") ;;
  wrapped "SGX attestation verification failed" (verifySGXAttestation atts.1) ;;
  wrapped "SEV attestation verification failed" (verifySEVAttestation atts.2) ;;
  check (negb (bool_decide (Data atts.1 = Data atts.2))) (Errorf "attestation data mismatch between SGX and SEV") ;;
  check (negb (bool_decide (stateHash = Data atts.1)) || negb (bool_decide (stateHash = Data atts.2)))
    (Errorf "state hash mismatch with attestation data").

(** * Requests and metrics *)

Definition getActionID (action : Action) : string :=
  match action with
  | ActSendEvent a => SEv_IDTo a
  | ActCreateObject a => CO_ID a
  | _ => ""
  end.
Definition getActionFunction (action : Action) : string :=
  match action with ActSendEvent a => SEv_FunctionCall a | _ => "" end.
Definition getActionParameters (action : Action) : string :=
  match action with
  | ActSendEvent a => SEv_Parameters a
  | ActCreateObject a => CO_Code a
  | _ => ""
  end.

(** The request of an action, or that its type is not supported. *)
Definition region_request (regionID : string) (action : Action) : outcome RequestMsg :=
  match action with
  | ActSendEvent a => Ok (mkRequestMsg (SEv_IDTo a) (SEv_FunctionCall a) (SEv_Parameters a) regionID true "")
  | ActCreateObject a => Ok (mkRequestMsg (CO_ID a) "" (CO_Code a) regionID true "")
  | _ => Err (Errorf "unsupported action type")
  end.

Definition mustParseTime (ts : string) : outcome Time :=
  match Parse ts with
  | Ok t => Ok t
  | Err _ => Panic "invalid timestamp format"
  | Panic w => Panic w
  | Hang w => Hang w
  end.

(** The first attestation of an answer, without its signature. *)
Definition timed_attestation (r : ResultMsg) : outcome TEEAttestation :=
  match RS_Attestations r with
  | [] => Panic "index out of range"
  | a :: _ =>
      t ← mustParseTime (AM_Timestamp a);
      Ok (mkAttestation (AM_EnclaveId a) (AM_Measurement a) t (AM_Data a) "" (AM_RegionProof a))
  end.

(** [execTime.Milliseconds()], at most 1 as a share of a second. *)
Definition vm_calculateLoadFactor (execTime : Z) : float64 :=
  let x := f_div (f_of_Z (Z.quot execTime Millisecond)) (f_of_Z 1000) in
  if f_lt f_one x then f_one else x.

(** The placeholders of the source. *)
Definition getCPUUsage (sgx sev : ResultMsg) : float64 := f_zero.
Definition getMemoryUsage (sgx sev : ResultMsg) : float64 := f_zero.
Definition getAverageLatency (sgx sev : ResultMsg) : float64 := f_zero.

Definition vm_isPairHealthy (now : Time) (m : TEEPairMetrics) : bool :=
  f_le (f_lit 95 2) (pm_SuccessRate m) && f_lt (pm_LoadFactor m) (f_lit 8 1) &&
  (Since now (pm_LastHealthy m) <? 5 * Minute).

(** What an enclave that ran does to the metrics of its pair. *)
Definition ran (now : Time) (pairID : string) (took : Z) (m : TEEPairMetrics) : TEEPairMetrics :=
  mkTPM f_one (pm_AverageLatency m) (pm_ErrorRate m) (pm_TasksProcessed m) now (pm_LoadFactor m) took pairID
    (pm_SGXEndpoint m) (pm_SEVEndpoint m) (pm_LastHealthCheck m) (pm_ConsecutiveErrors m) (pm_Status m) (pm_CPUUsage m)
    (pm_MemoryUsage m) (pm_NetworkLatency m) (pm_LastAttestation m) (pm_AttestationFailures m) (pm_PendingTasks m)
    (pm_FailedTasks m) (pm_AverageTaskTime m).

Definition errored (now : Time) (pairID : string) (m : TEEPairMetrics) : TEEPairMetrics :=
  mkTPM f_zero (pm_AverageLatency m) (pm_ErrorRate m) (pm_TasksProcessed m) (pm_LastHealthy m) (pm_LoadFactor m) 0 pairID
    (pm_SGXEndpoint m) (pm_SEVEndpoint m) now (u64 (pm_ConsecutiveErrors m + 1)) (pm_Status m) (pm_CPUUsage m)
    (pm_MemoryUsage m) (pm_NetworkLatency m) (pm_LastAttestation m) (pm_AttestationFailures m) (pm_PendingTasks m)
    (pm_FailedTasks m) (pm_AverageTaskTime m).

Definition unverified (now : Time) (pairID : string) (m : TEEPairMetrics) : TEEPairMetrics :=
  mkTPM (pm_SuccessRate m) (pm_AverageLatency m) (pm_ErrorRate m) (pm_TasksProcessed m) (pm_LastHealthy m)
    (pm_LoadFactor m) (pm_ExecutionTime m) pairID (pm_SGXEndpoint m) (pm_SEVEndpoint m) now
    (u64 (pm_ConsecutiveErrors m + 1)) (pm_Status m) (pm_CPUUsage m) (pm_MemoryUsage m) (pm_NetworkLatency m)
    (pm_LastAttestation m) (u64 (pm_AttestationFailures m + 1)) (pm_PendingTasks m) (pm_FailedTasks m)
    (pm_AverageTaskTime m).

Definition executed (now : Time) (p : TEEPair) (total : Z) (sgx sev : ResultMsg) (m : TEEPairMetrics) : TEEPairMetrics :=
  mkTPM f_one (pm_AverageLatency m) (pm_ErrorRate m) (pm_TasksProcessed m) now (vm_calculateLoadFactor total) total
    (tp_ID p) (tp_SGXEndpoint p) (tp_SEVEndpoint p) now (pm_ConsecutiveErrors m) (pm_Status m) (getCPUUsage sgx sev)
    (getMemoryUsage sgx sev) (getAverageLatency sgx sev) (pm_LastAttestation m) (pm_AttestationFailures m) 0
    (pm_FailedTasks m) (pm_AverageTaskTime m).

(** * Operations *)

Section vm.
Context {Conn St B S : Type} `{!Grpc Conn, !RegionStorage St, !BaseStore B, !Mutable S, !MapRange}.
Context `{!Json (gomap string), !Json (gomap json), !Json CoordinationState}.
Context `{!Json channel_alias, !Json worker_alias, !Json Coordinator.Region, !Json rustExecutionResult}.
Abbreviation VM := (ShuttleVM Conn St B S).
Implicit Types (vm : VM).

Definition set_regionManager rm vm : VM :=
  mkVM (vm_VerificationOnly vm) (vm_Regions vm) (vm_state vm) (vm_computeNodes vm) (vm_codeValidator vm)
    (vm_teeValidator vm) (vm_validators vm) rm (vm_coordinator vm).
Definition set_vm_coordinator c vm : VM :=
  mkVM (vm_VerificationOnly vm) (vm_Regions vm) (vm_state vm) (vm_computeNodes vm) (vm_codeValidator vm)
    (vm_teeValidator vm) (vm_validators vm) (vm_regionManager vm) c.
Definition set_vm_state s vm : VM :=
  mkVM (vm_VerificationOnly vm) (vm_Regions vm) s (vm_computeNodes vm) (vm_codeValidator vm)
    (vm_teeValidator vm) (vm_validators vm) (vm_regionManager vm) (vm_coordinator vm).
Definition set_validators vs vm : VM :=
  mkVM (vm_VerificationOnly vm) (vm_Regions vm) (vm_state vm) (vm_computeNodes vm) (vm_codeValidator vm)
    (vm_teeValidator vm) vs (vm_regionManager vm) (vm_coordinator vm).

Definition on_manager {A} (m : go (RegionManager St) A) : go VM A := zoom vm_regionManager set_regionManager m.
Definition on_vm_coordinator {A} (m : go (Coordinator B) A) : go VM A := zoom vm_coordinator set_vm_coordinator m.
Definition on_state {A} (m : go S A) : go VM A := zoom vm_state set_vm_state m.

(** ** Transactions *)

(** What hypersdk checks of a transaction: its format, its unsigned bytes and the
    signature over them. *)
Record Tx : Type := mkTx {
  tx_Verify : verdict;
  tx_UnsignedBytes : outcome string;
  tx_AuthVerify : string → verdict;
  tx_Actions : list Action;
}.

Definition validate_action (rnd : outcome string) (now : Time) (action : Action) : go VM unit :=
  match action with
  | ActSendEvent a =>
      wrap "TEE execution verification failed"
        (lift (verifyTEEExecution now (Data (SEv_Attestations a).1) (SEv_Attestations a)))
  | _ => mret tt
  end ;;
  on_state (VerifyStateTransition rnd action).

Definition ValidateTransaction (rnd : outcome string) (now : Time) (tx : Tx) : go VM unit :=
  lift (tx_Verify tx) ;;
  unsignedBytes ← lift (tx_UnsignedBytes tx);
  lift (tx_AuthVerify tx unsignedBytes) ;;
  for_each (validate_action rnd now) (tx_Actions tx).

Definition ValidateAndExecute (rnd : outcome string) (code : string) (action : SendEventAction) : go VM unit := λ vm,
  (vm, ValidateCode (vm_codeValidator vm) code ;;
       TEE.ValidateRegionalAction rnd (vm_teeValidator vm) action).

(** The region of an action, by a method no action has. *)
Definition action_region (action : Action) : option string := None.

(** The actions of each region in order, and the verdict of each region's goroutine. *)
Definition region_actions (actions : list Action) : gmap string (list Action) :=
  foldl (λ m a, match action_region a with
                | Some r => <[r := default [] (m !! r) ++ [a]]> m
                | None => m
                end) ∅ actions.

Definition validate_region (rnd : outcome string) (rid : string) (acts : list Action) : go VM unit :=
  present ← gets (λ vm, bool_decide (rid ∈ vm_validators vm));
  fail_if (negb present) (Errorf ("no validator for region " +s+ rid)) ;;
  for_each (λ a, wrap ("validation failed for region " +s+ rid) (on_state (VerifyStateTransition rnd a))) acts.

(** All regions are validated; the first error that arrived is returned. *)
Definition validateRegionalActions (rnd : outcome string) (tx : Tx) : go VM unit :=
  let regions := range_map 0 (region_actions (tx_Actions tx)) in
  errs ← (fix go_all (l : list (string * list Action)) : go VM (list goerr) :=
            match l with
            | [] => mret []
            | (rid, acts) :: l' =>
                r ← try (validate_region rnd rid acts);
                es ← go_all l';
                mret (match r with inl _ => es | inr e => e :: es end)
            end) regions;
  match errs with [] => mret tt | e :: _ => fail e end.

(** ** Execution in a region *)

Definition updateTEEMetrics (now : Time) (regionID pairID : string) (took : Z) : go VM unit :=
  try (on_manager (RM_UpdateMetrics now regionID pairID (ran now pairID took))) ;; mret tt.
Definition updateTEEError (now : Time) (regionID pairID : string) : go VM unit :=
  try (on_manager (RM_UpdateMetrics now regionID pairID (errored now pairID))) ;; mret tt.
Definition updateVerificationError (now : Time) (regionID pairID : string) : go VM unit :=
  try (on_manager (RM_UpdateMetrics now regionID pairID (unverified now pairID))) ;; mret tt.

(** The body of an enclave's goroutine, after its answer [o] came back. *)
Definition note_run (now : Time) (took : Z) (regionID pairID : string) (o : outcome ResultMsg) :
    go VM (ResultMsg + goerr) :=
  match o with
  | Ok r => updateTEEMetrics now regionID pairID took ;; mret (inl r)
  | Err e => mret (inr e)
  | Panic w => gopanic w
  | Hang w => gohang w
  end.

(** What the clock and the scheduler do during a call: the enclaves' times, the total
    time, the readings of the clock, and whether the SGX enclave finishes first. *)
Record Timing : Type := mkTiming {
  tm_now : Time;
  tm_sgx_took : Z;
  tm_sev_took : Z;
  tm_total : Z;
  tm_sgx_first : bool;
}.

Definition run_both (tm : Timing) (regionID pairID : string) (sgx sev : outcome ResultMsg) :
    go VM ((ResultMsg + goerr) * (ResultMsg + goerr)) :=
  if tm_sgx_first tm then
    a ← note_run (tm_now tm) (tm_sgx_took tm) regionID pairID sgx;
    b ← note_run (tm_now tm) (tm_sev_took tm) regionID pairID sev;
    mret (a, b)
  else
    b ← note_run (tm_now tm) (tm_sev_took tm) regionID pairID sev;
    a ← note_run (tm_now tm) (tm_sgx_took tm) regionID pairID sgx;
    mret (a, b).

(** Both results are in: their attestations, the comparison, the metrics and the
    result. *)
Definition conclude (tm : Timing) (rnd : outcome string) (regionID : string) (p : TEEPair)
    (sgxResult sevResult : ResultMsg) : go VM RegionResult :=
  a ← lift (timed_attestation sgxResult);
  b ← lift (timed_attestation sevResult);
  v ← try (lift (VerifyAttestationPair rnd (a, b)));
  match v with
  | inr e => updateVerificationError (tm_now tm) regionID (tp_ID p) ;; fail (Wrapf "attestation verification failed" e)
  | inl _ =>
      if negb (bool_decide (RS_StateHash sgxResult = RS_StateHash sevResult)) then
        updateVerificationError (tm_now tm) regionID (tp_ID p) ;;
        fail (Errorf "state hash mismatch between SGX and SEV")
      else
        try (on_manager (RM_UpdateMetrics (tm_now tm) regionID (tp_ID p)
               (executed (tm_now tm) p (tm_total tm) sgxResult sevResult))) ;;
        mret (mkRegionResult (RS_StateHash sgxResult) (RS_Result sgxResult) (a, b) (RS_Timestamp sgxResult)
                (tp_ID p) regionID)
  end.

(** [h1] and [h2] are the hosts of the two clients' bridges. *)
Definition ExecuteInRegion (h1 h2 : Host) (tm : Timing) (rnd : outcome string) (regionID : string) (action : Action) :
    go VM RegionResult :=
  health ← wrap "failed to get region health" (on_manager (RM_GetRegionHealth regionID));
  fail_if (negb (bool_decide (hs_Status health = "healthy"))) (Errorf ("region " +s+ regionID +s+ " is not healthy")) ;;
  balancer ← gets (λ vm, mg_balancer (vm_regionManager vm));
  p ← wrap "failed to select TEE pair" (lift (SelectOptimalPair (tm_now tm) regionID balancer));
  nodes ← gets vm_computeNodes;
  match nodes !! tp_SGXEndpoint p, nodes !! tp_SEVEndpoint p with
  | None, _ => fail (Errorf ("SGX compute node not found for pair " +s+ tp_ID p))
  | _, None => fail (Errorf ("SEV compute node not found for pair " +s+ tp_ID p))
  | Some sgxClient, Some sevClient =>
      req ← lift (region_request regionID action);
      rs ← run_both tm regionID (tp_ID p) (NodeClient_Execute h1 sgxClient req) (NodeClient_Execute h2 sevClient req);
      match rs with
      | (inr e, _) => updateTEEError (tm_now tm) regionID (tp_ID p) ;; fail (Wrapf "SGX execution failed" e)
      | (inl _, inr e) => updateTEEError (tm_now tm) regionID (tp_ID p) ;; fail (Wrapf "SEV execution failed" e)
      | (inl sgxResult, inl sevResult) => conclude tm rnd regionID p sgxResult sevResult
      end
  end.

(** ** Health of the enclaves *)

Definition health_request : RequestMsg := mkRequestMsg "" "health" "health-check" "health-check" false "".

(** [h] and [ready] are the host and the state of the connection of the client. *)
Definition checkTEEHealth (h : Host) (ready : NodeClient Conn → bool) (endpoint : string) vm : verdict :=
  match vm_computeNodes vm !! endpoint with
  | None => Err (Errorf ("compute node not found for endpoint " +s+ endpoint))
  | Some client =>
      wrapped "connection validation failed" (ValidateConnection h (ready client) client) ;;
      wrapped "health check execution failed" (NodeClient_Execute h client health_request) ;;
      Ok tt
  end.

(** The metrics a status is reported with. *)
Definition status_metrics (now : Time) (pairID teeType : string) (healthy : bool) : TEEPairMetrics :=
  mkTPM (if healthy then f_one else f_zero) 0 f_zero 0 (if healthy then now else zeroTime)
    (if healthy then f_zero else f_one) 0 pairID
    (if bool_decide (teeType = "sgx") then pairID +s+ "-sgx" else "")
    (if bool_decide (teeType = "sev") then pairID +s+ "-sev" else "")
    now 0 "" f_zero f_zero f_zero zeroTime 0 0 0 0.

Definition set_balancer (b : RegionBalancer) (s : RegionManager St) : RegionManager St :=
  mkMgr (mg_heap s) (mg_configs s) (mg_cache s) b (mg_store s) (mg_states s) (mg_metrics s) (mg_health s) (mg_perf s)
    (mg_monitor_closed s) (mg_deadlocked s).
Definition on_balancer {A} (m : go RegionBalancer A) : go VM A :=
  on_manager (zoom mg_balancer set_balancer m).

Definition updateTEEStatus (now : Time) (regionID pairID teeType : string) (healthy : bool) : go VM unit :=
  try (on_balancer (UpdatePairMetrics regionID pairID (Some (status_metrics now pairID teeType healthy)))) ;; mret tt.

Definition monitor_pair (h : Host) (ready : NodeClient Conn → bool) (now : Time) (regionID : string) (p : TEEPair) :
    go VM unit :=
  s ← try (λ vm, (vm, checkTEEHealth h ready (tp_SGXEndpoint p) vm));
  updateTEEStatus now regionID (tp_ID p) "sgx" (match s with inl _ => true | inr _ => false end) ;;
  v ← try (λ vm, (vm, checkTEEHealth h ready (tp_SEVEndpoint p) vm));
  updateTEEStatus now regionID (tp_ID p) "sev" (match v with inl _ => true | inr _ => false end).

(** A tick of [MonitorTEEHealth]. *)
Definition MonitorTEEHealth_tick (h : Host) (ready : NodeClient Conn → bool) (now : Time) : go VM unit :=
  regions ← on_manager ListRegions;
  for_each (λ regionID,
    r ← try (on_manager (GetTEEPairs regionID));
    match r with
    | inr _ => mret tt
    | inl pairs => for_each (monitor_pair h ready now regionID) pairs
    end) regions.

(** ** Set-up *)

(** The coordinator's configuration in [New] and in [Initialize]: the latter sets no
    limit on tasks. *)
Definition new_coordConfig (chainID : string) : Config :=
  mkConfig 2 10 (30 * Second) 100 1000 (5 * Minute) 0 (10 * Second) 0 true true (5 * Second)
    ("/tmp/coordinator-" +s+ chainID) true.
Definition init_coordConfig (chainID : string) : Config :=
  mkConfig 2 10 (30 * Second) 0 0 0 0 (10 * Second) (1024 * 1024) true true (5 * Second)
    ("/tmp/coordinator-" +s+ chainID) true.

Definition setupRegionWorkers (now : Time) (rnd : outcome string) (regionID : string) : go VM unit :=
  let sgx := "sgx-" +s+ regionID in
  let sev := "sev-" +s+ regionID in
  wrap ("failed to register SGX worker for region " +s+ regionID)
    (on_vm_coordinator (RegisterWorker now sgx "sgx-enclave")) ;;
  wrap ("failed to register SEV worker for region " +s+ regionID)
    (on_vm_coordinator (RegisterWorker now sev "sev-enclave")) ;;
  wrap ("failed to register region " +s+ regionID)
    (on_vm_coordinator (RegisterRegion now regionID (sgx, sev))) ;;
  wrap ("failed to establish secure channel for region " +s+ regionID)
    (lift (EstablishSecure rnd (NewSecureChannel sgx sev)).2).

Definition initializeComputeConnections (h : Host) (ready : NodeClient Conn → bool) : go VM unit :=
  nodes ← gets (λ vm, range_map 0 (vm_computeNodes vm));
  for_each (λ '(region, client),
    wrap ("compute node validation failed for region " +s+ region) (lift (ValidateConnection h (ready client) client))) nodes.

Definition initializeValidators : go VM unit :=
  modify (λ vm, set_validators (list_to_set (vm_Regions vm)) vm).

(** [Initialize] after its databases and state manager are made and up to the start of
    the monitoring goroutines: [base] is the state
    manager's base storage, [store] the region store over it, [chan_heap] the heap of
    channels, [s] the state the verifier is set to. *)
Definition Initialize (chainID : string) (base : B) (chan_heap : Heap) (s : S) (heap : gmap nat RegionConfig) (store : St)
    (h : Host) (ready : NodeClient Conn → bool) (now : Time) (rnd : outcome string) : go VM unit :=
  modify (set_vm_coordinator (NewCoordinator (init_coordConfig chainID) base chan_heap)) ;;
  wrap "failed to start coordinator" (on_vm_coordinator Coordinator_Start) ;;
  modify (set_vm_state s) ;;
  modify (set_regionManager (NewRegionManager heap store)) ;;
  initializeValidators ;;
  only ← gets vm_VerificationOnly;
  if only : bool then mret tt else
  wrap "failed to initialize compute connections" (initializeComputeConnections h ready) ;;
  regions ← gets (λ vm, (range_map 1 (vm_computeNodes vm)).*1);
  for_each (setupRegionWorkers now rnd) regions.

(** ** Shutdown and queries *)

(** Errors of closing a client are logged. *)
Definition Shutdown : go VM unit := on_manager StopMonitoring ;; mret tt.
Definition vm_cleanup (now : Time) (order : list string) : go VM unit :=
  try (on_vm_coordinator (Coordinator_Stop now order)) ;; try (on_manager RM_Stop) ;; mret tt.

Definition GetComputeClient (regionID : string) vm : outcome (NodeClient Conn) :=
  match vm_computeNodes vm !! regionID with
  | Some client => Ok client
  | None => Err (Errorf ("no compute node found for region " +s+ regionID))
  end.

Definition IsVerificationOnly vm : bool := vm_VerificationOnly vm.
Definition vm_GetRegionHealth (regionID : string) : go VM HealthStatus := on_manager (RM_GetRegionHealth regionID).
Definition vm_GetRegionMetrics (regionID pairID : string) : go VM TEEPairMetrics := on_manager (RM_GetMetrics regionID pairID).

Definition vm_determineEnclaveType (enclaveID : string) : string :=
  if 3 <? slen enclaveID then
    let prefix := substring 0 3 enclaveID in
    if bool_decide (prefix = "sgx") then "SGX" else if bool_decide (prefix = "sev") then "SEV" else "UNKNOWN"
  else "UNKNOWN".

Definition makeEnclaveKey (enclaveID regionID : string) : string := "enclave/" +s+ regionID +s+ "/" +s+ enclaveID.
End vm.
