(* ===== verification/VMCoreFacts.v ===== *)
(** What the VM makes of its components: which transactions it validates and that
    none of their events can then be executed, what an execution in a region
    certifies and that it never gets there, and what its set-up leaves behind. *)

From S2P Require Import Prelude GoTime RFC3339 Float64 KV Core Channel Worker Coordinator CoordinatorFacts CoordinatorState Storage Actions.
From S2P Require Import StateManager StateManagerFacts StateManagerVM.
From S2P Require Import TimeServer Verifier RangeState RegionConfig Balancer RegionManager RegionStateStore RegionManagerFacts.
From S2P Require Import CodeValidator TEE TEEFacts Compute ComputeFacts VMCore.
From Stdlib Require Import ZArith Lia Ascii String.
From stdpp Require Import base tactics option list relations strings pretty gmap.

Local Open Scope Z_scope.

(** * Transactions *)

Lemma verifySGXAttestation_ok att : verifySGXAttestation att = Ok tt ↔ Measurement att = "".
Proof. unfold verifySGXAttestation. rewrite verdict_then, check_iff, negb_false_iff, bool_decide_eq_true. naive_solver. Qed.
Lemma verifySEVAttestation_ok att : verifySEVAttestation att = Ok tt ↔ Measurement att = "".
Proof. unfold verifySEVAttestation. rewrite verdict_then, check_iff, negb_false_iff, bool_decide_eq_true. naive_solver. Qed.

Lemma verifyTEEExecution_ok now hash atts :
  verifyTEEExecution now hash atts = Ok tt ↔
  t_ns (Timestamp atts.1) = t_ns (Timestamp atts.2) ∧ Z.abs (t_ns now - t_ns (Timestamp atts.1)) ≤ 5 * Minute ∧
  Measurement atts.1 = "" ∧ Measurement atts.2 = "" ∧ Data atts.1 = hash ∧ Data atts.2 = hash.
Proof.
  unfold verifyTEEExecution, TimeEqual.
  rewrite !verdict_then, !check_iff, !wrapped_unit, !wrap_verdict_ok, verifySGXAttestation_ok, verifySEVAttestation_ok.
  rewrite orb_false_iff, !negb_false_iff, !bool_decide_eq_true, Z.eqb_eq.
  rewrite outside_window_false by (unfold maxDuration, Minute, Second; lia). naive_solver.
Qed.

(** The VM accepts the attestations of an execution exactly when their times agree
    and are recent, both carry the state hash as data, and both measurements are
    empty; signatures and enclaves do not count. *)
Theorem verifyTEEExecution_spec now hash atts :
  verifyTEEExecution now hash atts = Ok tt ↔
  t_ns (Timestamp atts.1) = t_ns (Timestamp atts.2) ∧ Z.abs (t_ns now - t_ns (Timestamp atts.1)) ≤ 5 * Minute ∧
  Measurement atts.1 = "" ∧ Measurement atts.2 = "" ∧ Data atts.1 = hash ∧ Data atts.2 = hash.
Proof. apply verifyTEEExecution_ok. Qed.

(** Execution of an event needs measurements. *)
Lemma SendEvent_needs_measurement {W} `{!VMState W} ok now ts a (w w' : W) r :
  SendEvent_Execute ok now ts a w = (w', Ok r) → Measurement (SEv_Attestations a).1 ≠ "".
Proof.
  unfold SendEvent_Execute. intros H.
  do 2 apply bind_ok_inv in H as ([] & ? & _ & H). apply bind_ok_inv in H as ([obj|] & w2 & _ & H); [|done].
  do 3 apply bind_ok_inv in H as ([] & ? & _ & H).
  apply bind_ok_inv in H as ([] & ? & [_ Hv]%lift_ok_inv & _).
  unfold verifyAttestationPair in Hv. rewrite !verdict_then, !check_iff, !orb_false_iff, !slen_zero_iff in Hv.
  naive_solver.
Qed.

Section vm.
Context {Conn St B S : Type} `{!Grpc Conn, !RegionStorage St, !BaseStore B, !Mutable S, !MapRange}.
Context `{!Json (gomap string), !Json (gomap json), !Json CoordinationState}.
Context `{!Json channel_alias, !Json worker_alias, !Json Coordinator.Region, !Json rustExecutionResult}.
Abbreviation VM := (ShuttleVM Conn St B S).
Implicit Types (vm : VM).

(** C28: no event of a transaction that the VM validates can be executed: validation
    wants empty measurements and execution wants them non-empty, whatever the state. *)
Theorem validated_event_never_executes rnd now tx vm vm' a :
  ValidateTransaction rnd now tx vm = (vm', Ok tt) → ActSendEvent a ∈ tx_Actions tx →
  ∀ W (V : VMState W) ok now' ts (w w' : W) r, SendEvent_Execute ok now' ts a w ≠ (w', Ok r).
Proof using Type.
  intros Hx Ha W V ok now' ts w w' r He. apply SendEvent_needs_measurement in He. apply He.
  unfold ValidateTransaction in Hx.
  apply bind_ok_inv in Hx as ([] & ? & _ & Hx). apply bind_ok_inv in Hx as (? & ? & _ & Hx).
  apply bind_ok_inv in Hx as ([] & ? & _ & Hx).
  destruct (for_each_ok_each _ _ _ _ (ActSendEvent a) Hx Ha) as (s1 & s2 & Hy). clear Hx. rename Hy into Hx.
  unfold validate_action in Hx. apply bind_ok_inv in Hx as ([] & ? & Hx & _).
  apply wrap_ok_inv in Hx. apply lift_ok_inv in Hx as [_ Hx%verifyTEEExecution_ok]. naive_solver.
Qed.

(** The regional validation never validates anything: no action has the method it
    groups the actions by. *)
Lemma validateRegionalActions_accepts_all rnd tx vm : validateRegionalActions rnd tx vm = (vm, Ok tt).
Proof using Type.
  unfold validateRegionalActions. assert (region_actions (tx_Actions tx) = ∅) as ->.
  { unfold region_actions. generalize (∅ : gmap string (list Action)). induction (tx_Actions tx) as [|x l IH]; [done|].
    intros m. apply IH. }
  assert (range_map 0 (∅ : gmap string (list Action)) = []) as ->; [|done].
  apply Permutation_nil. symmetry. rewrite range_map_perm. by rewrite map_to_list_empty.
Qed.

(** * Execution in a region *)

Lemma note_run_ok now took r p o vm vm' x :
  note_run (Conn := Conn) (St := St) (B := B) (S := S) now took r p o vm = (vm', Ok x) →
  o = match x with inl m => Ok m | inr e => Err e end.
Proof using Type.
  unfold note_run. destruct o as [m|e|w|w]; intros E; try done; [|by injection E as <- <-].
  apply bind_ok_inv in E as ([] & ? & _ & E). by injection E as _ <-.
Qed.

Lemma run_both_ok tm r p sgx sev vm vm' a b :
  run_both (Conn := Conn) (St := St) (B := B) (S := S) tm r p sgx sev vm = (vm', Ok (a, b)) →
  sgx = match a with inl m => Ok m | inr e => Err e end ∧ sev = match b with inl m => Ok m | inr e => Err e end.
Proof using Type.
  unfold run_both. destruct (tm_sgx_first tm); intros E;
    apply bind_ok_inv in E as (x & ? & E1%note_run_ok & E); apply bind_ok_inv in E as (y & ? & E2%note_run_ok & E);
    by injection E as _ <- <-.
Qed.

Lemma conclude_ok tm rnd r p s v vm vm' x :
  conclude (Conn := Conn) (St := St) (B := B) (S := S) tm rnd r p s v vm = (vm', Ok x) →
  ∃ a b, timed_attestation s = Ok a ∧ timed_attestation v = Ok b ∧ RS_StateHash s = RS_StateHash v ∧
    x = mkRegionResult (RS_StateHash s) (RS_Result s) (a, b) (RS_Timestamp s) (tp_ID p) r.
Proof using Type.
  unfold conclude. intros E.
  apply bind_ok_inv in E as (a & ? & [_ Ha]%lift_ok_inv & E). apply bind_ok_inv in E as (b & ? & [_ Hb]%lift_ok_inv & E).
  apply bind_ok_inv in E as ([u|e] & ? & _ & E).
  - destruct (bool_decide_reflect (RS_StateHash s = RS_StateHash v)) as [Hh|Hh]; simpl in E.
    + apply bind_ok_inv in E as (? & ? & _ & E). injection E as _ <-. eauto 10.
    + by apply bind_ok_inv in E as (? & ? & _ & ?).
  - by apply bind_ok_inv in E as (? & ? & _ & ?).
Qed.

(** C26: a result of an execution in a region comes from the pair the balancer
    selected for a region that is healthy; both of the pair's nodes executed the
    action's request and agreed on the state hash, and the result has that hash, the
    output of the first, and the first attestation of each. *)
Theorem ExecuteInRegion_sound h1 h2 tm rnd r action vm vm' x :
  ExecuteInRegion h1 h2 tm rnd r action vm = (vm', Ok x) →
  (∃ health, (RM_GetRegionHealth r (vm_regionManager vm)).2 = Ok health ∧ hs_Status health = "healthy") ∧
  ∃ p c1 c2 req s v a b,
    SelectOptimalPair (tm_now tm) r (mg_balancer (RM_GetRegionHealth r (vm_regionManager vm)).1) = Ok p ∧
    vm_computeNodes vm !! tp_SGXEndpoint p = Some c1 ∧ vm_computeNodes vm !! tp_SEVEndpoint p = Some c2 ∧
    region_request r action = Ok req ∧
    NodeClient_Execute h1 c1 req = Ok s ∧ NodeClient_Execute h2 c2 req = Ok v ∧
    RS_StateHash s = RS_StateHash v ∧ timed_attestation s = Ok a ∧ timed_attestation v = Ok b ∧
    x = mkRegionResult (RS_StateHash s) (RS_Result s) (a, b) (RS_Timestamp s) (tp_ID p) r.
Proof using Type.
  unfold ExecuteInRegion. intros E.
  apply bind_ok_inv in E as (health & vm1 & Hh%wrap_ok_inv & E).
  apply zoom_ok_inv in Hh as (m1 & Hh & ->).
  apply bind_ok_inv in E as ([] & ? & [Hs ->]%fail_if_ok_inv & E). apply negb_false_iff, bool_decide_eq_true in Hs.
  apply bind_ok_inv in E as (bal & ? & Hb & E). injection Hb as <- <-.
  apply bind_ok_inv in E as (p & ? & Hp%wrap_ok_inv & E). apply lift_ok_inv in Hp as [-> Hp].
  apply bind_ok_inv in E as (nodes & ? & Hn & E). injection Hn as <- <-.
  split; [exists health; by rewrite Hh|]. rewrite Hh. cbn [fst].
  cbn [vm_computeNodes set_regionManager vm_regionManager] in *.
  destruct (vm_computeNodes vm !! tp_SGXEndpoint p) as [c1|] eqn:H1; [|done].
  destruct (vm_computeNodes vm !! tp_SEVEndpoint p) as [c2|] eqn:H2; [|done].
  apply bind_ok_inv in E as (req & ? & [-> Hreq]%lift_ok_inv & E).
  apply bind_ok_inv in E as ([ra rb] & ? & Hrun & E). apply run_both_ok in Hrun as [Ra Rb].
  destruct ra as [s|e]; [|by apply bind_ok_inv in E as (? & ? & _ & ?)].
  destruct rb as [v|e]; [|by apply bind_ok_inv in E as (? & ? & _ & ?)].
  apply conclude_ok in E as (a & b & Ha & Hb & Heq & ->). exists p, c1, c2, req, s, v, a, b. naive_solver.
Qed.
End vm.

Section composed.
Context {Conn St B S : Type} `{!Grpc Conn, !RegionStorage St, !RegionStorageLaws St, !BaseStore B, !Mutable S}.
Context `{MR : MapRange}.
Context `{!Json (gomap string), !Json (gomap json), !Json CoordinationState}.
Context `{!Json channel_alias, !Json worker_alias, !Json Coordinator.Region, !Json rustExecutionResult}.

(** Over the program's region store an action is never executed in a region: the
    region's health is looked up where no operation of the manager puts it, so the
    call fails before it reaches the enclaves. *)
Theorem ExecuteInRegion_never_succeeds heap (store : St) h1 h2 tm rnd r action (vm : ShuttleVM Conn St B S) :
  (∀ a c, heap !! a = Some c → named c) →
  (∀ r c, rs_id_ok r → v_config (rs_view store) r = Some c → named c) →
  (∀ r, rs_id_ok r → v_state (rs_view store) r "" = None) →
  rtc mgr_step (NewRegionManager heap store) (vm_regionManager vm) → rs_id_ok r →
  ∃ e, (ExecuteInRegion h1 h2 tm rnd r action vm).2 = Err (Wrapf "failed to get region health" e).
Proof using Type.
  intros Hh Hc Hst Hsteps Hr. destruct (region_health_never_found heap store _ r Hh Hc Hst Hsteps Hr) as [e He].
  exists e. unfold ExecuteInRegion.
  destruct (RM_GetRegionHealth r (vm_regionManager vm)) as [m o] eqn:E. simpl in He. subst o.
  erewrite bind_err; [reflexivity|]. unfold wrap, on_manager, zoom. by rewrite E.
Qed.

(** * Set-up *)

(** The coordinator [Initialize] makes has no room for tasks: whatever its workers
    and goroutines do, no task is ever accepted. *)
Theorem initialized_vm_accepts_no_task NewView chainID base hp (c : Coordinator B) now ctx pick task :
  rtc (step NewView) (NewCoordinator (init_coordConfig chainID) base hp) c →
  (SubmitTask now ctx pick task c).2 ≠ Ok tt.
Proof using Type.
  intros [Hc _]%unwired_reachable E. unfold SubmitTask in E. destruct task as [p|]; [|done].
  destruct (task_table c !! p) as [t|] eqn:Ht;
    [|by rewrite (bind_ok (gets _) _ c c None) in E by (unfold gets; by rewrite Ht)].
  rewrite (bind_ok (gets _) _ c c (Some t)) in E by (unfold gets; by rewrite Ht).
  unfold admit_task, with_mu in E. go_unfold. destruct (mu c); [done|]. simpl in E. rewrite Hc in E.
  rewrite (proj2 (Z.leb_le _ _)) in E; [done|]. simpl. lia.
Qed.
End composed.

(** A health check asks a node for the region "health-check", which a compute node of
    any other region refuses: its enclaves are reported unhealthy. *)
Lemma health_check_refused {Conn St B S B'} `{!Grpc Conn} `{!BaseStore B', !MapRange, !Json rustExecutionResult}
    (n : ComputeNode B') nh t1 t2 t3 ctx pick rnd h ready endpoint (vm : ShuttleVM Conn St B S) client :
  vm_computeNodes vm !! endpoint = Some client → cn_regionID n ≠ "health-check" →
  rpc_Execute (nc_conn client) health_request = (Node_Execute nh t1 t2 t3 ctx pick rnd health_request n).2 →
  checkTEEHealth h ready endpoint vm ≠ Ok tt.
Proof.
  intros Hc Hr Hrpc E. unfold checkTEEHealth in E. rewrite Hc in E.
  apply verdict_then in E as [_ E]. apply obind_ok in E as (m & E%wrapped_ok & _).
  unfold NodeClient_Execute in E. apply obind_ok in E as (t & _ & E). apply obind_ok in E as (x & E%wrapped_ok & _).
  rewrite Hrpc in E. destruct (Node_Execute_refused nh t1 t2 t3 ctx pick rnd health_request n) as [e He].
  - simpl. naive_solver.
  - by rewrite He in E.
Qed.

Section setup.
Context {B : Type} `{!BaseStore B} (nf : goerr) `{!BaseStoreLaws B nf}.
Context `{!Json channel_alias, !JsonLaws channel_alias, !Json worker_alias, !Json Coordinator.Region}.
Implicit Types (c : Coordinator B).

(** Registering a worker touches neither the region lock nor the record of a region. *)
Definition same_region (r : string) c c' : Prop :=
  regionLock c' = regionLock c ∧
  bs_contents (store c') !! (Channel.regionPrefix +s+ r) = bs_contents (store c) !! (Channel.regionPrefix +s+ r).

#[local] Instance same_region_preorder r : PreOrder (same_region r).
Proof. split; [by intros c|]. intros c1 c2 c3 [H1 H2] [H3 H4]. split; congruence. Qed.

Lemma region_key_not_worker r id : Channel.regionPrefix +s+ r ≠ workerPrefix +s+ id.
Proof. unfold Channel.regionPrefix, workerPrefix. simpl. intros H. injection H. discriminate. Qed.

Lemma same_region_SaveWorker r w : preserves (same_region r) (SaveWorker (B := B) w).
Proof.
  intros c. unfold SaveWorker, Coordinator.on_store, zoom, sw_Put.
  destruct (bs_Put_run (workerPrefix +s+ ID w) (Worker_MarshalJSON (heap c) w) (store c)) as (b & -> & Hb).
  split; [done|]. simpl. rewrite Hb, lookup_insert_ne; [done|]. apply not_eq_sym, region_key_not_worker.
Qed.

Lemma same_region_DeleteWorker r id : preserves (same_region r) (DeleteWorker (B := B) id).
Proof.
  intros c. unfold DeleteWorker, Coordinator.on_store, zoom, sw_Delete.
  pose proof (bs_Delete_contents (workerPrefix +s+ id) (store c)) as Hb. destruct (bs_Delete _ (store c)) as [b o].
  split; [done|]. simpl in *. rewrite Hb, lookup_delete_ne; [done|]. apply not_eq_sym, region_key_not_worker.
Qed.

Lemma same_region_RegisterWorker r now id e : preserves (same_region r) (RegisterWorker (B := B) now id e).
Proof.
  unfold RegisterWorker. apply preserves_with_mu; [apply _|by intros|].
  apply preserves_bind; [apply _|apply preserves_gets, _|intros present].
  apply preserves_bind; [apply _|apply preserves_fail_if, _|intros _].
  apply preserves_bind; [apply _|apply preserves_wrap, same_region_SaveWorker|intros _].
  destruct (Start now (registered_worker now id e)) as [w [u|er|x|x]].
  - apply preserves_modify. by intros c.
  - apply preserves_bind; [apply _|apply preserves_try, same_region_DeleteWorker|intros _]. apply preserves_fail, _.
  - apply preserves_gopanic, _.
  - apply preserves_gohang, _.
Qed.

Context {Conn St S : Type} `{!Grpc Conn, !RegionStorage St, !Mutable S, !MapRange, !Json rustExecutionResult}.
Abbreviation VM := (ShuttleVM Conn St B S).

(** A region that is not stored yet cannot be set up over a store whose "not found" is
    not the one the coordinator looks for. *)
Lemma setupRegionWorkers_fails now rnd r (vm vm' : VM) :
  errors_Is nf geth_ErrNotFound = false → r ≠ "" → regionLock (vm_coordinator vm) = false →
  bs_contents (store (vm_coordinator vm)) !! (Channel.regionPrefix +s+ r) = None →
  setupRegionWorkers now rnd r vm ≠ (vm', Ok tt).
Proof.
  intros Hnf Hr HL Hs E. unfold setupRegionWorkers in E.
  apply bind_ok_inv in E as ([] & vm1 & E1%wrap_ok_inv & E). apply zoom_ok_inv in E1 as (c1 & E1 & ->).
  apply bind_ok_inv in E as ([] & vm2 & E2%wrap_ok_inv & E). apply zoom_ok_inv in E2 as (c2 & E2 & ->).
  apply bind_ok_inv in E as ([] & vm3 & E3%wrap_ok_inv & E). apply zoom_ok_inv in E3 as (c3 & E3 & ->).
  cbn [vm_coordinator set_vm_coordinator] in *.
  pose proof (same_region_RegisterWorker r now ("sgx-" +s+ r) "sgx-enclave" (vm_coordinator vm)) as [H1 H1'].
  pose proof (same_region_RegisterWorker r now ("sev-" +s+ r) "sev-enclave" c1) as [H2 H2'].
  rewrite E1 in H1, H1'. rewrite E2 in H2, H2'. cbn [fst] in *.
  destruct (fresh_channel_and_region_refused nf ("sgx-" +s+ r) ("sev-" +s+ r) now r c2 Hnf) as [_ HR].
  rewrite HR in E3 by congruence. done.
Qed.

(** A VM that is to execute, not only to verify, cannot be initialized over an empty
    database: setting up the first region of its compute nodes fails. *)
Theorem Initialize_fails chainID base hp s heap store h ready now rnd (vm : VM) :
  errors_Is nf geth_ErrNotFound = false →
  vm_VerificationOnly vm = false → vm_computeNodes vm ≠ ∅ →
  (∀ r, is_Some (vm_computeNodes vm !! r) → r ≠ "" ∧ bs_contents base !! (Channel.regionPrefix +s+ r) = None) →
  (Initialize chainID base hp s heap store h ready now rnd vm).2 ≠ Ok tt.
Proof.
  intros Hnf Hv Hne Hall E.
  destruct (Initialize chainID base hp s heap store h ready now rnd vm) as [vm' o] eqn:EI. simpl in E. subst o.
  unfold Initialize, initializeValidators in EI.
  do 5 (apply bind_ok_inv in EI as ([] & ? & Em & EI); injection Em as <-).
  apply bind_ok_inv in EI as (only & ? & Em & EI). injection Em as <- <-. cbn [vm_VerificationOnly] in EI.
  unfold set_validators, set_regionManager, set_vm_state, set_vm_coordinator in EI.
  cbn [vm_VerificationOnly vm_Regions vm_state vm_computeNodes vm_codeValidator vm_teeValidator vm_coordinator] in EI.
  rewrite Hv in EI.
  set (vm1 := mkVM _ _ _ _ _ _ _ _ _) in EI.
  apply bind_ok_inv in EI as ([] & vm2 & Ec%wrap_ok_inv & EI).
  assert (vm2 = vm1) as ->.
  { assert (preserves (=) (initializeComputeConnections (Conn := Conn) (St := St) (B := B) (S := S) h ready)) as Hp.
    { unfold initializeComputeConnections. apply preserves_bind; [apply _|apply preserves_gets, _|intros nodes].
      apply preserves_for_each; [apply _|]. intros [region client]. apply preserves_wrap, preserves_lift, _. }
    specialize (Hp vm1). by rewrite Ec in Hp. }
  apply bind_ok_inv in EI as (regions & ? & Em & EI). injection Em as <- <-.
  change (vm_computeNodes vm1) with (vm_computeNodes vm) in EI.
  destruct (range_map 1 (vm_computeNodes vm)) as [|[r client] l] eqn:Hl.
  { apply Hne. apply map_to_list_empty_iff. apply Permutation_nil_r. by rewrite <-(range_map_perm _ 1), Hl. }
  assert (vm_computeNodes vm !! r = Some client) as Hr.
  { apply elem_of_map_to_list. rewrite <-(range_map_perm _ 1), Hl. left. }
  destruct (Hall r) as [Hr1 Hr2]; [by eexists|]. cbn [fmap list_fmap fst for_each] in EI.
  apply bind_ok_inv in EI as ([] & vm3 & Es & _). by apply setupRegionWorkers_fails in Es.
Qed.
End setup.

(** * The monitor *)

Section monitor.
Context {Conn St B S : Type} `{!Grpc Conn, !RegionStorage St, !BaseStore B, !MapRange, !Json rustExecutionResult}.
Abbreviation VM := (ShuttleVM Conn St B S).

(** A status report replaces all that is known of a pair, so after the SEV enclave's
    report, which comes second, the pair has no SGX endpoint: selected, it names no
    compute node. *)
Lemma monitor_pair_forgets_sgx h ready now r p (vm vm' : VM) :
  monitor_pair h ready now r p vm = (vm', Ok tt) →
  ∃ m, find_pair r (tp_ID p) (mg_balancer (vm_regionManager vm')) = Some m ∧
    pm_SGXEndpoint m = "" ∧ pm_SEVEndpoint m = tp_ID p +s+ "-sev" ∧ tp_SGXEndpoint (selected_pair m) = "".
Proof using Type.
  unfold monitor_pair. intros E.
  apply bind_ok_inv in E as (? & ? & _ & E). apply bind_ok_inv in E as (? & ? & _ & E).
  apply bind_ok_inv in E as (v & vm1 & _ & E). unfold updateTEEStatus in E.
  set (m := status_metrics now (tp_ID p) "sev" _) in E. exists m. split; [|done].
  apply bind_ok_inv in E as (res & vm2 & Hx & E). injection E as <-.
  unfold try, on_balancer, on_manager, zoom in Hx.
  destruct (UpdatePairMetrics_lookup r m (mg_balancer (vm_regionManager vm1))) as (Hok & Hf & _).
  change (pm_PairID m) with (tp_ID p) in *.
  destruct (UpdatePairMetrics r (tp_ID p) (Some m) (mg_balancer (vm_regionManager vm1))) as [b o].
  cbn [snd] in Hok. subst o. injection Hx as <- _. cbn [fst] in Hf. simpl. rewrite Hf, decide_True by done. done.
Qed.
End monitor.

(** * Witnesses *)

#[local] Existing Instances echo_Grpc canonical_MapRange obj_Json json_Json coord_Json channel_Json channel_JsonLaws worker_Json.
#[local] Existing Instances region_Json rustResult_Json map_PrefixIter config_FJson state_FJson metrics_FJson.
#[local] Existing Instances config_FJsonLaws state_FJsonLaws metrics_FJsonLaws.

Abbreviation sample_VM := (ShuttleVM string (gmap string string) (gmap string string) (gmap string string)).

Definition sample_client : NodeClient string := mkNodeClient "sgx:1" (NewRustBridge "/ctl" "/wasm") "sgx:1".
Definition sample_vm (m : RegionManager (gmap string string)) : sample_VM :=
  mkVM false ["eu"] ver_state {[ "h:1" := sample_client; "h:2" := sample_client ]} (NewCodeValidator 1000) NewValidator
    ∅ m (NewCoordinator (new_coordConfig "c") ∅ sample_heap).

Definition unmeasured (id : string) : TEEAttestation := mkAttestation id "" (fromUnix 1700000000) "d" "" "".
Definition sample_tx : Tx :=
  mkTx (Ok tt) (Ok "") (λ _, Ok tt) [ActSendEvent (mkSendEvent "obj" "f" "p" (unmeasured "a", unmeasured "b") "eu")].

#[local] Existing Instances message_Json event_Json map_MerkleDB StateManagerVM.enclave_Json.
Definition sample_event : SendEventAction := mkSendEvent "obj" "f" "p" (unmeasured "a", unmeasured "b") "eu".

Lemma validated_event_never_executes_witness :
  is_ok (SendEvent_Execute true sample_now 0 sample_event fresh_sm).2 = false.
Proof.
  destruct (SendEvent_Execute true sample_now 0 sample_event fresh_sm) as [w' [r|e|x|x]] eqn:E; [|done..].
  exfalso. refine (validated_event_never_executes (Ok "k") (fromUnix 1700000000) sample_tx (sample_vm sample_manager)
    (ValidateTransaction (Ok "k") (fromUnix 1700000000) sample_tx (sample_vm sample_manager)).1 sample_event _ _
    _ _ _ _ _ _ _ _ E); [|left].
  assert ((ValidateTransaction (Ok "k") (fromUnix 1700000000) sample_tx (sample_vm sample_manager)).2 = Ok tt) as <-
    by (vm_compute; reflexivity).
  apply surjective_pairing.
Defined.

(** A store in which the region's own record is healthy, and a manager whose balancer
    knows one pair of usable nodes. *)
#[local] Instance healthy_RegionStorage : RegionStorage unit :=
  {| rs_SetRegionConfig _ _ := mret tt; rs_GetRegionConfig _ _ := Err ErrNotFound; rs_DeleteRegionConfig _ := mret tt;
     rs_SaveTEEState _ _ _ := mret tt; rs_SaveMetrics _ _ _ := mret tt; rs_GetMetrics _ _ _ := Err ErrNotFound;
     rs_GetTEEState _ _ _ := Ok (Some (mkTPS "healthy" sample_now 0 0 f_zero f_one 0)) |}.

Definition live_vm : ShuttleVM string unit (gmap string string) (gmap string string) :=
  mkVM false ["eu"] ver_state {[ "p-sgx" := sample_client; "p-sev" := sample_client ]} (NewCodeValidator 1000) NewValidator
    ∅ (mkMgr ∅ ∅ ∅
         (mkRB ∅ ∅ {[ "eu" := [executed sample_now (mkTEEPair "p" "" "" "p-sgx" "p-sev" "active") 0
            sample_answer sample_answer (status_metrics sample_now "p" "" true)] ]} DefaultBalancerConfig)
         tt ∅ ∅ NewHealthChecker_thresholds ∅ false false)
    (NewCoordinator (new_coordConfig "c") ∅ sample_heap).

Definition live_run :=
  ExecuteInRegion rust_host rust_host (mkTiming sample_now 0 0 0 true) (Ok "k") "eu"
    (ActSendEvent (mkSendEvent "obj" "f" "p" (unmeasured "a", unmeasured "b") "eu")) live_vm.

Lemma ExecuteInRegion_sound_witness :
  ∃ x, live_run.2 = Ok x ∧ RX_StateHash x = "hash" ∧
  ∃ health, (RM_GetRegionHealth "eu" (vm_regionManager live_vm)).2 = Ok health ∧ hs_Status health = "healthy".
Proof.
  destruct live_run.2 as [x| | |] eqn:E; [|vm_compute in E; discriminate..].
  exists x. split; [done|]. split; [vm_compute in E; by injection E as <-|].
  refine (proj1 (ExecuteInRegion_sound rust_host rust_host (mkTiming sample_now 0 0 0 true) (Ok "k") "eu"
    (ActSendEvent (mkSendEvent "obj" "f" "p" (unmeasured "a", unmeasured "b") "eu")) live_vm live_run.1 x _)).
  rewrite <-E. apply surjective_pairing.
Defined.

Lemma ExecuteInRegion_never_succeeds_witness :
  ∃ e, (ExecuteInRegion rust_host rust_host (mkTiming sample_now 0 0 0 true) (Ok "k") "eu" ActOther
    (sample_vm sample_manager)).2 = Err (Wrapf "failed to get region health" e).
Proof.
  apply (ExecuteInRegion_never_succeeds (MR := canonical_MapRange) {[ 1%nat := sample_config ]} (∅ : gmap string string)).
  - intros a c [_ <-]%lookup_singleton_Some. exact sample_named.
  - intros r c Hr H. vm_compute in H. done.
  - intros r Hr. by vm_compute.
  - apply rtc_refl.
  - by vm_compute.
Defined.

Lemma initialized_vm_accepts_no_task_witness :
  (SubmitTask sample_now None false (Some 1%nat)
     (set_task_table {[ 1%nat := Coordinator.mkTask "t" [] "" [] 0 "" ]}
       (NewCoordinator (B := gmap string string) (init_coordConfig "c") ∅ sample_heap))).2 ≠ Ok tt.
Proof.
  apply (initialized_vm_accepts_no_task (Ok tt) "c" (∅ : gmap string string) sample_heap).
  apply rtc_once. by apply (step_new_task (Ok tt) 1%nat).
Defined.

Lemma Initialize_fails_witness :
  (Initialize "c" (∅ : gmap string string) sample_heap ver_state ∅ ∅ rust_host (λ _, true) sample_now (Ok "k")
    (sample_vm sample_manager)).2 ≠ Ok tt.
Proof.
  apply (Initialize_fails ErrNotFound).
  - reflexivity.
  - reflexivity.
  - intros H. vm_compute in H. discriminate.
  - intros r [client Hc]. split; [intros ->; vm_compute in Hc; discriminate|by vm_compute].
Defined.
