(* ===== verification/VMApi.v ===== *)
(** The outward side of the VM: its queries ([vm/vm.go]), the JSON-RPC server over
    them ([api/jsonrpc/server.go], [vm/server.go]), the health and metrics endpoints
    ([vm/core.go]), the clients of enclaves ([vm/tee_client.go], [vm/config.go]) and
    the constructor [New].

    The server is written against [Backend], the interface the VM implements; an
    answer of an HTTP handler is its status code and what is encoded in its body. *)

From S2P Require Import Prelude GoTime RFC3339 Float64 KV Core Channel Worker Coordinator CoordinatorFacts Storage Actions.
From S2P Require Import StateManager TimeServer Verifier RangeState RegionConfig Balancer RegionManager RegionStateStore.
From S2P Require Import RegionManagerFacts CodeValidator TEE TEEFacts Compute ComputeFacts VMCore VMCoreFacts.
From Stdlib Require Import ZArith Lia Ascii String.
From stdpp Require Import base tactics option list relations strings pretty gmap.

Local Open Scope Z_scope.

(** * Answers ([api/jsonrpc/types.go]) *)

Record RPCWorker : Type := mkRPCWorker {
  rw_ID : string;
  rw_EnclaveType : string;
  rw_Status : string;
  rw_ActiveSince : Time;
  rw_TasksHandled : Z;
}.

Record RPCTask : Type := mkRPCTask {
  rt_ID : string;
  rt_Status : string;
  rt_CreatedAt : Time;
  rt_WorkerIDs : list string;
  rt_Progress : float64;
  rt_Error : string;
}.

(** [string(status)] of the number of a status: the character with that code. *)
Definition status_code (st : WorkerStatus) : Z :=
  match st with WorkerStatusIdle => 0 | WorkerStatusActive => 1 | WorkerStatusError => 2 end.
Definition status_string (st : WorkerStatus) : string := String (ascii_of_N (Z.to_N (status_code st))) "".

Definition rpc_worker (now : Time) (w : Worker) : RPCWorker :=
  mkRPCWorker (ID w) (vm_determineEnclaveType (WEnclaveID w)) (status_string (WStatus w)) now 0.
Definition rpc_task (now : Time) (w : Worker) : RPCTask :=
  mkRPCTask ("task-" +s+ ID w) (status_string (WStatus w)) now [ID w] f_one "".

(** * The server over its backend ([api/jsonrpc/server.go]) *)

Class Backend (W : Type) : Type := {
  be_GetObject : string → string → go W (option ObjectState);
  be_GetValidEnclave : string → string → go W EnclaveInfo;
  be_GetRegionWorkers : Time → string → go W (list RPCWorker);
  be_GetRegionTasks : Time → string → go W (list RPCTask);
}.

(** A handler's reply is written only when the backend answers. *)
Section server.
Context {W : Type} `{!Backend W}.

Definition RPC_GetObject (ObjectID RegionID : string) : go W (option ObjectState) :=
  wrap "failed to get object" (be_GetObject ObjectID RegionID).
Definition RPC_GetValidEnclave (EnclaveID RegionID : string) : go W EnclaveInfo :=
  wrap "failed to get enclave info" (be_GetValidEnclave EnclaveID RegionID).
Definition RPC_GetRegionWorkers (now : Time) (RegionID : string) : go W (list RPCWorker) :=
  wrap "failed to get workers" (be_GetRegionWorkers now RegionID).
Definition RPC_GetRegionTasks (now : Time) (RegionID : string) : go W (list RPCTask) :=
  wrap "failed to get tasks" (be_GetRegionTasks now RegionID).
End server.

(** * The VM's server ([vm/server.go]): what it can do depends on the methods the VM
    turns out to have *)

Record ChainVM (W : Type) : Type := mkChainVM {
  cv_ReadBalance : option (string → go W Z);
  cv_ExecuteInRegion : option (string → string → string → string → go W (string * string * string));
  cv_GetObject : option (string → string → go W (option ObjectState));
  cv_GetValidEnclave : option (string → string → go W EnclaveInfo);
  cv_GetRegionHealth : option (string → go W HealthStatus);
  cv_GetRegionMetrics : option (string → string → go W TEEPairMetrics);
}.
Arguments mkChainVM {_} _ _ _ _ _ _.
Arguments cv_ReadBalance {_} _.
Arguments cv_ExecuteInRegion {_} _.
Arguments cv_GetObject {_} _.
Arguments cv_GetValidEnclave {_} _.
Arguments cv_GetRegionHealth {_} _.
Arguments cv_GetRegionMetrics {_} _.

Record ExecuteReply : Type := mkExecuteReply {
  xr_Success : bool;
  xr_StateHash : string;
  xr_Output : string;
  xr_Timestamp : string;
}.

Section vm_server.
Context {W : Type} (vm : ChainVM W).

Definition Server_Balance (Address : string) : go W Z :=
  match cv_ReadBalance vm with
  | None => fail (Errorf "balance reading not supported")
  | Some read => read Address
  end.

Definition Server_Execute (RegionID IDTo FunctionCall Parameters : string) : go W ExecuteReply :=
  fail_if (bool_decide (RegionID = "")) (Errorf "region ID required") ;;
  match cv_ExecuteInRegion vm with
  | None => fail (Errorf "regional execution not supported")
  | Some exec =>
      r ← exec RegionID IDTo FunctionCall Parameters;
      let '(stateHash, output, timestamp) := r in
      mret (mkExecuteReply true stateHash output timestamp)
  end.

Definition Server_GetObject (ObjectID RegionID : string) : go W (option ObjectState) :=
  match cv_GetObject vm with
  | None => fail (Errorf "VM does not implement GetObject")
  | Some get => get ObjectID RegionID
  end.

Definition Server_GetValidEnclave (EnclaveID RegionID : string) : go W EnclaveInfo :=
  match cv_GetValidEnclave vm with
  | None => fail (Errorf "VM does not implement GetValidEnclave")
  | Some get => get EnclaveID RegionID
  end.

Definition Server_GetRegionHealth (RegionID : string) : go W HealthStatus :=
  match cv_GetRegionHealth vm with
  | None => fail (Errorf "VM does not implement GetRegionHealth")
  | Some get => get RegionID
  end.

Definition Server_GetRegionMetrics (RegionID PairID : string) : go W TEEPairMetrics :=
  match cv_GetRegionMetrics vm with
  | None => fail (Errorf "VM does not implement GetRegionMetrics")
  | Some get => get RegionID PairID
  end.
End vm_server.

(** * Clients of enclaves ([vm/tee_client.go], [vm/config.go]) *)

Record TEEClient (Conn : Type) : Type := mkTEEClient { tc_conn : Conn; tc_teeType : Z }.
Arguments mkTEEClient {_} _ _.
Arguments tc_conn {_} _.
Arguments tc_teeType {_} _.

Record VMRegionConfig : Type := mkVMRegion { vr_ID : string; vr_SGXEndpoint : string; vr_SEVEndpoint : string }.

Record NodeClientConfig : Type := mkNodeConfig {
  nf_Endpoint : string;
  nf_ControllerPath : string;
  nf_WasmPath : string;
}.

Record VMConfig : Type := mkVMConfig {
  vc_NetworkID : Z;
  vc_ChainID : string;
  vc_MaxCodeSize : Z;
  vc_ComputeNodeEndpoints : gmap string NodeClientConfig;
  vc_ControllerPath : string;
  vc_WasmPath : string;
  vc_Regions : list VMRegionConfig;
  vc_VerificationOnly : bool;
  vc_TEEConfig : option TEEPairConfig;
}.

Definition DefaultNodeClientConfig : NodeClientConfig :=
  mkNodeConfig "" "/usr/local/bin/tee-controller" "/usr/local/bin/tee-wasm-module.wasm".

Definition vm_DefaultConfig : VMConfig :=
  mkVMConfig 0 "" (1024 * 1024) ∅ "/usr/local/bin/tee-controller" "/usr/local/bin/tee-wasm-module.wasm" [] false
    (Some (mkTEEPairConfig "default" "/default/sgx-endpoint" "/default/sev-endpoint" 100 1
       (mkThresholds f_zero f_zero 0 f_zero) (mkHealthCheck 0 0 0) (mkResourceLimits f_zero f_zero 0)
       (mkAttestationSettings false 0 0))).

(** The package's own type of pair configurations has the fields of that of package
    [regions]. *)
Definition vm_DefaultTEEPairConfig : TEEPairConfig :=
  mkTEEPairConfig "default" "localhost:50051" "localhost:50052" 100 1
    (mkThresholds (f_lit 95 2) (f_lit 1 1) Second (f_lit 8 1))
    (mkHealthCheck (30 * Second) 3 1)
    (mkResourceLimits (f_lit 8 1) (f_lit 8 1) 1000)
    (mkAttestationSettings true (10 * Second) (24 * 60 * Minute)).

Section clients.
Context {Conn : Type} `{!Grpc Conn}.

Definition NewTEEClient (endpoint : string) (teeType : Z) : outcome (TEEClient Conn) :=
  conn ← wrapped "failed to dial TEE endpoint" (dial endpoint);
  Ok (mkTEEClient conn teeType).
Definition TEEClient_Close (c : TEEClient Conn) : verdict :=
  match conn_Close (tc_conn c) with None => Ok tt | Some e => Err e end.
Definition GetType (c : TEEClient Conn) : Z := tc_teeType c.
Definition TEEClient_Execute (c : TEEClient Conn) (req : RequestMsg) : outcome ResultMsg :=
  wrapped "TEE execution failed" (rpc_Execute (tc_conn c) req).
Definition TEEClient_ValidateConnection (ready : bool) (c : TEEClient Conn) : verdict :=
  check (negb ready) (Errorf "connection not ready").

(** The clients of a region: SGX first, closed when SEV cannot be dialled. *)
Definition NewRegionClient (rc : VMRegionConfig) : outcome (TEEClient Conn * TEEClient Conn) :=
  sgx ← wrapped "failed to create SGX client" (NewTEEClient (vr_SGXEndpoint rc) CodeValidator.TEETypeSGX);
  sev ← wrapped "failed to create SEV client" (NewTEEClient (vr_SEVEndpoint rc) CodeValidator.TEETypeSEV);
  Ok (sgx, sev).
Definition RegionClient_Close (p : TEEClient Conn * TEEClient Conn) : verdict :=
  all_closed "close region client errors"
    (close_errors [("close SGX client", tc_conn p.1); ("close SEV client", tc_conn p.2)]).
End clients.

(** * The VM *)

Section vm.
Context {Conn St B S M : Type} `{!Grpc Conn, !RegionStorage St, !BaseStore B, !Mutable S, !Mutable M, !MerkleDB M, !MapRange}.
Context `{!Json (gomap string), !Json (gomap json), !Json CoordinationState, !Json Event, !Json Message, !Json StoredEnclave}.
Context `{!Json channel_alias, !Json worker_alias, !Json Coordinator.Region, !Json rustExecutionResult}.
Abbreviation VM := (ShuttleVM Conn St B S).

(** ** Queries ([vm/vm.go]) *)

Definition GetWorkerIDs : go (Coordinator B) (list string) :=
  with_mu_read (gets (λ c, (range_map 0 (workers c)).*1)).

(** The workers of the ids, as each is looked up again. *)
Fixpoint known_workers (ids : list string) : go (Coordinator B) (list Worker) :=
  match ids with
  | [] => mret []
  | id :: ids' =>
      w ← GetWorker id;
      ws ← known_workers ids';
      mret (match w with Some w => w :: ws | None => ws end)
  end.

Definition vm_GetRegionWorkers (now : Time) (regionID : string) : go VM (list RPCWorker) :=
  ids ← on_vm_coordinator GetWorkerIDs;
  ws ← on_vm_coordinator (known_workers ids);
  mret (rpc_worker now <$> ws).

Definition vm_GetRegionTasks (now : Time) (regionID : string) : go VM (list RPCTask) :=
  ids ← on_vm_coordinator GetWorkerIDs;
  ws ← on_vm_coordinator (known_workers ids);
  mret (rpc_task now <$> ws).

(** The queries of the state go to the VM's state manager. *)
Definition Shuttle_GetObject (objectID regionID : string) : go (StateManager S B M) (option ObjectState) :=
  wrap "failed to get object" (SM_GetObject objectID regionID).

Definition Shuttle_GetValidEnclave (enclaveID regionID : string) : go (StateManager S B M) EnclaveInfo :=
  value ← wrap "failed to get enclave info" (SM_GetValue (makeEnclaveKey enclaveID regionID));
  info ← wrap "failed to unmarshal enclave info" (lift (Unmarshal value : outcome StoredEnclave));
  mret (mkEnclaveInfo "" (SE_Measurement info) (SE_ValidFrom info) (SE_ValidUntil info) (SE_EnclaveType info)
          (SE_RegionID info) "").

(** The VM with its state manager. *)
Record Node : Type := mkVMNode { nd_vm : VM; nd_state : StateManager S B M }.
Definition on_vm {A} (m : go VM A) : go Node A := zoom nd_vm (λ v n, mkVMNode v (nd_state n)) m.
Definition on_sm {A} (m : go (StateManager S B M) A) : go Node A := zoom nd_state (λ s n, mkVMNode (nd_vm n) s) m.

#[global] Instance vm_Backend : Backend Node := {|
  be_GetObject id r := on_sm (Shuttle_GetObject id r);
  be_GetValidEnclave id r := on_sm (Shuttle_GetValidEnclave id r);
  be_GetRegionWorkers now r := on_vm (vm_GetRegionWorkers now r);
  be_GetRegionTasks now r := on_vm (vm_GetRegionTasks now r);
|}.

(** The methods the VM has of those [vm/server.go] asks for: no [ReadBalance], and an
    [ExecuteInRegion] of another type. *)
Definition shuttle_methods : ChainVM Node :=
  mkChainVM None None (Some (λ id r, on_sm (Shuttle_GetObject id r))) (Some (λ id r, on_sm (Shuttle_GetValidEnclave id r)))
    (Some (λ r, on_vm (vm_GetRegionHealth r))) (Some (λ r p, on_vm (vm_GetRegionMetrics r p))).

(** ** HTTP endpoints ([vm/core.go]) *)

Inductive Body : Type :=
  | BodyText (text : string)
  | BodyError (e : goerr)
  | BodyHealth (h : HealthStatus)
  | BodyPairs (pairs : list TEEPair)
  | BodyMetrics (m : TEEPairMetrics).

Definition StatusOK : Z := 200.
Definition StatusBadRequest : Z := 400.
Definition StatusInternalServerError : Z := 500.

Definition answer {A} (enc : A → Body) (r : A + goerr) : Z * Body :=
  match r with inl a => (StatusOK, enc a) | inr e => (StatusInternalServerError, BodyError e) end.

Definition handleHealthCheck (region : string) : go VM (Z * Body) :=
  if bool_decide (region = "") then mret (StatusBadRequest, BodyText "region ID required") else
  r ← try (on_manager (RM_GetRegionHealth region)); mret (answer BodyHealth r).

Definition handleMetrics (region pair : string) : go VM (Z * Body) :=
  if bool_decide (region = "") then mret (StatusBadRequest, BodyText "region ID required") else
  if bool_decide (pair = "") then r ← try (on_manager (GetTEEPairs region)); mret (answer BodyPairs r) else
  r ← try (on_manager (RM_GetMetrics region pair)); mret (answer BodyMetrics r).

(** ** Construction *)

Definition set_computeNodes nodes (vm : VM) : VM :=
  mkVM (vm_VerificationOnly vm) (vm_Regions vm) (vm_state vm) nodes (vm_codeValidator vm)
    (vm_teeValidator vm) (vm_validators vm) (vm_regionManager vm) (vm_coordinator vm).

Definition new_client (c : NodeClientConfig) : outcome (NodeClient Conn) :=
  NewNodeClient (nf_Endpoint c) (nf_ControllerPath c) (nf_WasmPath c).

(** The nodes of the configuration, by region; the first whose [grpc.Dial] gives an
    error ends the loop.  A dial does not wait for the connection. *)
Fixpoint connect_nodes (l : list (string * NodeClientConfig)) (nodes : gmap string (NodeClient Conn)) :
    outcome (gmap string (NodeClient Conn)) :=
  match l with
  | [] => Ok nodes
  | (region, c) :: l' =>
      client ← wrapped ("failed to connect to compute node for region " +s+ region) (new_client c);
      connect_nodes l' (<[region := client]> nodes)
  end.

(** [merkle] is how [merkledb.New] ends and [chainID] the verdict of [ids.FromString];
    the monitor's goroutines start.  [NewStateManager] ([NewStateManager_ok]) and
    [NewCoordinator] have error results and never return an error, so [s] and the
    coordinator are there. *)
Definition New (merkle chainID : verdict) (cfg : VMConfig) (base : B) (chan_heap : Heap) (s : S)
    (heap : gmap nat RegionConfig) (store : St) : outcome VM :=
  wrapped "failed to create merkledb" merkle ;;
  nodes ← connect_nodes (range_map 0 (vc_ComputeNodeEndpoints cfg)) ∅;
  wrapped "invalid chain ID" chainID ;;
  Ok (mkVM (vc_VerificationOnly cfg) (vr_ID <$> vc_Regions cfg) s nodes (NewCodeValidator (vc_MaxCodeSize cfg))
        NewValidator ∅ (NewRegionManager heap store) (NewCoordinator (new_coordConfig (vc_ChainID cfg)) base chan_heap)).

(** The two clients of a pair, by endpoint. *)
Definition connect_pair (ctl wasm : string) (p : TEEPair) : go VM unit :=
  sgxClient ← wrap "failed to create SGX client" (lift (new_client (mkNodeConfig (tp_SGXEndpoint p) ctl wasm)));
  sevClient ← wrap "failed to create SEV client" (lift (new_client (mkNodeConfig (tp_SEVEndpoint p) ctl wasm)));
  modify (λ vm, set_computeNodes
    (<[tp_SEVEndpoint p := sevClient]> (<[tp_SGXEndpoint p := sgxClient]> (vm_computeNodes vm))) vm).

Definition InitializeTEEPairs (ctl wasm : string) : go VM unit :=
  regions ← on_manager ListRegions;
  for_each (λ regionID,
    pairs ← on_manager (GetTEEPairs regionID);
    for_each (connect_pair ctl wasm) pairs) regions.
End vm.
