(* ===== verification/VMApiFacts.v ===== *)
(** What the VM's interface answers: its workers whatever the region asked for, its
    health never, an enclave not where enclaves are registered; and which compute
    nodes it knows after construction and after its pairs are set up. *)

From S2P Require Import Prelude GoTime RFC3339 Float64 KV Core Channel Worker Coordinator CoordinatorFacts Storage Actions.
From S2P Require Import StateManager StateManagerFacts TimeServer Verifier RangeState RegionConfig Balancer RegionManager RegionStateStore.
From S2P Require Import RegionManagerFacts CodeValidator TEE TEEFacts Compute ComputeFacts VMCore VMCoreFacts VMApi.
From Stdlib Require Import ZArith Lia Ascii String.
From stdpp Require Import base tactics option list relations strings pretty gmap.

Local Open Scope Z_scope.

Section vm.
Context {Conn St B S M : Type} `{!Grpc Conn, !RegionStorage St, !BaseStore B, !Mutable S, !Mutable M, !MerkleDB M, !MapRange}.
Context `{!Json (gomap string), !Json (gomap json), !Json CoordinationState, !Json Event, !Json Message, !Json StoredEnclave}.
Context `{!Json channel_alias, !Json worker_alias, !Json Coordinator.Region, !Json rustExecutionResult}.
Abbreviation VM := (ShuttleVM Conn St B S).
Abbreviation ND := (VMApi.Node (Conn := Conn) (St := St) (B := B) (S := S) (M := M)).
Implicit Types (vm : VM) (n : ND).

(** * Workers *)

Lemma known_workers_run (ids : list string) (c : Coordinator B) :
  mu c = false → known_workers ids c = (c, Ok (omap (λ id, workers c !! id) ids)).
Proof using Type.
  intros Hm. induction ids as [|id ids IH]; [done|]. simpl.
  rewrite (bind_ok _ _ c c (workers c !! id)) by (unfold GetWorker, with_mu_read; by rewrite Hm).
  rewrite (bind_ok _ _ c c _ IH). by destruct (workers c !! id).
Qed.

(** The list the workers are reported in. *)
Definition listed_workers (c : Coordinator B) : list Worker := omap (λ id, workers c !! id) (range_map 0 (workers c)).*1.

Lemma listed_workers_perm (c : Coordinator B) : listed_workers c ≡ₚ (map_to_list (workers c)).*2.
Proof using Type.
  unfold listed_workers. rewrite range_map_perm.
  assert (∀ l, (∀ p, p ∈ l → workers c !! p.1 = Some p.2) → omap (λ id, workers c !! id) l.*1 = l.*2) as Hom.
  { induction l as [|[k w] l IH]; [done|]. intros Hl. pose proof (Hl (k, w) ltac:(left)) as Hk. simpl in *. rewrite Hk. f_equal. apply IH.
    intros p Hp. apply Hl. by right. }
  rewrite Hom; [done|]. intros [k w] Hp. by apply elem_of_map_to_list.
Qed.

Lemma worker_ids_then {A} (f : list Worker → A) vm :
  mu (vm_coordinator vm) = false →
  (ids ← on_vm_coordinator GetWorkerIDs; ws ← on_vm_coordinator (known_workers ids); mret (f ws)) vm =
  (vm, Ok (f (listed_workers (vm_coordinator vm)))).
Proof using Type.
  intros Hm. destruct vm as [v rg st ns cv tv vs rm c]. cbn [vm_coordinator] in Hm.
  rewrite (bind_ok _ _ _ (mkVM v rg st ns cv tv vs rm c) (range_map 0 (workers c)).*1).
  - rewrite (bind_ok _ _ _ (mkVM v rg st ns cv tv vs rm c) (listed_workers c)); [done|].
    unfold on_vm_coordinator, zoom. simpl. by rewrite known_workers_run.
  - unfold on_vm_coordinator, zoom, GetWorkerIDs, with_mu_read. simpl. by rewrite Hm.
Qed.

(** The RPC queries for the workers and the tasks of a region answer with every
    worker of the coordinator, in some order and whatever the region: a task per
    worker, all complete, and a status that is one control character. *)
Theorem RPC_workers_spec now r n :
  mu (vm_coordinator (nd_vm n)) = false →
  ∃ ws, ws ≡ₚ (map_to_list (workers (vm_coordinator (nd_vm n)))).*2 ∧
    RPC_GetRegionWorkers now r n = (n, Ok (rpc_worker now <$> ws)) ∧
    RPC_GetRegionTasks now r n = (n, Ok (rpc_task now <$> ws)) ∧
    ∀ w, w ∈ ws → ∃ a, rw_Status (rpc_worker now w) = String a "" ∧ (N_of_ascii a < 3)%N.
Proof using Type.
  intros Hm. exists (listed_workers (vm_coordinator (nd_vm n))). split; [apply listed_workers_perm|].
  destruct n as [vm s]. cbn [nd_vm] in *.
  split; [|split].
  - unfold RPC_GetRegionWorkers, wrap, be_GetRegionWorkers, vm_Backend, on_vm, zoom, vm_GetRegionWorkers. cbn [nd_vm].
    by rewrite worker_ids_then.
  - unfold RPC_GetRegionTasks, wrap, be_GetRegionTasks, vm_Backend, on_vm, zoom, vm_GetRegionTasks. cbn [nd_vm].
    by rewrite worker_ids_then.
  - intros w _. eexists. split; [reflexivity|]. by destruct (WStatus w).
Qed.

(** * Enclaves *)

Context `{!KVLaws S}.

Lemma enclave_key_not_regional e r : IsRegionalKey (makeEnclaveKey e r) = None.
Proof using Type. reflexivity. Qed.

Lemma enclave_key_not_valid_key e r id : makeEnclaveKey e r ≠ validEnclavesPrefix +s+ id.
Proof using Type. unfold makeEnclaveKey, validEnclavesPrefix. simpl. intros E. discriminate E. Qed.

(** The answer is a function of one entry of the backing store. *)
Lemma Shuttle_GetValidEnclave_run e r (s : StateManager S B M) :
  (Shuttle_GetValidEnclave e r s).2 =
  match contents (sm_backing s) !! makeEnclaveKey e r with
  | None => Err (Wrapf "failed to get enclave info" ErrNotFound)
  | Some v =>
      info ← wrapped "failed to unmarshal enclave info" (Unmarshal v : outcome StoredEnclave);
      Ok (mkEnclaveInfo "" (SE_Measurement info) (SE_ValidFrom info) (SE_ValidUntil info) (SE_EnclaveType info)
            (SE_RegionID info) "")
  end.
Proof using Type.
  unfold Shuttle_GetValidEnclave, SM_GetValue. rewrite enclave_key_not_regional.
  unfold wrap, on_backing, zoom, getValue, mbind, go_bind. rewrite mu_GetValue_contents.
  destruct (contents (sm_backing s) !! _) as [v|]; [|done]. unfold lift. by destruct (Unmarshal v).
Qed.

(** The VM looks enclaves up by region and id, under keys of its own: an enclave
    set as valid changes none of its answers. *)
Theorem valid_enclave_not_answered e info e' r (s : StateManager S B M) :
  (Shuttle_GetValidEnclave e' r (on_backing (SetValidEnclave e info) s).1).2 = (Shuttle_GetValidEnclave e' r s).2.
Proof using Type KVLaws0.
  rewrite !Shuttle_GetValidEnclave_run. unfold on_backing, zoom, SetValidEnclave.
  pose proof (mu_Insert_contents (validEnclavesPrefix +s+ e) (Marshal info) (sm_backing s)) as Hc.
  destruct (mu_Insert _ _ (sm_backing s)) as [b o]. simpl in *. rewrite Hc, lookup_insert_ne; [done|].
  apply not_eq_sym, enclave_key_not_valid_key.
Qed.

(** * Compute nodes *)

(** A table of nodes that has each configured node under its key. *)
Lemma connect_nodes_run l (nodes : gmap string (NodeClient Conn)) :
  NoDup l.*1 →
  match connect_nodes l nodes with
  | Ok nodes' => ∀ k, match (list_to_map l : gmap string NodeClientConfig) !! k with
                      | Some c => ∃ client, new_client c = Ok client ∧ nodes' !! k = Some client
                      | None => nodes' !! k = nodes !! k
                      end
  | _ => ∃ k c, (k, c) ∈ l ∧ ∀ client, new_client (Conn := Conn) c ≠ Ok client
  end.
Proof using Type.
  revert nodes. induction l as [|[k c] l IH]; intros nodes; [done|]. intros [Hk Hl]%NoDup_cons.
  cbn [connect_nodes]. destruct (new_client c) as [client|er|w|w] eqn:E; [|exists k, c; split; [left|by rewrite E]..].
  simpl. specialize (IH (<[k:=client]> nodes) Hl). destruct (connect_nodes l _) as [nodes'|er|w|w].
  - intros k'. specialize (IH k'). simpl. rewrite lookup_insert. case_decide as Hd.
    + subst k'. rewrite (not_elem_of_list_to_map_1 l k Hk), lookup_insert_eq in IH. eauto.
    + destruct ((list_to_map l : gmap string NodeClientConfig) !! k'); [done|]. by rewrite lookup_insert_ne in IH.
  - destruct IH as (k' & c' & ? & ?). exists k', c'. split; [by right|done].
  - destruct IH as (k' & c' & ? & ?). exists k', c'. split; [by right|done].
  - destruct IH as (k' & c' & ? & ?). exists k', c'. split; [by right|done].
Qed.

Lemma range_map_list_to_map {A} i (m : gmap string A) : (list_to_map (range_map i m) : gmap string A) = m ∧ NoDup (range_map i m).*1.
Proof using Type.
  assert (NoDup (range_map i m).*1) as Hn by (rewrite range_map_perm; apply NoDup_fst_map_to_list).
  split; [|done]. rewrite <-(list_to_map_to_list m) at 2. apply list_to_map_proper; [done|apply range_map_perm].
Qed.

(** The VM is constructed exactly when the database opens, the chain id parses and no
    dial of a configured compute node gives an error (a dial does not wait for the node),
    and then it has a client for each node, under the name of its region. *)
Theorem New_spec merkle chainID cfg (base : B) hp (s : S) heap (store : St) :
  match New merkle chainID cfg base hp s heap store with
  | Ok vm =>
      merkle = Ok tt ∧ chainID = Ok tt ∧
      ∀ region, match vc_ComputeNodeEndpoints cfg !! region with
                | Some c => ∃ client, new_client (Conn := Conn) c = Ok client ∧ vm_computeNodes vm !! region = Some client
                | None => vm_computeNodes vm !! region = None
                end
  | _ => merkle ≠ Ok tt ∨ chainID ≠ Ok tt ∨
         ∃ region c, vc_ComputeNodeEndpoints cfg !! region = Some c ∧ ∀ client, new_client (Conn := Conn) c ≠ Ok client
  end.
Proof using Type.
  unfold New. destruct merkle as [[]|e|w|w]; [|by left..]. simpl.
  destruct (range_map_list_to_map 0 (vc_ComputeNodeEndpoints cfg)) as [Hl Hn].
  pose proof (connect_nodes_run _ ∅ Hn) as Hrun. rewrite Hl in Hrun.
  assert (∀ k c, (k, c) ∈ range_map 0 (vc_ComputeNodeEndpoints cfg) → vc_ComputeNodeEndpoints cfg !! k = Some c) as Hin.
  { intros k c. rewrite range_map_perm. apply elem_of_map_to_list. }
  destruct (connect_nodes _ ∅) as [nodes|e|w|w]; simpl; [|naive_solver..].
  destruct chainID as [[]|e|w|w]; simpl; [|by right; left..].
  split; [done|]. split; [done|]. intros region. specialize (Hrun region).
  by destruct (vc_ComputeNodeEndpoints cfg !! region); [|rewrite lookup_empty in Hrun].
Qed.

(** ** The nodes of the pairs *)

(** The node of an endpoint is known, by its endpoint. *)
Definition reaches (ctl wasm e : string) vm : Prop :=
  ∃ client, new_client (mkNodeConfig e ctl wasm) = Ok client ∧ vm_computeNodes vm !! e = Some client.

Lemma GetTEEPairs_pure r (m : RegionManager St) : (GetTEEPairs r m).1 = m.
Proof using Type.
  unfold GetTEEPairs, locked. destruct (mg_deadlocked m); [done|]. go_unfold. destruct (mg_cache m !! r); [|done].
  unfold deref. by destruct (mg_heap m !! _).
Qed.

Lemma ListRegions_pure (m : RegionManager St) : (ListRegions m).1 = m.
Proof using Type. unfold ListRegions, locked. by destruct (mg_deadlocked m). Qed.

Lemma on_manager_pure_ok {A} (f : go (RegionManager St) A) vm vm' a :
  (f (vm_regionManager vm)).1 = vm_regionManager vm → on_manager f vm = (vm', Ok a) →
  vm' = vm ∧ (f (vm_regionManager vm)).2 = Ok a.
Proof using Type.
  intros Hp (m & E & ->)%zoom_ok_inv. rewrite E in *. simpl in *. subst m. by destruct vm.
Qed.

Lemma connect_pair_ok ctl wasm p vm vm' :
  connect_pair ctl wasm p vm = (vm', Ok tt) →
  vm_regionManager vm' = vm_regionManager vm ∧
  (reaches ctl wasm (tp_SGXEndpoint p) vm' ∧ reaches ctl wasm (tp_SEVEndpoint p) vm') ∧
  ∀ e, reaches ctl wasm e vm → reaches ctl wasm e vm'.
Proof using Type.
  unfold connect_pair. intros E.
  apply bind_ok_inv in E as (c1 & ? & [-> E1]%wrap_ok_inv%lift_ok_inv & E).
  apply bind_ok_inv in E as (c2 & ? & [-> E2]%wrap_ok_inv%lift_ok_inv & E). injection E as <-.
  split; [done|]. unfold reaches. simpl. split; [split|].
  - rewrite lookup_insert. case_decide as Hd; [|rewrite lookup_insert_eq; eauto]. rewrite Hd in E2. naive_solver.
  - rewrite lookup_insert_eq. eauto.
  - intros e (c & Ec & Hc). rewrite !lookup_insert. repeat case_decide; subst; eauto.
Qed.

Lemma for_each_establishes {T A} (I : T → Prop) (P : A → T → Prop) (f : A → go T unit) xs s s' :
  (∀ x s1 s2, I s1 → f x s1 = (s2, Ok tt) → I s2 ∧ P x s2 ∧ ∀ y, P y s1 → P y s2) →
  for_each f xs s = (s', Ok tt) → I s → I s' ∧ (∀ x, x ∈ xs → P x s') ∧ ∀ y, P y s → P y s'.
Proof using Type.
  intros Hf. revert s. induction xs as [|x xs IH]; intros s E HI; cbn [for_each] in E.
  - injection E as <-. split; [done|]. split; [|done]. intros x Hx. by apply not_elem_of_nil in Hx.
  - apply bind_ok_inv in E as ([] & s1 & E1 & E2). destruct (Hf _ _ _ HI E1) as (HI1 & Hx & Hk).
    destruct (IH s1 E2 HI1) as (HI' & Hall & Hk'). split; [done|]. split; [|eauto].
    intros y [->|Hy]%elem_of_cons; eauto.
Qed.

(** When the pairs have been set up, the VM has a client dialled at its endpoint
    for both enclaves of every pair of every region it lists. *)
Theorem InitializeTEEPairs_connects ctl wasm vm vm' :
  InitializeTEEPairs ctl wasm vm = (vm', Ok tt) →
  vm_regionManager vm' = vm_regionManager vm ∧
  ∀ regions r, (ListRegions (vm_regionManager vm)).2 = Ok regions → r ∈ regions →
  ∃ pairs, (GetTEEPairs r (vm_regionManager vm)).2 = Ok pairs ∧
    ∀ p, p ∈ pairs → reaches ctl wasm (tp_SGXEndpoint p) vm' ∧ reaches ctl wasm (tp_SEVEndpoint p) vm'.
Proof using Type.
  unfold InitializeTEEPairs. intros E. apply bind_ok_inv in E as (regions & vm1 & El & E).
  apply on_manager_pure_ok in El as [-> El]; [|apply ListRegions_pure].
  set (rm := vm_regionManager vm) in *.
  apply (for_each_establishes (λ v, vm_regionManager v = rm)
    (λ r v, ∃ pairs, (GetTEEPairs r rm).2 = Ok pairs ∧
       ∀ p, p ∈ pairs → reaches ctl wasm (tp_SGXEndpoint p) v ∧ reaches ctl wasm (tp_SEVEndpoint p) v)) in E;
    [destruct E as (Hrm & Hall & _); split; [done|]; rewrite El; naive_solver| |done].
  intros r s1 s2 Hs1 Er. apply bind_ok_inv in Er as (pairs & s1' & Ep & Er).
  apply on_manager_pure_ok in Ep as [-> Ep]; [|apply GetTEEPairs_pure]. rewrite Hs1 in Ep.
  destruct (for_each_ok_invariant (λ v, vm_regionManager v = rm ∧
    ∀ e, reaches ctl wasm e s1 → reaches ctl wasm e v) (connect_pair ctl wasm) pairs s1 s2) as [Hs2 Hk]; [|done|done|].
  { intros p v1 v2 (H1 & _ & H2)%connect_pair_ok [H3 H4]. split; [congruence|eauto]. }
  split; [done|]. split; [|intros y (ps & Hps & Hy); exists ps; split; [done|]; intros p Hp; destruct (Hy p Hp); eauto].
  exists pairs. split; [done|].
  apply (for_each_establishes (λ _, True) (λ p v,
    reaches ctl wasm (tp_SGXEndpoint p) v ∧ reaches ctl wasm (tp_SEVEndpoint p) v)) in Er as (_ & Hall & _); [done| |done].
  intros p v1 v2 _ (_ & H1 & H2)%connect_pair_ok. split; [done|]. split; [done|]. intros y [??]. eauto.
Qed.
End vm.

(** The health endpoint of a region that is named never shows its health. *)
Lemma handleHealthCheck_never_ok {Conn St B S} `{!RegionStorage St, !RegionStorageLaws St, MR : MapRange}
    heap (store : St) r (vm : ShuttleVM Conn St B S) :
  (∀ a c, heap !! a = Some c → named c) →
  (∀ r c, rs_id_ok r → v_config (rs_view store) r = Some c → named c) →
  (∀ r, rs_id_ok r → v_state (rs_view store) r "" = None) →
  rtc mgr_step (NewRegionManager heap store) (vm_regionManager vm) → rs_id_ok r → r ≠ "" →
  ∃ e, (handleHealthCheck r vm).2 = Ok (StatusInternalServerError, BodyError e).
Proof.
  intros Hh Hc Hst Hsteps Hr Hne. destruct (region_health_never_found heap store _ r Hh Hc Hst Hsteps Hr) as [e He].
  exists e. unfold handleHealthCheck. rewrite bool_decide_eq_false_2 by done.
  destruct (RM_GetRegionHealth r (vm_regionManager vm)) as [m o] eqn:E. simpl in He. subst o.
  unfold try, on_manager, zoom, mbind, go_bind. by rewrite E.
Qed.

(** Of the two default pair configurations the VM has, its own is valid and the one in
    its default configuration is not. *)
Lemma default_pairs_valid `{!FmtV} :
  TEEPairConfig_Validate vm_DefaultTEEPairConfig = Ok tt ∧
  ∀ c, vc_TEEConfig vm_DefaultConfig = Some c → TEEPairConfig_Validate c ≠ Ok tt.
Proof. split; [by vm_compute|]. intros c [= <-]. by vm_compute. Qed.

(** * Witnesses *)

#[local] Existing Instances echo_Grpc canonical_MapRange obj_Json json_Json coord_Json channel_Json channel_JsonLaws worker_Json.
#[local] Existing Instances region_Json rustResult_Json map_PrefixIter config_FJson state_FJson metrics_FJson.

(** A manager that lists the sample region and has its pairs cached. *)
Definition cached_manager : RegionManager (gmap string string) :=
  mkMgr {[ 1%nat := sample_config ]} {[ "eu" := 1%nat ]} {[ "eu" := 1%nat ]} (NewRegionBalancer None) ∅ ∅ ∅
    NewHealthChecker_thresholds ∅ false false.

Lemma InitializeTEEPairs_connects_witness :
  ∃ pairs, (GetTEEPairs "eu" cached_manager).2 = Ok pairs ∧
    ∀ p, p ∈ pairs → reaches "/ctl" "/wasm" (tp_SGXEndpoint p)
      (InitializeTEEPairs "/ctl" "/wasm" (sample_vm cached_manager)).1 ∧ reaches "/ctl" "/wasm" (tp_SEVEndpoint p)
      (InitializeTEEPairs "/ctl" "/wasm" (sample_vm cached_manager)).1.
Proof.
  refine (proj2 (InitializeTEEPairs_connects "/ctl" "/wasm" (sample_vm cached_manager)
    (InitializeTEEPairs "/ctl" "/wasm" (sample_vm cached_manager)).1 _) ["eu"] "eu" _ _).
  - assert ((InitializeTEEPairs "/ctl" "/wasm" (sample_vm cached_manager)).2 = Ok tt) as <- by (vm_compute; reflexivity).
    apply surjective_pairing.
  - vm_compute. reflexivity.
  - left.
Defined.

#[local] Existing Instances message_Json event_Json map_MerkleDB.
#[local] Instance enclave_Json : Json StoredEnclave := {|
  Marshal i := SE_Measurement i; Unmarshal v := Ok (mkStoredEnclave v zeroTime zeroTime "SGX" "eu") |}.

Definition sample_nd : VMApi.Node (Conn := string) (St := gmap string string) (B := gmap string string)
    (S := gmap string string) (M := gmap string string) :=
  mkVMNode (sample_vm cached_manager) fresh_sm.

Lemma RPC_workers_spec_witness : ∃ l, (RPC_GetRegionWorkers sample_now "nowhere" sample_nd).2 = Ok l.
Proof.
  destruct (RPC_workers_spec sample_now "nowhere" sample_nd) as (ws & _ & E & _); [reflexivity|].
  eexists. rewrite E. reflexivity.
Defined.
