(* ===== verification/Monitoring.v ===== *)
(** The VM over its life: the monitoring it starts ([startMonitoring] of [vm/core.go])
    and the requests it serves in between, composed of the balancer, the region manager,
    the compute nodes and the VM's own health monitor.

    The VM starts three loops: the performance monitor of the region manager, its own
    health monitor, and the collector of the balancer.  Their ticks interleave with each
    other and with requests. *)

From S2P Require Import Prelude GoTime RFC3339 Float64 KV Core Channel Worker Coordinator CoordinatorFacts CoordinatorState Storage Actions.
From S2P Require Import TimeServer Verifier RangeState RegionConfig Balancer RegionManager Background.
From S2P Require Import CodeValidator TEE TEEFacts Compute ComputeFacts VMCore VMCoreFacts VMApi VMApiFacts StateManager.
From S2P Require Import RegionManagerFacts ActionsFacts.
From Stdlib Require Import ZArith Lia Ascii String.
From stdpp Require Import base tactics option list relations strings pretty gmap.

Local Open Scope Z_scope.

(** * The three loops *)

Section monitoring.
Context {Conn St B S : Type} `{!Grpc Conn, !RegionStorage St, !BaseStore B, !Mutable S} `{MR : MapRange}.
Context `{!Json rustExecutionResult}.
Abbreviation VM := (ShuttleVM Conn St B S).

(** A tick of one of the loops, with what it sees: the clock, the host and the state of
    the connections. *)
Inductive vm_tick : Type :=
  | PerfTick (now : Time)
  | HealthTick (h : Host) (ready : NodeClient Conn → bool) (now : Time)
  | BalancerTick (now : Time).

(** A tick of [CollectMetrics]. *)
Definition collector_tick (now : Time) : go VM unit := on_balancer (modify (CollectMetrics_tick now)).

Definition run_tick (t : vm_tick) : go VM unit :=
  match t with
  | PerfTick now => try (on_manager (collectMetrics now)) ;; mret tt
  | HealthTick h ready now => MonitorTEEHealth_tick h ready now
  | BalancerTick now => collector_tick now
  end.

(** The loops run beside the caller until the monitoring context ends: any sequence of
    their ticks, each atomic.  A tick that fails or blocks ends none but its own loop; one
    that panics ends the process. *)
Fixpoint startMonitoring (ticks : list vm_tick) : go VM unit := λ vm,
  match ticks with
  | [] => (vm, Ok tt)
  | t :: ticks =>
      match run_tick t vm with
      | (vm', Panic w) => (vm', Panic w)
      | (vm', _) => startMonitoring ticks vm'
      end
  end.
End monitoring.

(** * What monitoring leaves alone *)

Section keeps.
Context {Conn St B S : Type} `{!Grpc Conn, !RegionStorage St, !BaseStore B, !Mutable S} `{MR : MapRange}.
Context `{!Json rustExecutionResult}.
Abbreviation VM := (ShuttleVM Conn St B S).

Definition vm_keeps (vm vm' : VM) : Prop :=
  vm_state vm' = vm_state vm ∧ vm_computeNodes vm' = vm_computeNodes vm ∧ vm_coordinator vm' = vm_coordinator vm ∧
  vm_validators vm' = vm_validators vm ∧ vm_Regions vm' = vm_Regions vm ∧
  keeps (vm_regionManager vm) (vm_regionManager vm').

#[local] Instance vm_keeps_preorder : PreOrder vm_keeps.
Proof using Type.
  split; [by intros vm; repeat split|]. intros a b c (?&?&?&?&?&K1) (?&?&?&?&?&K2).
  do 5 (split; [congruence|]). by etrans; [apply K1|apply K2].
Qed.

Lemma keeps_on_manager {A} (m : go (RegionManager St) A) : preserves keeps m → preserves vm_keeps (on_manager m).
Proof using Type.
  intros Hm vm. unfold on_manager, zoom. specialize (Hm (vm_regionManager vm)).
  destruct (m (vm_regionManager vm)) as [rm o]. by repeat split; apply Hm.
Qed.

Lemma keeps_on_balancer {A} (m : go RegionBalancer A) : preserves vm_keeps (on_balancer m).
Proof using Type.
  apply keeps_on_manager. intros s. unfold zoom. by destruct (m (mg_balancer s)).
Qed.

Lemma keeps_check h ready endpoint : preserves vm_keeps (try (λ vm : VM, (vm, checkTEEHealth h ready endpoint vm))).
Proof using Type. apply preserves_try. intros vm. reflexivity. Qed.

#[local] Hint Resolve keeps_on_manager keeps_on_balancer keeps_check preserves_collectMetrics preserves_ListRegions
  preserves_GetTEEPairs : pres_db.

Lemma keeps_tick t : preserves vm_keeps (run_tick t).
Proof using Type.
  destruct t; simpl; unfold collector_tick, MonitorTEEHealth_tick, monitor_pair, updateTEEStatus; solve_preserves idtac.
Qed.

(** C37: however the ticks of the VM's monitoring loops interleave, the state, the compute
    nodes, the coordinator and the validators of the VM and the configurations,
    thresholds and locks of its region manager stay as they are. *)
Theorem monitoring_keeps_configuration (ticks : list vm_tick) :
  preserves vm_keeps (startMonitoring ticks).
Proof using Type.
  induction ticks as [|t ticks IH]; intros vm; [by apply vm_keeps_preorder|]. simpl.
  pose proof (keeps_tick t vm) as Ht.
  destruct (run_tick t vm) as [vm' [u|e|w|w]]; simpl in *; try exact Ht; (etrans; [exact Ht|apply IH]).
Qed.
End keeps.

(** * The balancer under monitoring *)

(** No pair of any region has ever been reported healthy, and the thresholds are the
    default ones. *)
Definition never_healthy (b : RegionBalancer) : Prop :=
  rb_thresholds b = DefaultBalancerConfig ∧ ∀ r m, m ∈ pairs_of b r → pm_LastHealthy m = zeroTime.

Lemma NewRegionBalancer_never_healthy : never_healthy (NewRegionBalancer (Some DefaultBalancerConfig)).
Proof. split; [done|]. intros r m Hm. unfold pairs_of in Hm. simpl in Hm. rewrite lookup_empty in Hm. by apply elem_of_nil in Hm. Qed.

Lemma update_first_elem pairID f l l' m :
  update_first pairID f l = Some l' → m ∈ l' → m ∈ l ∨ ∃ m0, m0 ∈ l ∧ m = f m0.
Proof.
  revert l'. induction l as [|m0 l IH]; intros l' Hl Hm; simpl in *; [done|].
  case_bool_decide; simplify_eq.
  - apply elem_of_cons in Hm as [->|Hm]; [right; exists m0; split; [left|done]|left; by right].
  - destruct (update_first pairID f l) as [l''|]; simplify_eq.
    apply elem_of_cons in Hm as [->|Hm]; [left; left|].
    destruct (IH l'' eq_refl Hm) as [?|(m1 & ? & ->)]; [left; by right|right; exists m1; split; [by right|done]].
Qed.

(** An update with metrics that were never healthy keeps it so, and so does the
    collector, which does not touch the time. *)
Lemma UpdatePairMetrics_never_healthy r pid m b :
  pm_LastHealthy m = zeroTime → never_healthy b → never_healthy (UpdatePairMetrics r pid (Some m) b).1.
Proof.
  intros Hm [Ht Hb]. unfold UpdatePairMetrics. go_unfold.
  set (b1 := with_pairs r (pairs_of b r) b).
  assert (∀ r', pairs_of b1 r' = pairs_of b r') as Hb1.
  { intros r'. unfold b1. rewrite pairs_of_with. by case_decide; subst. }
  rewrite (Hb1 r). destruct (update_first pid (λ _, m) (pairs_of b r)) as [l|] eqn:E; split; try done.
  - intros r' x. rewrite pairs_of_with, Hb1. case_decide; subst; [|by apply Hb].
    intros Hx. destruct (update_first_elem _ _ _ _ _ E Hx) as [Hx'|(m0 & _ & ->)]; [by eapply Hb|done].
  - intros r' x. rewrite pairs_of_with, Hb1. case_decide; subst; [|by apply Hb].
    intros [Hx| ->%list_elem_of_singleton]%elem_of_app; [by eapply Hb|done].
Qed.

Lemma CollectMetrics_never_healthy now b : never_healthy b → never_healthy (CollectMetrics_tick now b).
Proof.
  intros [Ht Hb]. split; [done|]. intros r m Hm. unfold pairs_of, CollectMetrics_tick in Hm. simpl in Hm.
  rewrite lookup_fmap in Hm. unfold pairs_of in Hb. specialize (Hb r).
  destruct (rb_pairMetrics b !! r) as [l|]; simpl in *; [|by apply elem_of_nil in Hm].
  apply list_elem_of_In, in_map_iff in Hm as (m0 & <- & Hm0). simpl. by apply Hb, list_elem_of_In.
Qed.

(** A pair that has never been healthy is not fresh at any time since 1970. *)
Lemma never_healthy_stale now m :
  0 ≤ t_ns now → pm_LastHealthy m = zeroTime → pair_fresh now DefaultBalancerConfig m = false.
Proof.
  intros Hn Hm. unfold pair_fresh. rewrite Hm. apply Z.ltb_ge. unfold Since, Sub, zeroTime, maxDuration, minDuration. simpl.
  unfold Minute, Second in *. lia.
Qed.

Lemma no_pair_selected now r b : 0 ≤ t_ns now → never_healthy b → ∀ p, SelectOptimalPair now r b ≠ Ok p.
Proof.
  intros Hn [Ht Hb] p. unfold SelectOptimalPair. rewrite Ht.
  assert (∀ l acc, (∀ m, m ∈ l → pm_LastHealthy m = zeroTime) →
    fold_left (optimal_step now DefaultBalancerConfig) l acc = acc) as Hf.
  { induction l as [|m l IH]; intros [sel low] Hl; [done|]. cbn [fold_left]. unfold optimal_step at 2.
    rewrite never_healthy_stale, andb_false_r by (try done; apply Hl; left). apply IH. intros m' Hm'. apply Hl. by right. }
  destruct (pairs_of b r) as [|m0 l] eqn:E; [done|]. rewrite Hf; [done|]. intros m Hm. apply (Hb r). by rewrite E.
Qed.

(** * Only the monitors write to the balancer *)

Section manager.
Context {St : Type} `{!RegionStorage St} `{MR : MapRange}.
Abbreviation RM := (RegionManager St).
Implicit Types (s : RM).

Definition same_balancer s s' : Prop := mg_balancer s' = mg_balancer s.
#[export] Instance same_balancer_preorder : PreOrder same_balancer.
Proof using Type. split; unfold same_balancer; [by intros s|]. intros a b c -> ->. done. Qed.

Lemma same_locked {A} (m : go RM A) : preserves same_balancer m → preserves same_balancer (locked m).
Proof using Type. intros Hm s. unfold locked. destruct (mg_deadlocked s); [done|apply Hm]. Qed.
Lemma same_on_store {A} (m : go St A) : preserves same_balancer (RegionManager.on_store m).
Proof using Type. intros s. unfold RegionManager.on_store, zoom. by destruct (m (mg_store s)). Qed.
Lemma same_deref a : preserves same_balancer (deref a).
Proof using Type. intros s. unfold deref. by destruct (mg_heap s !! a). Qed.
Lemma same_alloc c : preserves same_balancer (RegionManager.alloc c).
Proof using Type. by intros s. Qed.

End manager.

#[local] Hint Resolve same_on_store same_deref same_alloc : pres_db.

Ltac solve_same :=
  repeat first [ apply same_locked | progress solve_preserves ltac:(by repeat case_match) ].

Section manager_ops.
Context {St : Type} `{!RegionStorage St} `{MR : MapRange}.
Abbreviation RM := (RegionManager St).

Lemma same_UpdateTEEState now r p f : preserves same_balancer (UpdateTEEState now r p f).
Proof using Type. unfold UpdateTEEState, put_state. solve_same. Qed.
Lemma same_UpdateMetrics now r p f : preserves same_balancer (RM_UpdateMetrics now r p f).
Proof using Type. unfold RM_UpdateMetrics, put_metrics, put_state. solve_same. Qed.
Lemma same_GetTEEPairs r : preserves same_balancer (GetTEEPairs (St := St) r).
Proof using Type. unfold GetTEEPairs. solve_same. Qed.
Lemma same_ListRegions : preserves same_balancer (ListRegions (St := St)).
Proof using Type. unfold ListRegions. solve_same. Qed.
Lemma same_GetTEEState r p : preserves same_balancer (RM_GetTEEState (St := St) r p).
Proof using Type. unfold RM_GetTEEState. solve_same. Qed.
Lemma same_GetMetrics r p : preserves same_balancer (RM_GetMetrics (St := St) r p).
Proof using Type. unfold RM_GetMetrics. solve_same. Qed.

#[local] Hint Resolve same_UpdateTEEState same_UpdateMetrics same_GetTEEPairs same_ListRegions same_GetTEEState same_GetMetrics : pres_db.

Lemma same_collectMetrics now : preserves same_balancer (collectMetrics now).
Proof using Type. unfold collectMetrics, put_perf. solve_same. Qed.

Lemma same_GetRegionHealth r : preserves same_balancer (RM_GetRegionHealth (St := St) r).
Proof using Type. unfold RM_GetRegionHealth. solve_same. Qed.
Lemma same_StopMonitoring : preserves same_balancer (StopMonitoring (St := St)).
Proof using Type. unfold StopMonitoring. solve_same. Qed.
Lemma same_Stop : preserves same_balancer (RM_Stop (St := St)).
Proof using Type. unfold RM_Stop, StopMonitoring. solve_same. Qed.
End manager_ops.

#[local] Hint Resolve same_UpdateTEEState same_UpdateMetrics same_GetTEEPairs same_ListRegions same_GetTEEState same_GetMetrics
  same_collectMetrics same_GetRegionHealth same_StopMonitoring same_Stop : pres_db.

(** What others do with the region manager. *)
Inductive region_step {St} `{!RegionStorage St} : RegionManager St → RegionManager St → Prop :=
  | rs_new c s : region_step s (RegionManager.alloc c s).1
  | rs_UpdateConfig r a s : region_step s (UpdateConfig r a s).1
  | rs_GetConfig r s : region_step s (GetConfig r s).1
  | rs_DeleteRegion r s : region_step s (RM_DeleteRegion r s).1
  | rs_AddTEEPair r p s : region_step s (RM_AddTEEPair r p s).1
  | rs_GetRegionConfig r s : region_step s (RegionManager.GetRegionConfig r s).1
  | rs_UpdateCache r a s : region_step s (UpdateCache r a s).1
  | rs_ClearCache s : region_step s (ClearCache s).1
  | rs_InvalidateCache r s : region_step s (InvalidateCache r s).1
  | rs_RegisterTEEPair now r a s : region_step s (RegisterTEEPair now r a s).1
  | rs_UpdateTEEState now r p f s : region_step s (UpdateTEEState now r p f s).1
  | rs_UpdateMetrics now r p f s : region_step s (RM_UpdateMetrics now r p f s).1
  | rs_collectRegionMetrics (MR : MapRange) now r s : region_step s (collectRegionMetrics now r s).1
  | rs_checkRegionHealth now r s : region_step s (checkRegionHealth now r s).1
  | rs_UpdateRegionHealth r h s : region_step s (UpdateRegionHealth r h s).1
  | rs_UpdateRegionMetrics r m s : region_step s (UpdateRegionMetrics r m s).1
  | rs_performHealthChecks (MR : MapRange) now s : region_step s (performHealthChecks now s).1
  | rs_Stop s : region_step s (RM_Stop s).1.

Lemma same_region_step {St} `{!RegionStorage St} (s s' : RegionManager St) : region_step s s' → same_balancer s s'.
Proof.
  destruct 1;
    match goal with |- same_balancer ?s (?m ?s).1 => cut (preserves same_balancer m); [by intros Hm; apply Hm|] end;
    unfold UpdateConfig, GetConfig, RM_DeleteRegion, RM_AddTEEPair, RegionManager.GetRegionConfig, UpdateCache, ClearCache,
      InvalidateCache, RegisterTEEPair, put_state, put_metrics, collectRegionMetrics, checkRegionHealth, UpdateHealthStatus,
      UpdateRegionHealth, UpdateRegionMetrics, performHealthChecks, checkRegion, checkTEEPair, UpdateRegionHealth,
      RM_Stop, StopMonitoring; solve_same.
Qed.

(** * The life of a VM *)

(** The VM's ticks and requests, in any order, with whatever its coordinator, its state
    and the users of its region manager do in between. *)
Inductive vm_step {Conn St B S} `{!Grpc Conn, !RegionStorage St, !BaseStore B, !Mutable S}
    `{!Json (gomap string), !Json (gomap json), !Json CoordinationState}
    `{!Json channel_alias, !Json worker_alias, !Json Coordinator.Region, !Json rustExecutionResult} :
    ShuttleVM Conn St B S → ShuttleVM Conn St B S → Prop :=
  | vs_initialize (MR : MapRange) chainID base ch s heap store h ready now rnd vm :
      vm_step vm (Initialize chainID base ch s heap store h ready now rnd vm).1
  | vs_connect (MR : MapRange) ctl wasm vm : vm_step vm (InitializeTEEPairs ctl wasm vm).1
  | vs_tick (MR : MapRange) t vm : vm_step vm (run_tick t vm).1
  | vs_execute h1 h2 tm rnd r a vm : vm_step vm (ExecuteInRegion h1 h2 tm rnd r a vm).1
  | vs_validate rnd now tx vm : vm_step vm (ValidateTransaction rnd now tx vm).1
  | vs_region rm vm : region_step (vm_regionManager vm) rm → vm_step vm (set_regionManager rm vm)
  | vs_coordinator c vm : vm_step vm (set_vm_coordinator c vm)
  | vs_state s vm : vm_step vm (set_vm_state s vm)
  | vs_cleanup now order vm : vm_step vm (vm_cleanup now order vm).1
  | vs_shutdown vm : vm_step vm (Shutdown vm).1.

Section life.
Context {Conn St B S B' : Type} `{!Grpc Conn, !RegionStorage St, !BaseStore B, !BaseStore B', !Mutable S}.
Context `{!Json (gomap string), !Json (gomap json), !Json CoordinationState}.
Context `{!Json channel_alias, !Json worker_alias, !Json Coordinator.Region, !Json rustExecutionResult}.
Abbreviation VM := (ShuttleVM Conn St B S).
Implicit Types (vm : VM).

(** At the other end of every connection is a compute node, of a region that is not
    called "health-check": an answer to the health request is that node's. *)
Definition answered_by_nodes : Prop :=
  ∀ (conn : Conn) res, rpc_Execute conn health_request = Ok res →
    ∃ (MR : MapRange) (n : ComputeNode B') nh t1 t2 t3 ctx pick rnd, cn_regionID n ≠ "health-check" ∧
      (Node_Execute nh t1 t2 t3 ctx pick rnd health_request n).2 = Ok res.

Context (Hnodes : answered_by_nodes).

(** A node refuses the request, which names a region that is not its own. *)
Lemma health_request_refused (conn : Conn) res : rpc_Execute conn health_request ≠ Ok res.
Proof using Hnodes.
  intros E. destruct (Hnodes conn res E) as (MR & n & nh & t1 & t2 & t3 & ctx & pick & rnd & Hr & En).
  destruct (Node_Execute_refused nh t1 t2 t3 ctx pick rnd health_request n) as [e He]; [simpl; naive_solver|].
  by rewrite He in En.
Qed.

Lemma check_fails h ready endpoint vm : checkTEEHealth h ready endpoint vm ≠ Ok tt.
Proof using Hnodes.
  unfold checkTEEHealth. destruct (vm_computeNodes vm !! endpoint) as [client|]; [|done].
  rewrite verdict_then. intros [_ (x & E%wrapped_ok & _)%obind_ok].
  unfold NodeClient_Execute in E. apply obind_ok in E as (t & _ & E). apply obind_ok in E as (res & E%wrapped_ok & _).
  by apply health_request_refused in E.
Qed.

Definition vm_balancer vm : RegionBalancer := mg_balancer (vm_regionManager vm).

(** What a call does to the balancer. *)
Definition stays_unhealthy vm vm' : Prop := never_healthy (vm_balancer vm) → never_healthy (vm_balancer vm').
#[local] Instance stays_unhealthy_preorder : PreOrder stays_unhealthy.
Proof using Type. split; unfold stays_unhealthy; [by intros vm|]. auto. Qed.

Lemma unhealthy_on_manager {A} (m : go (RegionManager St) A) :
  preserves same_balancer m → preserves stays_unhealthy (on_manager m).
Proof using Type.
  intros Hm vm. unfold stays_unhealthy, on_manager, zoom. specialize (Hm (vm_regionManager vm)).
  destruct (m (vm_regionManager vm)) as [rm o]. unfold vm_balancer. simpl in *. by rewrite Hm.
Qed.
Lemma unhealthy_on_coordinator {A} (m : go (Coordinator B) A) : preserves stays_unhealthy (on_vm_coordinator m).
Proof using Type. intros vm Hb. unfold on_vm_coordinator, zoom. by destruct (m (vm_coordinator vm)). Qed.
Lemma unhealthy_on_state {A} (m : go S A) : preserves stays_unhealthy (on_state m).
Proof using Type. intros vm Hb. unfold on_state, zoom. by destruct (m (vm_state vm)). Qed.

(** A new region manager has a new balancer. *)
Lemma unhealthy_new_manager heap store :
  preserves stays_unhealthy (modify (set_regionManager (NewRegionManager heap store))).
Proof using Type. intros vm _. apply NewRegionBalancer_never_healthy. Qed.

Lemma unhealthy_status now r p tee : preserves stays_unhealthy (updateTEEStatus now r p tee false).
Proof using Type.
  unfold updateTEEStatus. apply preserves_bind; [apply _| |by intros _ vm]. apply preserves_try. intros vm Hb.
  unfold on_balancer, on_manager, zoom, vm_balancer in *.
  pose proof (UpdatePairMetrics_never_healthy r p (status_metrics now p tee false) _ eq_refl Hb) as Hn.
  by destruct (UpdatePairMetrics _ _ _ _) as [b o].
Qed.

(** A check and the report of its result. *)
Lemma unhealthy_checked h ready endpoint (report : unit + goerr → go VM unit) :
  (∀ e, preserves stays_unhealthy (report (inr e))) →
  preserves stays_unhealthy (x ← try (λ vm, (vm, checkTEEHealth h ready endpoint vm)); report x).
Proof using Hnodes.
  intros Hr vm. unfold mbind, go_bind, try. destruct (checkTEEHealth h ready endpoint vm) as [[]| | |] eqn:E;
    [by apply check_fails in E|apply Hr|done..].
Qed.

Lemma unhealthy_monitor_pair h ready now r p : preserves stays_unhealthy (monitor_pair h ready now r p).
Proof using Hnodes.
  unfold monitor_pair. apply unhealthy_checked. intros e. apply preserves_bind; [apply _|apply unhealthy_status|].
  intros _. apply unhealthy_checked. intros e'. apply unhealthy_status.
Qed.

#[local] Hint Resolve unhealthy_on_manager unhealthy_on_coordinator unhealthy_on_state unhealthy_new_manager
  unhealthy_monitor_pair : pres_db.

Lemma unhealthy_tick `{MR : MapRange} t : preserves stays_unhealthy (run_tick t).
Proof using Hnodes.
  destruct t; simpl; [solve_preserves idtac|unfold MonitorTEEHealth_tick; solve_preserves idtac|].
  intros vm Hb. by apply CollectMetrics_never_healthy.
Qed.

(** Every step of the VM's life leaves every pair never healthy. *)
Lemma unhealthy_step vm vm' : vm_step vm vm' → stays_unhealthy vm vm'.
Proof using Hnodes.
  destruct 1 as [MR chainID base ch s heap store h ready now rnd vm|MR ctl wasm vm|MR t vm|h1 h2 tm rnd r a vm
    |rnd now tx vm|rm vm Hr| | |now order vm|vm]; [..|by intros Hb|by intros Hb| |].
  - revert vm. change (preserves stays_unhealthy (Initialize chainID base ch s heap store h ready now rnd)).
    unfold Initialize, initializeValidators, initializeComputeConnections, setupRegionWorkers. solve_preserves ltac:(by intros ?).
  - revert vm. change (preserves stays_unhealthy (InitializeTEEPairs (S := S) (B := B) (St := St) ctl wasm)).
    unfold InitializeTEEPairs, connect_pair. solve_preserves ltac:(by intros ?).
  - apply unhealthy_tick.
  - revert vm. change (preserves stays_unhealthy (ExecuteInRegion h1 h2 tm rnd r a)).
    unfold ExecuteInRegion, run_both, note_run, conclude, updateTEEMetrics, updateTEEError, updateVerificationError.
    solve_preserves idtac.
  - revert vm. change (preserves stays_unhealthy (ValidateTransaction rnd now tx)).
    unfold ValidateTransaction, validate_action. solve_preserves idtac.
  - apply same_region_step in Hr. unfold stays_unhealthy, vm_balancer. simpl. by rewrite Hr.
  - revert vm. change (preserves stays_unhealthy (vm_cleanup now order)). unfold vm_cleanup. solve_preserves idtac.
  - revert vm. change (preserves stays_unhealthy Shutdown). unfold Shutdown. solve_preserves idtac.
Qed.
Lemma unhealthy_life vm0 vm :
  rtc vm_step vm0 vm → never_healthy (vm_balancer vm0) → never_healthy (vm_balancer vm).
Proof using Hnodes. induction 1 as [|vm1 vm2 vm3 Hs _ IH]; [done|]. intros Hb. by apply IH, (unhealthy_step vm1). Qed.

Lemma New_never_healthy `{MR : MapRange} merkle chainID cfg base ch s heap store vm :
  New merkle chainID cfg base ch s heap store = Ok vm → never_healthy (vm_balancer vm).
Proof using Type.
  unfold New. intros (u & _ & (nodes & _ & (u' & _ & [= <-])%obind_ok)%obind_ok)%obind_ok.
  apply NewRegionBalancer_never_healthy.
Qed.

(** C29: a VM made by [New], whatever it, its monitors and the users of its region manager
    have done since, never executes an action in a region when compute nodes answer its
    health checks: no pair was ever healthy, so the balancer has none to offer. *)
Theorem vm_never_executes `{MR : MapRange} merkle chainID cfg base ch s heap store vm0 vm h1 h2 tm rnd r a vm' x :
  New merkle chainID cfg base ch s heap store = Ok vm0 → rtc vm_step vm0 vm → 0 ≤ t_ns (tm_now tm) →
  ExecuteInRegion h1 h2 tm rnd r a vm ≠ (vm', Ok x).
Proof using Hnodes.
  intros Hnew Hlife Hnow E. pose proof (unhealthy_life _ _ Hlife (New_never_healthy _ _ _ _ _ _ _ _ _ Hnew)) as Hb.
  unfold ExecuteInRegion in E.
  apply bind_ok_inv in E as (health & vm1 & E1%wrap_ok_inv & E).
  pose proof (unhealthy_on_manager _ (same_GetRegionHealth r) vm Hb) as Hb1. rewrite E1 in Hb1. simpl in Hb1.
  apply bind_ok_inv in E as ([] & vm2 & [_ ->]%fail_if_ok_inv & E).
  apply bind_ok_inv in E as (b & vm3 & [= <- <-] & E).
  apply bind_ok_inv in E as (p & vm4 & [_ Ep]%wrap_ok_inv%lift_ok_inv & _).
  by eapply no_pair_selected in Ep.
Qed.
End life.

(** * Witnesses *)

#[local] Existing Instances canonical_MapRange obj_Json json_Json coord_Json channel_Json worker_Json region_Json rustResult_Json.
#[local] Existing Instances healthy_RegionStorage map_PrefixIter.

(** Every connection leads to the sample node. *)
#[local] Instance node_Grpc : Grpc string := {|
  dial := Ok;
  rpc_Execute _ req := (Node_Execute rust_host (fromUnix 1) (fromUnix 1) (fromUnix 1) None false (Ok "key") req sample_node).2;
  conn_Close _ := None |}.

Definition new_vm : ShuttleVM string unit (gmap string string) (gmap string string) :=
  mkVM false [] ver_state ∅ (NewCodeValidator (1024 * 1024)) NewValidator ∅ (NewRegionManager ∅ tt)
    (NewCoordinator (new_coordConfig "") ∅ sample_heap).

(** The region is configured, its pairs are connected and the health monitor has looked
    at them. *)
Definition created_vm := set_regionManager (RegionManager.alloc sample_config (vm_regionManager new_vm)).1 new_vm.
Definition configured_vm := set_regionManager (UpdateConfig "eu" 1%nat (vm_regionManager created_vm)).1 created_vm.
Definition cached_vm := set_regionManager (UpdateCache "eu" 1%nat (vm_regionManager configured_vm)).1 configured_vm.
Definition connected_vm := (InitializeTEEPairs "/ctl" "/wasm" cached_vm).1.
Definition monitored_vm := (run_tick (HealthTick rust_host (λ _, true) sample_now) connected_vm).1.

Lemma vm_never_executes_witness :
  is_ok (ExecuteInRegion rust_host rust_host (mkTiming sample_now 0 0 0 true) (Ok "k") "eu"
    (ActSendEvent sample_event) monitored_vm).2 = false.
Proof.
  destruct (ExecuteInRegion _ _ _ _ _ _ monitored_vm) as [vm' [x| | |]] eqn:E; [exfalso|done..].
  refine (vm_never_executes (B' := gmap string string) _ (Ok tt) (Ok tt) vm_DefaultConfig ∅ sample_heap ver_state ∅ tt
    new_vm monitored_vm _ _ _ _ _ _ vm' x eq_refl _ _ E).
  - intros conn res Er. exists canonical_MapRange, sample_node, rust_host, (fromUnix 1), (fromUnix 1), (fromUnix 1), None, false, (Ok "key").
    split; [discriminate|exact Er].
  - apply (rtc_l _ _ created_vm), (rtc_l _ _ configured_vm), (rtc_l _ _ cached_vm), (rtc_l _ _ connected_vm), rtc_once.
    + exact (vs_region _ new_vm (rs_new sample_config _)).
    + exact (vs_region _ created_vm (rs_UpdateConfig "eu" 1%nat _)).
    + exact (vs_region _ configured_vm (rs_UpdateCache "eu" 1%nat _)).
    + exact (vs_connect _ "/ctl" "/wasm" cached_vm).
    + exact (vs_tick _ (HealthTick rust_host (λ _, true) sample_now) connected_vm).
  - vm_compute. discriminate.
Defined.
