(* ===== verification/RPCClient.v ===== *)
(** The JSON-RPC clients ([api/jsonrpc/client.go], [vm/client.go]) and how they meet
    the servers of [VMApi.v].

    hypersdk's [requester] is the class [Requester]: a request has a method name and
    arguments, and its reply is decoded by field name, so one record holds every field
    a client asks for and the ones a server leaves out are zero.  What the JSON-RPC
    library does with names it does not serve is the class [Served]; the genesis is a
    type of the library. *)

From S2P Require Import Prelude GoTime Float64 KV Core RegionConfig RegionManager TEE Compute VMApi VMRegistry.
From Stdlib Require Import ZArith Lia Ascii String.
From stdpp Require Import base tactics option list strings pretty gmap.

Local Open Scope Z_scope.

(** * Messages *)

Inductive RpcArgs : Type :=
  | NoArgs
  | AddressArgs (Address : string)
  | RegionArgs (RegionID : string)
  | PairArgs (RegionID PairID : string)
  | ObjectArgs (ObjectID RegionID : string)
  | EnclaveArgs (EnclaveID RegionID : string).

(** The regions and attestations the client of package [jsonrpc] reads have fewer
    fields than the messages. *)
Record ApiRegion : Type := mkApiRegion { ag_Id : string; ag_CreatedAt : string; ag_WorkerIds : list string }.
Record ApiAttestation : Type := mkApiAttestation {
  aa_EnclaveId : string;
  aa_Measurement : string;
  aa_Timestamp : string;
  aa_Data : string;
  aa_Signature : string;
  aa_RegionProof : string;
}.
Definition api_region (r : RegionMsg) : ApiRegion := mkApiRegion (RM_Id r) (RM_CreatedAt r) (RM_WorkerIds r).
Definition api_attestation (a : AttestationMsg) : ApiAttestation :=
  mkApiAttestation (AM_EnclaveId a) (AM_Measurement a) (AM_Timestamp a) (AM_Data a) (AM_Signature a) (AM_RegionProof a).

Record RpcReply (G : Type) : Type := mkReply {
  rp_genesis : option G;
  rp_amount : Z;
  rp_regions : list RegionMsg;
  rp_workers : list RPCWorker;
  rp_tasks : list RPCTask;
  rp_attestations : list AttestationMsg;
  rp_object : option ObjectState;
  rp_enclave_info : option EnclaveInfo;
  rp_health : option HealthStatus;
  rp_metrics : option TEEPairMetrics;
}.
Arguments mkReply {_}.
Arguments rp_genesis {_} _.
Arguments rp_amount {_} _.
Arguments rp_regions {_} _.
Arguments rp_workers {_} _.
Arguments rp_tasks {_} _.
Arguments rp_attestations {_} _.
Arguments rp_object {_} _.
Arguments rp_enclave_info {_} _.
Arguments rp_health {_} _.
Arguments rp_metrics {_} _.

(** The replies of the servers: one field each. *)
Definition emptyReply {G} : RpcReply G := mkReply None 0 [] [] [] [] None None None None.
Definition genesisReply {G} (g : option G) : RpcReply G := mkReply g 0 [] [] [] [] None None None None.
Definition amountReply {G} (x : Z) : RpcReply G := mkReply None x [] [] [] [] None None None None.

Class Requester (W G : Type) : Type := SendRequest : string → RpcArgs → go W (RpcReply G).

(** * The client of package [jsonrpc] *)

Section api_client.
Context {W G : Type} `{!Requester W G}.
Abbreviation Send := (SendRequest (G := G)).

Definition api_Balance (addr : string) : go W Z :=
  resp ← Send "balance" (AddressArgs addr); mret (rp_amount resp).

(** The genesis is fetched and no parser is made of it. *)
Definition api_Parser {Parser : Type} : go W Parser :=
  wrap "failed to get genesis" (Send "genesis" NoArgs) ;;
  fail (Errorf "parser creation not implemented").

Definition api_GetRegions : go W (list ApiRegion) :=
  resp ← Send "region.list" NoArgs; mret (api_region <$> rp_regions resp).
Definition api_GetRegionWorkers (regionID : string) : go W (list RPCWorker) :=
  resp ← wrap "failed to get workers" (Send "coord.workers" (RegionArgs regionID)); mret (rp_workers resp).
Definition api_GetRegionTasks (regionID : string) : go W (list RPCTask) :=
  resp ← wrap "failed to get tasks" (Send "coord.tasks" (RegionArgs regionID)); mret (rp_tasks resp).
Definition api_GetRegionAttestations (regionID : string) : go W (list ApiAttestation) :=
  resp ← Send "region.attestations" (RegionArgs regionID); mret (api_attestation <$> rp_attestations resp).
Definition api_GetObject (objectID regionID : string) : go W (option ObjectState) :=
  resp ← Send "object.get" (ObjectArgs objectID regionID); mret (rp_object resp).
Definition api_GetValidEnclave (enclaveID regionID : string) : go W (option EnclaveInfo) :=
  resp ← Send "enclave.get" (EnclaveArgs enclaveID regionID); mret (rp_enclave_info resp).
Definition api_GenerateTransaction {Parser A F Tx : Type} (parser : Parser) (actions : list A) (factory : F) : outcome Tx :=
  Err (Errorf "not implemented").
Definition api_GetRegionHealth (regionID : string) : go W (option HealthStatus) :=
  resp ← Send "region.health" (RegionArgs regionID); mret (rp_health resp).
Definition api_GetRegionMetrics (regionID pairID : string) : go W (option TEEPairMetrics) :=
  resp ← Send "region.metrics" (PairArgs regionID pairID); mret (rp_metrics resp).
End api_client.

(** * The client of package [vm] *)

(** [strings.TrimSuffix(s, "/")]. *)
Fixpoint trim_slash (s : string) : string :=
  match s with
  | EmptyString => EmptyString
  | String "/"%char EmptyString => EmptyString
  | String c s' => String c (trim_slash s')
  end.

Definition JSONRPCEndpoint : string := "/morpheusapi".

(** The client: where it sends, the genesis it has cached, and the world its requests
    reach. *)
Record VMClient (W G : Type) : Type := mkVMClient { vc_uri : string; vc_g : option G; vc_world : W }.
Arguments mkVMClient {_ _} _ _ _.
Arguments vc_uri {_ _} _.
Arguments vc_g {_ _} _.
Arguments vc_world {_ _} _.

(** [chain.Parser] of the package. *)
Record Parser (G : Type) : Type := mkParser { pr_genesis : option G }.
Arguments mkParser {_} _.
Arguments pr_genesis {_} _.

Section vm_client.
Context {W G : Type} `{!Requester W G}.
Abbreviation C := (VMClient W G).

Definition NewJSONRPCClient (uri : string) (w : W) : C := mkVMClient (trim_slash uri +s+ JSONRPCEndpoint) None w.

Definition request (method : string) (args : RpcArgs) : go C (RpcReply G) :=
  zoom vc_world (λ w c, mkVMClient (vc_uri c) (vc_g c) w) (SendRequest method args).

Definition Client_Genesis : go C (option G) :=
  g ← gets vc_g;
  match g with
  | Some g => mret (Some g)
  | None =>
      resp ← request "genesis" NoArgs;
      modify (λ c, mkVMClient (vc_uri c) (rp_genesis resp) (vc_world c)) ;;
      mret (rp_genesis resp)
  end.

Definition Client_Balance (addr : string) : go C Z :=
  resp ← request "balance" (AddressArgs addr); mret (rp_amount resp).

(** [Wait] is hypersdk's [jsonrpc.Wait], which calls the check until it returns [true]
    or an error or the context ends. *)
Definition balance_check (addr : string) (min : Z) : go C bool :=
  balance ← Client_Balance addr; mret (min <=? balance).
Definition WaitForBalance (Wait : go C bool → go C unit) (addr : string) (min : Z) : go C unit :=
  Wait (balance_check addr min).

Definition NewParser (g : option G) : Parser G := mkParser g.
Definition Client_Parser : go C (Parser G) := g ← Client_Genesis; mret (NewParser g).
Definition CreateParser `{!Json G} (genesisBytes : string) : outcome (Parser G) :=
  g ← Unmarshal genesisBytes; Ok (NewParser (Some g)).

(** [p.genesis.Rules]. *)
Definition Parser_Rules {R : Type} (Rules : G → R) (p : Parser G) (t : Z) : outcome R :=
  match pr_genesis p with
  | Some g => Ok (Rules g)
  | None => Panic "invalid memory address or nil pointer dereference"
  end.
Definition Parser_ActionCodec {P} (ps : Parsers P) (p : Parser G) : P := ActionParser ps.
Definition Parser_OutputCodec {P} (ps : Parsers P) (p : Parser G) : P := OutputParser ps.
Definition Parser_AuthCodec {P} (ps : Parsers P) (p : Parser G) : P := AuthParser ps.

Definition Client_GetRegionAttestations (regionID : string) : go C (list AttestationMsg) :=
  resp ← request "region.attestations" (RegionArgs regionID); mret (rp_attestations resp).
Definition Client_GetRegions : go C (list RegionMsg) :=
  resp ← request "region.list" NoArgs; mret (rp_regions resp).
Definition Client_GetRegionHealth (regionID : string) : go C (option HealthStatus) :=
  resp ← request "region.health" (RegionArgs regionID); mret (rp_health resp).
Definition Client_GetRegionMetrics (regionID pairID : string) : go C (option TEEPairMetrics) :=
  resp ← request "region.metrics" (PairArgs regionID pairID); mret (rp_metrics resp).
End vm_client.

(** [Genesis] of the server in [vm/server.go]; [custom] is the method [MyCustomGenesis]
    of the VM, when it has one. *)
Definition Server_Genesis {W G : Type} (custom : option (go W G)) : go W (option G) :=
  match custom with
  | None => mret None
  | Some get => g ← get; mret (Some g)
  end.

(** * Where the servers are reached *)

(** [NewJSONRPCHandler] is the library's: a handler for a server under a service name. *)
Inductive HandlerOf (H : Type) : Type := RpcHandler (h : H) | HealthHandler | MetricsHandler.
Arguments RpcHandler {_} _.
Arguments HealthHandler {_}.
Arguments MetricsHandler {_}.

(** [CreateHandlers] of the VM. *)
Definition CreateHandlers {H} (NewJSONRPCHandler : string → outcome H) : outcome (gmap string (HandlerOf H)) :=
  rpcHandler ← NewJSONRPCHandler Name;
  Ok (<["/metrics" := MetricsHandler]> (<["/health" := HealthHandler]> {["/rpc" := RpcHandler rpcHandler]})).

(** [New] of the factory: the path and the handler of the server of [vm/server.go]. *)
Definition factory_New {H} (NewJSONRPCHandler : string → outcome H) : outcome (string * H) :=
  handler ← NewJSONRPCHandler Name; Ok (JSONRPCEndpoint, handler).

(** * Servers behind the requester *)

(** The names of the methods a server has: the exported methods of its type. *)
Definition api_methods : list string := ["GetObject"; "GetValidEnclave"; "GetRegionWorkers"; "GetRegionTasks"].
Definition vm_methods : list string :=
  ["Genesis"; "Balance"; "Execute"; "GetObject"; "GetValidEnclave"; "GetRegionHealth"; "GetRegionMetrics"].

(** The library finds a method by its name with the first letter in upper case, and
    answers an error to a name the server does not have. *)
Definition upper (a : ascii) : ascii :=
  if (97 <=? N_of_ascii a)%N && (N_of_ascii a <=? 122)%N then ascii_of_N (N_of_ascii a - 32) else a.
Definition exported_name (m : string) : string :=
  match m with EmptyString => EmptyString | String a s => String (upper a) s end.

Class Served (W G : Type) `{!Requester W G} (methods : list string) : Prop :=
  unserved : ∀ m args w, exported_name m ∉ methods → ∃ e, SendRequest m args w = (w, Err e).

(** The server of [vm/server.go] behind the requester. *)
Class ServedByVM {W G : Type} `{!Requester W G} (vm : ChainVM W) (custom : option (go W G)) : Prop := {
  served_vm :: Served W G vm_methods;
  served_genesis : ∀ w, SendRequest (G := G) "genesis" NoArgs w = (g ← Server_Genesis custom; mret (genesisReply g)) w;
  served_balance : ∀ a w, SendRequest (G := G) "balance" (AddressArgs a) w = (x ← Server_Balance vm a; mret (amountReply x)) w;
}.

(** * Properties *)

Section properties.
Context {W G : Type} `{!Requester W G}.
Implicit Types (c : VMClient W G) (w : W).

(** A call that fails in the state it started in. *)
Definition refused {S A} (m : go S A) (s : S) : Prop := ∃ e, m s = (s, Err e).

Lemma refused_bind {S A B} (m : go S A) (f : A → go S B) s : refused m s → refused (m ≫= f) s.
Proof using Type. intros [e H]. exists e. by apply bind_err. Qed.
Lemma refused_wrap {S A} msg (m : go S A) s : refused m s → refused (wrap msg m) s.
Proof using Type. intros [e H]. eexists. unfold wrap. by rewrite H. Qed.
Lemma refused_request method args c : refused (SendRequest (G := G) method args) (vc_world c) → refused (request method args) c.
Proof using Type. intros [e H]. exists e. unfold request, zoom. rewrite H. by destruct c. Qed.

(** The client and the server of package [jsonrpc] do not agree on a single name:
    against that server every request of the client is refused, and nothing changes. *)
Theorem api_client_refused `{!Served W G api_methods} w addr region pair object enclave :
  refused (api_Balance addr) w ∧ refused (api_Parser (Parser := Parser G)) w ∧ refused api_GetRegions w ∧
  refused (api_GetRegionWorkers region) w ∧ refused (api_GetRegionTasks region) w ∧
  refused (api_GetRegionAttestations region) w ∧ refused (api_GetObject object region) w ∧
  refused (api_GetValidEnclave enclave region) w ∧ refused (api_GetRegionHealth region) w ∧
  refused (api_GetRegionMetrics region pair) w.
Proof using Type.
  assert (∀ m args, exported_name m ∉ api_methods → refused (SendRequest (G := G) m args) w) as Hs
    by (intros m args Hm; apply (unserved m args w Hm)).
  repeat split; apply refused_bind; try apply refused_wrap; apply Hs; by apply (bool_decide_unpack (_ ∉ _)).
Qed.

(** The genesis is fetched once: after a call that returned one, calls return the same
    one and send nothing. *)
Lemma Client_Genesis_cached c c' g :
  Client_Genesis c = (c', Ok (Some g)) → Client_Genesis c' = (c', Ok (Some g)).
Proof using Type.
  unfold Client_Genesis. intros H. apply bind_ok_inv in H as (og & c1 & [= <- <-] & H).
  destruct (vc_g c) as [g0|] eqn:Hg.
  - injection H as <- <-. rewrite (bind_ok _ _ c c (Some g0)); [done|]. unfold gets. by rewrite Hg.
  - apply bind_ok_inv in H as (resp & c2 & _ & H). apply bind_ok_inv in H as ([] & c3 & [= <-] & H).
    injection H as <- Hr. rewrite (bind_ok _ _ _ _ (rp_genesis resp)) by done. by rewrite Hr.
Qed.

(** A wait that ends saw a balance that is enough. *)
Lemma WaitForBalance_enough (Wait : go (VMClient W G) bool → go (VMClient W G) unit) addr min c c' :
  (∀ check s s', Wait check s = (s', Ok tt) → ∃ s0, check s0 = (s', Ok true)) →
  WaitForBalance Wait addr min c = (c', Ok tt) →
  ∃ c0 balance, Client_Balance addr c0 = (c', Ok balance) ∧ min ≤ balance.
Proof using Type.
  intros HW H. apply HW in H as [c0 H]. unfold balance_check in H. apply bind_ok_inv in H as (b & c1 & Hb & H).
  injection H as <- H. exists c0, b. split; [done|]. by apply Z.leb_le.
Qed.

(** The client of package [vm] sends to the path its server is registered under, and that
    path is not one of those the VM itself serves. *)
Lemma client_reaches_factory {H} (mk : string → outcome H) uri w path h hs :
  factory_New mk = Ok (path, h) → CreateHandlers mk = Ok hs →
  vc_uri (NewJSONRPCClient (G := G) uri w) = trim_slash uri +s+ path ∧ hs !! path = None ∧ hs !! "/rpc" = Some (RpcHandler h).
Proof using Type.
  unfold factory_New, CreateHandlers. destruct (mk Name); simpl; try done. intros [= <- <-] [= <-].
  split; [done|]. split; [by rewrite !lookup_insert_ne by done|]. by rewrite !lookup_insert_ne, lookup_singleton_eq by done.
Qed.

(** Requests to the server of [vm/server.go] by name. *)
Lemma vm_request_unserved `{!Served W G vm_methods} m args c :
  exported_name m ∉ vm_methods → refused (request m args) c.
Proof using Type. intros Hm. apply refused_request. by apply (unserved m args). Qed.

(** C38: the client of package [vm] against its server over a VM that has neither
    [MyCustomGenesis] nor [ReadBalance], as the one of this repository: balances are
    refused, regions, attestations, health and metrics are asked for under names the
    server does not have, and the parser it gets has no genesis, so asking it for the
    rules panics. *)
Theorem vm_client_on_server (vm : ChainVM W) `{!ServedByVM vm (None : option (go W G))} uri w addr region pair :
  cv_ReadBalance vm = None →
  let c := NewJSONRPCClient uri w in
  refused (Client_Balance addr) c ∧
  refused Client_GetRegions c ∧ refused (Client_GetRegionAttestations region) c ∧
  refused (Client_GetRegionHealth region) c ∧ refused (Client_GetRegionMetrics region pair) c ∧
  ∃ p, Client_Parser c = (c, Ok p) ∧ ∀ (R : Type) (Rules : G → R) t, ∃ why, Parser_Rules Rules p t = Panic why.
Proof using Type.
  intros Hrb c. split; [|repeat split].
  - apply refused_bind, refused_request. eexists. rewrite served_balance. unfold Server_Balance. rewrite Hrb. done.
  - by apply refused_bind, vm_request_unserved, (bool_decide_unpack (_ ∉ _)).
  - by apply refused_bind, vm_request_unserved, (bool_decide_unpack (_ ∉ _)).
  - by apply refused_bind, vm_request_unserved, (bool_decide_unpack (_ ∉ _)).
  - by apply refused_bind, vm_request_unserved, (bool_decide_unpack (_ ∉ _)).
  - exists (mkParser None). split; [|by eexists].
    assert (Client_Genesis c = (c, Ok None)) as Hg.
    { unfold Client_Genesis, c, NewJSONRPCClient. rewrite (bind_ok _ _ _ _ None) by done.
      rewrite (bind_ok _ _ _ (mkVMClient (trim_slash uri +s+ JSONRPCEndpoint) None w) (genesisReply None)); [done|].
      unfold request, zoom. simpl. by rewrite served_genesis. }
    unfold Client_Parser. by rewrite (bind_ok _ _ _ _ _ Hg).
Qed.
End properties.

(** * Witnesses *)

(** A requester that calls the server in place. *)
Definition loopback_api : Requester unit Z := λ m args,
  if bool_decide (exported_name m ∈ api_methods) then mret emptyReply else fail (Errorf "rpc: can't find method").
Definition loopback_vm (vm : ChainVM unit) : Requester unit Z := λ m args,
  if bool_decide (m = "genesis") then g ← Server_Genesis None; mret (genesisReply g) else
  match args with
  | AddressArgs a => if bool_decide (m = "balance") then x ← Server_Balance vm a; mret (amountReply x) else fail (Errorf "rpc: can't find method")
  | _ => fail (Errorf "rpc: can't find method")
  end.

Lemma loopback_api_served : Served (Requester0 := loopback_api) unit Z api_methods.
Proof. intros m args w Hm. unfold SendRequest, loopback_api. rewrite bool_decide_eq_false_2 by done. by eexists. Qed.

Definition no_methods : ChainVM unit := mkChainVM None None None None None None.

Lemma loopback_vm_served : ServedByVM (Requester0 := loopback_vm no_methods) no_methods None.
Proof.
  split; [|done|done]. intros m args w Hm. unfold SendRequest, loopback_vm. rewrite bool_decide_eq_false_2.
  - destruct args; try by eexists. by case_bool_decide; eexists.
  - intros ->. apply Hm. by apply (bool_decide_unpack (_ ∈ _)).
Qed.

Lemma api_client_refused_witness : refused (api_GetObject (Requester0 := loopback_api) "o" "eu") tt.
Proof. exact (proj1 (proj2 (proj2 (proj2 (proj2 (proj2 (proj2
  (api_client_refused (Requester0 := loopback_api) (Served0 := loopback_api_served) tt "a" "eu" "p" "o" "e")))))))). Defined.

Lemma vm_client_on_server_witness : refused (Client_Balance (Requester0 := loopback_vm no_methods) "a") (NewJSONRPCClient "u/" tt).
Proof.
  exact (proj1 (vm_client_on_server (Requester0 := loopback_vm no_methods) no_methods
    (ServedByVM0 := loopback_vm_served) "u/" tt "a" "eu" "p" eq_refl)).
Defined.
