(* ===== verification/Keys.v ===== *)
(** Keys and load generation: [auth/keys.go] and [throughput/helper.go].

    The signature schemes of hypersdk are the class [Crypto]; what the program relies
    on is in [CryptoLaws].  A private key on disk is its bytes. *)

From S2P Require Import Prelude GoTime KV Core Storage Transfer Actions VMRegistry RPCClient.
From Stdlib Require Import ZArith Lia Ascii String.
From stdpp Require Import base tactics option list strings pretty gmap.

Local Open Scope Z_scope.

(** * The library *)

(** Names of the kinds of key, key generation from random bytes, public keys as the
    addresses made of them, and reading a file of an expected size. *)
Class Crypto : Type := {
  ED25519Key : string;
  Secp256r1Key : string;
  BLSKey : string;
  ed_PrivateKeyLen : Z;
  secp_PrivateKeyLen : Z;
  bls_PrivateKeyLen : Z;
  ed_Generate : string → outcome string;
  secp_Generate : string → outcome string;
  bls_Key : Type;
  bls_Generate : string → outcome bls_Key;
  bls_ToBytes : bls_Key → string;
  bls_FromBytes : string → outcome bls_Key;
  ed_Address : string → string;
  secp_Address : string → string;
  bls_Address : bls_Key → string;
  LoadBytes : gmap string string → string → Z → outcome string;
}.

Class CryptoLaws `{!Crypto} : Prop := {
  key_names_distinct : NoDup [ED25519Key; Secp256r1Key; BLSKey];
  ed_Generate_len : ∀ rnd p, ed_Generate rnd = Ok p → slen p = ed_PrivateKeyLen;
  secp_Generate_len : ∀ rnd p, secp_Generate rnd = Ok p → slen p = secp_PrivateKeyLen;
  bls_ToBytes_len : ∀ k, slen (bls_ToBytes k) = bls_PrivateKeyLen;
  bls_FromBytes_ToBytes : ∀ k, bls_FromBytes (bls_ToBytes k) = Ok k;
  LoadBytes_spec : ∀ fs path n b, LoadBytes fs path n = Ok b ↔ fs !! path = Some b ∧ slen b = n;
}.

Definition ErrInvalidKeyType := Sentinel "auth" "ErrInvalidKeyType".

Record PrivateKey : Type := mkPrivateKey { pk_Address : string; pk_Bytes : string }.

(** * [auth/keys.go] *)

Section keys.
Context `{!Crypto}.

Definition CheckKeyType (k : string) : verdict :=
  if bool_decide (k = ED25519Key) || bool_decide (k = Secp256r1Key) || bool_decide (k = BLSKey) then Ok tt
  else Err (Wrapf k ErrInvalidKeyType).

Definition GeneratePrivateKey (rnd k : string) : outcome PrivateKey :=
  if bool_decide (k = ED25519Key) then p ← ed_Generate rnd; Ok (mkPrivateKey (ed_Address p) p)
  else if bool_decide (k = Secp256r1Key) then p ← secp_Generate rnd; Ok (mkPrivateKey (secp_Address p) p)
  else if bool_decide (k = BLSKey) then p ← bls_Generate rnd; Ok (mkPrivateKey (bls_Address p) (bls_ToBytes p))
  else Err ErrInvalidKeyType.

(** [ed25519.PrivateKey(p)]: a slice as an array, which panics when it is too short. *)
Definition as_array (n : Z) (p : string) : outcome string :=
  if slen p <? n then Panic "cannot convert slice to array" else Ok (String.substring 0 (Z.to_nat n) p).

Definition LoadPrivateKey (fs : gmap string string) (k path : string) : outcome PrivateKey :=
  if bool_decide (k = ED25519Key) then
    p ← LoadBytes fs path ed_PrivateKeyLen;
    pk ← as_array ed_PrivateKeyLen p;
    Ok (mkPrivateKey (ed_Address pk) p)
  else if bool_decide (k = Secp256r1Key) then
    p ← LoadBytes fs path secp_PrivateKeyLen;
    pk ← as_array secp_PrivateKeyLen p;
    Ok (mkPrivateKey (secp_Address pk) p)
  else if bool_decide (k = BLSKey) then
    p ← LoadBytes fs path bls_PrivateKeyLen;
    privKey ← bls_FromBytes p;
    Ok (mkPrivateKey (bls_Address privKey) p)
  else Err ErrInvalidKeyType.
End keys.

(** * [throughput/helper.go] *)

Record SpamHelper (W G WS : Type) : Type := mkSpamHelper {
  sh_KeyType : string;
  sh_RegionID : string;
  sh_cli : option (VMClient W G);
  sh_ws : option WS;
  sh_teePairs : option (gmap string (string * string));
}.
Arguments mkSpamHelper {_ _ _} _ _ _ _ _.
Arguments sh_KeyType {_ _ _} _.
Arguments sh_RegionID {_ _ _} _.
Arguments sh_cli {_ _ _} _.
Arguments sh_ws {_ _ _} _.
Arguments sh_teePairs {_ _ _} _.

Section helper.
Context {W G WS : Type} `{!Requester W G, !Crypto}.
Abbreviation SH := (SpamHelper W G WS).

Definition NewSpamHelper (keyType : string) : SH := mkSpamHelper keyType "" None None (Some ∅).

(** Every key type makes an ed25519 account. *)
Definition CreateAccount (rnd : string) (sh : SH) : outcome PrivateKey :=
  if bool_decide (sh_KeyType sh = "ed25519") then p ← ed_Generate rnd; Ok (mkPrivateKey (ed_Address p) p)
  else p ← ed_Generate rnd; Ok (mkPrivateKey (ed_Address p) p).

(** [dial] opens the web socket; [w] is the world the client talks to. *)
Definition CreateClient (dial : string → outcome WS) (w : W) (uri : string) : go SH unit :=
  modify (λ sh, mkSpamHelper (sh_KeyType sh) (sh_RegionID sh) (Some (NewJSONRPCClient uri w)) (sh_ws sh) (sh_teePairs sh)) ;;
  ws ← lift (dial uri);
  modify (λ sh, mkSpamHelper (sh_KeyType sh) (sh_RegionID sh) (sh_cli sh) (Some ws) (sh_teePairs sh)).

(** A call on the helper's client, which is nil before [CreateClient]. *)
Definition on_cli {A} (m : go (VMClient W G) A) : go SH A := λ sh,
  match sh_cli sh with
  | None => (sh, Panic "invalid memory address or nil pointer dereference")
  | Some c => let '(c', o) := m c in (mkSpamHelper (sh_KeyType sh) (sh_RegionID sh) (Some c') (sh_ws sh) (sh_teePairs sh), o)
  end.

Definition GetParser : go SH (Parser G) := on_cli Client_Parser.
Definition LookupBalance (address : string) : go SH Z := on_cli (Client_Balance address).

Definition teePair (sh : SH) : string * string :=
  default ("", "") (sh_teePairs sh ≫= λ m, m !! sh_RegionID sh).

Definition CreateTestAttestation (now : Time) (data : string) (sh : SH) : TEEAttestation * TEEAttestation :=
  let timestamp := UTC now in
  (mkAttestation (teePair sh).1 "test-measurement-1" timestamp data "test-signature-1" "",
   mkAttestation (teePair sh).2 "test-measurement-2" timestamp data "test-signature-2" "").

Definition GetRegionalEvent (now : Time) (targetID functionCall params : string) (sh : SH) : list Action :=
  [ASendEvent (mkSendEvent targetID functionCall params (CreateTestAttestation now params sh) (sh_RegionID sh))].

Definition GetTransfer (address : string) (amount : Z) (memo : string) : list Action :=
  [ATransfer (mkTransfer address amount memo)].

(** The write to a nil map panics after the region is set. *)
Definition SetRegion (regionID : string) (pair : string * string) : go SH unit := λ sh,
  match sh_teePairs sh with
  | None => (mkSpamHelper (sh_KeyType sh) regionID (sh_cli sh) (sh_ws sh) None, Panic "assignment to entry in nil map")
  | Some m => (mkSpamHelper (sh_KeyType sh) regionID (sh_cli sh) (sh_ws sh) (Some (<[regionID := pair]> m)), Ok tt)
  end.
End helper.

(** * Properties *)

Section properties.
Context `{CR : !Crypto, CL : !CryptoLaws}.

Lemma CheckKeyType_ok k : CheckKeyType k = Ok tt ↔ k ∈ [ED25519Key; Secp256r1Key; BLSKey].
Proof using Type.
  unfold CheckKeyType. rewrite !elem_of_cons, elem_of_nil. repeat case_bool_decide; naive_solver.
Qed.

Lemma LoadBytes_saved fs path b : fs !! path = Some b → LoadBytes fs path (slen b) = Ok b.
Proof using Type*. intros H. by apply LoadBytes_spec. Qed.

Lemma as_array_exact p : as_array (slen p) p = Ok p.
Proof using Type. unfold as_array, slen. rewrite Z.ltb_irrefl, Nat2Z.id. by rewrite substring_all. Qed.

(** A key type is accepted exactly when it is one of the three, other types are
    refused by generation and loading too, and a generated key that is written to a
    file is loaded back, with its address. *)
Theorem PrivateKey_roundtrip k rnd fs path :
  match CheckKeyType k with
  | Ok _ => k ∈ [ED25519Key; Secp256r1Key; BLSKey] ∧
      ∀ pk, GeneratePrivateKey rnd k = Ok pk → fs !! path = Some (pk_Bytes pk) → LoadPrivateKey fs k path = Ok pk
  | _ => k ∉ [ED25519Key; Secp256r1Key; BLSKey] ∧
      GeneratePrivateKey rnd k = Err ErrInvalidKeyType ∧ LoadPrivateKey fs k path = Err ErrInvalidKeyType
  end.
Proof using Type*.
  unfold CheckKeyType, GeneratePrivateKey, LoadPrivateKey.
  destruct (bool_decide_reflect (k = ED25519Key)) as [->|H1]; simpl.
  { split; [rewrite !elem_of_cons; naive_solver|]. intros pk Hg Hf. destruct (ed_Generate rnd) as [p| | |] eqn:E; simplify_eq/=.
    rewrite <-(ed_Generate_len _ _ E). rewrite (LoadBytes_saved _ _ _ Hf). simpl. by rewrite as_array_exact. }
  destruct (bool_decide_reflect (k = Secp256r1Key)) as [->|H2]; simpl.
  { split; [rewrite !elem_of_cons; naive_solver|]. intros pk Hg Hf. destruct (secp_Generate rnd) as [p| | |] eqn:E; simplify_eq/=.
    rewrite <-(secp_Generate_len _ _ E). rewrite (LoadBytes_saved _ _ _ Hf). simpl. by rewrite as_array_exact. }
  destruct (bool_decide_reflect (k = BLSKey)) as [->|H3]; simpl; [|rewrite !elem_of_cons, elem_of_nil; naive_solver].
  split; [rewrite !elem_of_cons; naive_solver|]. intros pk Hg Hf. destruct (bls_Generate rnd) as [p| | |] eqn:E; simplify_eq/=.
  rewrite <-(bls_ToBytes_len p). rewrite (LoadBytes_saved _ _ _ Hf). simpl. by rewrite bls_FromBytes_ToBytes.
Qed.
End properties.

Section helper_properties.
Context {W G WS : Type} `{!Requester W G, CR : !Crypto}.
Implicit Types sh : SpamHelper W G WS.

(** The events the helper makes for a region it was given pass the check of their
    attestations, if both enclave ids are non-empty. *)
Lemma GetRegionalEvent_attested now target call params region pair sh sh' :
  SetRegion region pair sh = (sh', Ok tt) → pair.1 ≠ "" → pair.2 ≠ "" →
  ∃ a, GetRegionalEvent now target call params sh' = [ASendEvent a] ∧
    SEv_RegionID a = region ∧ verifyAttestationPair (SEv_Attestations a) = Ok tt.
Proof using Type.
  unfold SetRegion. destruct (sh_teePairs sh) as [m|]; [|done]. intros [= <-] H1 H2.
  eexists. split; [reflexivity|]. split; [done|].
  unfold CreateTestAttestation, teePair, verifyAttestationPair. simpl. rewrite lookup_insert_eq. simpl.
  destruct pair as [[|] [|]]; simpl in *; try done. unfold check, slen. simpl.
  by rewrite !bool_decide_eq_true_2.
Qed.

(** A helper that was not made by [NewSpamHelper] has no map: [SetRegion] panics. *)
Lemma SetRegion_literal kt region pair :
  ∃ sh' why, SetRegion region pair (mkSpamHelper kt "" None None None : SpamHelper W G WS) = (sh', Panic why).
Proof using Type. by eexists _, _. Qed.
End helper_properties.

(** * Witness *)

#[export] Instance sample_Crypto : Crypto := {|
  ED25519Key := "ed25519"; Secp256r1Key := "secp256r1"; BLSKey := "bls";
  ed_PrivateKeyLen := 4; secp_PrivateKeyLen := 2; bls_PrivateKeyLen := 1;
  ed_Generate rnd := if slen rnd =? 4 then Ok rnd else Err (Errorf "no entropy");
  secp_Generate rnd := if slen rnd =? 2 then Ok rnd else Err (Errorf "no entropy");
  bls_Key := ascii;
  bls_Generate rnd := match rnd with String a _ => Ok a | EmptyString => Err (Errorf "no entropy") end;
  bls_ToBytes a := String a "";
  bls_FromBytes b := match b with String a EmptyString => Ok a | _ => Err (Errorf "bad key") end;
  ed_Address p := "ed-" +s+ p; secp_Address p := "sp-" +s+ p; bls_Address a := String a "";
  LoadBytes fs path n :=
    match fs !! path with
    | Some b => if slen b =? n then Ok b else Err (Errorf "invalid size")
    | None => Err (Errorf "no such file")
    end;
|}.
#[export] Instance sample_CryptoLaws : CryptoLaws.
Proof.
  split; simpl; [by apply (bool_decide_unpack (NoDup _))| | |done|done|].
  - intros rnd p. destruct (Z.eqb_spec (slen rnd) 4); naive_solver.
  - intros rnd p. destruct (Z.eqb_spec (slen rnd) 2); naive_solver.
  - intros fs path n b. destruct (fs !! path) as [c|]; [|naive_solver]. destruct (Z.eqb_spec (slen c) n); naive_solver.
Qed.

Lemma PrivateKey_roundtrip_witness :
  LoadPrivateKey {["k" := "abcd"]} "ed25519" "k" = Ok (mkPrivateKey "ed-abcd" "abcd").
Proof.
  pose proof (PrivateKey_roundtrip "ed25519" "abcd" {["k" := "abcd"]} "k") as H.
  change (CheckKeyType "ed25519") with (Ok tt : verdict) in H. apply (proj2 H); reflexivity.
Defined.
