(* ===== verification/ChainClient.v ===== *)
(** Sending a transaction and waiting for it: what the faucet ([cmd/faucet]) and the
    command line ([cmd/morpheus-cli]) have in common.

    hypersdk's clients are the class [ChainAPI].  The web socket delivers messages in
    the order they arrive; [inbox] holds the ones not read yet, and [RegisterTx] says
    which arrive while its caller waits. *)

From S2P Require Import Prelude GoTime KV VMRegistry RPCClient.
From Stdlib Require Import ZArith Lia Ascii String.
From stdpp Require Import base tactics option list strings pretty gmap.

Local Open Scope Z_scope.

Record TxResult : Type := mkTxResult { tr_Success : bool; tr_Error : string; tr_Fee : Z; tr_Units : string }.

(** What [ListenTx] returns: a transaction with its error or result, or an error of the
    socket. *)
Inductive WsMsg : Type :=
  | Delivered (txID : string) (txErr : option goerr) (result : TxResult)
  | SocketErr (e : goerr).

Class ChainAPI (W G F Tx : Type) : Type := {
  GenerateTransaction : Parser G → list Action → F → go W Tx;
  tx_ID : Tx → string;
  RegisterTx : Tx → go W (list WsMsg);
}.

(** The world the clients talk to and the socket's inbox. *)
Record Session (W : Type) : Type := mkSession { world : W; inbox : list WsMsg }.
Arguments mkSession {_} _ _.
Arguments world {_} _.
Arguments inbox {_} _.

(** The loop around [ListenTx]: a transaction's error ends it whosever it is, results
    of other transactions are skipped; [exhausted] is how it ends when nothing arrives
    any more. *)
Fixpoint listen (exhausted : outcome TxResult) (wrap_err : goerr → goerr) (id : string) (msgs : list WsMsg) :
    list WsMsg * outcome TxResult :=
  match msgs with
  | [] => ([], exhausted)
  | SocketErr e :: rest => (rest, Err (wrap_err e))
  | Delivered txID txErr result :: rest =>
      match txErr with
      | Some e => (rest, Err e)
      | None => if bool_decide (txID = id) then (rest, Ok result) else listen exhausted wrap_err id rest
      end
  end.

Section session.
Context {W G F Tx : Type} `{!Requester W G, !ChainAPI W G F Tx}.

Definition on_world {A} (m : go W A) : go (Session W) A := zoom world (λ w s, mkSession w (inbox s)) m.

Definition register (tx : Tx) : go (Session W) unit :=
  msgs ← on_world (RegisterTx (G := G) (F := F) tx);
  modify (λ s, mkSession (world s) (inbox s ++ msgs)).

Definition await (exhausted : outcome TxResult) (wrap_err : goerr → goerr) (tx : Tx) : go (Session W) TxResult := λ s,
  let '(rest, o) := listen exhausted wrap_err (tx_ID (W := W) (G := G) (F := F) tx) (inbox s) in (mkSession (world s) rest, o).
End session.

(** * Properties *)

(** Whether a message is the answer for a transaction, or about another one that did
    not fail. *)
Definition skipped (id : string) (m : WsMsg) : Prop :=
  match m with Delivered txID None _ => txID ≠ id | _ => False end.

(** The wait returns the result of the transaction when only successful transactions
    of others come before it. *)
Lemma listen_own ex we id before r rest :
  Forall (skipped id) before → listen ex we id (before ++ Delivered id None r :: rest) = (rest, Ok r).
Proof.
  induction 1 as [|m before Hm _ IH]; simpl; [by rewrite bool_decide_eq_true_2|].
  destruct m as [txID [e|] r'|e]; simpl in Hm; try done. by rewrite bool_decide_eq_false_2.
Qed.

(** The error of another transaction that arrives first is returned for this one. *)
Lemma listen_other_error ex we id before other e r rest :
  Forall (skipped id) before → listen ex we id (before ++ Delivered other (Some e) r :: rest) = (rest, Err e).
Proof.
  induction 1 as [|m before Hm _ IH]; simpl; [done|].
  destruct m as [txID [e'|] r'|e']; simpl in Hm; try done. by rewrite bool_decide_eq_false_2.
Qed.

(** A wait consumes the results of the transactions it skips: nobody else sees them. *)
Lemma listen_consumes ex we id msgs :
  Forall (skipped id) msgs → listen ex we id msgs = ([], ex).
Proof.
  induction 1 as [|m msgs Hm _ IH]; simpl; [done|].
  destruct m as [txID [e'|] r'|e']; simpl in Hm; try done. by rewrite bool_decide_eq_false_2.
Qed.

(** What is left in the inbox is a suffix of it. *)
Lemma listen_suffix ex we id msgs : ∃ taken, msgs = taken ++ (listen ex we id msgs).1.
Proof.
  induction msgs as [|m msgs [l IH]]; simpl; [by exists []|].
  destruct m as [txID [e|] r|e]; [by exists [Delivered txID (Some e) r]| |by exists [SocketErr e]].
  case_bool_decide; [by exists [Delivered txID None r]|]. exists (Delivered txID None r :: l). simpl. by f_equal.
Qed.
