(* ===== verification/Faucet.v ===== *)
(** [cmd/faucet/faucet.go]: a web server that sends coins.

    The faucet's state is its readiness, the rate limiters of its clients, and the
    session with the chain.  The limiter of [golang.org/x/time/rate] is the class
    [Limiter]; addresses and balances are parsed by the class [CoinLib]. *)

From S2P Require Import Prelude GoTime KV Transfer VMApi VMRegistry RPCClient ChainClient.
From Stdlib Require Import ZArith Lia Ascii String Sorted.
From stdpp Require Import base tactics option list strings pretty gmap sorting.

Local Open Scope Z_scope.

(** * The libraries *)

Class CoinLib : Type := {
  StringToAddress : string → outcome string;
  ParseBalance : string → outcome Z;
}.

(** [NewLimiter (rate.Every every) burst], and [Allow] at a time in nanoseconds. *)
Class Limiter (L : Type) : Type := {
  NewLimiter : Z → Z → L;
  Allow : Z → L → L * bool;
}.

(** How many of the calls at these times a limiter lets through. *)
Fixpoint admitted {L} `{!Limiter L} (l : L) (times : list Z) : nat :=
  match times with
  | [] => 0
  | t :: ts => let '(l', ok) := Allow t l in if ok then S (admitted l' ts) else admitted l' ts
  end.

(** What the library documents: the rate over an interval plus the burst bounds what is
    let through, and a new limiter lets a burst through. *)
Class LimiterLaws (L : Type) `{!Limiter L} : Prop := {
  Limiter_bound : ∀ every burst t0 times, 0 < every → 0 ≤ burst →
    StronglySorted Z.le (t0 :: times) →
    Z.of_nat (admitted (NewLimiter every burst) (t0 :: times)) ≤ burst + (default t0 (last times) - t0) / every;
  Limiter_first : ∀ every burst t, 0 < every → 1 ≤ burst → (Allow t (NewLimiter every burst)).2 = true;
}.

(** * The faucet *)

Definition amtStr : string := "10.00".
Definition faucetServerPort : string := "8765".

Record Faucet (W L : Type) : Type := mkFaucet {
  isReady : bool;
  ipLimiters : gmap string L;
  fc_session : Session W;
}.
Arguments mkFaucet {_ _} _ _ _.
Arguments isReady {_ _} _.
Arguments ipLimiters {_ _} _.
Arguments fc_session {_ _} _.

(** What the handlers read of a request; the body is not used. *)
Record Request : Type := mkRequest {
  rq_Method : string;
  rq_RemoteAddr : string;
  rq_address : string;
  rq_time : Z;
}.

Definition StatusTooManyRequests : Z := 429.
Definition StatusServiceUnavailable : Z := 503.

(** [strings.TrimPrefix(to, "0x")]. *)
Definition trim_0x (to : string) : string := if HasPrefix to "0x" then drop_str 2 to else to.

Definition DeadlineExceeded : goerr := Sentinel "context" "DeadlineExceeded".

Section faucet.
Context {W G F Tx L : Type} `{!Requester W G, !ChainAPI W G F Tx, CO : !CoinLib, !Limiter L}.
Context (factory : F).
Abbreviation FC := (Faucet W L).

Definition on_session {A} (m : go (Session W) A) : go FC A :=
  zoom fc_session (λ s f, mkFaucet (isReady f) (ipLimiters f) s) m.

Definition transferCoins (to : string) : go (Session W) string :=
  let to := trim_0x to in
  toAddr ← wrap "failed to parse to address" (lift (StringToAddress to));
  amt ← wrap "failed to parse amount" (lift (ParseBalance amtStr));
  balanceBefore ← wrap "failed to get balance" (on_world (api_Balance (G := G) toAddr));
  let threshold := match ParseBalance "1.000" with Ok x => x | _ => 0 end in
  if threshold <? balanceBefore then mret "Balance is already greater than 1.000, no transfer needed" else
  parser ← wrap "failed to get parser" (on_world (api_Parser (G := G)));
  tx ← wrap "failed to generate transaction"
         (on_world (GenerateTransaction parser [ATransfer (mkTransfer toAddr amt "")] factory));
  wrap "failed to register transaction" (register (G := G) (F := F) tx) ;;
  result ← await (G := G) (F := F) (Err (Wrapf "failed to listen for transaction" DeadlineExceeded))
             (Wrapf "failed to listen for transaction") tx;
  fail_if (negb (tr_Success result)) (Errorf ("transaction failed: " +s+ tr_Error result)) ;;
  mret "Coins transferred successfully".

Definition setReady (status : bool) : go FC unit := modify (λ f, mkFaucet status (ipLimiters f) (fc_session f)).
Definition getReadyStatus : go FC bool := gets isReady.

(** The attempts left; a wait between them. *)
Fixpoint initial_attempts (n : nat) (to : string) : go FC unit :=
  match n with
  | O => gopanic "Faucet initialization failed after 5 attempts. Exiting."
  | S n' =>
      r ← try (on_session (transferCoins to));
      match r with
      | inl _ => setReady true
      | inr _ => initial_attempts n' to
      end
  end.

(** [random] is the address made of random bytes, or the error of making it. *)
Definition performInitialTransfer (random : outcome string) : go FC unit :=
  match random with
  | Ok to => initial_attempts 10 to
  | _ => gopanic "Failed to generate random bytes"
  end.

Definition handleReadyCheck : go FC (Z * Body) :=
  ready ← getReadyStatus;
  if ready : bool then mret (StatusOK, BodyText "Faucet is healthy") else mret (StatusServiceUnavailable, BodyText "Faucet is not yet healthy").

Definition getRateLimiter (ip : string) : go FC L := λ f,
  match ipLimiters f !! ip with
  | Some l => (f, Ok l)
  | None =>
      let l := NewLimiter (15 * Second) 10 in
      (mkFaucet (isReady f) (<[ip := l]> (ipLimiters f)) (fc_session f), Ok l)
  end.

(** [getRateLimiter(ip).Allow()]: the limiter is shared with the table. *)
Definition allowed (ip : string) (now : Z) : go FC bool :=
  l ← getRateLimiter ip;
  let '(l', ok) := Allow now l in
  modify (λ f, mkFaucet (isReady f) (<[ip := l']> (ipLimiters f)) (fc_session f)) ;;
  mret ok.

Definition handleFaucetRequest (r : Request) : go FC (Z * Body) :=
  if bool_decide (rq_Method r = "OPTIONS") then mret (StatusOK, BodyText "") else
  ok ← allowed (rq_RemoteAddr r) (rq_time r);
  if negb ok then mret (StatusTooManyRequests, BodyText "Rate limit exceeded. Please try again later.") else
  if bool_decide (rq_address r = "") then mret (StatusBadRequest, BodyText "Address not provided") else
  res ← try (on_session (transferCoins (rq_address r)));
  match res with
  | inr e => mret (StatusInternalServerError, BodyError (Wrapf "Failed to transfer coins" e))
  | inl message => mret (StatusOK, BodyText message)
  end.

(** The answers to requests, one after the other. *)
Fixpoint serve (requests : list Request) : go FC (list (Z * Body)) :=
  match requests with
  | [] => mret []
  | r :: rs => a ← handleFaucetRequest r; answers ← serve rs; mret (a :: answers)
  end.

(** [main]: the faucet serves only after its first transfer. *)
Definition faucet_main (random : outcome string) (requests : list Request) : go FC (list (Z * Body)) :=
  performInitialTransfer random ;;
  serve requests.
End faucet.

(** * Properties *)

Section properties.
Context {W G F Tx L : Type} `{!Requester W G, !ChainAPI W G F Tx, CO : !CoinLib, !Limiter L}.
Context (factory : F).
Abbreviation FC := (Faucet W L).
Implicit Types (s : Session W) (f : FC).

(** The threshold above which nothing is sent. *)
Definition threshold : Z := match ParseBalance "1.000" with Ok x => x | _ => 0 end.

Lemma on_world_ok_inv {A} (m : go W A) s s' a :
  on_world m s = (s', Ok a) → ∃ w', m (world s) = (w', Ok a) ∧ s' = mkSession w' (inbox s).
Proof using Type. unfold on_world. intros H. by apply zoom_ok_inv in H. Qed.

Lemma api_Parser_never_ok {P : Type} (w w' : W) (p : P) : api_Parser (G := G) w ≠ (w', Ok p).
Proof using Type. unfold api_Parser. intros H. by apply bind_ok_inv in H as (? & ? & _ & H). Qed.

(** A request for coins that ends without error sent nothing: the address already had
    more than the threshold. *)
Lemma transferCoins_sends_nothing to s s' m :
  transferCoins factory to s = (s', Ok m) →
  m = "Balance is already greater than 1.000, no transfer needed" ∧ inbox s' = inbox s ∧
  ∃ addr w b, StringToAddress (trim_0x to) = Ok addr ∧ api_Balance addr (world s) = (w, Ok b) ∧ threshold < b.
Proof using Type.
  unfold transferCoins. intros H.
  apply bind_ok_inv in H as (addr & s1 & H1 & H). apply wrap_ok_inv, lift_ok_inv in H1 as [-> Ha].
  apply bind_ok_inv in H as (amt & s1 & H1 & H). apply wrap_ok_inv, lift_ok_inv in H1 as [-> Hamt].
  apply bind_ok_inv in H as (b & s1 & H1 & H). apply wrap_ok_inv, on_world_ok_inv in H1 as (w & Hb & ->).
  fold threshold in H. destruct (Z.ltb_spec threshold b).
  - injection H as <- <-. split; [done|]. split; [done|]. by exists addr, w, b.
  - apply bind_ok_inv in H as (p & s2 & H1 & _). apply wrap_ok_inv, on_world_ok_inv in H1 as (w' & H1 & _).
    by apply api_Parser_never_ok in H1.
Qed.

Lemma initial_attempts_fail n to f :
  (∀ s s' m, transferCoins factory to s ≠ (s', Ok m)) → ∀ o f', initial_attempts factory n to f = (f', o) →
  o ≠ Ok tt ∧ isReady f' = isReady f.
Proof using Type.
  intros Hno. revert f. induction n as [|n IH]; intros f o f' H; [by injection H as <- <-|].
  simpl in H. unfold mbind, go_bind, try in H.
  destruct (on_session (transferCoins factory to) f) as [f1 o1] eqn:E.
  assert (isReady f1 = isReady f) as Hr.
  { unfold on_session, zoom in E. destruct (transferCoins factory to (fc_session f)). by injection E as <- <-. }
  destruct o1 as [m|e|w|w]; [|by destruct (IH _ _ _ H) as [? ->]|by injection H as <- <-..].
  unfold on_session in E. apply zoom_ok_inv in E as (s' & E & _). by apply Hno in E.
Qed.

(** While the chain does not report more than the threshold for the address of its
    first transfer, the faucet never becomes ready and never serves a request,
    whatever the servers answer: its client cannot make a parser. *)
Theorem faucet_never_serves to requests f :
  isReady f = false →
  (∀ addr w w' b, StringToAddress (trim_0x to) = Ok addr → api_Balance (G := G) addr w = (w', Ok b) → b ≤ threshold) →
  ∀ f' o, faucet_main factory (Ok to) requests f = (f', o) → isReady f' = false ∧ ∀ answers, o ≠ Ok answers.
Proof using Type.
  intros Hr Hb f' o H.
  assert (∀ s s' m, transferCoins factory to s ≠ (s', Ok m)) as Hno.
  { intros s s' m Ht. apply transferCoins_sends_nothing in Ht as (_ & _ & addr & w & b & Ha & Hbal & Hlt).
    pose proof (Hb _ _ _ _ Ha Hbal). lia. }
  unfold faucet_main, mbind, go_bind, performInitialTransfer in H.
  destruct (initial_attempts factory 10 to f) as [f1 o1] eqn:E.
  destruct (initial_attempts_fail 10 to f Hno o1 f1 E) as [Hne Hready].
  destruct o1 as [[]|e|w|w]; [done|by injection H as <- <-; rewrite Hready..].
Qed.

(** ** Rate limiting *)

(** Whether a request of a client was let through to the transfer. *)
Definition let_through (r : Request) (o : outcome (Z * Body)) : bool :=
  negb (bool_decide (rq_Method r = "OPTIONS")) &&
  match o with Ok (code, _) => negb (code =? StatusTooManyRequests) | _ => true end.

(** The requests of one remote address that are let through, of requests handled one
    after the other. *)
Fixpoint through (ip : string) (requests : list Request) (f : FC) : nat :=
  match requests with
  | [] => 0
  | r :: rs =>
      let '(f', o) := handleFaucetRequest factory r f in
      if bool_decide (rq_RemoteAddr r = ip) && let_through r o then S (through ip rs f') else through ip rs f'
  end.

(** The times of the requests of one address that ask its limiter. *)
Definition asks (ip : string) (r : Request) : bool :=
  bool_decide (rq_RemoteAddr r = ip) && negb (bool_decide (rq_Method r = "OPTIONS")).
Definition ask_times (ip : string) (requests : list Request) : list Z := rq_time <$> List.filter (asks ip) requests.

(** The limiter of an address: a new one until its first request. *)
Definition limiter_of (ip : string) (f : FC) : L := default (NewLimiter (15 * Second) 10) (ipLimiters f !! ip).

(** What a request does to the limiters: only that of its address moves. *)
Lemma handleFaucetRequest_limiters r f :
  rq_Method r ≠ "OPTIONS" →
  let '(f', o) := handleFaucetRequest factory r f in
  limiter_of (rq_RemoteAddr r) f' = (Allow (rq_time r) (limiter_of (rq_RemoteAddr r) f)).1 ∧
  let_through r o = (Allow (rq_time r) (limiter_of (rq_RemoteAddr r) f)).2 ∧
  ∀ ip, ip ≠ rq_RemoteAddr r → limiter_of ip f' = limiter_of ip f.
Proof using Type.
  intros Hm. unfold handleFaucetRequest, let_through. rewrite (bool_decide_eq_false_2 (rq_Method r = "OPTIONS")) by done. simpl.
  set (ip := rq_RemoteAddr r). set (l := limiter_of ip f). destruct (Allow (rq_time r) l) as [l' ok] eqn:Ea.
  assert (∃ lims, allowed ip (rq_time r) f = (mkFaucet (isReady f) lims (fc_session f), Ok ok) ∧ lims !! ip = Some l' ∧
    ∀ ip', ip' ≠ ip → lims !! ip' = ipLimiters f !! ip') as (lims & Hal & Hl & Hne).
  { unfold allowed, mbind, go_bind, getRateLimiter. unfold l, limiter_of in Ea. destruct (ipLimiters f !! ip) as [l0|] eqn:El; simpl in Ea.
    - rewrite Ea. eexists. split; [reflexivity|]. rewrite lookup_insert_eq. split; [done|].
      intros ip' Hip. by rewrite lookup_insert_ne.
    - rewrite Ea. eexists. split; [reflexivity|]. simpl. rewrite lookup_insert_eq. split; [done|].
      intros ip' Hip. by rewrite !lookup_insert_ne. }
  rewrite (bind_ok _ _ _ _ _ Hal).
  assert (∀ s', limiter_of ip (mkFaucet (isReady f) lims s') = l' ∧
    ∀ ip', ip' ≠ ip → limiter_of ip' (mkFaucet (isReady f) lims s') = limiter_of ip' f) as Hlim.
  { intros s'. unfold limiter_of. simpl. rewrite Hl. split; [done|]. intros ip' Hip. by rewrite Hne. }
  destruct ok; simpl; [|by destruct (Hlim (fc_session f))].
  case_bool_decide; simpl; [by destruct (Hlim (fc_session f))|].
  unfold mbind, go_bind, try, on_session, zoom. simpl.
  destruct (transferCoins factory (rq_address r) (fc_session f)) as [s' [m|e|w|w]]; simpl; by destruct (Hlim s').
Qed.

Lemma ask_times_cons ip r rs :
  ask_times ip (r :: rs) = if asks ip r then rq_time r :: ask_times ip rs else ask_times ip rs.
Proof using Type. unfold ask_times. simpl. by destruct (asks ip r). Qed.

Lemma through_admitted ip requests f : through ip requests f = admitted (limiter_of ip f) (ask_times ip requests).
Proof using Type.
  revert f. induction requests as [|r rs IH]; intros f; [done|]. rewrite ask_times_cons. unfold asks. simpl.
  destruct (bool_decide_reflect (rq_Method r = "OPTIONS")) as [Ho|Ho].
  - assert (handleFaucetRequest factory r f = (f, Ok (StatusOK, BodyText ""))) as ->
      by (unfold handleFaucetRequest; by rewrite bool_decide_eq_true_2).
    unfold let_through. rewrite (bool_decide_eq_true_2 (rq_Method r = "OPTIONS")) by done. rewrite !andb_false_r. apply IH.
  - pose proof (handleFaucetRequest_limiters r f Ho) as H. destruct (handleFaucetRequest factory r f) as [f' o].
    destruct H as (H1 & H2 & H3). rewrite andb_true_r.
    destruct (bool_decide_reflect (rq_RemoteAddr r = ip)) as [<-|Hip]; simpl.
    + rewrite H2, IH, H1. by destruct (Allow _ _) as [l' []].
    + by rewrite IH, H3.
Qed.

(** C39: from one remote address, the faucet lets through at most a burst of ten
    requests and one more per fifteen seconds, whatever the requests and whatever other
    clients ask in between. *)
Theorem faucet_rate_bound `{!LimiterLaws L} ip requests f t0 ts :
  ipLimiters f !! ip = None → StronglySorted Z.le (rq_time <$> requests) → ask_times ip requests = t0 :: ts →
  Z.of_nat (through ip requests f) ≤ 10 + (default t0 (last ts) - t0) / (15 * Second).
Proof using Type.
  intros Hnone Hs Ht. rewrite through_admitted. unfold limiter_of. rewrite Hnone. simpl. rewrite Ht.
  apply Limiter_bound; [done|done|]. rewrite <-Ht. clear Ht.
  induction requests as [|r rs IH]; [constructor|]. apply StronglySorted_inv in Hs as [Hs Hall].
  rewrite ask_times_cons. destruct (asks ip r); [|by apply IH]. constructor; [by apply IH|].
  rewrite Forall_forall in Hall. apply Forall_forall. intros x Hx. apply Hall.
  apply list_elem_of_fmap in Hx as (q & -> & Hq). apply list_elem_of_fmap_2.
  apply list_elem_of_In in Hq. apply filter_In in Hq as [Hq _]. by apply list_elem_of_In.
Qed.

(** The limit is by remote address, which includes the port of the connection:
    requests from connections of their own are all let through. *)
Lemma fresh_connections_through `{!LimiterLaws L} requests f :
  NoDup (rq_RemoteAddr <$> requests) → Forall (λ r, ipLimiters f !! rq_RemoteAddr r = None ∧ rq_Method r ≠ "OPTIONS") requests →
  Forall (λ r, through (rq_RemoteAddr r) requests f = 1%nat) requests.
Proof using Type.
  intros Hnd Hall. apply Forall_forall. intros r Hr. rewrite through_admitted.
  rewrite Forall_forall in Hall. destruct (Hall r Hr) as [Hn Ho]. unfold limiter_of. rewrite Hn. simpl.
  assert (ask_times (rq_RemoteAddr r) requests = [rq_time r]) as ->.
  { clear Hn. revert Hnd Hall. induction requests as [|q qs IH]; [by apply not_elem_of_nil in Hr|].
    intros [Hq Hqs]%NoDup_cons Hall. rewrite ask_times_cons. unfold asks at 1.
    destruct (bool_decide_reflect (rq_RemoteAddr q = rq_RemoteAddr r)) as [He|He]; simpl.
    - assert (q = r) as ->.
      { apply elem_of_cons in Hr as [->|Hr]; [done|]. exfalso. apply Hq. rewrite He. by apply list_elem_of_fmap_2. }
      rewrite bool_decide_eq_false_2 by done. simpl. f_equal. clear IH Hall Hr Hqs He. induction qs as [|x qs IH]; [done|].
      simpl in Hq. apply not_elem_of_cons in Hq as [Hx Hq].
      rewrite ask_times_cons. unfold asks at 1. rewrite bool_decide_eq_false_2 by done. by apply IH.
    - apply IH; [by apply elem_of_cons in Hr as [->|?]|done|]. intros x Hx. apply Hall. by right. }
  simpl. pose proof (Limiter_first (15 * Second) 10 (rq_time r) ltac:(done) ltac:(done)) as Hf.
  by destruct (Allow _ _) as [l' []].
Qed.
End properties.

(** * Witnesses *)

(** A token bucket in nanoseconds: a token is [bk_every] of them. *)
Record Bucket : Type := mkBucket { bk_every : Z; bk_burst : Z; bk_fill : Z; bk_last : option Z }.

Definition refill (t : Z) (b : Bucket) : Z :=
  match bk_last b with
  | None => bk_burst b * bk_every b
  | Some t' => Z.min (bk_burst b * bk_every b) (bk_fill b + Z.max 0 (t - t'))
  end.

#[export] Instance bucket_Limiter : Limiter Bucket := {|
  NewLimiter every burst := mkBucket every burst 0 None;
  Allow t b :=
    if bk_every b <=? refill t b then (mkBucket (bk_every b) (bk_burst b) (refill t b - bk_every b) (Some t), true)
    else (mkBucket (bk_every b) (bk_burst b) (refill t b) (Some t), false);
|}.

Lemma bucket_bound (times : list Z) every burst fill t :
  0 < every → StronglySorted Z.le (t :: times) →
  Z.of_nat (admitted (mkBucket every burst fill (Some t)) times) * every ≤ Z.max 0 fill + (default t (last times) - t).
Proof.
  intros He. revert t fill. induction times as [|t1 ts IH]; intros t fill Hs; [simpl; lia|].
  apply StronglySorted_inv in Hs as [Hs Hall]. apply Forall_cons in Hall as [Ht _].
  assert (default t (last (t1 :: ts)) = default t1 (last ts)) as -> by (rewrite last_cons; by destruct (last ts)).
  assert (t1 ≤ default t1 (last ts)) as Hl.
  { apply StronglySorted_inv in Hs as [_ Hall]. rewrite Forall_forall in Hall. destruct (last ts) as [x|] eqn:E; simpl; [|lia].
    apply Hall. apply last_Some in E as [l ->]. apply elem_of_app. right. left. }
  cbn [admitted]. unfold Allow, bucket_Limiter, refill. cbn [bk_every bk_burst bk_fill bk_last].
  set (fl := Z.min (burst * every) (fill + Z.max 0 (t1 - t))).
  assert (fl ≤ Z.max 0 fill + (t1 - t)) as Hfl by (unfold fl; lia). clearbody fl.
  destruct (Z.leb_spec every fl).
  - specialize (IH t1 (fl - every) Hs). rewrite Nat2Z.inj_succ. set (n := admitted _ _) in *. clearbody n. nia.
  - specialize (IH t1 fl Hs). set (n := admitted _ _) in *. clearbody n. nia.
Qed.

#[export] Instance bucket_LimiterLaws : LimiterLaws Bucket.
Proof.
  split.
  - intros every burst t0 times He Hb Hs. cbn [admitted]. unfold Allow, bucket_Limiter, NewLimiter, refill.
    cbn [bk_every bk_burst bk_fill bk_last].
    assert (∀ n, n * every ≤ burst * every + (default t0 (last times) - t0) →
      n ≤ burst + (default t0 (last times) - t0) / every) as Hdiv.
    { intros n Hn. assert (n - burst ≤ (default t0 (last times) - t0) / every); [|lia]. apply Z.div_le_lower_bound; lia. }
    apply Hdiv. destruct (Z.leb_spec every (burst * every)).
    + pose proof (bucket_bound times every burst (burst * every - every) t0 He Hs). rewrite Nat2Z.inj_succ. set (n := admitted _ _) in *. clearbody n. nia.
    + pose proof (bucket_bound times every burst (burst * every) t0 He Hs). set (n := admitted _ _) in *. clearbody n. nia.
  - intros every burst t He Hb. unfold Allow, bucket_Limiter, NewLimiter, refill. cbn [bk_every bk_burst bk_fill bk_last].
    destruct (Z.leb_spec every (burst * every)); [done|]. nia.
Qed.

(** A chain where every address has nothing. *)
Definition poor_chain : Requester unit unit := λ m args, mret emptyReply.
Definition sample_chain : ChainAPI unit unit unit string := {|
  GenerateTransaction p actions factory := mret "tx";
  tx_ID tx := tx;
  RegisterTx tx := mret [Delivered tx None (mkTxResult true "" 0 "")];
|}.
Definition sample_coins : CoinLib := {|
  StringToAddress s := Ok s;
  ParseBalance s := if bool_decide (s = "1.000") then Ok (10 ^ 9) else Ok (10 * 10 ^ 9);
|}.
Definition idle_faucet : Faucet unit Bucket := mkFaucet false ∅ (mkSession tt []).

Lemma faucet_never_serves_witness :
  ∀ f' o, faucet_main (Requester0 := poor_chain) (ChainAPI0 := sample_chain) (CO := sample_coins) tt (Ok "a") [] idle_faucet = (f', o) →
    isReady f' = false.
Proof.
  intros f' o H.
  refine (proj1 (faucet_never_serves (Requester0 := poor_chain) (ChainAPI0 := sample_chain) (CO := sample_coins)
    tt "a" [] idle_faucet eq_refl _ f' o H)).
  intros addr w w' b _ Hb. injection Hb as _ <-. by vm_compute.
Defined.

(** Eleven requests in one second: ten are let through. *)
Definition burst_requests : list Request := (λ n, mkRequest "GET" "10.0.0.1:4000" "a" (Z.of_nat n)) <$> seq 0 11.

Lemma faucet_rate_bound_witness :
  Z.of_nat (through (Requester0 := poor_chain) (ChainAPI0 := sample_chain) (CO := sample_coins) tt "10.0.0.1:4000"
    burst_requests idle_faucet) ≤ 10.
Proof.
  etrans; [apply (faucet_rate_bound (Requester0 := poor_chain) (ChainAPI0 := sample_chain) (CO := sample_coins)
    tt "10.0.0.1:4000" burst_requests idle_faucet 0 (Z.of_nat <$> seq 1 10))|].
  - reflexivity.
  - apply (Sorted_StronglySorted _). repeat constructor; by vm_compute.
  - reflexivity.
  - by vm_compute.
Defined.
