(* ===== verification/CLI.v ===== *)
(** The command line, [cmd/morpheus-cli/cmd]: the handler, sending a transaction, and
    what each command does when it runs.  How the commands and their flags are put
    together at start-up is in [CLIInit.v].

    A command reads the package variables its flags set, the record [Flags]; what it
    prints is appended to [cs_out], colours included and without line breaks, one entry per call of [Outf].
    hypersdk's command line library, its prompts and the file system are the class
    [CliLib]. *)

From S2P Require Import Prelude GoTime RFC3339 KV Core Transfer Actions RegionConfig RegionManager.
From S2P Require Import VMApi VMRegistry RPCClient Keys ChainClient.
From Stdlib Require Import ZArith Lia Ascii String.
From stdpp Require Import base tactics option list strings pretty gmap.

Local Open Scope Z_scope.

Definition ErrInvalidArgs := Sentinel "cmd" "ErrInvalidArgs".
Definition ErrMissingSubcommand := Sentinel "cmd" "ErrMissingSubcommand".
Definition Symbol : string := "RED".

(** * The library *)

Class CliLib (W Fac : Type) : Type := {
  GetDefaultKey : go W (string * string);
  GetDefaultChain : go W (list string);
  StoreKey : PrivateKey → go W unit;
  StoreDefaultKey : string → go W unit;
  NewWebSocketClient : string → go W unit;
  NewED25519Factory : string → Fac;
  FormatBalance : Z → string;
  percent : Z → Z → string;              (* "%.2f%%" of a share *)
  prompt_Address : string → go W string;
  prompt_Amount : string → Z → go W Z;
  prompt_Continue : go W bool;
  ReadFile : string → go W string;
}.

(** The variables the flags set. *)
Record Flags : Type := mkFlags {
  sgxEndpoint : string;
  sevEndpoint : string;
  codeFile : string;
  initialStorage : string;
  functionCall : string;
  parameters : string;
  expectedHash : string;
  timeWindow : Z;
  flag_URI : string;
}.

Record Cli (W : Type) : Type := mkCli { cs_session : Session W; cs_out : list string }.
Arguments mkCli {_} _ _.
Arguments cs_session {_} _.
Arguments cs_out {_} _.

(** What [handleTx] is given. *)
Record ChainTx : Type := mkChainTx { ct_ID : string; ct_Actor : string; ct_MaxFee : Z; ct_Actions : list Action }.

(** [att[:2]] of fewer than two attestations panics (their capacity is their length);
    the first time that does not parse ends the loop. *)
Definition core_attestation (att : ApiAttestation) : outcome TEEAttestation :=
  match Parse (aa_Timestamp att) with
  | Ok timestamp =>
      Ok (mkAttestation (aa_EnclaveId att) (aa_Measurement att) timestamp (aa_Data att) (aa_Signature att) (aa_RegionProof att))
  | Err e => Err (Wrapf "failed to parse attestation timestamp" e)
  | Panic w => Panic w
  | Hang w => Hang w
  end.
Definition two_attestations (atts : list ApiAttestation) : outcome (TEEAttestation * TEEAttestation) :=
  match atts with
  | a0 :: a1 :: _ => t0 ← core_attestation a0; t1 ← core_attestation a1; Ok (t0, t1)
  | _ => Panic "slice bounds out of range"
  end.

Section cli.
Context {W G Fac Tx : Type} `{!Requester W G, !ChainAPI W G (option Fac) Tx, !CliLib W Fac, CR : !Crypto, AI : !AuthIDs}.
Abbreviation CS := (Cli W).

Definition Outf (line : string) : go CS unit := modify (λ c, mkCli (cs_session c) (cs_out c ++ [line])).
Definition on_sess {A} (m : go (Session W) A) : go CS A := zoom cs_session (λ s c, mkCli s (cs_out c)) m.
Definition on_w {A} (m : go W A) : go CS A := on_sess (on_world m).

(** ** The handler ([handler.go]) *)

(** Only an ed25519 key gets a factory; the first uri is used for every client. *)
Definition DefaultActor : go W (PrivateKey * option Fac * string) :=
  ap ← GetDefaultKey (W := W) (Fac := Fac);
  let '(addr, privKey) := ap in
  authFactory ←
    (match addr with
     | String a _ =>
         if Z.of_N (N_of_ascii a) =? ED25519ID
         then p ← lift (as_array ed_PrivateKeyLen privKey); mret (Some (NewED25519Factory (W := W) p))
         else mret None
     | EmptyString => mret None
     end);
  uris ← GetDefaultChain (W := W) (Fac := Fac);
  match uris with
  | [] => gopanic "index out of range"
  | uri :: _ =>
      NewWebSocketClient (W := W) (Fac := Fac) uri ;;
      mret (mkPrivateKey addr privKey, authFactory, uri)
  end.

Definition actor : go CS (PrivateKey * option Fac * string) := on_w DefaultActor.

Definition GetBalance (addr : string) : go CS Z :=
  balance ← on_w (api_Balance (G := G) addr);
  if balance =? 0 then
    Outf ("{{red}}balance:{{/}} 0 " +s+ Symbol) ;;
    Outf ("{{red}}please send funds to " +s+ addr +s+ "{{/}}") ;;
    Outf "{{red}}exiting...{{/}}" ;;
    mret 0
  else
    Outf ("{{yellow}}balance:{{/}} " +s+ FormatBalance (W := W) (Fac := Fac) balance +s+ " " +s+ Symbol) ;;
    mret balance.

Definition NewController (databasePath : string) : string := databasePath.
Definition DatabasePath (c : string) : string := c.
Definition Controller_Symbol : string := Symbol.
Definition Controller_GetParser (uri : string) (w : W) : W * outcome (Parser G) :=
  let '(c, o) := Client_Parser (NewJSONRPCClient uri w) in (vc_world c, o).
Definition Controller_LookupBalance (address uri : string) (w : W) : W * outcome Z :=
  let '(c, o) := Client_Balance (G := G) address (NewJSONRPCClient uri w) in (vc_world c, o).

Definition RegionHealth `{!Json (option HealthStatus)} (regionID : string) : go CS unit :=
  actor ;;
  health ← on_w (api_GetRegionHealth (G := G) regionID);
  Outf "{{green}}Region Health Status:{{/}}" ;;
  Outf (Marshal health).
Definition RegionMetrics `{!Json (option TEEPairMetrics)} (regionID pairID : string) : go CS unit :=
  actor ;;
  metrics ← on_w (api_GetRegionMetrics (G := G) regionID pairID);
  Outf "{{green}}Region Metrics:{{/}}" ;;
  Outf (Marshal metrics).

(** ** Sending a transaction ([resolutions.go]) *)

(** Without a deadline, a wait for which nothing arrives does not end. *)
Definition sendAndWait (actions : list Action) (factory : option Fac) (printStatus : bool) : go CS (bool * string) :=
  parser ← on_w (api_Parser (G := G));
  tx ← on_w (GenerateTransaction parser actions factory);
  on_sess (register (G := G) (F := option Fac) tx) ;;
  result ← on_sess (await (G := G) (F := option Fac) (Hang "no transaction arrives") (λ e, e) tx);
  let id := tx_ID (W := W) (G := G) (F := option Fac) tx in
  (if printStatus
   then Outf ((if tr_Success result then "✅" else "❌") +s+ " {{yellow}}txID:{{/}} " +s+ id)
   else mret tt) ;;
  mret (tr_Success result, id).

Definition type_name (a : Action) : string :=
  match a with
  | ATransfer _ => "*actions.Transfer"
  | ACreateObject _ => "*actions.CreateObjectAction"
  | ASendEvent _ => "*actions.SendEventAction"
  | ASetInputObject _ => "*actions.SetInputObjectAction"
  | ACreateRegion _ => "*actions.CreateRegionAction"
  | AUpdateRegion _ => "*actions.UpdateRegionAction"
  | AUpdateValidEnclaves _ => "*actions.UpdateValidEnclavesAction"
  | ACrossRegion _ => "*actions.CrossRegionAction"
  end.

(** The recipient of a transfer is printed as the actor. *)
Definition summaryStr (actor : string) (a : Action) : string :=
  match a with
  | ATransfer t => FormatBalance (W := W) (Fac := Fac) (Value t) +s+ " " +s+ Symbol +s+ " -> " +s+ actor
  | ACreateRegion c => "Created region " +s+ CR_RegionID c +s+ " with " +s+ pretty (N.of_nat (length (CR_TEEs c))) +s+ " TEEs"
  | AUpdateRegion u => "Updated region " +s+ UR_RegionID u +s+ " attestations"
  | ASendEvent e => "Event " +s+ SEv_FunctionCall e +s+ " -> " +s+ SEv_IDTo e +s+ " in region " +s+ SEv_RegionID e
  | ACreateObject c => "Created object " +s+ CO_ID c +s+ " in region " +s+ CO_RegionID c
  | ASetInputObject s => "Set input object " +s+ SI_ID s +s+ " in region " +s+ SI_RegionID s
  | AUpdateValidEnclaves _ | ACrossRegion _ => "Unknown action type: " +s+ type_name a
  end.

Definition fee_part (tx : ChainTx) (r : TxResult) : string :=
  " {{yellow}}fee (max " +s+ percent (W := W) (Fac := Fac) (tr_Fee r) (ct_MaxFee tx) +s+ "):{{/}} " +s+
  FormatBalance (W := W) (Fac := Fac) (tr_Fee r) +s+ " " +s+ Symbol +s+ " {{yellow}}consumed:{{/}} [" +s+ tr_Units r +s+ "]".

(** No action has the method [GetAttestations], so no attestations are printed. *)
Definition handleTx (tx : ChainTx) (r : TxResult) : go CS unit :=
  if negb (tr_Success r) then
    Outf ("❌ {{yellow}}" +s+ ct_ID tx +s+ "{{/}} {{yellow}}actor:{{/}} " +s+ ct_Actor tx +s+ " {{yellow}}error:{{/}} [" +s+
          tr_Error r +s+ "]" +s+ fee_part tx r)
  else
    for_each (λ a,
      Outf ("✅ {{yellow}}" +s+ ct_ID tx +s+ "{{/}} {{yellow}}actor:{{/}} " +s+ ct_Actor tx +s+ " {{yellow}}summary (" +s+
            type_name a +s+ "):{{/}} " +s+ summaryStr (ct_Actor tx) a +s+ fee_part tx r)) (ct_Actions tx).
Definition HandleTx (tx : ChainTx) (r : TxResult) : go CS unit := handleTx tx r.

(** ** Commands that send a transaction *)

(** Sends one action; [failed] and [done] are what is printed of the transaction. *)
Definition send_action (a : Action) (factory : option Fac) (failed done : string → string) : go CS unit :=
  ct ← sendAndWait [a] factory true;
  let '(cont, txID) := ct in
  if negb cont then Outf (failed txID) else Outf (done txID).

(** The package's [create] command, with attestations and endpoints. *)
Definition createRegionCmd (fl : Flags) (regionID : string) : go CS unit :=
  ac ← actor;
  attestations ← on_w (api_GetRegionAttestations (G := G) regionID);
  teeAttestations ← lift (two_attestations attestations);
  send_action (ACreateRegion (mkCreateRegion regionID [sgxEndpoint fl; sevEndpoint fl] teeAttestations)) ac.1.2
    (λ txID, "{{red}}region creation failed:{{/}} " +s+ txID) (λ _, "{{green}}region created:{{/}} " +s+ regionID).

(** The [create] command attached first: no endpoints and no attestations. *)
Definition createRegion (regionID : string) : go CS unit :=
  ac ← actor;
  send_action (ACreateRegion (mkCreateRegion regionID [] (zeroAttestation, zeroAttestation))) ac.1.2
    (λ txID, "{{red}}region creation failed:{{/}} " +s+ txID) (λ _, "{{green}}region created:{{/}} " +s+ regionID).

Definition addTEECmd (regionID sgx sev : string) : go CS unit :=
  ac ← actor;
  send_action (AUpdateRegion (mkUpdateRegion regionID sgx sev (zeroAttestation, zeroAttestation))) ac.1.2
    (λ txID, "{{red}}TEE update failed:{{/}} " +s+ txID) (λ _, "{{green}}TEE endpoints added{{/}}").
Definition addTEE (regionID sgx sev : string) : go CS unit :=
  ac ← actor;
  send_action (AUpdateRegion (mkUpdateRegion regionID sgx sev (zeroAttestation, zeroAttestation))) ac.1.2
    (λ txID, "{{red}}TEE update failed:{{/}} " +s+ txID) (λ _, "{{green}}TEE endpoints added:{{/}} " +s+ regionID).

Definition createObject (fl : Flags) (objectID regionID : string) : go CS unit :=
  ac ← actor;
  code ← wrap "failed to read code file" (on_w (ReadFile (Fac := Fac) (codeFile fl)));
  send_action (ACreateObject (mkCreateObject objectID code (initialStorage fl) regionID)) ac.1.2
    (λ txID, "{{red}}object creation failed:{{/}} " +s+ txID) (λ _, "{{green}}object created:{{/}} " +s+ objectID).

Definition sendEvent (fl : Flags) (objectID regionID : string) : go CS unit :=
  ac ← actor;
  attestations ← wrap "failed to get attestations" (on_w (api_GetRegionAttestations (G := G) regionID));
  teeAttestations ← lift (two_attestations attestations);
  send_action (ASendEvent (mkSendEvent objectID (functionCall fl) (parameters fl) teeAttestations regionID)) ac.1.2
    (λ txID, "{{red}}event sending failed:{{/}} " +s+ txID) (λ txID, "{{green}}event sent:{{/}} " +s+ txID).

Definition setInputObject (objectID regionID : string) : go CS unit :=
  ac ← actor;
  send_action (ASetInputObject (mkSetInput objectID regionID)) ac.1.2
    (λ txID, "{{red}}failed to set input object:{{/}} " +s+ txID) (λ _, "{{green}}input object set:{{/}} " +s+ objectID).

(** [if balance == 0 || err != nil { return err }]: an empty account ends the command
    without an error. *)
Definition transferCmd : go CS unit :=
  ac ← actor;
  balance ← GetBalance (pk_Address ac.1.1);
  if balance =? 0 then mret tt else
  recipient ← on_w (prompt_Address (Fac := Fac) "recipient");
  amount ← on_w (prompt_Amount (Fac := Fac) "amount" balance);
  cont ← on_w (prompt_Continue (W := W) (Fac := Fac));
  if negb cont then mret tt else
  sendAndWait [ATransfer (mkTransfer recipient amount "")] ac.1.2 true ;;
  mret tt.

(** ** Commands that only ask *)

Definition region_lines (r : ApiRegion) : list string :=
  ["- ID: " +s+ ag_Id r; "  Created: " +s+ ag_CreatedAt r; "  Worker Count: " +s+ pretty (N.of_nat (length (ag_WorkerIds r)))].

(** [list] is defined twice, as a command and as a function. *)
Definition listRegionsCmd : go CS unit :=
  actor ;;
  regions ← on_w (api_GetRegions (G := G));
  if (length regions =? 0)%nat then Outf "{{yellow}}no regions found{{/}}" else
  Outf "{{cyan}}Regions:{{/}}" ;;
  for_each (λ r, for_each Outf (region_lines r)) regions.
Definition listRegions : go CS unit :=
  actor ;;
  regions ← on_w (api_GetRegions (G := G));
  if (length regions =? 0)%nat then Outf "{{yellow}}no regions found{{/}}" else
  Outf "{{cyan}}Regions:{{/}}" ;;
  for_each (λ r, for_each Outf (region_lines r)) regions.

Definition attest_lines (kind : string) (a : ApiAttestation) : list string :=
  [kind +s+ " Attestation:"; "  EnclaveID: " +s+ hex (aa_EnclaveId a); "  Measurement: " +s+ hex (aa_Measurement a);
   "  Timestamp: " +s+ aa_Timestamp a].

Definition attestCmd (regionID : string) : go CS unit :=
  actor ;;
  attestations ← on_w (api_GetRegionAttestations (G := G) regionID);
  Outf "{{cyan}}Region Attestations:{{/}}" ;;
  match attestations with
  | a0 :: a1 :: _ => for_each Outf (attest_lines "SGX" a0 ++ attest_lines "SEV" a1)
  | _ => Outf "{{yellow}}insufficient attestations found{{/}}"
  end.
Definition getAttestations (regionID : string) : go CS unit :=
  actor ;;
  attestations ← on_w (api_GetRegionAttestations (G := G) regionID);
  Outf "{{cyan}}Region Attestations:{{/}}" ;;
  match attestations with
  | a0 :: a1 :: _ => for_each Outf (attest_lines "SGX" a0 ++ attest_lines "SEV" a1)
  | _ => Outf "{{yellow}}insufficient attestations found{{/}}"
  end.

Definition regionHealthCmd `{!Json (option HealthStatus)} (regionID : string) : go CS unit := RegionHealth regionID.
Definition regionMetricsCmd `{!Json (option TEEPairMetrics)} (regionID pairID : string) : go CS unit := RegionMetrics regionID pairID.

Definition getJSONRPCClient (fl : Flags) (w : W) : outcome (VMClient W G) :=
  if bool_decide (flag_URI fl = "") then Err (Errorf "uri is required") else Ok (NewJSONRPCClient (flag_URI fl) w).

(** The second attestation is the SEV one, every other is called SGX. *)
Definition tee_kind (i : nat) : string := if (i =? 1)%nat then "SEV" else "SGX".

Definition verifyTEECmd (enclaveID : string) : go CS unit :=
  actor ;;
  attestations ← on_w (api_GetRegionAttestations (G := G) enclaveID);
  Outf "{{cyan}}TEE Verification:{{/}}" ;;
  for_each (λ p,
    for_each Outf ["  " +s+ tee_kind p.1 +s+ " Attestation:"; "    Enclave ID: " +s+ hex (aa_EnclaveId p.2);
                   "    Measurement: " +s+ hex (aa_Measurement p.2); "    Timestamp: " +s+ aa_Timestamp p.2])
    (zip (seq 0 (length attestations)) attestations).

Definition verifyState (fl : Flags) (objectID regionID : string) : go CS unit :=
  actor ;;
  obj ← wrap "failed to get object" (on_w (api_GetObject (G := G) objectID regionID));
  match obj with
  | None => Outf "{{red}}object not found{{/}}"
  | Some obj =>
      attestations ← wrap "failed to get attestations" (on_w (api_GetRegionAttestations (G := G) regionID));
      for_each Outf ["{{green}}Object State Verification:{{/}}"; "ID:        " +s+ objectID; "Region:    " +s+ regionID;
                     "Status:    " +s+ Status obj; "Updated:   " +s+ Format (LastUpdated obj); "{{cyan}}Latest Attestations:{{/}}"] ;;
      for_each (λ p,
        for_each Outf [tee_kind p.1 +s+ " Attestation:"; "  Enclave ID:   " +s+ hex (aa_EnclaveId p.2);
                       "  Measurement:  " +s+ hex (aa_Measurement p.2); "  Timestamp:    " +s+ aa_Timestamp p.2;
                       "  Region Proof: " +s+ hex (aa_RegionProof p.2)])
        (zip (seq 0 (length attestations)) attestations)
  end.

Definition verifyAttestation `{!FmtV} (now : Time) (fl : Flags) (enclaveID regionID : string) : go CS unit :=
  actor ;;
  enclaveInfo ← wrap "failed to get enclave info" (on_w (api_GetValidEnclave (G := G) enclaveID regionID));
  match enclaveInfo with
  | None => Outf "{{red}}enclave not found or not valid{{/}}"
  | Some info =>
      attestations ← wrap "failed to get attestations" (on_w (api_GetRegionAttestations (G := G) regionID));
      for_each Outf ["{{green}}Attestation Verification:{{/}}"; "Enclave ID:      " +s+ enclaveID;
                     "Type:            " +s+ EI_EnclaveType info; "Region:          " +s+ regionID;
                     "Valid From:      " +s+ Format (EI_ValidFrom info); "Valid Until:     " +s+ Format (EI_ValidUntil info)] ;;
      match attestations with
      | [] => Outf "{{red}}No current attestations found{{/}}"
      | att :: _ =>
          for_each Outf ["Last Attestation: " +s+ aa_Timestamp att; "Measurement:      " +s+ hex (aa_Measurement att);
                         "Region Proof:     " +s+ hex (aa_RegionProof att)] ;;
          attTime ← wrap "failed to parse attestation timestamp" (lift (Parse (aa_Timestamp att)));
          if timeWindow fl <? Since now attTime
          then Outf ("{{red}}Warning: Attestation is older than specified window (" +s+ fmt_duration (timeWindow fl) +s+ "){{/}}")
          else Outf "{{green}}✓ Attestation age within specified window{{/}}"
      end
  end.

Definition listWorkers (regionID : string) : go CS unit :=
  actor ;;
  workers ← wrap "failed to get workers" (on_w (api_GetRegionWorkers (G := G) regionID));
  Outf ("{{cyan}}Active Workers in Region " +s+ regionID +s+ ":{{/}}") ;;
  for_each (λ w,
    for_each Outf ["Worker ID:     " +s+ rw_ID w; "Enclave Type:  " +s+ rw_EnclaveType w; "Status:        " +s+ rw_Status w;
                   "Active Since:  " +s+ Format (rw_ActiveSince w); "Tasks Handled: " +s+ pretty (rw_TasksHandled w); ""]) workers.

Definition showTasks (fmt_progress : Float64.float64 → string) (regionID : string) : go CS unit :=
  actor ;;
  tasks ← wrap "failed to get tasks" (on_w (api_GetRegionTasks (G := G) regionID));
  Outf ("{{cyan}}Pending Tasks in Region " +s+ regionID +s+ ":{{/}}") ;;
  for_each (λ t,
    for_each Outf ["Task ID:      " +s+ rt_ID t; "Status:       " +s+ rt_Status t; "Created:      " +s+ Format (rt_CreatedAt t); "Workers:"] ;;
    for_each (λ id, Outf ("  - " +s+ id)) (rt_WorkerIDs t) ;;
    Outf ("Progress:     " +s+ fmt_progress (rt_Progress t)) ;;
    (if bool_decide (rt_Error t = "") then mret tt else Outf ("{{red}}Error:        " +s+ rt_Error t +s+ "{{/}}")) ;;
    Outf "") tasks.

(** ** Keys ([key.go]) *)

Definition keyArgs (n : nat) (args : list string) : verdict :=
  if (length args =? n)%nat then match args with k :: _ => CheckKeyType k | [] => Ok tt end else Err ErrInvalidArgs.

Definition store_key (msg : string) (priv : PrivateKey) : go CS unit :=
  on_w (StoreKey (Fac := Fac) priv) ;;
  on_w (StoreDefaultKey (Fac := Fac) (pk_Address priv)) ;;
  Outf (msg +s+ pk_Address priv).

Definition genKeyCmd (rnd : string) (args : list string) : go CS unit :=
  lift (keyArgs 1 args) ;;
  match args with
  | k :: _ => priv ← lift (GeneratePrivateKey rnd k); store_key "{{green}}created address:{{/}} " priv
  | [] => gopanic "index out of range"
  end.
Definition importKeyCmd (fs : gmap string string) (args : list string) : go CS unit :=
  lift (keyArgs 2 args) ;;
  match args with
  | k :: path :: _ => priv ← lift (LoadPrivateKey fs k path); store_key "{{green}}imported address:{{/}} " priv
  | _ => gopanic "index out of range"
  end.
End cli.

(** * Properties *)

Section properties.
Context {W G Fac Tx : Type} `{!Requester W G, !ChainAPI W G (option Fac) Tx, !CliLib W Fac, CR : !Crypto, AI : !AuthIDs}.
Abbreviation CS := (Cli W).

Lemma on_w_never_ok {A} (m : go W A) :
  (∀ w w' a, m w ≠ (w', Ok a)) → ∀ (c c' : CS) a, on_w m c ≠ (c', Ok a).
Proof using Type.
  intros Hm c c' a H. apply zoom_ok_inv in H as (s & H & _). apply zoom_ok_inv in H as (w & H & _). by apply Hm in H.
Qed.

Lemma bind_never_ok_l {S A B} (m : go S A) (f : A → go S B) :
  (∀ s s' a, m s ≠ (s', Ok a)) → ∀ s s' b, (m ≫= f) s ≠ (s', Ok b).
Proof using Type. intros Hm s s' b H. apply bind_ok_inv in H as (a & s1 & H & _). by apply Hm in H. Qed.
Lemma bind_never_ok_r {S A B} (m : go S A) (f : A → go S B) :
  (∀ a s s' b, f a s ≠ (s', Ok b)) → ∀ s s' b, (m ≫= f) s ≠ (s', Ok b).
Proof using Type. intros Hf s s' b H. apply bind_ok_inv in H as (a & s1 & _ & H). by apply Hf in H. Qed.

(** After a call that never succeeds nothing more happens. *)
Lemma preserves_bind_never {S A B} (R : relation S) (m : go S A) (f : A → go S B) :
  (∀ s s' a, m s ≠ (s', Ok a)) → preserves R m → preserves R (m ≫= f).
Proof using Type.
  intros Hm HR s. specialize (HR s). unfold mbind, go_bind. destruct (m s) as [s1 [a| | |]] eqn:E; simpl in *; try done.
  by apply Hm in E.
Qed.

Lemma parser_never_ok : ∀ (c c' : CS) (p : Parser G), on_w (api_Parser (G := G)) c ≠ (c', Ok p).
Proof using Type.
  apply on_w_never_ok. intros w w' p H. unfold api_Parser in H. by apply bind_ok_inv in H as (? & ? & _ & H).
Qed.

Lemma sendAndWait_never_ok actions factory st : ∀ (c c' : CS) r, sendAndWait (Tx := Tx) actions factory st c ≠ (c', Ok r).
Proof using Type. apply bind_never_ok_l, parser_never_ok. Qed.
Lemma send_action_never_ok a factory fl dn : ∀ (c c' : CS) r, send_action (Tx := Tx) a factory fl dn c ≠ (c', Ok r).
Proof using Type. apply bind_never_ok_l, sendAndWait_never_ok. Qed.

(** ** What the commands can do to the world *)

(** Requests and the calls to the command line's own library move the world along a
    relation; nothing is said of generating and registering transactions. *)
Class Respects (R : relation W) : Prop := {
  requests_respect : ∀ m args, preserves R (SendRequest (G := G) m args);
  key_respects : preserves R (GetDefaultKey (W := W) (Fac := Fac));
  chain_respects : preserves R (GetDefaultChain (W := W) (Fac := Fac));
  socket_respects : ∀ uri, preserves R (NewWebSocketClient (W := W) (Fac := Fac) uri);
  file_respects : ∀ path, preserves R (ReadFile (W := W) (Fac := Fac) path);
  address_respects : ∀ l, preserves R (prompt_Address (W := W) (Fac := Fac) l);
  amount_respects : ∀ l b, preserves R (prompt_Amount (W := W) (Fac := Fac) l b);
  continue_respects : preserves R (prompt_Continue (W := W) (Fac := Fac));
}.

Section respects.
Context (R : relation W) `{PO : !PreOrder R, RS : !Respects R}.

(** The world moves by [R] and no transaction is registered. *)
Definition moves (c c' : CS) : Prop := R (world (cs_session c)) (world (cs_session c')) ∧ inbox (cs_session c') = inbox (cs_session c).

#[local] Instance moves_preorder : PreOrder moves.
Proof using PO.
  split; [by intros c; split|]. intros a b c [H1 H2] [H3 H4]. split; [by etrans|congruence].
Qed.

Lemma preserves_on_w {A} (m : go W A) : preserves R m → preserves moves (on_w m).
Proof using Type.
  intros H c. specialize (H (world (cs_session c))). unfold on_w, on_sess, on_world, zoom.
  by destruct (m (world (cs_session c))).
Qed.
Lemma preserves_Outf l : preserves moves (Outf l).
Proof using PO. by intros c. Qed.

Lemma preserves_DefaultActor : preserves R (DefaultActor (Fac := Fac)).
Proof using PO RS.
  apply preserves_bind; [apply _|apply key_respects|]. intros [addr privKey].
  apply preserves_bind; [apply _| |intros fac; apply preserves_bind; [apply _|apply chain_respects|]].
  - destruct addr as [|a addr]; [by apply preserves_ret|]. destruct (_ =? _); [|by apply preserves_ret].
    apply preserves_bind; [apply _|by apply preserves_lift|]. intros p. by apply preserves_ret.
  - intros [|uri uris]; [by apply preserves_gopanic|].
    apply preserves_bind; [apply _|apply socket_respects|]. intros _. by apply preserves_ret.
Qed.

Lemma preserves_sendAndWait actions factory st : preserves moves (sendAndWait (Tx := Tx) actions factory st).
Proof using PO RS.
  apply preserves_bind_never; [apply parser_never_ok|]. apply preserves_on_w.
  apply preserves_bind; [apply _|apply preserves_wrap, requests_respect|]. intros _. by apply preserves_fail.
Qed.
Lemma preserves_send_action a factory fl dn : preserves moves (send_action (Tx := Tx) a factory fl dn).
Proof using PO RS.
  apply preserves_bind_never; [apply sendAndWait_never_ok|apply preserves_sendAndWait].
Qed.

Lemma preserves_actor : preserves moves (actor (Fac := Fac)).
Proof using PO RS. apply preserves_on_w, preserves_DefaultActor. Qed.
Lemma preserves_attestations r : preserves moves (on_w (api_GetRegionAttestations (G := G) r)).
Proof using PO RS.
  apply preserves_on_w, preserves_bind; [apply _|apply requests_respect|]. intros resp. by apply preserves_ret.
Qed.

(** A call that moves the world only that way and never succeeds. *)
Definition barren {A} (m : go CS A) : Prop := preserves moves m ∧ ∀ c c' a, m c ≠ (c', Ok a).

Lemma barren_bind {A B} (m : go CS A) (f : A → go CS B) : preserves moves m → (∀ a, barren (f a)) → barren (m ≫= f).
Proof using PO.
  intros Hm Hf. split; [apply preserves_bind; [apply _|done|]; intros a; apply Hf|].
  apply bind_never_ok_r. intros a. apply Hf.
Qed.
Lemma barren_send_action a factory fl dn : barren (send_action (Tx := Tx) a factory fl dn).
Proof using PO RS. split; [apply preserves_send_action|apply send_action_never_ok]. Qed.

(** The commands that send an action of their own besides the transfer.  ([spam run] hands
    its sending to hypersdk.) *)
Definition action_commands (fl : Flags) (r o sgx sev : string) : list (go CS unit) :=
  [createRegionCmd (Tx := Tx) fl r; createRegion (Tx := Tx) r; addTEECmd (Tx := Tx) r sgx sev; addTEE (Tx := Tx) r sgx sev;
   createObject (Tx := Tx) fl o r; sendEvent (Tx := Tx) fl o r; setInputObject (Tx := Tx) o r].

(** C40: none of the eight commands that act on regions, enclaves, objects, events, the
    input object or balances ever sends a transaction, whatever the servers answer: the
    client they ask for a parser has none.  Those that create or update something never
    succeed; a transfer can only end quietly, when the account is empty
    or the user declines.  The world is reached through requests and the user's input
    alone. *)
Theorem action_commands_send_nothing fl r o sgx sev :
  Forall barren (action_commands fl r o sgx sev) ∧ preserves moves (transferCmd (Tx := Tx)).
Proof using PO RS.
  split.
  - unfold action_commands. rewrite !Forall_cons, Forall_nil.
    repeat split_and; try done; (apply barren_bind; [apply preserves_actor|intros ac]); try apply barren_send_action.
    + apply barren_bind; [apply preserves_attestations|intros atts].
      apply barren_bind; [apply preserves_lift; apply _|intros ta]. apply barren_send_action.
    + apply barren_bind; [apply preserves_wrap, preserves_on_w, file_respects|intros code]. apply barren_send_action.
    + apply barren_bind; [apply preserves_wrap, preserves_attestations|intros atts].
      apply barren_bind; [apply preserves_lift; apply _|intros ta]. apply barren_send_action.
  - apply preserves_bind; [apply _|apply preserves_actor|intros ac].
    apply preserves_bind; [apply _| |intros balance; destruct (balance =? 0); [apply preserves_ret; apply _|]].
    { apply preserves_bind; [apply _| |intros b; destruct (b =? 0)].
      - apply preserves_on_w, preserves_bind; [apply _|apply requests_respect|]. intros resp. apply preserves_ret; apply _.
      - repeat (apply preserves_bind; [apply _|apply preserves_Outf|intros _]). apply preserves_ret; apply _.
      - apply preserves_bind; [apply _|apply preserves_Outf|intros _]. apply preserves_ret; apply _. }
    apply preserves_bind; [apply _|apply preserves_on_w, address_respects|intros recipient].
    apply preserves_bind; [apply _|apply preserves_on_w, amount_respects|intros amount].
    apply preserves_bind; [apply _|apply preserves_on_w, continue_respects|intros [|]]; [|apply preserves_ret; apply _].
    apply preserves_bind; [apply _|apply preserves_sendAndWait|intros _]. apply preserves_ret; apply _.
Qed.
End respects.
End properties.

(** The action the attached [create] command would send is refused by the VM: it has
    no enclaves. *)
Lemma createRegion_refused {W} `{!VMState W, !Json (gomap json)} now r (w : W) :
  0 < slen r ≤ 256 →
  CreateRegion_Execute true now (mkCreateRegion r [] (zeroAttestation, zeroAttestation)) w = (w, Err ErrTooManyTEEs).
Proof.
  intros [H1 H2]. unfold CreateRegion_Execute. simpl CR_RegionID. simpl CR_TEEs.
  destruct (Z.eqb_spec (slen r) 0); [lia|]. destruct (Z.ltb_spec 256 (slen r)); [lia|]. done.
Qed.

(** The expected hash is not looked at. *)
Lemma verifyState_no_hash {W G Fac} `{!Requester W G, !CliLib W Fac, CR : !Crypto, AI : !AuthIDs} h fl o r :
  verifyState (G := G) (Fac := Fac) fl o r =
  verifyState (mkFlags (sgxEndpoint fl) (sevEndpoint fl) (codeFile fl) (initialStorage fl) (functionCall fl) (parameters fl) h
    (timeWindow fl) (flag_URI fl)) o r.
Proof. reflexivity. Qed.

(** A key of another kind has no factory. *)
Lemma DefaultActor_other_key {W Fac} `{!CliLib W Fac, CR : !Crypto, AI : !AuthIDs} (w w' : W) a addr k priv fac uri :
  (GetDefaultKey (Fac := Fac) w).2 = Ok (String a addr, k) → Z.of_N (N_of_ascii a) ≠ ED25519ID →
  DefaultActor (Fac := Fac) w = (w', Ok (priv, fac, uri)) → fac = None ∧ pk_Address priv = String a addr.
Proof.
  intros Hk Ha H. unfold DefaultActor in H. apply bind_ok_inv in H as ([ad pk] & w1 & H1 & H).
  rewrite H1 in Hk. injection Hk as -> ->. apply Z.eqb_neq in Ha. rewrite Ha in H.
  apply bind_ok_inv in H as (f & w2 & [= <- <-] & H). apply bind_ok_inv in H as ([|u us] & w3 & _ & H); [done|].
  apply bind_ok_inv in H as ([] & w4 & _ & H). by injection H as _ <- <- <-.
Qed.

(** * Witness *)

(** A world that counts transactions. *)
Definition count_requester : Requester nat unit := λ m args, mret emptyReply.
Definition count_chain : ChainAPI nat unit (option unit) string := {|
  GenerateTransaction p actions factory := λ n, (S n, Ok "tx");
  tx_ID tx := tx;
  RegisterTx tx := mret [Delivered tx None (mkTxResult true "" 0 "")];
|}.
Definition sample_cli : CliLib nat unit := {|
  GetDefaultKey := mret (String Ascii.zero "addr", "abcd");
  GetDefaultChain := mret ["http://localhost:9650"];
  StoreKey _ := mret tt; StoreDefaultKey _ := mret tt; NewWebSocketClient _ := mret tt;
  NewED25519Factory _ := tt; FormatBalance := pretty; percent a b := pretty a;
  prompt_Address _ := mret "to"; prompt_Amount _ b := mret b; prompt_Continue := mret true;
  ReadFile _ := mret "code";
|}.
Lemma count_respects : Respects (Requester0 := count_requester) (CliLib0 := sample_cli) (@eq nat).
Proof. by split. Qed.

Lemma action_commands_send_nothing_witness :
  (setInputObject (Requester0 := count_requester) (ChainAPI0 := count_chain) (CliLib0 := sample_cli) (AI := sample_auth)
    "o" "eu" (mkCli (mkSession 0%nat []) [])).2 ≠ Ok tt ∧
  world (cs_session (setInputObject (Requester0 := count_requester) (ChainAPI0 := count_chain) (CliLib0 := sample_cli)
    (AI := sample_auth) "o" "eu" (mkCli (mkSession 0%nat []) [])).1) = 0%nat.
Proof.
  pose proof (action_commands_send_nothing (Requester0 := count_requester) (ChainAPI0 := count_chain) (CliLib0 := sample_cli) (AI := sample_auth)
    eq (RS := count_respects) (mkFlags "" "" "" "" "" "" "" 0 "") "eu" "o" "" "") as [H _].
  unfold action_commands in H. rewrite !Forall_cons in H. destruct H as (_ & _ & _ & _ & _ & _ & [Hp Hn] & _).
  split.
  - intros He. destruct (setInputObject _ _ _) as [c' x] eqn:E. simpl in He. subst x. by apply Hn in E.
  - symmetry. apply (Hp (mkCli (mkSession 0%nat []) [])).
Defined.
