(* ===== verification/CLIInit.v ===== *)
(** How the command line is put together, [cmd/morpheus-cli/cmd]: the [init] functions
    of the package, in the order Go runs them (files by name, and in each file in the
    order of the text), and [Execute].

    Cobra's commands and flags are the class [Cobra]: a command has two sets of flags,
    its own and those its children inherit, and a name can be defined only once in a
    set. *)

From S2P Require Import Prelude GoTime Keys.
From Stdlib Require Import ZArith Lia Ascii String.
From stdpp Require Import base tactics option list strings pretty gmap.

(** * The library *)

(** The commands of the package; [region_create] and the three after it are the local
    variables of the first [init] of [region.go], which hide the package's. *)
Inductive Cmd : Type :=
  | rootCmd | genesisCmd | genGenesisCmd | keyCmd | genKeyCmd | importKeyCmd | setKeyCmd | balanceKeyCmd
  | chainCmd | importChainCmd | setChainCmd | chainInfoCmd | watchChainCmd
  | actionCmd | transferCmd | spamCmd | runSpamCmd | prometheusCmd | generatePrometheusCmd
  | regionCmd | createRegionCmd | listRegionsCmd | addTEECmd | attestCmd | regionHealthCmd | regionMetricsCmd
  | region_create | region_list | region_add_tee | region_attest
  | teeCmd | verifyTEECmd | computeCmd | startComputeCmd
  | coordCmd | listWorkersCmd | showTasksCmd
  | objectCmd | createObjectCmd | sendEventCmd | setInputCmd
  | verifyCmd | verifyStateCmd | verifyAttestationCmd.

#[export] Instance Cmd_eq_dec : EqDecision Cmd.
Proof. solve_decision. Defined.

(** [Flags()] and [PersistentFlags()] of a command. *)
Inductive FlagSet : Type := Own (c : Cmd) | Persistent (c : Cmd).
#[export] Instance FlagSet_eq_dec : EqDecision FlagSet.
Proof. solve_decision. Defined.

Class Cobra (F : Type) : Type := {
  AddFlag : FlagSet → string → go F unit;
  AddCommand : Cmd → list Cmd → go F unit;
  defined : F → FlagSet → string → bool;
}.

(** A name that is already defined in the set is a panic ("flag redefined"). *)
Class CobraLaws (F : Type) `{!Cobra F} : Prop := {
  AddFlag_new : ∀ fs name f, defined f fs name = false →
    ∃ f', AddFlag fs name f = (f', Ok tt) ∧
      ∀ fs' name', defined f' fs' name' = (bool_decide (fs' = fs ∧ name' = name) || defined f fs' name');
  AddFlag_redefined : ∀ fs name f, defined f fs name = true → ∃ why, AddFlag fs name f = (f, Panic why);
  AddCommand_flags : ∀ c cs f, ∃ f', AddCommand c cs f = (f', Ok tt) ∧ ∀ fs name, defined f' fs name = defined f fs name;
}.

(** * The [init] functions *)

(** One call of an [init] function. *)
Inductive Setup : Type := Flag (fs : FlagSet) (name : string) | Child (c : Cmd) (cs : list Cmd).

(** [compute.go] *)
Definition compute_init : list Setup :=
  [Child computeCmd [startComputeCmd]; Flag (Persistent computeCmd) "controller"; Flag (Persistent computeCmd) "wasm"].

(** [coord.go] *)
Definition coord_init : list Setup := [Child coordCmd [listWorkersCmd; showTasksCmd]; Child rootCmd [coordCmd]].

(** [object.go] *)
Definition object_init : list Setup :=
  [Child objectCmd [createObjectCmd; sendEventCmd; setInputCmd];
   Flag (Own createObjectCmd) "code"; Flag (Own createObjectCmd) "storage";
   Flag (Own sendEventCmd) "function"; Flag (Own sendEventCmd) "params";
   Child rootCmd [objectCmd]].

(** [region.go], its four *)
Definition region_init1 : list Setup :=
  [Child regionCmd [region_create; region_list; region_add_tee; region_attest];
   Flag (Own region_create) "sgx"; Flag (Own region_create) "sev"].
Definition region_init2 : list Setup :=
  [Flag (Own createRegionCmd) "name"; Flag (Own createRegionCmd) "sgx"; Flag (Own createRegionCmd) "sev";
   Flag (Own addTEECmd) "sgx"; Flag (Own addTEECmd) "sev";
   Child regionCmd [createRegionCmd; listRegionsCmd; addTEECmd; attestCmd]].
Definition region_init3 : list Setup :=
  [Flag (Persistent rootCmd) "uri"; Child regionCmd [regionHealthCmd]; Child regionCmd [regionMetricsCmd]].
Definition region_init4 : list Setup := [Child rootCmd [regionHealthCmd]; Child rootCmd [regionMetricsCmd]].

(** [root.go] *)
Definition root_init : list Setup :=
  [Child rootCmd [genesisCmd; keyCmd; chainCmd; actionCmd; spamCmd; prometheusCmd];
   Flag (Persistent rootCmd) "database";
   Flag (Persistent genGenesisCmd) "genesis-file"; Flag (Persistent genGenesisCmd) "min-unit-price";
   Flag (Persistent genGenesisCmd) "max-block-units"; Flag (Persistent genGenesisCmd) "window-target-units";
   Flag (Persistent genGenesisCmd) "min-block-gap";
   Child genesisCmd [genGenesisCmd];
   Flag (Persistent balanceKeyCmd) "check-all-chains";
   Child keyCmd [genKeyCmd; importKeyCmd; setKeyCmd; balanceKeyCmd];
   Flag (Persistent watchChainCmd) "hide-txs";
   Child chainCmd [importChainCmd; setChainCmd; chainInfoCmd; watchChainCmd];
   Child actionCmd [transferCmd];
   Flag (Persistent runSpamCmd) "defaults";
   Child spamCmd [runSpamCmd];
   Flag (Persistent generatePrometheusCmd) "prometheus-base-uri";
   Flag (Persistent generatePrometheusCmd) "prometheus-open-browser";
   Flag (Persistent generatePrometheusCmd) "prometheus-file"; Flag (Persistent generatePrometheusCmd) "prometheus-data";
   Flag (Persistent generatePrometheusCmd) "prometheus-start";
   Child prometheusCmd [generatePrometheusCmd];
   Child rootCmd [regionCmd; teeCmd; computeCmd];
   Flag (Own createRegionCmd) "sgx"; Flag (Own createRegionCmd) "sev"].

(** [tee.go] *)
Definition tee_init : list Setup :=
  [Child teeCmd [verifyTEECmd]; Flag (Persistent teeCmd) "controller"; Flag (Persistent teeCmd) "wasm"].

(** [verify.go] *)
Definition verify_init : list Setup :=
  [Child verifyCmd [verifyStateCmd; verifyAttestationCmd]; Flag (Own verifyStateCmd) "hash";
   Flag (Own verifyAttestationCmd) "window"; Child rootCmd [verifyCmd]].

(** The order of the files. *)
Definition package_init : list Setup :=
  compute_init ++ coord_init ++ object_init ++ region_init1 ++ region_init2 ++ region_init3 ++ region_init4 ++
  root_init ++ tee_init ++ verify_init.

Section init.
Context {F : Type} `{!Cobra F}.

Definition setup (s : Setup) : go F unit :=
  match s with Flag fs name => AddFlag fs name | Child c cs => AddCommand c cs end.

(** The package is initialised before [main] calls [Execute]; [run] is what
    [rootCmd.Execute] does. *)
Definition Execute (run : go F unit) : go F unit := for_each setup package_init ;; run.
End init.

(** * Properties *)

Section properties.
Context {F : Type} `{!Cobra F, !CobraLaws F}.

(** Whether a list of calls defines each name once. *)
Definition flags_of (l : list Setup) : list (FlagSet * string) :=
  omap (λ s, match s with Flag fs name => Some (fs, name) | Child _ _ => None end) l.

Lemma setup_run (l : list Setup) (f : F) :
  (∀ fs name, (fs, name) ∈ flags_of l → defined f fs name = false) → NoDup (flags_of l) →
  ∃ f', for_each setup l f = (f', Ok tt) ∧
    ∀ fs name, defined f' fs name = (bool_decide ((fs, name) ∈ flags_of l) || defined f fs name).
Proof using Type*.
  revert f. induction l as [|[fs name|c cs] l IH]; intros f Hnew Hnd.
  - exists f. split; [done|]. intros fs name. by rewrite bool_decide_eq_false_2 by (apply not_elem_of_nil).
  - simpl in Hnew, Hnd. apply NoDup_cons in Hnd as [Hn Hnd].
    destruct (AddFlag_new fs name f) as (f1 & E1 & H1); [apply Hnew; left|].
    destruct (IH f1) as (f' & E' & H'); [|done|].
    { intros fs' name' Hin. rewrite H1, bool_decide_eq_false_2 by (intros [-> ->]; done). apply Hnew. by right. }
    exists f'. split; [simpl; by rewrite (bind_ok _ _ _ _ _ E1)|]. intros fs' name'. rewrite H', H1.
    rewrite orb_assoc. f_equal. apply eq_true_iff_eq. rewrite orb_true_iff, !bool_decide_eq_true. simpl. rewrite elem_of_cons.
    naive_solver.
  - destruct (AddCommand_flags c cs f) as (f1 & E1 & H1).
    destruct (IH f1) as (f' & E' & H'); [|done|].
    { intros fs' name' Hin. rewrite H1. by apply Hnew. }
    exists f'. split; [simpl; by rewrite (bind_ok _ _ _ _ _ E1)|]. intros fs' name'. by rewrite H', H1.
Qed.

Lemma for_each_app {S A} (g : A → go S unit) l1 l2 s s' :
  for_each g l1 s = (s', Ok tt) → for_each g (l1 ++ l2) s = for_each g l2 s'.
Proof using Type.
  revert s. induction l1 as [|x l1 IH]; intros s H; simpl in *; [by injection H as <-|].
  apply bind_ok_inv in H as ([] & s1 & H1 & H). rewrite (bind_ok _ _ _ _ _ H1). by apply IH.
Qed.

(** What runs before the first name that is defined twice. *)
Definition before_panic : list Setup :=
  compute_init ++ coord_init ++ object_init ++ region_init1 ++ region_init2 ++ region_init3 ++ region_init4 ++
  take 22 root_init.

(** The tool never starts: the package's initialisation panics, since the flag
    [sgx] of the [create] command is defined by [region.go] and again by [root.go],
    whatever [main] would run. *)
Theorem cli_never_starts (f : F) (run : go F unit) :
  (∀ fs name, defined f fs name = false) → ∃ f' why, Execute run f = (f', Panic why).
Proof using Type*.
  intros Hf. destruct (setup_run before_panic f) as (f1 & E1 & H1).
  - intros fs name _. apply Hf.
  - by apply (bool_decide_unpack (NoDup _)).
  - destruct (AddFlag_redefined (Own createRegionCmd) "sgx" f1) as [why E2].
    { rewrite H1, orb_true_iff. left. by apply (bool_decide_unpack _), bool_decide_spec. }
    exists f1, why. unfold Execute.
    assert (package_init = before_panic ++ drop 22 root_init ++ tee_init ++ verify_init) as -> by reflexivity.
    unfold mbind at 1, go_bind at 1. rewrite (for_each_app _ _ _ _ _ E1). simpl. unfold mbind, go_bind. by rewrite E2.
Qed.
End properties.

(** * Witness *)

#[export] Instance list_Cobra : Cobra (list (FlagSet * string)) := {|
  AddFlag fs name f := if bool_decide ((fs, name) ∈ f) then (f, Panic "flag redefined") else ((fs, name) :: f, Ok tt);
  AddCommand c cs := mret tt;
  defined f fs name := bool_decide ((fs, name) ∈ f);
|}.
#[export] Instance list_CobraLaws : CobraLaws (list (FlagSet * string)).
Proof.
  split; simpl.
  - intros fs name f ->. eexists. split; [done|]. intros fs' name'. apply eq_true_iff_eq.
    rewrite orb_true_iff, !bool_decide_eq_true, elem_of_cons. naive_solver.
  - intros fs name f ->. eauto.
  - intros c cs f. by exists f.
Qed.

Lemma cli_never_starts_witness : ∃ f' why, Execute (F := list (FlagSet * string)) (mret tt) [] = (f', Panic why).
Proof. apply cli_never_starts. intros fs name. reflexivity. Defined.
