(* ===== verification/Genesis.v ===== *)
(** The command that writes a genesis file, [cmd/morpheus-cli/cmd/genesis.go], and the
    parser the VM makes of the file's contents ([CreateParser] of [vm/client.go]).

    hypersdk's genesis is the class [GenesisLib]: its allocations, and the rules the
    flags of the command can set. *)

From S2P Require Import Prelude GoTime KV RPCClient CLI.
From Stdlib Require Import ZArith Lia Ascii String.
From stdpp Require Import base tactics option list strings pretty gmap.

Local Open Scope Z_scope.

Record Rules (Dim : Type) : Type := mkRules {
  MinUnitPrice : Dim;
  MaxBlockUnits : Dim;
  WindowTargetUnits : Dim;
  MinBlockGap : Z;
}.
Arguments mkRules {_} _ _ _ _.
Arguments MinUnitPrice {_} _.
Arguments MaxBlockUnits {_} _.
Arguments WindowTargetUnits {_} _.
Arguments MinBlockGap {_} _.

Record DefaultGenesis (Alloc Dim : Type) : Type := mkGenesis { g_Allocs : list Alloc; g_Rules : Rules Dim }.
Arguments mkGenesis {_ _} _ _.
Arguments g_Allocs {_ _} _.
Arguments g_Rules {_ _} _.

Class GenesisLib (Alloc Dim : Type) : Type := {
  DefaultRules : Rules Dim;
  ParseDimensions : list string → outcome Dim;
}.

Record GenesisFlags : Type := mkGenesisFlags {
  gf_genesisFile : string;
  gf_minUnitPrice : list string;
  gf_maxBlockUnits : list string;
  gf_windowTargetUnits : list string;
  gf_minBlockGap : Z;
}.

Section genesis.
Context {Alloc Dim : Type} `{!GenesisLib Alloc Dim, !Json (list Alloc), !Json (DefaultGenesis Alloc Dim)}.
Abbreviation Gen := (DefaultGenesis Alloc Dim).
Abbreviation FS := (gmap string string).

Definition NewDefaultGenesis (allocs : list Alloc) : Gen := mkGenesis allocs (DefaultRules (Alloc := Alloc)).

Definition set_rules (f : Rules Dim → Rules Dim) (g : Gen) : Gen := mkGenesis (g_Allocs g) (f (g_Rules g)).

(** A rule is set when its flag is given. *)
Definition with_dims (flag : list string) (put : Dim → Rules Dim → Rules Dim) (g : Gen) : outcome Gen :=
  if (length flag =? 0)%nat then Ok g
  else d ← ParseDimensions (Alloc := Alloc) flag; Ok (set_rules (put d) g).

Definition os_ReadFile (path : string) (fs : FS) : outcome string :=
  match fs !! path with Some b => Ok b | None => Err (Errorf ("open " +s+ path +s+ ": no such file or directory")) end.

Definition genGenesisCmd (fl : GenesisFlags) (args : list string) : go FS unit :=
  match args with
  | [path] =>
      a ← (λ fs, (fs, os_ReadFile path fs));
      allocs ← lift (Unmarshal a : outcome (list Alloc));
      let g := NewDefaultGenesis allocs in
      g ← lift (with_dims (gf_minUnitPrice fl) (λ d r, mkRules d (MaxBlockUnits r) (WindowTargetUnits r) (MinBlockGap r)) g);
      g ← lift (with_dims (gf_maxBlockUnits fl) (λ d r, mkRules (MinUnitPrice r) d (WindowTargetUnits r) (MinBlockGap r)) g);
      g ← lift (with_dims (gf_windowTargetUnits fl) (λ d r, mkRules (MinUnitPrice r) (MaxBlockUnits r) d (MinBlockGap r)) g);
      let g := if 0 <=? gf_minBlockGap fl
               then set_rules (λ r, mkRules (MinUnitPrice r) (MaxBlockUnits r) (WindowTargetUnits r) (gf_minBlockGap fl)) g
               else g in
      modify (<[gf_genesisFile fl := Marshal g]>)
  | _ => fail ErrInvalidArgs
  end.
End genesis.

(** * Properties *)

Section properties.
Context {Alloc Dim : Type} `{!GenesisLib Alloc Dim, !Json (list Alloc), !Json (DefaultGenesis Alloc Dim)}.
Context `{EG : !Encodable (DefaultGenesis Alloc Dim), JL : !JsonLaws (DefaultGenesis Alloc Dim)}.
Abbreviation FS := (gmap string string).

(** The value a flag gives a rule: what it parses to, or the default. *)
Definition flag_value (flag : list string) (dflt d : Dim) : Prop :=
  if (length flag =? 0)%nat then d = dflt else ParseDimensions (Alloc := Alloc) flag = Ok d.

Lemma with_dims_ok flag put (g g' : DefaultGenesis Alloc Dim) :
  with_dims flag put g = Ok g' →
  (length flag = 0%nat ∧ g' = g) ∨ (length flag ≠ 0%nat ∧ ∃ d, ParseDimensions (Alloc := Alloc) flag = Ok d ∧ g' = set_rules (put d) g).
Proof using Type.
  unfold with_dims. destruct (Nat.eqb_spec (length flag) 0) as [H|H]; [by intros [= ->]; left|].
  destruct (ParseDimensions flag) as [d| | |]; simpl; try done. intros [= <-]. right. split; [done|]. by exists d.
Qed.

(** A genesis file the command writes is read back by the parser of the VM, when JSON
    represents its contents: with
    the allocations of the input file and, for every rule, the value its flag gives, or
    the default. *)
Theorem genesis_file_parsed fl path (fs fs' : FS) :
  genGenesisCmd fl [path] fs = (fs', Ok tt) →
  ∃ text allocs g,
    fs !! path = Some text ∧ Unmarshal text = Ok allocs ∧
    (∀ f, f ≠ gf_genesisFile fl → fs' !! f = fs !! f) ∧
    (∃ written, fs' !! gf_genesisFile fl = Some written ∧
       (encodable g = true → CreateParser written = Ok (mkParser (Some g)))) ∧
    g_Allocs g = allocs ∧
    flag_value (gf_minUnitPrice fl) (MinUnitPrice (DefaultRules (Alloc := Alloc))) (MinUnitPrice (g_Rules g)) ∧
    flag_value (gf_maxBlockUnits fl) (MaxBlockUnits (DefaultRules (Alloc := Alloc))) (MaxBlockUnits (g_Rules g)) ∧
    flag_value (gf_windowTargetUnits fl) (WindowTargetUnits (DefaultRules (Alloc := Alloc))) (WindowTargetUnits (g_Rules g)) ∧
    MinBlockGap (g_Rules g) = (if 0 <=? gf_minBlockGap fl then gf_minBlockGap fl else MinBlockGap (DefaultRules (Alloc := Alloc) (Dim := Dim))).
Proof using JL.
  intros H. unfold genGenesisCmd in H.
  apply bind_ok_inv in H as (text & s1 & [= <- Ht] & H). apply bind_ok_inv in H as (allocs & s2 & [-> Ha]%lift_ok_inv & H).
  apply bind_ok_inv in H as (g1 & s3 & [-> H1]%lift_ok_inv & H). apply bind_ok_inv in H as (g2 & s4 & [-> H2]%lift_ok_inv & H).
  apply bind_ok_inv in H as (g3 & s5 & [-> H3]%lift_ok_inv & H). injection H as <-.
  unfold os_ReadFile in Ht. destruct (fs !! path) as [b|]; [|done]. injection Ht as ->.
  eexists text, allocs, _. split; [done|]. split; [done|]. split; [intros f Hf; by rewrite lookup_insert_ne|].
  split.
  { eexists. rewrite lookup_insert_eq. split; [done|]. intros He. unfold CreateParser. by rewrite Unmarshal_Marshal by exact He. }
  apply with_dims_ok in H1 as [[L1 ->]|[L1 (d1 & P1 & ->)]]; apply with_dims_ok in H2 as [[L2 ->]|[L2 (d2 & P2 & ->)]];
    apply with_dims_ok in H3 as [[L3 ->]|[L3 (d3 & P3 & ->)]]; unfold flag_value;
    repeat match goal with
      | L : length ?x = 0%nat |- _ => rewrite (proj2 (Nat.eqb_eq _ _) L); clear L
      | L : length ?x ≠ 0%nat |- _ => rewrite (proj2 (Nat.eqb_neq _ _) L); clear L
      end; by destruct (0 <=? gf_minBlockGap fl).
Qed.
End properties.

(** * Witness *)

#[export] Instance sample_GenesisLib : GenesisLib string (list string) := {|
  DefaultRules := mkRules ["1"] ["2"] ["3"] 100;
  ParseDimensions l := if (length l =? 5)%nat then Ok l else Err (Errorf "invalid dimensions");
|}.

#[export] Instance Rules_eq_dec : EqDecision (Rules (list string)).
Proof. solve_decision. Defined.
#[export] Instance Rules_countable : Countable (Rules (list string)).
Proof.
  refine (inj_countable' (λ r, (MinUnitPrice r, MaxBlockUnits r, WindowTargetUnits r, MinBlockGap r))
    (λ '(a, b, c, d), mkRules a b c d) _). by intros [].
Defined.
#[export] Instance DefaultGenesis_eq_dec : EqDecision (DefaultGenesis string (list string)).
Proof. solve_decision. Defined.
#[export] Instance DefaultGenesis_countable : Countable (DefaultGenesis string (list string)).
Proof. refine (inj_countable' (λ g, (g_Allocs g, g_Rules g)) (λ '(a, b), mkGenesis a b) _). by intros []. Defined.
#[local] Instance allocs_Json : Json (list string) := countable_Json (list string).
#[local] Instance genesis_Json : Json (DefaultGenesis string (list string)) := countable_Json _.
#[local] Instance genesis_Encodable : Encodable (DefaultGenesis string (list string)) := λ _, true.
#[local] Instance genesis_JsonLaws : JsonLaws (DefaultGenesis string (list string)) := countable_JsonLaws _.

Definition sample_files : gmap string string := {["allocs.json" := Marshal ["alice"]]}.
Definition sample_flags : GenesisFlags := mkGenesisFlags "genesis.json" [] [] [] 250.

Lemma genesis_file_parsed_witness :
  ∃ g : DefaultGenesis string (list string), g_Allocs g = ["alice"] ∧ MinBlockGap (g_Rules g) = 250.
Proof.
  destruct (genesis_file_parsed (Alloc := string) (Dim := list string) sample_flags "allocs.json" sample_files
    (genGenesisCmd (Alloc := string) (Dim := list string) sample_flags ["allocs.json"] sample_files).1)
    as (text & allocs & g & Ht & Ha & _ & _ & Hg & _ & _ & _ & Hgap).
  - rewrite (surjective_pairing (genGenesisCmd sample_flags ["allocs.json"] sample_files)) at 1. f_equal.
  - exists g. split; [|exact Hgap]. unfold sample_files in Ht. rewrite lookup_singleton_eq in Ht. injection Ht as <-.
    pose proof (countable_decodes ["alice"]) as E.
    pose proof (eq_trans (eq_sym E) Ha) as [= <-]. exact Hg.
Defined.
